(* ===== verification/_CoqProject ===== *)
-Q . S2P
Prelude.v
Util.v
ListHead.v
Lock.v
Mem.v
CString.v
Dtb.v
DtbWalk.v
Malloc.v
Buddy.v
Reserve.v
Heap.v
HeapLimits.v
Boot.v
Alloc.v
KAlloc.v
Ram.v
KFree.v
HeapSafety.v
PageAlloc.v
Mmu.v
PageTable.v
BootMmu.v
Ordered.v
Cpio.v
Uart.v
Ramfs.v
Mmio.v
Loader.v
Event.v
Timer.v
Thread.v
Sched.v
RunQueue.v
Spawn.v
Areas.v
Reap.v
Syscall.v
Signal.v
Fork.v
Exec.v
Mmap.v
SysExec.v
Paging.v
Kill.v
Typed.v
Except.v
Preempt.v
Shell.v
Main.v
