(* ===== verification/Prelude.v ===== *)
(** * Verification of the osc2022 kernel

    A teaching kernel for the Raspberry Pi 3 (AArch64), written in C: a buddy
    allocator with bins, translation tables with demand paging, a round-robin
    scheduler of user programs with fork, exec, mmap and signals, timers, deferred
    interrupt work, a UART driver, a cpio initramfs, a device tree and a shell; and
    the boot loader that receives the kernel over the UART. This library models the
    C code of src/lib, src/include, src/kernel/main.c and src/btlder as functions on
    explicit states and proves what each part promises to the others, up to the
    boot ([Main.setup_ok], [Main.main_ok]).

    ** Conventions

    Every function of the C code is a function of the same name into [res] (below):
    [Ok], [Fault] for an access the code has no right to make, [Fuel] for a loop cut
    short. State is passed explicitly; a field of a C struct is a field of a Record, a
    pointer is its address, an integer of w bits is a [Z] with [u8], [u32], [u64] or
    [s32] (Util) at the places where the code's arithmetic wraps or converts. Loops
    are structural where the code counts and have fuel where it does not: ring
    walks take the number of cells of the memory of lists ([ring_fuel], enough by
    [ring_fuel_enough]), string walks the number of mapped bytes ([mem_fuel]),
    and the waiting loops of the UART, of the mailbox and of the loader an argument,
    whose sufficiency the theorem about the loop states. Termination is proved,
    never assumed: the theorems conclude with [Ok] for enough fuel, and where a loop
    does not end in the code ([sys_mmap] without a gap) with [Fuel] for any.

    Bytes (strings, programs, archives), words of translation tables, cells of lists
    and structures live in memories of their own; the allocator hands out
    addresses, and the theorems about [kmalloc] keep what it hands out apart
    from everything in use. Ownership of list nodes is what ties the components together:
    the rings of the whole kernel are one map from list heads to lists of nodes
    ([lists_ok m L]), and a component changes only its own rings.

    ** The files

    Foundations.
    - Prelude: outcomes, loops, the tactics [res_step], [res_apply], [res_inv].
    - Util (util.c, macros of mmu.h): machine words, [align_up], address spaces.
    - ListHead (list.h): intrusive rings; each operation of list.h on [lists_ok].
    - Lock (except.c): the nesting lock around the interrupt mask.
    - Mem, CString (string.c): byte memory and every string function.

    Memory.
    - Malloc (malloc.c, malloc.h): definitions of the allocator. Buddy: the frames
      as a partition into blocks. Reserve: boot reservations. Heap: [kmalloc],
      [kfree] and the invariant [heap_inv]. HeapLimits: what happens outside
      its conditions. Boot: the heap after boot.
    - HeapSafety: every sequence of [kmalloc] and [kfree] from the boot on
      ([heap_trace]), and the merge that hands out a block from its middle.
    - Alloc, KAlloc, PageAlloc: the interfaces [SmallAlloc], [KAlloc] and [PageAlloc]
      between the allocator and its clients; [kmalloc] is an instance of each, and
      every client is proved against the class it needs. [KAlloc_small] gives the
      first from the second. KFree: the interface of [kfree], for what gives memory
      back; [propped] says when that leaves the blocks in place. Ram: the bytes of the
      memory handed out, and copies into it.
    - Mmu (mmu.c, mmu.h): table words, [mapping], [free_pages], and the walk of the
      hardware as the specification. PageTable: a process' tables as a tree.
      BootMmu: [kernel_mmu_init]. Areas: [add_vma] and [handle_abort].

    Devices and boot data.
    - Uart (uart.c, uart.h): formatted output, both rings, interrupt handlers. Mmio
      (gpio.h, uart_init, mbox.c, reboot.c): device registers. Loader (btlder/c8763.c).
    - Dtb, DtbWalk (dtb.c): the flattened device tree. Cpio, Ramfs (cpio.c): archives.

    Interrupts and time.
    - Ordered: the insertion loop that event.c and timer.c share.
    - Event (event.c): the queue of interrupt work and its preemptive dispatcher.
    - Timer (timer.c): the queue of timer tasks. Except (except.c): the handlers.
      Preempt: the tick of the timer, from the interrupt to the next thread.

    Threads.
    - Thread (thread.h, sched.h, sched.S): the state of the kernel, the context switch.
      Sched (sched.c): every function of the scheduler, [add_vma], [handle_abort].
      RunQueue: round robin. Spawn: [thread_create]. Exec: [exec_thread]. Paging: the
      first access to a page of a program. Reap: [free_vmas], [kill_zombies] and the
      turn of the idle thread.
    - Syscall (syscall.c): the dispatcher and the calls. Mmap, Fork, SysExec, Kill:
      [sys_mmap], [sys_fork], [sys_exec], [sys_kill_pid] and the limits of the others.
      Signal (signal.c).
    - Typed: the thread table keeps its shape under every entry of the kernel.
    - Shell (shell.c): the line editor, the commands. Main (main.c): the boot.

    ** The theorems

    - Memory: [kmalloc] and [kfree] keep [heap_inv]; after any sequence of both from
      the boot on, what is handed out does not overlap ([heap_trace_safe]) unless
      one of two kinds of release occurs, the first bin of a page ([kfree_bin_ok]) and
      the upper half of a block whose lower half is free ([merged_block_overlaps]);
      the boot frees exactly the pages outside the reservations. [mapping] refines the
      update of one page of an address space as the hardware sees it, descriptor included.
    - Scheduling: [schedule] is round robin and serves every runnable thread once per
      round; creation, exit and killing of threads, and the return of what they owned;
      [thread_create] without a slot.
    - Programs: [exec_thread], the first access to a page of the program it starts,
      [sys_exec], which gives the old program's memory back and starts another in its
      place, [sys_fork] up to the registers of parent and child, demand paging with the
      rights of the area and its limits, [sys_mmap]'s search and when it never ends, signals.
    - Queues: events and timers stay in order, the tasks of timers with their arguments;
      the dispatcher runs exactly what is more urgent; an interrupt of the UART serves
      both rings once, and the tick of the timer preempts the running thread and arms
      the next tick.
    - Data: archives, device trees, the loader's protocol, formatted output and
      the line editor against abstract descriptions of what they read or write.
    - The boot: all of these invariants together, in one heap, and the first program.

    ** Not modelled

    - src/kernel/boot.S and src/lib/exception.S: the start-up code and the vectors. The
      handlers take the registers the vectors save as arguments, and [BootMmu] models the tables.
    - The programs of src/rootfs, which run in user mode. What user code does enters
      as data: the fault address, the trap frame, the signal handler's return.
    - Trace output of the kernel (messages on allocation, creation and system calls),
      which no part of the kernel reads; output that is the purpose of a function
      is modelled. The output of the shell, of [inv_handler] and of [uart_printf] is.
    - CNTKCTL_EL1, barriers and TLB maintenance: the walk always reads the tables as they are.
    - The wait of [uart_send] for the transmitter (bit 5 of the line status) is taken to
      end; the byte is sent at once.
    - The memory that becomes the frame array before [init_allocator] runs is a parameter,
      and the theorems about the boot assume zeros in its [val] fields, as in memory
      that nothing has written to: neither boot.S nor [init_allocator] clears them.
    - Interrupts in the middle of a C function: they are modelled where the code opens
      a window for them (the dispatcher of Event, the waiting loops of Uart). *)
From stdpp Require Export base numbers list gmap sets strings.
From Stdlib Require Export Lia ZArith.

#[export] Set Default Goal Selector "!".

(** ** Outcomes of C code

    [Ok] is a normal return, [Fault] an access the C code has no right to
    make (a load of memory that was never written, an index outside a static
    array, an undefined shift), and [Fuel] means that the bound given to a
    loop was used up before the loop ended. *)
Inductive res (A : Type) : Type :=
| Ok (a : A)
| Fault
| Fuel.
Arguments Ok {A} a.
Arguments Fault {A}.
Arguments Fuel {A}.

#[export] Instance res_ret : MRet res := @Ok.
#[export] Instance res_bind : MBind res := λ A B f r,
  match r with Ok a => f a | Fault => Fault | Fuel => Fuel end.
#[export] Instance res_fmap : FMap res := λ A B f r,
  match r with Ok a => Ok (f a) | Fault => Fault | Fuel => Fuel end.

#[export] Instance res_eq_dec {A} `{EqDecision A} : EqDecision (res A).
Proof. intros x y. unfold Decision. decide equality. apply EqDecision0. Defined.

(** A load from a finite map: anything not there faults. *)
Definition load {A} (o : option A) : res A :=
  match o with Some a => Ok a | None => Fault end.

(** A condition the C standard (or the hardware) requires. *)
Definition require (b : bool) : res () := if b then Ok tt else Fault.

Lemma bind_Ok {A B} (r : res A) (f : A → res B) b :
  r ≫= f = Ok b ↔ ∃ a, r = Ok a ∧ f a = Ok b.
Proof.
  destruct r as [a| |]; simpl; split.
  - by exists a.
  - by intros (? & [= ->] & ?).
  - done.
  - by intros (? & ? & ?).
  - done.
  - by intros (? & ? & ?).
Qed.

Lemma bind_step {A B} (r : res A) (f : A → res B) a o : r = Ok a → f a = o → r ≫= f = o.
Proof. by intros -> <-. Qed.

Lemma load_Ok {A} (o : option A) a : load o = Ok a ↔ o = Some a.
Proof. destruct o; simpl; naive_solver. Qed.

Lemma require_Ok b u : require b = Ok u ↔ b = true.
Proof. destruct u, b; simpl; naive_solver. Qed.

(** ** Loops *)

(** [for (i = lo; i < lo + n; i++)], the body in the monad. *)
Fixpoint for_loop {St} (n : nat) (i : Z) (f : Z → St → res St) (s : St) : res St :=
  match n with
  | O => mret s
  | S n' => s' ← f i s; for_loop n' (i + 1)%Z f s'
  end.

(** The invariant rule: the loop returns, and the invariant holds at the end. *)
Lemma for_loop_inv {St} (P : Z → St → Prop) f n : ∀ i s,
  P i s →
  (∀ j s, (i ≤ j < i + Z.of_nat n)%Z → P j s → ∃ s', f j s = Ok s' ∧ P (j + 1)%Z s') →
  ∃ s', for_loop n i f s = Ok s' ∧ P (i + Z.of_nat n)%Z s'.
Proof.
  induction n as [|n IH]; intros i s Hs Hf.
  - exists s. split; [done|]. by replace (i + Z.of_nat 0)%Z with i by lia.
  - destruct (Hf i s) as (s1 & E1 & H1); [lia|done|].
    destruct (IH (i + 1)%Z s1 H1) as (s2 & E2 & H2).
    { intros j s' Hj. apply Hf. lia. }
    exists s2. split; [by simpl; rewrite E1|].
    by replace (i + Z.of_nat (S n))%Z with (i + 1 + Z.of_nat n)%Z by lia.
Qed.

(** ** Machine integers: values in [Z], wrap-around written out *)

Definition u8 (z : Z) : Z := (z mod 2 ^ 8)%Z.
Definition u32 (z : Z) : Z := (z mod 2 ^ 32)%Z.
Definition u64 (z : Z) : Z := (z mod 2 ^ 64)%Z.
(** Conversion to [int]: the representative in [-2^31, 2^31). *)
Definition s32 (z : Z) : Z := ((z + 2 ^ 31) mod 2 ^ 32 - 2 ^ 31)%Z.

Lemma u8_range z : (0 ≤ u8 z < 2 ^ 8)%Z.
Proof. apply Z.mod_pos_bound. lia. Qed.
Lemma u32_range z : (0 ≤ u32 z < 2 ^ 32)%Z.
Proof. apply Z.mod_pos_bound. lia. Qed.
Lemma u64_range z : (0 ≤ u64 z < 2 ^ 64)%Z.
Proof. apply Z.mod_pos_bound. lia. Qed.
Lemma u8_small z : (0 ≤ z < 2 ^ 8)%Z → u8 z = z.
Proof. apply Z.mod_small. Qed.
Lemma u32_small z : (0 ≤ z < 2 ^ 32)%Z → u32 z = z.
Proof. apply Z.mod_small. Qed.
Lemma u64_small z : (0 ≤ z < 2 ^ 64)%Z → u64 z = z.
Proof. apply Z.mod_small. Qed.
Lemma s32_small z : (- 2 ^ 31 ≤ z < 2 ^ 31)%Z → s32 z = z.
Proof. intros H. unfold s32. rewrite Z.mod_small; lia. Qed.
Lemma s32_range z : (- 2 ^ 31 ≤ s32 z < 2 ^ 31)%Z.
Proof. unfold s32. pose proof (Z.mod_pos_bound (z + 2 ^ 31) (2 ^ 32)). lia. Qed.

Lemma u8_testbit x n : Z.testbit (u8 x) n = (n <? 8)%Z && Z.testbit x n.
Proof.
  unfold u8. destruct (Z.ltb_spec n 8); [by apply Z.mod_pow2_bits_low|by apply Z.mod_pow2_bits_high].
Qed.
Lemma u32_testbit x n : Z.testbit (u32 x) n = (n <? 32)%Z && Z.testbit x n.
Proof.
  unfold u32. destruct (Z.ltb_spec n 32); [by apply Z.mod_pow2_bits_low|by apply Z.mod_pow2_bits_high].
Qed.
Lemma u64_testbit x n : Z.testbit (u64 x) n = (n <? 64)%Z && Z.testbit x n.
Proof.
  unfold u64. destruct (Z.ltb_spec n 64); [by apply Z.mod_pow2_bits_low|by apply Z.mod_pow2_bits_high].
Qed.

(** Bits below a multiple of [2 ^ k] can be added or or-ed. *)
Lemma lor_low a b k : (0 ≤ k → 0 ≤ b < 2 ^ k → Z.lor (a * 2 ^ k) b = a * 2 ^ k + b)%Z.
Proof.
  intros Hk Hb. assert (Z.land (a * 2 ^ k) b = 0)%Z as H0.
  { apply Z.bits_inj'. intros n Hn. rewrite Z.land_spec, Z.bits_0. destruct (decide (n < k)%Z).
    - by rewrite Z.mul_pow2_bits_low.
    - rewrite <- (Z.mod_small b (2 ^ k)) by done. by rewrite Z.mod_pow2_bits_high, andb_false_r by lia. }
  rewrite <- Z.lxor_lor by done. symmetry. by apply Z.add_nocarry_lxor.
Qed.

Create HintDb words discriminated.
Create Rewrite HintDb words.
#[export] Hint Rewrite u8_small u32_small u64_small s32_small using lia : words.
#[export] Hint Resolve u8_range u32_range u64_range s32_range : words.

(** ** Automation *)

(** Invert every monadic equation of the context. *)
Ltac res_inv :=
  repeat match goal with
  | H : mret _ = Ok _ |- _ => injection H as H
  | H : Ok _ = Ok _ |- _ => injection H as H
  | H : Fault = Ok _ |- _ => discriminate H
  | H : Fuel = Ok _ |- _ => discriminate H
  | H : (_ ≫= _) = Ok _ |- _ => apply bind_Ok in H; destruct H as (? & ? & H)
  | H : load _ = Ok _ |- _ => apply load_Ok in H
  | H : require _ = Ok _ |- _ => apply require_Ok in H
  end.

(** The same without reduction, for loops too long to be evaluated. *)
Ltac res_apply H := refine (bind_step _ _ _ _ H _); cbv beta.

(** Rewrite with a known outcome of the first statement of a block. *)
Ltac res_step H := rewrite H; cbn [mbind res_bind].
