(* ===== verification/Util.v ===== *)
(** lib/util.c and the address macros of include/mmu.h. *)
From S2P Require Import Prelude.
Local Open Scope Z_scope.

(** [uint64_t align_up(uint64_t n, uint64_t align)] *)
Definition align_up (n align : Z) : Z :=
  Z.land (u64 (u64 (n + align) - 1)) (u64 (Z.lnot (u64 (align - 1)))).

Definition VIRT_BASE : Z := 0xffff000000000000.
Definition PHYS_TO_VIRT (x : Z) : Z := u64 (x + VIRT_BASE).
Definition VIRT_TO_PHYS (x : Z) : Z := u64 (x - VIRT_BASE).

(** Bits outside a word do not matter to a word. *)
Lemma land_u64_r n m : 0 ≤ n < 2 ^ 64 → Z.land n (u64 m) = Z.land n m.
Proof.
  intros Hn. unfold u64. rewrite <- Z.land_ones by lia.
  rewrite (Z.land_comm m), Z.land_assoc, Z.land_ones by lia.
  by rewrite Z.mod_small.
Qed.

(** Clearing the low [k] bits rounds down to a multiple of [2 ^ k]. *)
Lemma land_lnot_low n k :
  0 ≤ k → Z.land n (Z.lnot (2 ^ k - 1)) = 2 ^ k * (n / 2 ^ k).
Proof.
  intros Hk.
  replace (2 ^ k - 1) with (Z.ones k) by (rewrite Z.ones_equiv; lia).
  rewrite <- Z.ldiff_land, Z.ldiff_ones_r by done.
  by rewrite Z.shiftl_mul_pow2, Z.shiftr_div_pow2, Z.mul_comm by done.
Qed.

Lemma round_down_spec n k :
  0 ≤ k → let r := 2 ^ k * (n / 2 ^ k) in (2 ^ k | r) ∧ r ≤ n < r + 2 ^ k.
Proof.
  intros Hk. simpl. assert (0 < 2 ^ k) by (apply Z.pow_pos_nonneg; lia).
  split; [apply Z.divide_factor_l|].
  pose proof (Z.div_mod n (2 ^ k) ltac:(lia)).
  pose proof (Z.mod_pos_bound n (2 ^ k) ltac:(lia)). lia.
Qed.

(** [align_up n (2^k)] as arithmetic, when the sum does not wrap. *)
Lemma align_up_eq n k :
  0 ≤ k < 64 → 0 ≤ n → n + 2 ^ k ≤ 2 ^ 64 →
  align_up n (2 ^ k) = 2 ^ k * ((n + 2 ^ k - 1) / 2 ^ k).
Proof.
  intros Hk Hn Hb. assert (0 < 2 ^ k) by (apply Z.pow_pos_nonneg; lia).
  unfold align_up. rewrite (u64_small (2 ^ k - 1)) by lia.
  assert (u64 (u64 (n + 2 ^ k) - 1) = n + 2 ^ k - 1) as ->.
  { unfold u64. rewrite Zminus_mod_idemp_l. apply Z.mod_small. lia. }
  rewrite land_u64_r by lia. apply land_lnot_low. lia.
Qed.

(** The least multiple of [2 ^ k] that is not below [n]. *)
Lemma align_up_least n k :
  0 ≤ k < 64 → 0 ≤ n → n + 2 ^ k ≤ 2 ^ 64 →
  (2 ^ k | align_up n (2 ^ k)) ∧ n ≤ align_up n (2 ^ k) < n + 2 ^ k.
Proof.
  intros Hk Hn Hb. rewrite align_up_eq by done.
  destruct (round_down_spec (n + 2 ^ k - 1) k) as [Hd Hr]; [lia|].
  split; [done|lia].
Qed.

(** Zeros up to the next multiple of four, as files and device trees have them. *)
Definition pad4 (n : nat) : list Z := repeat 0 (Z.to_nat (- Z.of_nat n mod 4)).

Lemma pad4_length n : (Z.of_nat n + Z.of_nat (length (pad4 n))) mod 4 = 0 ∧ Z.of_nat (length (pad4 n)) < 4.
Proof.
  unfold pad4. rewrite repeat_length. pose proof (Z.mod_pos_bound (- Z.of_nat n) 4 ltac:(lia)).
  rewrite Z2Nat.id by lia. split; [|lia]. rewrite Zplus_mod_idemp_r. by rewrite Z.add_opp_diag_r.
Qed.

Lemma align_up_pad now n : 0 ≤ now → now mod 4 = 0 → now + Z.of_nat n + 8 ≤ 2 ^ 64 →
  align_up (now + Z.of_nat n) 4 = now + Z.of_nat (n + length (pad4 n)).
Proof.
  intros Hnow Hm Hb. change 4 with (2 ^ 2) at 1.
  destruct (align_up_least (now + Z.of_nat n) 2) as [Hd Hr]; [lia|lia|change (2 ^ 2) with 4; lia|].
  change (2 ^ 2) with 4 in *. destruct Hd as [k Hk]. destruct (pad4_length n) as [Hp Hp4].
  apply Z.mod_divide in Hp as [j Hj]; [|done]. apply Z.mod_divide in Hm as [i Hi]; [|done]. lia.
Qed.

Lemma PHYS_TO_VIRT_id x : 0 ≤ x < 2 ^ 48 → PHYS_TO_VIRT x = x + VIRT_BASE.
Proof. intros H. unfold PHYS_TO_VIRT, VIRT_BASE in *. rewrite u64_small; lia. Qed.

Lemma VIRT_TO_PHYS_TO_VIRT x : 0 ≤ x < 2 ^ 64 → VIRT_TO_PHYS (PHYS_TO_VIRT x) = x.
Proof.
  intros H. unfold VIRT_TO_PHYS, PHYS_TO_VIRT, u64.
  rewrite Zminus_mod_idemp_l. replace (x + VIRT_BASE - VIRT_BASE) with x by lia.
  by apply Z.mod_small.
Qed.

Lemma PHYS_TO_VIRT_TO_PHYS x : 0 ≤ x < 2 ^ 64 → PHYS_TO_VIRT (VIRT_TO_PHYS x) = x.
Proof.
  intros H. unfold VIRT_TO_PHYS, PHYS_TO_VIRT, u64.
  rewrite Zplus_mod_idemp_l. replace (x - VIRT_BASE + VIRT_BASE) with x by lia.
  by apply Z.mod_small.
Qed.

#[export] Hint Rewrite VIRT_TO_PHYS_TO_VIRT PHYS_TO_VIRT_TO_PHYS using lia : words.
