(* ===== verification/ListHead.v ===== *)
(** include/list.h: intrusive circular doubly linked lists.

    The lists of the kernel (the buddy and bin free lists, the interrupt
    events, the timer tasks, the run queue, the memory areas of a thread) are
    rings of [struct list_head] threaded through one shared memory [lmem].
    The operations below are those of list.h on that memory; [lists_ok m L]
    says that memory [m] holds exactly the rings described by the finite map
    [L] from list heads to their elements. *)
From S2P Require Import Prelude.
Local Open Scope Z_scope.

(** ** The memory and the operations of list.h *)

(** The [next] and [prev] cells of every list node, by the node's address. *)
Record lmem := Lmem { nxt : gmap Z Z; prv : gmap Z Z }.

Definition get_next (m : lmem) (p : Z) : res Z := load (nxt m !! p).
Definition get_prev (m : lmem) (p : Z) : res Z := load (prv m !! p).
Definition set_next (m : lmem) (p v : Z) : lmem := Lmem (<[p:=v]> (nxt m)) (prv m).
Definition set_prev (m : lmem) (p v : Z) : lmem := Lmem (nxt m) (<[p:=v]> (prv m)).

Definition INIT_LIST_HEAD (m : lmem) (list : Z) : lmem :=
  set_prev (set_next m list list) list list.

Definition list_empty (m : lmem) (head : Z) : res bool :=
  n ← get_next m head; mret (bool_decide (n = head)).

Definition list_is_head (list head : Z) : bool := bool_decide (list = head).

Definition __list_add (m : lmem) (new prev next : Z) : lmem :=
  let m := set_prev m next new in
  let m := set_next m new next in
  let m := set_prev m new prev in
  set_next m prev new.

Definition list_add (m : lmem) (new head : Z) : res lmem :=
  n ← get_next m head; mret (__list_add m new head n).

Definition list_add_tail (m : lmem) (new head : Z) : res lmem :=
  p ← get_prev m head; mret (__list_add m new p head).

Definition __list_del (m : lmem) (prev next : Z) : lmem :=
  set_next (set_prev m next prev) prev next.

Definition list_del_entry (m : lmem) (entry : Z) : res lmem :=
  p ← get_prev m entry; n ← get_next m entry; mret (__list_del m p n).

(** [list_for_each (pos, head) body]. The body ends with [Next pos s] (fall
    through or [continue], with the value the body left in the loop variable)
    or [Break pos s]. The result is the loop variable after the loop. *)
Inductive flow (St : Type) : Type :=
| Next (pos : Z) (s : St)
| Break (pos : Z) (s : St).
Arguments Next {St} pos s.
Arguments Break {St} pos s.

Section for_each.
Context {St : Type} (mem : St → lmem).

Fixpoint list_for_each_from (fuel : nat) (head : Z)
    (body : Z → St → res (flow St)) (pos : Z) (s : St) : res (Z * St) :=
  match fuel with
  | O => Fuel
  | S fuel =>
      if list_is_head pos head then mret (pos, s)
      else
        r ← body pos s;
        match r with
        | Break pos s => mret (pos, s)
        | Next pos s =>
            pos ← get_next (mem s) pos;
            list_for_each_from fuel head body pos s
        end
  end.

Definition list_for_each (fuel : nat) (head : Z)
    (body : Z → St → res (flow St)) (s : St) : res (Z * St) :=
  pos ← get_next (mem s) head;
  list_for_each_from fuel head body pos s.
End for_each.

(** Enough turns for any ring of the memory: one per node and the last test. *)
Definition ring_fuel (m : lmem) : nat := S (size (nxt m)).

(** ** Rings *)

Definition linked (m : lmem) (a b : Z) : Prop :=
  nxt m !! a = Some b ∧ prv m !! b = Some a.

(** Consecutive elements of [xs] are linked. *)
Fixpoint path (m : lmem) (xs : list Z) : Prop :=
  match xs with
  | a :: ((b :: _) as ys) => linked m a b ∧ path m ys
  | _ => True
  end.

(** [h] is the head of a ring with elements [l], in order. *)
Definition ring (m : lmem) (h : Z) (l : list Z) : Prop := path m (h :: l ++ [h]).

(** [x] is a node of some list of [L], the head included. *)
Definition node (L : gmap Z (list Z)) (x : Z) : Prop :=
  ∃ h l, L !! h = Some l ∧ x ∈ h :: l.

Record lists_ok (m : lmem) (L : gmap Z (list Z)) : Prop := {
  lo_ring : ∀ h l, L !! h = Some l → ring m h l;
  lo_nodup : ∀ h l, L !! h = Some l → NoDup (h :: l);
  lo_disj : ∀ h1 h2 l1 l2 x, L !! h1 = Some l1 → L !! h2 = Some l2 →
    x ∈ h1 :: l1 → x ∈ h2 :: l2 → h1 = h2;
}.

Lemma path_app m xs y zs : path m (xs ++ y :: zs) ↔ path m (xs ++ [y]) ∧ path m (y :: zs).
Proof.
  induction xs as [|x [|x' xs] IH]; simpl in *; [tauto|tauto|].
  rewrite IH. tauto.
Qed.

(** A path reads [next] at all nodes but the last, [prev] at all but the first. *)
Lemma path_frame m m' xs :
  (∀ x, x ∈ removelast xs → nxt m' !! x = nxt m !! x) →
  (∀ x, x ∈ tail xs → prv m' !! x = prv m !! x) →
  path m xs → path m' xs.
Proof.
  induction xs as [|a [|b ys] IH]; [done|done|].
  intros Hn Hp [[H1 H2] H3]. split.
  - split.
    + rewrite Hn; [done|]. simpl. set_solver.
    + rewrite Hp; [done|]. simpl. set_solver.
  - apply IH; [| |done].
    + intros x Hx. apply Hn. simpl in *. set_solver.
    + intros x Hx. apply Hp. simpl in *. set_solver.
Qed.

Lemma removelast_snoc {A} (l : list A) x : removelast (l ++ [x]) = l.
Proof. apply removelast_last. Qed.

Lemma head_split {A} (l : list A) h : ∃ B, l ++ [h] = default h (head l) :: B.
Proof. destruct l as [|x l]; simpl; eauto. Qed.

Lemma last_split {A} (l : list A) h : ∃ B, h :: l = B ++ [default h (last l)].
Proof.
  destruct l as [|x l _] using rev_ind; [by exists []|].
  exists (h :: l). by rewrite last_snoc.
Qed.

(** The two neighbours of the gap between [l1] and [l2] in the ring of [h]. *)
Abbreviation before h l1 := (default h (last l1)) (only parsing).
Abbreviation after h l2 := (default h (head l2)) (only parsing).

Lemma ring_gap m h l1 l2 : ring m h (l1 ++ l2) ↔
  linked m (before h l1) (after h l2) ∧ path m (h :: l1) ∧ path m (l2 ++ [h]).
Proof.
  unfold ring. destruct (last_split l1 h) as [A EA], (head_split l2 h) as [B EB].
  rewrite <- app_assoc, EB, app_comm_cons, EA, <- app_assoc. simpl.
  rewrite path_app. cbn [path]. tauto.
Qed.

(** Splitting a ring around one element. *)
Lemma ring_mid m h l1 x l2 : ring m h (l1 ++ x :: l2) ↔
  path m (h :: l1) ∧ linked m (before h l1) x ∧ linked m x (after h l2) ∧ path m (l2 ++ [h]).
Proof.
  unfold ring. destruct (last_split l1 h) as [A EA], (head_split l2 h) as [B EB].
  rewrite <- app_assoc, app_comm_cons, EA, <- app_assoc. simpl. rewrite EB.
  rewrite path_app. cbn [path]. tauto.
Qed.

Lemma before_elem (h : Z) l1 : before h l1 ∈ h :: l1.
Proof.
  destruct (last_split l1 h) as [A ->]. apply elem_of_app. right. by apply list_elem_of_singleton.
Qed.

Lemma after_elem (h : Z) l2 : after h l2 ∈ h :: l2.
Proof. destruct l2 as [|x l]; simpl; set_solver. Qed.

(** Writes outside [xs] do not change a path along [xs]. *)
Lemma path_untouched m m' xs :
  (∀ x, x ∈ xs → nxt m' !! x = nxt m !! x ∧ prv m' !! x = prv m !! x) →
  path m xs → path m' xs.
Proof.
  intros H. apply path_frame.
  - intros x Hx. apply H. destruct xs as [|y xs _] using rev_ind; [done|].
    rewrite removelast_snoc in Hx. set_solver.
  - intros x Hx. apply H. destruct xs; set_solver.
Qed.

(** Where the neighbours of a gap can and cannot occur. *)
Lemma gap_facts (h : Z) l1 l2 : NoDup (h :: l1 ++ l2) → ∃ A B,
  h :: l1 = A ++ [before h l1] ∧ l2 ++ [h] = after h l2 :: B ∧
  (before h l1 ∉ A) ∧ (after h l2 ∉ B) ∧ (before h l1 ∉ l2) ∧ (after h l2 ∉ l1).
Proof.
  intros Hnd. destruct (last_split l1 h) as [A EA], (head_split l2 h) as [B EB].
  exists A, B. split_and!; [done|done| | | |].
  - rewrite app_comm_cons, EA in Hnd. apply NoDup_app in Hnd as (Hnd & _ & _).
    apply NoDup_app in Hnd. set_solver.
  - assert (NoDup (l2 ++ [h])) as Hd.
    { apply NoDup_cons in Hnd as [? Hnd]. apply NoDup_app in Hnd as (_ & _ & ?).
      apply NoDup_app. split_and!; [done| |apply NoDup_singleton]. set_solver. }
    rewrite EB in Hd. by apply NoDup_cons in Hd as [? _].
  - rewrite app_comm_cons in Hnd. apply NoDup_app in Hnd as (_ & Hd & _).
    apply Hd, before_elem.
  - apply NoDup_cons in Hnd as [Hh Hnd]. apply NoDup_app in Hnd as (_ & Hd & _).
    intros Hq. destruct (proj1 (elem_of_cons _ _ _) (after_elem h l2)) as [E|E].
    + rewrite E in Hq. set_solver.
    + by apply (Hd _ Hq).
Qed.

(** Insertion in a gap of a ring. *)
Lemma ring_insert m h l1 l2 new :
  ring m h (l1 ++ l2) → NoDup (h :: l1 ++ l2) → new ∉ h :: l1 ++ l2 →
  ring (__list_add m new (before h l1) (after h l2)) h (l1 ++ new :: l2).
Proof.
  intros (Hl & H1 & H2)%ring_gap Hnd Hnew.
  destruct (gap_facts _ _ _ Hnd) as (A & B & EA & EB & HA & HB & Hp2 & Hq1).
  pose proof (before_elem h l1). pose proof (after_elem h l2).
  apply ring_mid. set (p := before h l1) in *. set (q := after h l2) in *.
  clearbody p q. assert (p ≠ new) by set_solver. assert (q ≠ new) by set_solver.
  unfold __list_add. split_and!.
  - revert H1. rewrite EA. apply path_frame; intros x Hx; simpl.
    + rewrite removelast_snoc in Hx. assert (x ∈ h :: l1) by (rewrite EA; set_solver).
      rewrite !lookup_insert_ne; set_solver.
    + rewrite <- EA in Hx. simpl in Hx. rewrite !lookup_insert_ne; set_solver.
  - split; simpl; by simplify_map_eq.
  - split; simpl; by simplify_map_eq.
  - revert H2. apply path_frame; intros x Hx; simpl.
    + rewrite removelast_snoc in Hx. rewrite !lookup_insert_ne; set_solver.
    + rewrite EB in Hx. simpl in Hx. assert (x ∈ l2 ++ [h]) by (rewrite EB; set_solver).
      rewrite !lookup_insert_ne; set_solver.
Qed.

(** Deletion of one element of a ring. *)
Lemma ring_delete m h l1 e l2 :
  ring m h (l1 ++ e :: l2) → NoDup (h :: l1 ++ l2) →
  ring (__list_del m (before h l1) (after h l2)) h (l1 ++ l2).
Proof.
  intros (H1 & Hpe & Heq & H2)%ring_mid Hnd.
  destruct (gap_facts _ _ _ Hnd) as (A & B & EA & EB & HA & HB & Hp2 & Hq1).
  apply ring_gap. set (p := before h l1) in *. set (q := after h l2) in *.
  clearbody p q. unfold __list_del. split_and!.
  - split; simpl; by simplify_map_eq.
  - revert H1. rewrite EA. apply path_frame; intros x Hx; simpl.
    + rewrite removelast_snoc in Hx. rewrite lookup_insert_ne; set_solver.
    + rewrite <- EA in Hx. simpl in Hx. rewrite lookup_insert_ne; set_solver.
  - revert H2. apply path_frame; intros x Hx; simpl.
    + rewrite removelast_snoc in Hx. rewrite lookup_insert_ne; set_solver.
    + rewrite EB in Hx. simpl in Hx. rewrite lookup_insert_ne; set_solver.
Qed.

(** ** The rings of a memory *)

Lemma node_insert L h l x : node (<[h:=l]> L) x → x ∈ h :: l ∨ node L x.
Proof.
  intros (h' & l' & H & Hx). apply lookup_insert_Some in H as [[-> ->]|[? H]]; [by left|].
  right. by exists h', l'.
Qed.

Lemma node_insert_in L h l x : x ∈ h :: l → node (<[h:=l]> L) x.
Proof. intros Hx. exists h, l. by rewrite lookup_insert_eq. Qed.

Lemma node_insert_other L h l x h' l' :
  L !! h' = Some l' → h' ≠ h → x ∈ h' :: l' → node (<[h:=l]> L) x.
Proof. intros H ? Hx. exists h', l'. by rewrite lookup_insert_ne. Qed.

Lemma node_elem L h l x : L !! h = Some l → x ∈ h :: l → node L x.
Proof. intros. by exists h, l. Qed.

Lemma lists_ok_frame m m' L : lists_ok m L →
  (∀ x, node L x → nxt m' !! x = nxt m !! x ∧ prv m' !! x = prv m !! x) → lists_ok m' L.
Proof.
  intros [Hr Hn Hd] Hf. split; [|done|done]. intros h l H.
  refine (path_untouched _ _ _ _ (Hr _ _ H)). intros x Hx. apply Hf.
  apply (node_elem L h l); [done|]. set_solver.
Qed.

(** Replacing one ring, all writes inside the old and the new one. *)
Lemma lists_ok_update m m' L h l l' :
  lists_ok m L → L !! h = Some l →
  ring m' h l' → NoDup (h :: l') →
  (∀ x, x ∈ l' → x ∈ l ∨ ¬ node L x) →
  (∀ x, x ∉ h :: l → x ∉ l' → nxt m' !! x = nxt m !! x ∧ prv m' !! x = prv m !! x) →
  lists_ok m' (<[h:=l']> L).
Proof.
  intros [Hr Hn Hd] Hh Hr' Hn' Hsub Hf.
  assert (∀ h2 l2 x, L !! h2 = Some l2 → h2 ≠ h → x ∈ h2 :: l2 → (x ∉ h :: l) ∧ x ∉ l') as Hout.
  { intros h2 l2 x H2 Hne Hx. split.
    - intros Hx'. by apply Hne, (Hd _ _ _ _ x H2 Hh).
    - intros Hx'. destruct (Hsub x Hx') as [Hl|Hl].
      + apply Hne, (Hd _ _ _ _ x H2 Hh); set_solver.
      + by apply Hl, (node_elem L h2 l2). }
  split.
  - intros h2 l2 [[<- <-]|[Hne H2]]%lookup_insert_Some; [done|].
    refine (path_untouched _ _ _ _ (Hr _ _ H2)). intros x Hx.
    destruct (Hout h2 l2 x H2) as [? ?]; [done|set_solver|]. by apply Hf.
  - intros h2 l2 [[<- <-]|[Hne H2]]%lookup_insert_Some; [done|eauto].
  - intros h1 h2 l1 l2 x [[<- <-]|[Hne1 H1]]%lookup_insert_Some
      [[<- <-]|[Hne2 H2]]%lookup_insert_Some Hx1 Hx2; [done| | |by eapply Hd].
    + destruct (Hout h2 l2 x H2) as [? ?]; [done|done|set_solver].
    + destruct (Hout h1 l1 x H1) as [? ?]; [done|done|set_solver].
Qed.

(** A ring may be forgotten. *)
Lemma node_delete L h x : node (delete h L) x → node L x.
Proof. intros (h' & l & [_ Hl]%lookup_delete_Some & Hx). by exists h', l. Qed.

Lemma node_delete_out m L h l x : lists_ok m L → L !! h = Some l → x ∈ h :: l → ¬ node (delete h L) x.
Proof.
  intros Hok Hh Hx (h' & l' & [Hne Hl]%lookup_delete_Some & Hx'). by apply Hne, (lo_disj m L Hok _ _ _ _ x Hh Hl).
Qed.

Lemma lists_ok_delete m L h : lists_ok m L → lists_ok m (delete h L).
Proof.
  intros [Hr Hn Hd]. split.
  - intros h' l [_ Hl]%lookup_delete_Some. by apply Hr.
  - intros h' l [_ Hl]%lookup_delete_Some. by apply Hn.
  - intros h1 h2 l1 l2 x [_ H1]%lookup_delete_Some [_ H2]%lookup_delete_Some. by eapply Hd.
Qed.

(** [INIT_LIST_HEAD] on a fresh node: a new empty list, or a detached entry. *)
Lemma INIT_LIST_HEAD_head m L h : lists_ok m L → ¬ node L h →
  lists_ok (INIT_LIST_HEAD m h) (<[h:=[]]> L).
Proof.
  intros [Hr Hn Hd] Hh. split.
  - intros h2 l2 [[<- <-]|[Hne H2]]%lookup_insert_Some.
    + split; [|done]. split; simpl; by simplify_map_eq.
    + refine (path_untouched _ _ _ _ (Hr _ _ H2)). intros x Hx.
      assert (x ≠ h). { intros ->. apply Hh, (node_elem L h2 l2); set_solver. }
      simpl. by simplify_map_eq.
  - intros h2 l2 [[<- <-]|[Hne H2]]%lookup_insert_Some; [apply NoDup_singleton|eauto].
  - intros h1 h2 l1 l2 x [[<- <-]|[Hne1 H1]]%lookup_insert_Some
      [[<- <-]|[Hne2 H2]]%lookup_insert_Some Hx1 Hx2; [done| | |by eapply Hd].
    + assert (x = h) as -> by set_solver. by destruct Hh; apply (node_elem L h2 l2).
    + assert (x = h) as -> by set_solver. by destruct Hh; apply (node_elem L h1 l1).
Qed.

Lemma INIT_LIST_HEAD_entry m L x : lists_ok m L → ¬ node L x → lists_ok (INIT_LIST_HEAD m x) L.
Proof.
  intros Hok Hx. apply (lists_ok_frame m); [done|]. intros y Hy.
  assert (y ≠ x) by (by intros ->). simpl. by simplify_map_eq.
Qed.

(** Reading across a gap of a ring. *)
Lemma get_next_ok m L h l1 l2 : lists_ok m L → L !! h = Some (l1 ++ l2) →
  get_next m (before h l1) = Ok (after h l2).
Proof. intros Hok Hh. apply load_Ok, (ring_gap m h l1 l2). by apply (lo_ring m L Hok). Qed.

Lemma get_prev_ok m L h l1 l2 : lists_ok m L → L !! h = Some (l1 ++ l2) →
  get_prev m (after h l2) = Ok (before h l1).
Proof. intros Hok Hh. apply load_Ok, (ring_gap m h l1 l2). by apply (lo_ring m L Hok). Qed.

Lemma list_empty_ok m L h l : lists_ok m L → L !! h = Some l →
  list_empty m h = Ok (bool_decide (l = [])).
Proof.
  intros Hok Hh. pose proof (get_next_ok m L h [] l Hok Hh) as E. simpl in E.
  unfold list_empty. rewrite E. simpl. f_equal. apply bool_decide_ext.
  destruct l as [|x l]; simpl; [done|]. split; [|done]. intros ->.
  pose proof (lo_nodup m L Hok _ _ Hh) as Hn. apply NoDup_cons in Hn. set_solver.
Qed.

Lemma list_insert_ok m L h l1 l2 new :
  lists_ok m L → L !! h = Some (l1 ++ l2) → ¬ node L new →
  lists_ok (__list_add m new (before h l1) (after h l2)) (<[h:=l1 ++ new :: l2]> L).
Proof.
  intros Hok Hh Hnew. assert (new ∉ h :: l1 ++ l2) as Hn'.
  { intros Hx. by apply Hnew, (node_elem L h (l1 ++ l2)). }
  pose proof (lo_nodup m L Hok _ _ Hh) as Hnd.
  pose proof (before_elem h l1). pose proof (after_elem h l2).
  apply (lists_ok_update m _ L h (l1 ++ l2)); [done|done| | | |].
  - apply ring_insert; [by apply (lo_ring m L Hok)|done|done].
  - assert (h :: l1 ++ new :: l2 ≡ₚ new :: h :: l1 ++ l2) as ->.
    { rewrite <- Permutation_middle. constructor. }
    by apply NoDup_cons.
  - intros x Hx. destruct (decide (x = new)) as [->|]; [by right|left]. set_solver.
  - intros x Hx Hx'. unfold __list_add. simpl.
    rewrite !lookup_insert_ne; [done|..]; intros <-; set_solver.
Qed.

(** [list_add] after the element that ends [l1] (the head when [l1 = []]). *)
Lemma list_add_ok m L h l1 l2 new :
  lists_ok m L → L !! h = Some (l1 ++ l2) → ¬ node L new →
  ∃ m', list_add m new (before h l1) = Ok m' ∧ lists_ok m' (<[h:=l1 ++ new :: l2]> L).
Proof.
  intros Hok Hh Hnew. eexists. split; [|by apply list_insert_ok].
  unfold list_add. by rewrite (get_next_ok m L h l1 l2).
Qed.

(** [list_add_tail] before the element that starts [l2] (the head when [l2 = []]). *)
Lemma list_add_tail_ok m L h l1 l2 new :
  lists_ok m L → L !! h = Some (l1 ++ l2) → ¬ node L new →
  ∃ m', list_add_tail m new (after h l2) = Ok m' ∧ lists_ok m' (<[h:=l1 ++ new :: l2]> L).
Proof.
  intros Hok Hh Hnew. eexists. split; [|by apply list_insert_ok].
  unfold list_add_tail. by rewrite (get_prev_ok m L h l1 l2).
Qed.

(** [list_del_entry]: the entry leaves its ring and keeps its own pointers. *)
Lemma list_del_entry_ok m L h l1 e l2 :
  lists_ok m L → L !! h = Some (l1 ++ e :: l2) →
  ∃ m', list_del_entry m e = Ok m' ∧ lists_ok m' (<[h:=l1 ++ l2]> L) ∧
    ¬ node (<[h:=l1 ++ l2]> L) e ∧
    get_next m' e = Ok (after h l2) ∧ get_prev m' e = Ok (before h l1).
Proof.
  intros Hok Hh. pose proof (lo_nodup m L Hok _ _ Hh) as Hnd.
  pose proof (lo_ring m L Hok _ _ Hh) as Hr.
  pose proof (proj1 (ring_mid _ _ _ _ _) Hr) as (_ & [_ Hp] & [Hq _] & _).
  assert (h :: l1 ++ e :: l2 ≡ₚ e :: h :: l1 ++ l2) as Hperm.
  { rewrite <- Permutation_middle. constructor. }
  pose proof Hnd as Hnd'. rewrite Hperm in Hnd'. apply NoDup_cons in Hnd' as [He Hnd'].
  pose proof (before_elem h l1). pose proof (after_elem h l2).
  exists (__list_del m (before h l1) (after h l2)). split_and!.
  - unfold list_del_entry, get_prev, get_next. by rewrite Hp, Hq.
  - apply (lists_ok_update m _ L h (l1 ++ e :: l2)); [done|done| |done| |].
    + by apply (ring_delete m h l1 e l2).
    + intros x Hx. left. set_solver.
    + intros x Hx Hx'. unfold __list_del. simpl.
      rewrite !lookup_insert_ne; [done|..]; intros <-; set_solver.
  - intros (h2 & l2' & [[<- <-]|[Hne H2]]%lookup_insert_Some & Hx); [done|].
    apply Hne, (lo_disj m L Hok _ _ _ _ e Hh H2); set_solver.
  - unfold __list_del, get_next. simpl. rewrite lookup_insert_ne; [by rewrite Hq|].
    intros E. rewrite E in *. set_solver.
  - unfold __list_del, get_prev. simpl. rewrite lookup_insert_ne; [by rewrite Hp|].
    intros E. rewrite E in *. set_solver.
Qed.

(** A ring is never longer than the memory, so [ring_fuel] turns visit it all. *)
Lemma ring_fuel_enough m L h l : lists_ok m L → L !! h = Some l → (length l < ring_fuel m)%nat.
Proof.
  intros Hok Hh. unfold ring_fuel. pose proof (lo_nodup m L Hok _ _ Hh) as Hnd.
  assert (size (list_to_set (h :: l) : gset Z) ≤ size (dom (nxt m)))%nat as Hs.
  { apply subseteq_size. intros x Hx. apply elem_of_list_to_set in Hx. apply elem_of_dom.
    apply list_elem_of_split in Hx as (l1 & l2 & E).
    destruct l1 as [|y l1]; simplify_eq/=.
    - pose proof (get_next_ok m L x [] _ Hok Hh) as H. apply load_Ok in H. by eexists.
    - pose proof (lo_ring m L Hok _ _ Hh) as Hr.
      apply ring_mid in Hr as (_ & _ & [H _] & _). by eexists. }
  rewrite size_list_to_set in Hs by done. rewrite size_dom in Hs. simpl in Hs. lia.
Qed.

Section for_each_rules.
Context {St : Type} (mem : St → lmem).
Implicit Types (body : Z → St → res (flow St)) (s : St).

(** Elements that leave the state as it is are skipped. *)
Lemma list_for_each_skip L h l1 l2 l3 body s fuel :
  lists_ok (mem s) L → L !! h = Some (l1 ++ l2 ++ l3) →
  (∀ x, x ∈ l2 → body x s = Ok (Next x s)) →
  (length l2 ≤ fuel)%nat →
  list_for_each_from mem fuel h body (after h (l2 ++ l3)) s =
  list_for_each_from mem (fuel - length l2) h body (after h l3) s.
Proof.
  intros Hok. revert l1 fuel. induction l2 as [|x l2 IH]; intros l1 fuel Hh Hb Hf.
  { simpl. by rewrite Nat.sub_0_r. }
  destruct fuel as [|fuel]; simpl in Hf; [lia|]. simpl.
  assert (x ≠ h).
  { intros ->. pose proof (lo_nodup _ L Hok _ _ Hh) as Hnd.
    apply NoDup_cons in Hnd. set_solver. }
  unfold list_is_head. rewrite bool_decide_eq_false_2 by done.
  rewrite Hb by set_solver. simpl.
  assert (L !! h = Some ((l1 ++ [x]) ++ l2 ++ l3)) as Hh' by (by rewrite <- app_assoc).
  pose proof (get_next_ok _ _ _ _ _ Hok Hh') as E. rewrite last_snoc in E. simpl in E.
  rewrite E. simpl. apply (IH (l1 ++ [x])); [done| |lia]. intros y Hy. apply Hb. set_solver.
Qed.

(** No element breaks: the loop variable ends at the head. *)
Lemma list_for_each_none L h l body s fuel :
  lists_ok (mem s) L → L !! h = Some l → (length l < fuel)%nat →
  (∀ x, x ∈ l → body x s = Ok (Next x s)) →
  list_for_each mem fuel h body s = Ok (h, s).
Proof.
  intros Hok Hh Hf Hb. unfold list_for_each.
  pose proof (get_next_ok _ _ h [] l Hok Hh) as E. simpl in E. rewrite E. simpl.
  rewrite <- (app_nil_r l) at 1.
  rewrite (list_for_each_skip L h [] l []); [|done|by rewrite app_nil_r|done|lia].
  destruct (fuel - length l)%nat eqn:Ef; [lia|]. simpl.
  unfold list_is_head. by rewrite bool_decide_eq_true_2.
Qed.

(** The first element that breaks ends the loop. *)
Lemma list_for_each_found L h l1 x l2 body s s' fuel :
  lists_ok (mem s) L → L !! h = Some (l1 ++ x :: l2) → (length (l1 ++ x :: l2) < fuel)%nat →
  (∀ y, y ∈ l1 → body y s = Ok (Next y s)) →
  body x s = Ok (Break x s') →
  list_for_each mem fuel h body s = Ok (x, s').
Proof.
  intros Hok Hh Hf Hb Hx. unfold list_for_each.
  pose proof (get_next_ok _ _ h [] _ Hok Hh) as E. simpl in E. rewrite E. simpl.
  rewrite length_app in Hf. simpl in Hf.
  rewrite (list_for_each_skip L h [] l1 (x :: l2)); [|done|done|done|lia].
  destruct (fuel - length l1)%nat eqn:Ef; [lia|]. simpl.
  unfold list_is_head. rewrite bool_decide_eq_false_2.
  - by rewrite Hx.
  - intros ->. pose proof (lo_nodup _ L Hok _ _ Hh) as Hnd.
    apply NoDup_cons in Hnd. set_solver.
Qed.

(** Every element falls through; the invariant knows the elements that are done. *)
Lemma list_for_each_inv (P : list Z → St → Prop) h l (body : Z → St → res (flow St)) s fuel :
  (∀ l1 s, P l1 s → ∃ L, lists_ok (mem s) L ∧ L !! h = Some l) →
  (∀ l1 x l2 s, l = l1 ++ x :: l2 → P l1 s → ∃ s', body x s = Ok (Next x s') ∧ P (l1 ++ [x]) s') →
  (length l < fuel)%nat → P [] s → ∃ s', list_for_each mem fuel h body s = Ok (h, s') ∧ P l s'.
Proof.
  intros HL Hb Hf H0.
  assert (∀ l2 l1 s fuel, l = l1 ++ l2 → P l1 s → (length l2 < fuel)%nat →
    ∃ s', list_for_each_from mem fuel h body (after h l2) s = Ok (h, s') ∧ P l s') as Hfrom.
  { clear s H0 Hf fuel. intros l2. induction l2 as [|x l2 IH]; intros l1 s fuel El H1 Hf; (destruct fuel as [|fuel]; [simpl in Hf; lia|]).
    - rewrite app_nil_r in El. subst l1. exists s. split; [|done]. simpl. unfold list_is_head. by rewrite bool_decide_eq_true_2.
    - destruct (HL l1 s H1) as (L & Hok & Hl). pose proof (lo_nodup _ L Hok _ _ Hl) as Hnd. apply NoDup_cons in Hnd as [Hnd _].
      destruct (Hb l1 x l2 s El H1) as (s1 & E1 & H2). destruct (HL _ s1 H2) as (L1 & Hok1 & Hl1).
      assert (l = (l1 ++ [x]) ++ l2) as El' by (by rewrite <- app_assoc).
      rewrite El' in Hl1. pose proof (get_next_ok _ _ _ _ _ Hok1 Hl1) as E. rewrite last_snoc in E. simpl in E.
      destruct (IH _ s1 fuel El' H2) as (s' & E' & HP'); [simpl in Hf; lia|]. exists s'. split; [|done].
      simpl. unfold list_is_head. rewrite bool_decide_eq_false_2 by (intros ->; apply Hnd; subst l; set_solver).
      rewrite E1. cbn [mbind res_bind]. rewrite E. exact E'. }
  destruct (HL [] s H0) as (L & Hok & Hl). pose proof (get_next_ok _ _ h [] l Hok Hl) as E. simpl in E.
  unfold list_for_each. rewrite E. by apply (Hfrom l []).
Qed.
End for_each_rules.

(** ** What the operations leave alone *)

(** The cells of every address outside [P] are as they were. *)
Definition cells_same (P : Z → Prop) (m m' : lmem) : Prop :=
  ∀ q, ¬ P q → nxt m' !! q = nxt m !! q ∧ prv m' !! q = prv m !! q.

#[export] Instance cells_same_equiv P : Equivalence (cells_same P).
Proof.
  split; [done|intros m m' H q Hq; destruct (H q Hq) as [-> ->]; done|].
  intros m1 m2 m3 H1 H2 q Hq. destruct (H1 q Hq) as [<- <-]. by apply H2.
Qed.

Lemma cells_same_weaken (P Q : Z → Prop) m m' : (∀ q, P q → Q q) → cells_same P m m' → cells_same Q m m'.
Proof. intros HPQ H q Hq. apply H. intros Hp. by apply Hq, HPQ. Qed.

Lemma list_add_cells m L h l new m' : lists_ok m L → L !! h = Some l → list_add m new h = Ok m' →
  cells_same (λ q, node L q ∨ q = new) m m'.
Proof.
  intros Hok Hh E q Hq. pose proof (get_next_ok m L h [] l Hok Hh) as En. simpl in En.
  unfold list_add in E. rewrite En in E. injection E as <-. pose proof (after_elem h l) as Ha.
  assert (q ≠ after h l) by (intros ->; apply Hq; left; by apply (node_elem L h l)).
  assert (q ≠ h) by (intros ->; apply Hq; left; apply (node_elem L h l); [done|by left]).
  unfold __list_add. simpl. rewrite !lookup_insert_ne by naive_solver. done.
Qed.

Lemma list_del_cells m L h l e m' : lists_ok m L → L !! h = Some l → e ∈ l → list_del_entry m e = Ok m' →
  cells_same (λ q, node L q ∧ q ≠ e) m m'.
Proof.
  intros Hok Hh (l1 & l2 & ->)%list_elem_of_split E q Hq.
  pose proof (lo_nodup m L Hok _ _ Hh) as Hnd.
  pose proof (lo_ring m L Hok _ _ Hh) as (_ & [_ Hp] & [Hn _] & _)%ring_mid.
  unfold list_del_entry, get_prev, get_next in E. rewrite Hp, Hn in E. injection E as <-.
  pose proof (before_elem h l1) as Hb. pose proof (after_elem h l2) as Ha.
  assert (h :: l1 ++ e :: l2 ≡ₚ e :: h :: l1 ++ l2) as Hperm by (rewrite <- Permutation_middle; constructor).
  rewrite Hperm in Hnd. apply NoDup_cons in Hnd as [He _].
  assert (∀ x, x ∈ h :: l1 ++ l2 → q ≠ x) as Hne.
  { intros x Hx ->. apply Hq. split; [|by intros ->]. apply (node_elem L h (l1 ++ e :: l2)); [done|]. set_solver. }
  unfold __list_del. simpl. rewrite !lookup_insert_ne; [done|..]; apply not_eq_sym, Hne; set_solver.
Qed.

(** Automation for the states of several lists. *)
Create HintDb lists discriminated.
#[export] Hint Resolve lists_ok_frame INIT_LIST_HEAD_head INIT_LIST_HEAD_entry
  node_elem node_insert_in before_elem after_elem : lists.
