(* ===== verification/Lock.v ===== *)
(** The interrupt lock of lib/except.c: a nesting counter around DAIF. *)
From S2P Require Import Prelude.
Local Open Scope Z_scope.

(** [lock_counter] is a [size_t]; [irq_on] is the state of the DAIF mask. *)
Record lockst := LockSt { lock_counter : Z; irq_on : bool }.

Definition enable_el1_interrupt (k : lockst) : lockst := LockSt (lock_counter k) true.
Definition disable_el1_interrupt (k : lockst) : lockst := LockSt (lock_counter k) false.

Definition lock (k : lockst) : lockst :=
  disable_el1_interrupt (LockSt (u64 (lock_counter k + 1)) (irq_on k)).

Definition unlock (k : lockst) : lockst :=
  let k := LockSt (u64 (lock_counter k - 1)) (irq_on k) in
  if lock_counter k =? 0 then enable_el1_interrupt k else k.

(** The state between calls: interrupts are masked while the counter is up. *)
Definition lock_wf (k : lockst) : Prop :=
  0 ≤ lock_counter k < 2 ^ 63 ∧ (0 < lock_counter k → irq_on k = false).

Lemma lock_counter_lock k : lock_wf k → lock_counter (lock k) = lock_counter k + 1.
Proof. intros [H _]. simpl. apply u64_small. lia. Qed.

Lemma irq_on_lock k : irq_on (lock k) = false.
Proof. done. Qed.

(** A balanced section: masked inside, and left with the counter it had;
    interrupts are on again exactly when it is the outermost one. *)
Lemma unlock_lock k : lock_wf k →
  unlock (lock k) = LockSt (lock_counter k) (bool_decide (lock_counter k = 0)).
Proof.
  intros Hk. pose proof (lock_counter_lock k Hk) as E. destruct Hk as [H Hi].
  unfold unlock. rewrite E. cbn [lock_counter].
  replace (lock_counter k + 1 - 1) with (lock_counter k) by lia. rewrite u64_small by lia.
  destruct (Z.eqb_spec (lock_counter k) 0) as [E0|E0].
  - by rewrite bool_decide_eq_true_2.
  - by rewrite bool_decide_eq_false_2.
Qed.

Lemma lock_wf_balanced k : lock_wf k → lock_wf (unlock (lock k)).
Proof.
  intros Hk. rewrite unlock_lock by done. destruct Hk as [H Hi]. split; simpl; [done|].
  intros. rewrite bool_decide_eq_false_2; [done|lia].
Qed.
#[export] Hint Resolve lock_wf_balanced : core.

Lemma unlock_lock_idem k : lock_wf k → unlock (lock (unlock (lock k))) = unlock (lock k).
Proof.
  intros Hk. rewrite (unlock_lock (unlock (lock k))) by auto. by rewrite !(unlock_lock k).
Qed.

(** ** Nested critical sections *)

(** A run of [lock] ([true]) and [unlock] ([false]) calls. *)
Fixpoint lock_run (ops : list bool) (k : lockst) : lockst :=
  match ops with
  | [] => k
  | true :: ops => lock_run ops (lock k)
  | false :: ops => lock_run ops (unlock k)
  end.

(** The calls that are still open after a run that started with [d] open ones;
    [None] when it closes one too many. *)
Fixpoint lock_depth (ops : list bool) (d : nat) : option nat :=
  match ops with
  | [] => Some d
  | true :: ops => lock_depth ops (S d)
  | false :: ops => match d with O => None | S d => lock_depth ops d end
  end.

Lemma lock_run_depth ops : ∀ c d irq,
  (Z.of_nat c + Z.of_nat (length ops) < 2 ^ 63) → lock_depth ops c = Some d →
  ((0 < c)%nat → irq = false) →
  lock_run ops (LockSt (Z.of_nat c) irq) =
  LockSt (Z.of_nat d) (if bool_decide (ops = []) then irq else bool_decide (d = O)).
Proof.
  induction ops as [|[] ops IH]; intros c d irq Hb Hd Hi; simpl in *.
  - by injection Hd as ->.
  - unfold lock, disable_el1_interrupt. simpl.
    replace (u64 (Z.of_nat c + 1)) with (Z.of_nat (S c)) by (rewrite u64_small; lia).
    rewrite (IH (S c) d); [|lia|done|done]. f_equal. case_bool_decide; [|done].
    subst ops. simpl in Hd. by simplify_eq.
  - destruct c as [|c]; [done|]. unfold unlock. cbn [lock_counter irq_on].
    replace (u64 (Z.of_nat (S c) - 1)) with (Z.of_nat c) by (rewrite u64_small; lia).
    rewrite Hi by lia. unfold enable_el1_interrupt. cbn [lock_counter irq_on].
    destruct (Z.eqb_spec (Z.of_nat c) 0).
    + rewrite (IH c d); [|lia|done|lia]. f_equal. case_bool_decide; [|done].
      subst ops. simpl in Hd. simplify_eq. by rewrite bool_decide_eq_true_2 by lia.
    + rewrite (IH c d); [|lia|done|done]. f_equal. case_bool_decide; [|done].
      subst ops. simpl in Hd. simplify_eq. by rewrite bool_decide_eq_false_2 by lia.
Qed.

(** C35: critical sections nest. However the [lock] and [unlock] calls of a run
    are bracketed, the counter is the number of sections that are open,
    interrupts are masked while there is one, and the [unlock] that closes the
    outermost one turns them on. *)
Theorem lock_nesting ops d irq :
  Z.of_nat (length ops) < 2 ^ 63 → lock_depth ops 0 = Some d → ops ≠ [] →
  lock_counter (lock_run ops (LockSt 0 irq)) = Z.of_nat d ∧
  irq_on (lock_run ops (LockSt 0 irq)) = bool_decide (d = O).
Proof.
  intros Hb Hd Hne. pose proof (lock_run_depth ops 0 d irq) as E. change (Z.of_nat 0) with 0 in E. rewrite E by (done || lia).
  by rewrite bool_decide_eq_false_2.
Qed.

Lemma lock_nesting_witness :
  lock_counter (lock_run [true; true; false] (LockSt 0 true)) = 1 ∧
  irq_on (lock_run [true; true; false] (LockSt 0 true)) = false.
Proof. apply (lock_nesting [true; true; false] 1 true); [simpl; lia|reflexivity|discriminate]. Defined.
