(* ===== verification/Mem.v ===== *)
(** Byte-addressed memory, and the pointers to [char] the string and parser
    code reads through.

    A byte of memory is mapped when some object of the program owns it; a
    load or a store outside is a [Fault]. Multi-byte loads are little-endian,
    as on the target. *)
From S2P Require Import Prelude.
Local Open Scope Z_scope.

Abbreviation bmem := (gmap Z Z).

Definition load8 (m : bmem) (a : Z) : res Z := load (m !! u64 a).

Definition store8 (m : bmem) (a v : Z) : res bmem :=
  _ ← load8 m a; mret (<[u64 a := u8 v]> m).

(** [*(uint32_t* )a] *)
Definition load32 (m : bmem) (a : Z) : res Z :=
  b0 ← load8 m a; b1 ← load8 m (a + 1); b2 ← load8 m (a + 2); b3 ← load8 m (a + 3);
  mret (Z.lor b0 (Z.lor (Z.shiftl b1 8) (Z.lor (Z.shiftl b2 16) (Z.shiftl b3 24)))).

(** [*(uint64_t* )a] *)
Definition load64 (m : bmem) (a : Z) : res Z :=
  lo ← load32 m a; hi ← load32 m (a + 4); mret (Z.lor lo (Z.shiftl hi 32)).

(** A [const char*]: what a load at each offset from the pointer gives. It is
    a place in memory or a string literal of the program. *)
Definition cptr : Type := Z → res Z.

Definition at_mem (m : bmem) (p : Z) : cptr := λ i, load8 m (p + i).

Definition lit_bytes (s : string) : list Z :=
  map (λ c, Z.of_N (Ascii.N_of_ascii c)) (String.list_ascii_of_string s) ++ [0].

Definition lit (s : string) : cptr := λ i,
  if i <? 0 then Fault else load (lit_bytes s !! Z.to_nat i).

(** [p] points to the bytes [bs]. *)
Definition bytes_at (p : cptr) (bs : list Z) : Prop :=
  ∀ i b, bs !! i = Some b → p (Z.of_nat i) = Ok b.

(** [p] points to a NUL-terminated string with characters [cs]. *)
Definition cstring (p : cptr) (cs : list Z) : Prop :=
  bytes_at p (cs ++ [0]) ∧ Forall (λ c, 0 < c < 256) cs.

(** The pointer [p + k]. *)
Definition shift_ptr (p : cptr) (k : Z) : cptr := λ i, p (k + i).

(** Enough turns for a walk that visits each mapped byte at most once. *)
Definition mem_fuel (m : bmem) : nat := S (size m).

Lemma bytes_at_cons p b bs :
  bytes_at p (b :: bs) ↔ p 0 = Ok b ∧ bytes_at (shift_ptr p 1) bs.
Proof.
  split.
  - intros H. split; [by apply (H 0%nat)|]. intros i c Hi. unfold shift_ptr.
    specialize (H (S i) c Hi). by replace (1 + Z.of_nat i) with (Z.of_nat (S i)) by lia.
  - intros [H0 H1] [|i] c Hi; [by simplify_eq/=|]. specialize (H1 i c Hi).
    unfold shift_ptr in H1. by replace (Z.of_nat (S i)) with (1 + Z.of_nat i) by lia.
Qed.

Lemma bytes_at_app p bs cs :
  bytes_at p (bs ++ cs) ↔ bytes_at p bs ∧ bytes_at (shift_ptr p (Z.of_nat (length bs))) cs.
Proof.
  unfold bytes_at, shift_ptr. split.
  - intros H. split; intros i b Hi.
    + apply H. by apply lookup_app_l_Some.
    + replace (Z.of_nat (length bs) + Z.of_nat i) with (Z.of_nat (length bs + i)) by lia.
      apply H. by rewrite lookup_app_r, Nat.add_comm, Nat.add_sub by lia.
  - intros [H1 H2] i b [Hi|[Hl Hi]]%lookup_app_Some; [by apply H1|].
    specialize (H2 _ _ Hi). by replace (Z.of_nat (length bs) + Z.of_nat (i - length bs))
      with (Z.of_nat i) in H2 by lia.
Qed.

Lemma lit_bytes_at s : bytes_at (lit s) (lit_bytes s).
Proof.
  intros i b Hi. unfold lit. rewrite (proj2 (Z.ltb_ge _ _)) by lia.
  by rewrite Nat2Z.id, Hi.
Qed.

Lemma load8_store8 m m' a b v : store8 m a v = Ok m' →
  load8 m' b = if decide (u64 a = u64 b) then Ok (u8 v) else load8 m b.
Proof.
  unfold store8, load8. intros H. res_inv. subst. case_decide as E.
  - by rewrite E, lookup_insert_eq.
  - by rewrite lookup_insert_ne.
Qed.

(** The bytes of memory at [a]. *)
Definition mem_bytes (m : bmem) (a : Z) (bs : list Z) : Prop :=
  bytes_at (at_mem m a) bs ∧ Forall (λ b, 0 ≤ b < 256) bs.

Lemma mem_bytes_app m a bs cs :
  mem_bytes m a (bs ++ cs) → mem_bytes m a bs ∧ mem_bytes m (a + Z.of_nat (length bs)) cs.
Proof.
  intros [[H1 H2]%bytes_at_app [H3 H4]%Forall_app]. split; [by split|split; [|done]].
  intros i b Hi. specialize (H2 i b Hi). unfold shift_ptr, at_mem in *.
  by replace (a + Z.of_nat (length bs) + Z.of_nat i) with (a + (Z.of_nat (length bs) + Z.of_nat i)) by lia.
Qed.

(** A memory that holds just [bs] at [a]. *)
Definition bytes_mem (a : Z) (bs : list Z) : bmem := list_to_map (zip (seqZ a (Z.of_nat (length bs))) bs).

Lemma bytes_mem_lookup a bs i b : bs !! i = Some b → bytes_mem a bs !! (a + Z.of_nat i) = Some b.
Proof.
  intros Hi. unfold bytes_mem. apply elem_of_list_to_map_1.
  - rewrite fst_zip by (rewrite length_seqZ; lia). apply NoDup_seqZ.
  - apply list_elem_of_lookup_2 with i. rewrite lookup_zip_with, Hi.
    rewrite lookup_seqZ_lt; [done|]. apply lookup_lt_Some in Hi. lia.
Qed.

Lemma bytes_mem_ok a bs : 0 ≤ a → a + Z.of_nat (length bs) ≤ 2 ^ 64 →
  Forall (λ b, 0 ≤ b < 256) bs → mem_bytes (bytes_mem a bs) a bs.
Proof.
  intros Ha Hb Hbs. split; [|done]. intros i b Hi. unfold at_mem, load8.
  pose proof (lookup_lt_Some _ _ _ Hi). rewrite u64_small by lia.
  by rewrite (bytes_mem_lookup a bs i b).
Qed.

(** ** Windows: a run of bytes of memory as a list *)

Record window (m : bmem) (a : Z) (bs : list Z) : Prop := {
  win_bytes : mem_bytes m a bs;
  win_range : 0 ≤ a ∧ a + Z.of_nat (length bs) ≤ 2 ^ 64;
}.

(** Nothing outside [n] bytes from [a] has changed. *)
Definition same_outside (a n : Z) (m m' : bmem) : Prop := ∀ x, ¬ (a ≤ x < a + n) → m' !! x = m !! x.

#[export] Instance same_outside_preorder a n : PreOrder (same_outside a n).
Proof. split; [by intros m x|]. intros m1 m2 m3 H1 H2 x Hx. by rewrite H2, H1. Qed.

Lemma win_load m a bs i b : window m a bs → bs !! i = Some b → load8 m (a + Z.of_nat i) = Ok b.
Proof. intros [[H _] _] Hi. by apply H. Qed.

Lemma win_lookup m a bs i b : window m a bs → bs !! i = Some b → m !! (a + Z.of_nat i) = Some b.
Proof.
  intros Hw Hi. pose proof (win_load _ _ _ _ _ Hw Hi) as E. destruct Hw as [_ Hr].
  pose proof (lookup_lt_Some _ _ _ Hi). unfold load8 in E. rewrite u64_small in E by lia.
  by apply load_Ok in E.
Qed.

Lemma win_intro m a bs : 0 ≤ a → a + Z.of_nat (length bs) ≤ 2 ^ 64 → Forall (λ b, 0 ≤ b < 256) bs →
  (∀ i b, bs !! i = Some b → m !! (a + Z.of_nat i) = Some b) → window m a bs.
Proof.
  intros Ha Hr Hb H. split; [split; [|done]|done]. intros i b Hi. unfold at_mem, load8.
  pose proof (lookup_lt_Some _ _ _ Hi). rewrite u64_small by lia. by rewrite (H i b Hi).
Qed.

Lemma win_store m a bs i v : window m a bs → (i < length bs)%nat →
  ∃ m', store8 m (a + Z.of_nat i) v = Ok m' ∧ window m' a (<[i := u8 v]> bs) ∧
    same_outside a (Z.of_nat (length bs)) m m'.
Proof.
  intros Hw Hi. destruct (lookup_lt_is_Some_2 bs i Hi) as [b Hb].
  pose proof (win_load _ _ _ _ _ Hw Hb) as E. pose proof Hw as [[_ Hbs] Hr].
  exists (<[a + Z.of_nat i := u8 v]> m). split; [|split].
  - unfold store8. rewrite E. simpl. by rewrite u64_small by lia.
  - apply win_intro; [lia|rewrite length_insert; lia| |].
    + apply Forall_insert; [done|apply u8_range].
    + intros j c Hj. destruct (decide (i = j)) as [->|Hne].
      * rewrite list_lookup_insert_eq in Hj by done. simplify_eq. apply lookup_insert_eq.
      * rewrite list_lookup_insert_ne in Hj by done. rewrite lookup_insert_ne by lia.
        by eapply win_lookup.
  - intros x Hx. apply lookup_insert_ne. lia.
Qed.

(** A memory cannot hold more bytes in a row than it has. *)
Lemma bytes_at_size m a bs : bytes_at (at_mem m a) bs → (Z.of_nat (length bs) ≤ 2 ^ 64) →
  (length bs ≤ size m)%nat.
Proof.
  intros H Hl. set (ks := (λ i, u64 (a + i)) <$> seqZ 0 (Z.of_nat (length bs))).
  assert (NoDup ks) as Hnd.
  { apply NoDup_fmap_2_strong; [|apply NoDup_seqZ]. intros x y Hx Hy E.
    apply elem_of_seqZ in Hx, Hy. unfold u64 in E.
    pose proof (Z.div_mod (a + x) (2 ^ 64) ltac:(lia)). pose proof (Z.div_mod (a + y) (2 ^ 64) ltac:(lia)).
    rewrite E in *. assert ((a + x) / 2 ^ 64 = (a + y) / 2 ^ 64) by lia. lia. }
  assert (length ks = length bs) as <- by (unfold ks; rewrite length_fmap, length_seqZ; lia).
  rewrite <- size_dom, <- (size_list_to_set (C := gset Z) ks Hnd). apply subseteq_size.
  intros k [i [-> Hi]]%elem_of_list_to_set%list_elem_of_fmap. apply elem_of_seqZ in Hi.
  destruct (lookup_lt_is_Some_2 bs (Z.to_nat i) ltac:(lia)) as [b Hb]. specialize (H _ _ Hb).
  unfold at_mem, load8 in H. rewrite Z2Nat.id in H by lia. apply load_Ok in H. apply elem_of_dom. by exists b.
Qed.

Lemma bytes_mem_window a bs : 0 ≤ a → a + Z.of_nat (length bs) ≤ 2 ^ 64 →
  Forall (λ b, 0 ≤ b < 256) bs → window (bytes_mem a bs) a bs.
Proof. intros. split; [by apply bytes_mem_ok|done]. Qed.

Lemma win_size m a bs : window m a bs → (length bs ≤ size m)%nat.
Proof. intros [[H _] Hr]. apply (bytes_at_size m a bs H). lia. Qed.

(** A window that starts with a terminated string. *)
Lemma win_cstring m a cs bs : window m a (cs ++ 0 :: bs) → Forall (λ c, 0 < c < 256) cs →
  cstring (at_mem m a) cs.
Proof.
  intros [[H _] _] Hcs. split; [|done]. intros i b Hi. apply H.
  rewrite (cons_middle 0 cs bs), app_assoc. by apply lookup_app_l_Some.
Qed.
