(* ===== verification/CString.v ===== *)
(** lib/string.c *)
From S2P Require Import Prelude Util Mem.
Local Open Scope Z_scope.

(** [(a > b) - (b > a)] *)
Definition byte_cmp (a b : Z) : Z := Z.b2z (b <? a) - Z.b2z (a <? b).

Fixpoint strcmp_from (fuel : nat) (p1 p2 : cptr) (i : Z) : res Z :=
  match fuel with
  | O => Fuel
  | S fuel =>
      a ← p1 i; b ← p2 i;
      if negb (a =? 0) && (a =? b) then strcmp_from fuel p1 p2 (i + 1)
      else mret (byte_cmp a b)
  end.

Definition strcmp (fuel : nat) (s1 s2 : cptr) : res Z := strcmp_from fuel s1 s2 0.

Fixpoint strncmp_from (len : nat) (p1 p2 : cptr) (i : Z) : res Z :=
  match len with
  | O => mret 0
  | S len =>
      a ← p1 i; b ← p2 i;
      if negb (a =? b) then mret (byte_cmp a b) else strncmp_from len p1 p2 (i + 1)
  end.

Definition strncmp (s1 s2 : cptr) (len : Z) : res Z := strncmp_from (Z.to_nat len) s1 s2 0.

Fixpoint strlen_from (fuel : nat) (s : cptr) (i len : Z) : res Z :=
  match fuel with
  | O => Fuel
  | S fuel =>
      c ← s i;
      if c =? 0 then mret len else strlen_from fuel s (i + 1) (u32 (len + 1))
  end.

Definition strlen (fuel : nat) (s : cptr) : res Z := strlen_from fuel s 0 0.

(** The loop counter of [memcpy] and [memset] is an [int]: past [INT_MAX] it overflows. *)
Definition memcpy (m : bmem) (dst src len : Z) : res bmem :=
  _ ← require (len <? 2 ^ 31);
  for_loop (Z.to_nat len) 0 (λ i m, c ← load8 m (src + i); store8 m (dst + i) c) m.

Definition memset (m : bmem) (addr value len : Z) : res bmem :=
  _ ← require (len <? 2 ^ 31);
  for_loop (Z.to_nat len) 0 (λ i m, store8 m (addr + i) value) m.

Definition strcpy (m : bmem) (dst src : Z) : res bmem :=
  n ← strlen (mem_fuel m) (at_mem m src); memcpy m dst src (u32 (n + 1)).

Definition isspace (c : Z) : bool :=
  (c =? 0x20) || (c =? 0x0c) || (c =? 0x0a) || (c =? 0x0d) || (c =? 0x09) || (c =? 0x0b).

(** The two scans of [trim]: [begin] is an [int], [end] a [uint32_t]. *)
Fixpoint trim_begin (fuel : nat) (m : bmem) (str b : Z) : res Z :=
  match fuel with
  | O => Fuel
  | S fuel =>
      c ← load8 m (str + b);
      if isspace c then trim_begin fuel m str (b + 1) else mret b
  end.

Fixpoint trim_end (fuel : nat) (m : bmem) (str b e : Z) : res Z :=
  match fuel with
  | O => Fuel
  | S fuel =>
      if b <=? e then
        c ← load8 m (str + e);
        if isspace c then trim_end fuel m str b (u32 (e - 1)) else mret e
      else mret e
  end.

Definition trim (m : bmem) (str : Z) : res bmem :=
  n ← strlen (mem_fuel m) (at_mem m str);
  let e := u32 (n - 1) in
  if e =? u32 (-1) then mret m
  else
    b ← trim_begin (mem_fuel m) m str 0;
    e ← trim_end (mem_fuel m) m str b e;
    (* for (i = begin; i <= end; i++) str[i - begin] = str[i]; *)
    let n := Z.to_nat (e + 1 - b) in
    m ← for_loop n b (λ i m, c ← load8 m (str + i); store8 m (str + (i - b)) c) m;
    store8 m (str + Z.of_nat n) 0.

Definition strins (m : bmem) (s c pos : Z) : res bmem :=
  len ← strlen (mem_fuel m) (at_mem m s);
  (* for (i = len; i > pos; i--) s[i] = s[i - 1]; *)
  m ← for_loop (Z.to_nat (len - pos)) 0
        (λ k m, c ← load8 m (s + (len - k - 1)); store8 m (s + (len - k)) c) m;
  store8 m (s + pos) c.

Definition strdel (m : bmem) (s pos : Z) : res bmem :=
  n ← strlen (mem_fuel m) (at_mem m s);
  let len := u32 (n - 1) in
  let i0 := u32 pos in
  m ← for_loop (Z.to_nat (len - i0)) i0
        (λ i m, c ← load8 m (s + (i + 1)); store8 m (s + i) c) m;
  store8 m (s + len) 0.

Fixpoint atoi_from (fuel : nat) (str : cptr) (i r : Z) : res Z :=
  match fuel with
  | O => Fuel
  | S fuel =>
      c ← str i;
      if c =? 0 then mret r
      else if (0x39 <? c) || (c <? 0x30) then mret r
      else
        _ ← require (r * 10 + c <? 2 ^ 31);
        atoi_from fuel str (i + 1) (r * 10 + c - 0x30)
  end.

Definition atoi (fuel : nat) (str : cptr) : res Z := atoi_from fuel str 0 0.

(** ** strlen *)

Lemma cstring_cons p c cs : cstring p (c :: cs) → p 0 = Ok c ∧ 0 < c < 256 ∧ cstring (shift_ptr p 1) cs.
Proof.
  intros [[H0 H]%bytes_at_cons [Hc Hcs]%Forall_cons]. split; [done|]. split; [done|by split].
Qed.

Lemma cstring_nil p : cstring p [] → p 0 = Ok 0.
Proof. intros [H _]. by apply (H 0%nat). Qed.

Lemma strlen_from_shift fuel : ∀ p i len, strlen_from fuel p (i + 1) len = strlen_from fuel (shift_ptr p 1) i len.
Proof.
  induction fuel as [|fuel IH]; intros p i len; [done|]. cbn [strlen_from].
  change (shift_ptr p 1 i) with (p (1 + i)). rewrite (Z.add_comm i 1). destruct (p (1 + i)); simpl; [|done|done]. case_match; [done|].
  by rewrite <- IH.
Qed.

Lemma strlen_from_ok cs : ∀ fuel p len, cstring p cs → (length cs < fuel)%nat → 0 ≤ len →
  len + Z.of_nat (length cs) < 2 ^ 32 → strlen_from fuel p 0 len = Ok (len + Z.of_nat (length cs)).
Proof.
  induction cs as [|c cs IH]; intros [|fuel] p len Hp Hf Hl Hb; simpl in Hf, Hb; try lia; simpl.
  - rewrite (cstring_nil p Hp). simpl. f_equal. lia.
  - destruct (cstring_cons _ _ _ Hp) as (E & Hc & Hp'). rewrite E. simpl.
    rewrite (proj2 (Z.eqb_neq _ _)) by lia. change 1 with (0 + 1) at 1. rewrite strlen_from_shift.
    rewrite u32_small by lia. rewrite IH; [f_equal; lia|done|lia|lia|lia].
Qed.

(** [strlen] of a NUL-terminated string in memory returns, and is its length. *)
Lemma strlen_ok m a cs : cstring (at_mem m a) cs → Z.of_nat (length cs) < 2 ^ 32 →
  strlen (mem_fuel m) (at_mem m a) = Ok (Z.of_nat (length cs)).
Proof.
  intros Hp Hl. unfold strlen. rewrite (strlen_from_ok cs); [done|done| |lia|lia].
  pose proof (bytes_at_size m a (cs ++ [0]) (proj1 Hp)) as Hs. rewrite length_app in Hs. simpl in Hs.
  unfold mem_fuel. lia.
Qed.

(** ** strcmp and strncmp *)

(** The order of strings: by the first byte that differs, a prefix first. *)
Fixpoint str_order (cs ds : list Z) : Z :=
  match cs, ds with
  | [], [] => 0
  | [], _ => -1
  | _, [] => 1
  | c :: cs, d :: ds => if c =? d then str_order cs ds else byte_cmp c d
  end.

Lemma byte_cmp_0 a b : byte_cmp a b = 0 ↔ a = b.
Proof. unfold byte_cmp. destruct (Z.ltb_spec b a), (Z.ltb_spec a b); simpl; lia. Qed.

Lemma str_order_0 cs : ∀ ds, str_order cs ds = 0 ↔ cs = ds.
Proof.
  induction cs as [|c cs IH]; intros [|d ds]; simpl; try done.
  destruct (Z.eqb_spec c d) as [->|Hne].
  - rewrite IH. split; [by intros ->|congruence].
  - rewrite byte_cmp_0. split; congruence.
Qed.

Lemma strcmp_from_shift fuel : ∀ p q i,
  strcmp_from fuel p q (i + 1) = strcmp_from fuel (shift_ptr p 1) (shift_ptr q 1) i.
Proof.
  induction fuel as [|fuel IH]; intros p q i; [done|]. cbn [strcmp_from].
  change (shift_ptr p 1 i) with (p (1 + i)). change (shift_ptr q 1 i) with (q (1 + i)).
  rewrite (Z.add_comm i 1). destruct (p (1 + i)); simpl; [|done..]. destruct (q (1 + i)); simpl; [|done..].
  case_match; [|done]. by rewrite <- IH.
Qed.

(** [strcmp] of two NUL-terminated strings returns their order, 0 exactly for
    equal strings. *)
Theorem strcmp_ok cs : ∀ ds fuel p q, cstring p cs → cstring q ds → (length cs < fuel)%nat →
  strcmp fuel p q = Ok (str_order cs ds) ∧ (str_order cs ds = 0 ↔ cs = ds).
Proof.
  unfold strcmp. induction cs as [|c cs IH]; intros ds [|fuel] p q Hp Hq Hf; simpl in Hf; try lia;
    (split; [|apply str_order_0]).
  - cbn [strcmp_from]. rewrite (cstring_nil p Hp). cbn [mbind res_bind]. destruct ds as [|d ds].
    + by rewrite (cstring_nil q Hq).
    + destruct (cstring_cons _ _ _ Hq) as (E & Hd & _). rewrite E. simpl. unfold byte_cmp.
      rewrite (proj2 (Z.ltb_ge _ _)), (proj2 (Z.ltb_lt 0 d)) by lia. done.
  - destruct (cstring_cons _ _ _ Hp) as (E & Hc & Hp'). cbn [strcmp_from]. rewrite E. cbn [mbind res_bind].
    rewrite (proj2 (Z.eqb_neq c 0)) by lia. destruct ds as [|d ds].
    + rewrite (cstring_nil q Hq). simpl. rewrite (proj2 (Z.eqb_neq c 0)) by lia. simpl.
      unfold byte_cmp. rewrite (proj2 (Z.ltb_lt _ _)), (proj2 (Z.ltb_ge _ _)) by lia. done.
    + destruct (cstring_cons _ _ _ Hq) as (E' & Hd & Hq'). rewrite E'. simpl.
      destruct (Z.eqb_spec c d); [|done]. change 1 with (0 + 1) at 1. rewrite strcmp_from_shift.
      apply IH; [done|done|lia].
Qed.

Lemma lit_cstring s : Forall (λ c, 0 < c < 256) (removelast (lit_bytes s)) →
  cstring (lit s) (removelast (lit_bytes s)).
Proof.
  intros H. split; [|done]. unfold lit_bytes in *. rewrite removelast_last in *. apply lit_bytes_at.
Qed.

Lemma strcmp_ok_witness : strcmp 4 (lit "abc") (lit "abd") = Ok (-1).
Proof.
  destruct (strcmp_ok [97; 98; 99] [97; 98; 100] 4 (lit "abc") (lit "abd")) as [E _].
  - apply (lit_cstring "abc"). repeat constructor; lia.
  - apply (lit_cstring "abd"). repeat constructor; lia.
  - simpl. lia.
  - exact E.
Defined.

(** [strncmp] compares exactly [len] bytes: it does not stop at a NUL, so it reads
    past the end of two equal short strings. *)
Lemma strncmp_past_end : strncmp (lit "a") (lit "a") 3 = Fault.
Proof. reflexivity. Qed.

Lemma strncmp_from_ok bs : ∀ cs p q i, length bs = length cs →
  (∀ j b, bs !! j = Some b → p (i + Z.of_nat j) = Ok b) →
  (∀ j c, cs !! j = Some c → q (i + Z.of_nat j) = Ok c) →
  ∃ r, strncmp_from (length bs) p q i = Ok r ∧ (r = 0 ↔ bs = cs).
Proof.
  induction bs as [|b bs IH]; intros [|c cs] p q i Hl Hp Hq; simplify_eq/=; [by exists 0|].
  pose proof (Hp 0%nat b eq_refl) as E1. pose proof (Hq 0%nat c eq_refl) as E2.
  rewrite Z.add_0_r in E1, E2. rewrite E1, E2. simpl. destruct (Z.eqb_spec b c) as [->|Hne]; simpl.
  - destruct (IH cs p q (i + 1) Hl) as (r & E & Hr).
    + intros j x Hj. replace (i + 1 + Z.of_nat j) with (i + Z.of_nat (S j)) by lia. by apply Hp.
    + intros j x Hj. replace (i + 1 + Z.of_nat j) with (i + Z.of_nat (S j)) by lia. by apply Hq.
    + exists r. split; [done|]. rewrite Hr. split; congruence.
  - exists (byte_cmp b c). split; [done|]. rewrite byte_cmp_0. split; congruence.
Qed.

(** ** Copies *)

(** [bs] after [n] bytes from index [e] on were copied to index [d] on. *)
Definition shifted (d e n : nat) (bs : list Z) : list Z := take d bs ++ take n (drop e bs) ++ drop (d + n) bs.

Lemma shifted_length d e n bs : (d ≤ e)%nat → (e + n ≤ length bs)%nat → length (shifted d e n bs) = length bs.
Proof. intros. unfold shifted. rewrite !length_app, !length_take, !length_drop. lia. Qed.

Lemma shifted_src d e n bs b : (d ≤ e)%nat → bs !! (e + n)%nat = Some b → shifted d e n bs !! (e + n)%nat = Some b.
Proof.
  intros Hde Hb. pose proof (lookup_lt_Some _ _ _ Hb). unfold shifted.
  rewrite lookup_app_r by (rewrite length_take; lia). rewrite lookup_app_r by (rewrite !length_take, length_drop; lia).
  rewrite lookup_drop, !length_take, length_drop. rewrite <- Hb. f_equal. lia.
Qed.

Lemma shifted_step d e n bs b : (d ≤ e)%nat → bs !! (e + n)%nat = Some b →
  <[(d + n)%nat := b]> (shifted d e n bs) = shifted d e (S n) bs.
Proof.
  intros Hde Hb. pose proof (lookup_lt_Some _ _ _ Hb). unfold shifted.
  destruct (lookup_lt_is_Some_2 bs (d + n) ltac:(lia)) as [c Hc].
  rewrite (drop_S _ c (d + n) Hc).
  rewrite insert_app_r_alt by (rewrite length_take; lia).
  rewrite insert_app_r_alt by (rewrite !length_take, length_drop; lia).
  rewrite !length_take, length_drop.
  replace (d + n - d `min` length bs - n `min` (length bs - e))%nat with 0%nat by lia. simpl.
  rewrite (take_S_r _ n b) by (by rewrite lookup_drop). rewrite <- app_assoc. simpl.
  by replace (d + S n)%nat with (S (d + n)) by lia.
Qed.

(** A loop that copies bytes of a window downwards, one per turn. *)
Lemma copy_down_loop m a bs d e n i0 f :
  window m a bs → (d ≤ e)%nat → (e + n ≤ length bs)%nat →
  (∀ k m, (k < n)%nat → f (i0 + Z.of_nat k) m =
    (c ← load8 m (a + Z.of_nat (e + k)); store8 m (a + Z.of_nat (d + k)) c)) →
  ∃ m', for_loop n i0 f m = Ok m' ∧ window m' a (shifted d e n bs) ∧
    same_outside a (Z.of_nat (length bs)) m m'.
Proof.
  intros Hw Hde Hn Hf.
  destruct (for_loop_inv (λ i m', ∃ k, i = i0 + Z.of_nat k ∧ (k ≤ n)%nat ∧ window m' a (shifted d e k bs) ∧
      same_outside a (Z.of_nat (length bs)) m m') f n i0 m) as (m' & E & k & Hk & _ & Hw' & Hs).
  - exists 0%nat. split_and!; [lia|lia| |done].
    unfold shifted. rewrite Nat.add_0_r. simpl. by rewrite take_drop.
  - intros i m1 Hi (k & -> & Hk & Hw1 & Hs1). assert (k < n)%nat as Hkn by lia.
    destruct (lookup_lt_is_Some_2 bs (e + k) ltac:(lia)) as [b Hb].
    destruct (win_store m1 a _ (d + k) b Hw1) as (m2 & E2 & Hw2 & Hs2); [rewrite shifted_length; lia|].
    exists m2. split.
    + rewrite Hf by done. rewrite (win_load _ _ _ (e + k) b Hw1) by (by apply shifted_src). done.
    + exists (S k). rewrite shifted_length in Hs2 by lia. split_and!; [lia|lia| |by transitivity m1].
      pose proof Hw as [[_ Hbs] _]. rewrite Forall_lookup in Hbs.
      rewrite u8_small in Hw2 by (by apply (Hbs (e + k)%nat)). by rewrite shifted_step in Hw2.
  - assert (k = n) as -> by lia. by exists m'.
Qed.

(** [strdel] removes the character at [pos], and the string stays
    NUL-terminated in its place. *)
Theorem strdel_ok m s cs pos : window m s (cs ++ [0]) → Forall (λ c, 0 < c < 256) cs →
  (pos < length cs)%nat → Z.of_nat (length cs) < 2 ^ 32 →
  ∃ m', strdel m s (Z.of_nat pos) = Ok m' ∧ window m' s (delete pos cs ++ [0; 0]) ∧
    same_outside s (Z.of_nat (length cs) + 1) m m'.
Proof.
  intros Hw Hcs Hpos Hlen.
  assert (cstring (at_mem m s) cs) as Hstr by (split; [apply Hw|done]).
  set (n := (length cs - 1 - pos)%nat).
  assert (length (cs ++ [0]) = S (length cs)) as Hl by (rewrite length_app; simpl; lia).
  destruct (copy_down_loop m s (cs ++ [0]) pos (pos + 1) n (Z.of_nat pos)
    (λ i m, c ← load8 m (s + (i + 1)); store8 m (s + i) c) Hw) as (m1 & E1 & Hw1 & Hs1); [lia|lia| |].
  { intros k m1 Hk. replace (s + (Z.of_nat pos + Z.of_nat k + 1)) with (s + Z.of_nat (pos + 1 + k)) by lia.
    by replace (s + (Z.of_nat pos + Z.of_nat k)) with (s + Z.of_nat (pos + k)) by lia. }
  destruct (win_store m1 s _ (length cs - 1) 0 Hw1) as (m2 & E2 & Hw2 & Hs2); [rewrite shifted_length; lia|].
  exists m2. split_and!.
  - unfold strdel. rewrite (strlen_ok m s cs Hstr Hlen). cbn [mbind res_bind].
    rewrite (u32_small (Z.of_nat (length cs) - 1)), u32_small by lia.
    replace (Z.to_nat (Z.of_nat (length cs) - 1 - Z.of_nat pos)) with n by lia.
    rewrite E1. cbn [mbind res_bind].
    by replace (Z.of_nat (length cs) - 1) with (Z.of_nat (length cs - 1)) by lia.
  - replace (delete pos cs ++ [0; 0]) with (<[(length cs - 1)%nat := u8 0]> (shifted pos (pos + 1) n (cs ++ [0])));
      [done|].
    rewrite delete_take_drop. unfold shifted.
    rewrite insert_app_r_alt by (rewrite length_take, Hl; lia).
    rewrite take_app_le, drop_app_le by lia. rewrite (take_app_le (drop (pos + 1) cs)) by (rewrite length_drop; lia).
    rewrite length_take.
    replace (pos + n)%nat with (length cs - 1)%nat by lia.
    rewrite drop_app_le by lia.
    destruct (lookup_lt_is_Some_2 cs (length cs - 1) ltac:(lia)) as [x Hx].
    rewrite (drop_S _ x _ Hx). replace (S (length cs - 1)) with (length cs) by lia. rewrite drop_all.
    assert (take n (drop (pos + 1) cs) = drop (pos + 1) cs) as -> by (apply take_ge; rewrite length_drop; lia).
    rewrite insert_app_r_alt by (rewrite length_drop; lia). rewrite length_drop.
    replace (length cs - 1 - pos `min` length cs - (length cs - (pos + 1)))%nat with 0%nat by lia.
    simpl. rewrite Nat.add_comm. by rewrite <- app_assoc.
  - replace (Z.of_nat (length cs) + 1) with (Z.of_nat (length (cs ++ [0]))) by lia.
    rewrite shifted_length in Hs2 by lia. by transitivity m1.
Qed.

Lemma strdel_ok_witness : ∃ m', strdel (bytes_mem 0x100 [97; 98; 99; 0]) 0x100 1 = Ok m' ∧
  window m' 0x100 [97; 99; 0; 0].
Proof.
  destruct (strdel_ok (bytes_mem 0x100 [97; 98; 99; 0]) 0x100 [97; 98; 99] 1) as (m' & E & Hw & _).
  - apply bytes_mem_window; [lia|simpl; lia|repeat constructor; lia].
  - repeat constructor; lia.
  - simpl. lia.
  - simpl. lia.
  - exists m'. split; [exact E|exact Hw].
Defined.

(** [strins] puts the character at [pos] and moves the rest up by one, over
    the terminator: what comes out has no NUL where the string ends. *)
Theorem strins_ok m s cs pos c : window m s (cs ++ [0]) → Forall (λ c, 0 < c < 256) cs →
  (pos ≤ length cs)%nat → Z.of_nat (length cs) < 2 ^ 32 →
  ∃ m', strins m s c (Z.of_nat pos) = Ok m' ∧ window m' s (take pos cs ++ u8 c :: drop pos cs) ∧
    same_outside s (Z.of_nat (length cs) + 1) m m'.
Proof.
  intros Hw Hcs Hpos Hlen.
  assert (length (cs ++ [0]) = S (length cs)) as Hl by (rewrite length_app; simpl; lia).
  pose proof Hw as [[_ Hbs] _]. rewrite Forall_lookup in Hbs.
  set (f := λ k m, c ← load8 m (s + (Z.of_nat (length cs) - k - 1)); store8 m (s + (Z.of_nat (length cs) - k)) c).
  set (st := λ k, take (length cs - k + 1) (cs ++ [0]) ++ drop (length cs - k) cs).
  assert (∀ k, (k ≤ length cs)%nat → length (st k) = S (length cs)) as Hst.
  { intros k Hk. unfold st. rewrite length_app, length_take, length_drop, Hl. lia. }
  destruct (for_loop_inv (λ i m', ∃ k, i = Z.of_nat k ∧ (k ≤ length cs - pos)%nat ∧ window m' s (st k) ∧
      same_outside s (Z.of_nat (length cs) + 1) m m') f (length cs - pos) 0 m) as (m1 & E1 & k & Hk & _ & Hw1 & Hs1).
  - exists 0%nat. split_and!; [lia|lia| |done]. unfold st. rewrite Nat.sub_0_r, drop_all, app_nil_r.
    by rewrite take_ge by lia.
  - intros i m1 Hi (k & -> & Hk & Hw1 & Hs1). assert (k < length cs - pos)%nat as Hkn by lia.
    destruct (lookup_lt_is_Some_2 cs (length cs - k - 1) ltac:(lia)) as [b Hb].
    destruct (win_store m1 s _ (length cs - k) b Hw1) as (m2 & E2 & Hw2 & Hs2); [rewrite Hst; lia|].
    exists m2. split.
    + unfold f. replace (s + (Z.of_nat (length cs) - Z.of_nat k - 1)) with (s + Z.of_nat (length cs - k - 1)) by lia.
      rewrite (win_load _ _ _ (length cs - k - 1) b Hw1).
      * replace (s + (Z.of_nat (length cs) - Z.of_nat k)) with (s + Z.of_nat (length cs - k)) by lia. exact E2.
      * unfold st. apply lookup_app_l_Some. rewrite lookup_take_lt by lia. by apply lookup_app_l_Some.
    + exists (S k). rewrite Hst in Hs2 by lia. split_and!; [lia|lia| |].
      * assert ((cs ++ [0]) !! (length cs - k - 1)%nat = Some b) as Hb' by (by apply lookup_app_l_Some).
        rewrite u8_small in Hw2 by (by apply (Hbs _ _ Hb')).
        replace (st (S k)) with (<[(length cs - k)%nat := b]> (st k)); [done|]. unfold st.
        destruct (lookup_lt_is_Some_2 (cs ++ [0]) (length cs - k) ltac:(lia)) as [y Hy].
        rewrite Nat.add_1_r, (take_S_r _ _ y Hy), <- app_assoc.
        rewrite insert_app_r_alt by (rewrite length_take; lia). rewrite length_take, Hl.
        replace (length cs - k - (length cs - k) `min` S (length cs))%nat with 0%nat by lia. simpl.
        replace (length cs - S k + 1)%nat with (length cs - k)%nat by lia. f_equal.
        replace (length cs - S k)%nat with (length cs - k - 1)%nat by lia.
        rewrite (drop_S _ b _ Hb). by replace (S (length cs - k - 1)) with (length cs - k)%nat by lia.
      * replace (Z.of_nat (length cs) + 1) with (Z.of_nat (S (length cs))) in * by lia. by transitivity m1.
  - assert (k = length cs - pos)%nat as -> by lia.
    destruct (win_store m1 s _ pos c Hw1) as (m2 & E2 & Hw2 & Hs2); [rewrite Hst; lia|].
    exists m2. split_and!.
    + unfold strins. rewrite (strlen_ok m s cs) by (done || (split; [apply Hw|done])). cbn [mbind res_bind].
      replace (Z.to_nat (Z.of_nat (length cs) - Z.of_nat pos)) with (length cs - pos)%nat by lia.
      fold f. rewrite E1. exact E2.
    + replace (take pos cs ++ u8 c :: drop pos cs) with (<[pos := u8 c]> (st (length cs - pos)%nat)); [done|].
      unfold st. replace (length cs - (length cs - pos))%nat with pos by lia.
      destruct (lookup_lt_is_Some_2 (cs ++ [0]) pos ltac:(lia)) as [y Hy].
      rewrite Nat.add_1_r, (take_S_r _ _ y Hy), <- app_assoc.
      rewrite insert_app_r_alt by (rewrite length_take; lia). rewrite length_take, Hl.
      replace (pos - pos `min` S (length cs))%nat with 0%nat by lia. simpl. by rewrite take_app_le.
    + rewrite Hst in Hs2 by lia.
      replace (Z.of_nat (length cs) + 1) with (Z.of_nat (S (length cs))) in * by lia. by transitivity m1.
Qed.

Lemma strins_ok_witness : ∃ m', strins (bytes_mem 0x100 [97; 98; 0]) 0x100 99 1 = Ok m' ∧
  window m' 0x100 [97; 99; 98].
Proof.
  destruct (strins_ok (bytes_mem 0x100 [97; 98; 0]) 0x100 [97; 98] 1 99) as (m' & E & Hw & _).
  - apply bytes_mem_window; [lia|simpl; lia|repeat constructor; lia].
  - repeat constructor; lia.
  - simpl. lia.
  - simpl. lia.
  - exists m'. split; [exact E|exact Hw].
Defined.

(** ** trim *)

Abbreviation spaces := (Forall (λ c, isspace c = true)).

Lemma trim_begin_ok m s bs sp c fuel : ∀ b,
  window m s bs → (∀ i x, sp !! i = Some x → bs !! (b + i)%nat = Some x) → spaces sp →
  bs !! (b + length sp)%nat = Some c → isspace c = false → (length sp < fuel)%nat →
  trim_begin fuel m s (Z.of_nat b) = Ok (Z.of_nat (b + length sp)).
Proof.
  revert sp. induction fuel as [|fuel IH]; intros sp b Hw Hsp Hs Hc Hns Hf; [lia|]. simpl.
  destruct sp as [|x sp]; simpl in Hc, Hf.
  - rewrite Nat.add_0_r in *. rewrite (win_load _ _ _ _ _ Hw Hc). simpl. by rewrite Hns.
  - apply Forall_cons in Hs as [Hx Hs].
    assert (bs !! b = Some x) as Hb by (by rewrite <- (Nat.add_0_r b); apply Hsp).
    rewrite (win_load _ _ _ _ _ Hw Hb). cbn [mbind res_bind]. rewrite Hx.
    replace (Z.of_nat b + 1) with (Z.of_nat (S b)) by lia. rewrite (IH sp (S b)).
    + f_equal. simpl. lia.
    + done.
    + intros i y Hi. rewrite Nat.add_succ_comm. by apply (Hsp (S i)).
    + done.
    + by rewrite Nat.add_succ_comm.
    + done.
    + lia.
Qed.

Lemma trim_end_ok m s bs mid sp b c fuel : ∀ e,
  window m s bs → Z.of_nat (length bs) < 2 ^ 32 → (b ≤ mid)%nat →
  (∀ i x, (mid < i ≤ e)%nat → bs !! i = Some x → isspace x = true) → (mid ≤ e < length bs)%nat →
  bs !! mid = Some c → isspace c = false → sp = (e - mid)%nat → (sp < fuel)%nat →
  trim_end fuel m s (Z.of_nat b) (Z.of_nat e) = Ok (Z.of_nat mid).
Proof.
  revert sp. induction fuel as [|fuel IH]; intros sp e Hw Hl Hb Hsp He Hc Hns Es Hf; [lia|]. simpl.
  rewrite (proj2 (Z.leb_le _ _)) by lia.
  destruct (lookup_lt_is_Some_2 bs e ltac:(lia)) as [x Hx]. rewrite (win_load _ _ _ _ _ Hw Hx).
  cbn [mbind res_bind]. destruct (decide (e = mid)) as [->|Hne].
  - simplify_eq. by rewrite Hns.
  - rewrite (Hsp e x) by (done || lia). rewrite u32_small by lia.
    replace (Z.of_nat e - 1) with (Z.of_nat (e - 1)) by lia. apply (IH (e - 1 - mid)%nat); try done; try lia.
    intros i y Hi. apply Hsp. lia.
Qed.

(** The last part of [trim]: [n] bytes from index [e] move to the front, and a
    terminator goes behind them. *)
Lemma trim_shift m s bs e n w : window m s bs → take n (drop e bs) = w → length w = n →
  (e + n < length bs)%nat → Forall (λ c, 0 < c < 256) w →
  ∃ m', (m ← for_loop n (Z.of_nat e)
           (λ i m, c ← load8 m (s + i); store8 m (s + (i - Z.of_nat e)) c) m;
         store8 m (s + Z.of_nat n) 0) = Ok m' ∧
    cstring (at_mem m' s) w ∧ same_outside s (Z.of_nat (length bs)) m m'.
Proof.
  intros Hw Ew Hn Hlen Hnz.
  destruct (copy_down_loop m s bs 0 e n (Z.of_nat e)
    (λ i m, c ← load8 m (s + i); store8 m (s + (i - Z.of_nat e)) c) Hw) as (m1 & E1 & Hw1 & Ho1); [lia|lia| |].
  { intros j m1 Hj. replace (s + (Z.of_nat e + Z.of_nat j)) with (s + Z.of_nat (e + j)) by lia.
    by replace (s + (Z.of_nat e + Z.of_nat j - Z.of_nat e)) with (s + Z.of_nat (0 + j)) by lia. }
  destruct (win_store m1 s _ n 0 Hw1) as (m2 & E2 & Hw2 & Ho2); [rewrite shifted_length; lia|].
  exists m2. split_and!; [by rewrite E1| |rewrite shifted_length in Ho2 by lia; by transitivity m1].
  apply (win_cstring m2 s w (drop (S n) bs)); [|done].
  replace (w ++ 0 :: drop (S n) bs) with (<[n := u8 0]> (shifted 0 e n bs)); [done|].
  unfold shifted. rewrite take_0, app_nil_l, Ew, Nat.add_0_l.
  rewrite insert_app_r_alt by lia. rewrite Hn, Nat.sub_diag.
  destruct (lookup_lt_is_Some_2 bs n ltac:(lia)) as [y Hy]. by rewrite (drop_S _ y _ Hy).
Qed.

(** [trim] takes the white space off both ends of a string, in place. *)
Theorem trim_ok m s sp1 mid sp2 :
  window m s ((sp1 ++ mid ++ sp2) ++ [0]) → Forall (λ c, 0 < c < 256) (sp1 ++ mid ++ sp2) →
  Z.of_nat (length (sp1 ++ mid ++ sp2)) < 2 ^ 32 - 1 → spaces sp1 → spaces sp2 →
  (∀ c, head mid = Some c → isspace c = false) → (∀ c, last mid = Some c → isspace c = false) →
  (mid = [] → sp2 = []) →
  ∃ m', trim m s = Ok m' ∧ cstring (at_mem m' s) mid ∧
    same_outside s (Z.of_nat (length (sp1 ++ mid ++ sp2)) + 1) m m'.
Proof.
  set (cs := sp1 ++ mid ++ sp2). intros Hw Hcs Hlen Hs1 Hs2 Hh Hla Hmid.
  assert (length (cs ++ [0]) = S (length cs)) as Hl by (rewrite length_app; simpl; lia).
  assert (length cs = length sp1 + length mid + length sp2)%nat as Hlc
    by (unfold cs; rewrite !length_app; lia).
  assert (cstring (at_mem m s) cs) as Hstr by (split; [apply Hw|done]).
  pose proof (win_size _ _ _ Hw) as Hsz. rewrite Hl in Hsz.
  unfold trim. rewrite (strlen_ok m s cs Hstr) by lia. cbn [mbind res_bind].
  destruct (decide (cs = [])) as [E0|Hne].
  { rewrite E0. simpl. exists m. split_and!; [done| |done].
    assert (mid = []) as -> by (destruct sp1, mid; done). by rewrite E0 in Hstr. }
  assert (0 < length cs)%nat as Hpos by (destruct cs; simpl; [done|lia]).
  rewrite (u32_small (Z.of_nat (length cs) - 1)) by lia. change (u32 (-1)) with (2 ^ 32 - 1).
  rewrite (proj2 (Z.eqb_neq _ _)) by lia.
  assert (∀ i x, sp1 !! i = Some x → (cs ++ [0]) !! (0 + i)%nat = Some x) as Hl1.
  { intros i x Hi. unfold cs. rewrite <- app_assoc. by apply lookup_app_l_Some. }
  assert (∃ c, (cs ++ [0]) !! (0 + length sp1)%nat = Some c ∧ isspace c = false) as (c0 & Hc0 & Hns0).
  { unfold cs. simpl. rewrite <- app_assoc, lookup_app_r, Nat.sub_diag by lia.
    destruct mid as [|c mid]; simpl; [|by exists c; split; [|apply Hh]]. rewrite Hmid by done.
    by exists 0. }
  pose proof (trim_begin_ok m s _ sp1 c0 (mem_fuel m) 0%nat Hw Hl1 Hs1 Hc0 Hns0) as Eb.
  change (Z.of_nat 0) with 0 in Eb. rewrite Eb by (unfold mem_fuel; lia). cbn [mbind res_bind]. rewrite Nat.add_0_l.
  replace (Z.of_nat (length cs) - 1) with (Z.of_nat (length cs - 1)) by lia.
  destruct mid as [|c mid' _] using rev_ind.
  - assert (sp2 = []) as -> by auto. simpl in Hlc.
    assert (trim_end (mem_fuel m) m s (Z.of_nat (length sp1)) (Z.of_nat (length cs - 1)) = Ok (Z.of_nat (length cs - 1))) as ->.
    { unfold mem_fuel. simpl. by rewrite (proj2 (Z.leb_gt _ _)) by lia. }
    cbn [mbind res_bind].
    replace (Z.to_nat (Z.of_nat (length cs - 1) + 1 - Z.of_nat (length sp1))) with 0%nat by lia. simpl.
    destruct (win_store m s _ 0 0 Hw) as (m' & E & Hw' & Hs'); [lia|]. exists m'. split_and!; [exact E| |].
    + apply (win_cstring m' s [] (tail (cs ++ [0]))); [|done].
      destruct (cs ++ [0]) eqn:E'; [by destruct cs|]. exact Hw'.
    + rewrite Hl in Hs'. by replace (Z.of_nat (length cs) + 1) with (Z.of_nat (S (length cs))) by lia.
  - rewrite length_app in Hlc. simpl in Hlc. set (k := length mid') in *.
    assert ((cs ++ [0]) !! (length sp1 + k)%nat = Some c) as Hlastc.
    { unfold cs. rewrite <- !app_assoc. rewrite lookup_app_r by lia.
      replace (length sp1 + k - length sp1)%nat with k by lia. rewrite lookup_app_r by lia.
      by rewrite Nat.sub_diag. }
    rewrite (trim_end_ok m s _ (length sp1 + k) (length cs - 1 - (length sp1 + k)) (length sp1) c
      (mem_fuel m) (length cs - 1) Hw); [|lia|lia| |lia|done|apply Hla; by rewrite last_snoc|done|unfold mem_fuel; lia].
    2:{ intros i x Hi Hx. unfold cs in Hx. rewrite <- !app_assoc in Hx.
        rewrite lookup_app_r in Hx by lia. rewrite lookup_app_r in Hx by lia. rewrite lookup_app_r in Hx by (simpl; lia).
        rewrite lookup_app_l in Hx by (simpl; lia). rewrite Forall_lookup in Hs2. by eapply Hs2. }
    cbn [mbind res_bind].
    replace (Z.to_nat (Z.of_nat (length sp1 + k) + 1 - Z.of_nat (length sp1))) with (S k) by lia.
    unfold cs in Hcs. rewrite !Forall_app in Hcs.
    destruct (trim_shift m s (cs ++ [0]) (length sp1) (S k) (mid' ++ [c]) Hw) as (m2 & E2 & Hc & Ho).
    + unfold cs. rewrite <- (app_assoc sp1), drop_app_length, <- app_assoc.
      rewrite take_app_le by (rewrite length_app; simpl; lia). apply take_ge. rewrite length_app. simpl. lia.
    + rewrite length_app. simpl. lia.
    + lia.
    + apply Forall_app. naive_solver.
    + exists m2. split_and!; [exact E2|done|]. rewrite Hl in Ho.
      by replace (Z.of_nat (length cs) + 1) with (Z.of_nat (S (length cs))) by lia.
Qed.

Lemma trim_ok_witness : ∃ m', trim (bytes_mem 0x100 [32; 108; 115; 10; 0]) 0x100 = Ok m' ∧
  cstring (at_mem m' 0x100) [108; 115].
Proof.
  destruct (trim_ok (bytes_mem 0x100 [32; 108; 115; 10; 0]) 0x100 [32] [108; 115] [10]) as (m' & E & Hs & _).
  - apply bytes_mem_window; [lia|simpl; lia|repeat constructor; lia].
  - repeat constructor; lia.
  - simpl. lia.
  - repeat constructor.
  - repeat constructor.
  - intros c [= <-]. reflexivity.
  - intros c [= <-]. reflexivity.
  - discriminate.
  - exists m'. split; [exact E|exact Hs].
Defined.

(** ** memcpy and memset *)

(** [memcpy] between disjoint buffers copies every byte and changes nothing
    else. *)
Theorem memcpy_ok m dst src bs old :
  window m src bs → window m dst old → length old = length bs → Z.of_nat (length bs) < 2 ^ 31 →
  (src + Z.of_nat (length bs) ≤ dst ∨ dst + Z.of_nat (length bs) ≤ src) →
  ∃ m', memcpy m dst src (Z.of_nat (length bs)) = Ok m' ∧ window m' dst bs ∧ window m' src bs ∧
    same_outside dst (Z.of_nat (length bs)) m m'.
Proof.
  intros Hs Hd Hl Hb Hdis. pose proof Hs as [[_ Hbs] Hrs]. pose proof Hd as [_ Hrd].
  assert (∀ m1, same_outside dst (Z.of_nat (length bs)) m m1 → window m1 src bs) as Hkeep.
  { intros m1 Ho. apply win_intro; [lia|lia|done|]. intros i b Hi. pose proof (lookup_lt_Some _ _ _ Hi).
    rewrite Ho by lia. by eapply win_lookup. }
  destruct (for_loop_inv (λ i m', ∃ k, i = Z.of_nat k ∧ (k ≤ length bs)%nat ∧
      window m' dst (take k bs ++ drop k old) ∧ same_outside dst (Z.of_nat (length bs)) m m')
    (λ i m, c ← load8 m (src + i); store8 m (dst + i) c) (length bs) 0 m) as (m' & E & k & Hk & _ & Hw' & Ho).
  - exists 0%nat. split_and!; [lia|lia|done|done].
  - intros i m1 Hi (k & -> & Hk & Hw1 & Ho1). assert (k < length bs)%nat as Hkn by lia.
    destruct (lookup_lt_is_Some_2 bs k Hkn) as [b Hbk].
    assert (length (take k bs ++ drop k old) = length bs) as Hl1
      by (rewrite length_app, length_take, length_drop; lia).
    destruct (win_store m1 dst _ k b Hw1) as (m2 & E2 & Hw2 & Ho2); [lia|].
    exists m2. split; [by rewrite (win_load _ _ _ _ _ (Hkeep m1 Ho1) Hbk)|].
    exists (S k). rewrite Hl1 in Ho2. split_and!; [lia|lia| |by transitivity m1].
    rewrite Forall_lookup in Hbs. rewrite u8_small in Hw2 by (by apply (Hbs k)).
    replace (take (S k) bs ++ drop (S k) old) with (<[k := b]> (take k bs ++ drop k old)); [done|].
    rewrite insert_app_r_alt by (rewrite length_take; lia). rewrite length_take.
    replace (k - k `min` length bs)%nat with 0%nat by lia.
    destruct (lookup_lt_is_Some_2 old k ltac:(lia)) as [y Hy].
    by rewrite (drop_S _ y _ Hy), (take_S_r _ _ b Hbk), <- app_assoc.
  - assert (k = length bs) as -> by lia. exists m'. split_and!; [| | |done].
    + unfold memcpy. rewrite (proj2 (Z.ltb_lt _ _)) by lia. simpl. by rewrite Nat2Z.id.
    + by rewrite take_ge, drop_ge, app_nil_r in Hw' by lia.
    + by apply Hkeep.
Qed.

Lemma memcpy_ok_witness : ∃ m', memcpy (bytes_mem 0x100 [1; 2; 3; 4; 5; 6]) 0x100 0x103 3 = Ok m' ∧
  window m' 0x100 [4; 5; 6].
Proof.
  assert (window (bytes_mem 0x100 [1; 2; 3; 4; 5; 6]) 0x100 [1; 2; 3; 4; 5; 6]) as Hw.
  { apply bytes_mem_window; [lia|simpl; lia|repeat constructor; lia]. }
  destruct (memcpy_ok (bytes_mem 0x100 [1; 2; 3; 4; 5; 6]) 0x100 0x103 [4; 5; 6] [1; 2; 3]) as (m' & E & Hd & _).
  - apply win_intro; [lia|simpl; lia|repeat constructor; lia|]. intros i b Hi.
    replace (0x103 + Z.of_nat i) with (0x100 + Z.of_nat (3 + i)) by lia. by apply (win_lookup _ _ _ _ _ Hw).
  - apply win_intro; [lia|simpl; lia|repeat constructor; lia|]. intros i b Hi.
    apply (win_lookup _ _ _ _ _ Hw). by apply (lookup_app_l_Some [1; 2; 3] [4; 5; 6]).
  - reflexivity.
  - simpl. lia.
  - right. simpl. lia.
  - exists m'. split; [exact E|exact Hd].
Defined.

(** ** atoi *)

Definition is_digit (c : Z) : bool := (0x30 <=? c) && (c <=? 0x39).
Definition dec_value (r : Z) (cs : list Z) : Z := foldl (λ r c, r * 10 + (c - 0x30)) r cs.

Lemma dec_value_ge cs : ∀ r, Forall (λ c, is_digit c = true) cs → 0 ≤ r → r ≤ dec_value r cs.
Proof.
  induction cs as [|c cs IH]; intros r Hc Hr; simpl; [lia|]. apply Forall_cons in Hc as [Hd Hc].
  unfold is_digit in Hd. apply andb_true_iff in Hd as [H1%Z.leb_le H2%Z.leb_le].
  specialize (IH (r * 10 + (c - 0x30)) Hc ltac:(lia)). unfold dec_value in *. simpl. lia.
Qed.

Lemma atoi_from_ok cs : ∀ fuel p i r x, (∀ j c, (cs ++ [x]) !! j = Some c → p (i + Z.of_nat j) = Ok c) →
  Forall (λ c, is_digit c = true) cs → is_digit x = false → 0 ≤ r → dec_value r cs + 0x30 < 2 ^ 31 →
  (length cs < fuel)%nat → atoi_from fuel p i r = Ok (dec_value r cs).
Proof.
  induction cs as [|c cs IH]; intros [|fuel] p i r x Hp Hc Hx Hr Hb Hf; simpl in Hf; try lia; simpl.
  - pose proof (Hp 0%nat x eq_refl) as E. rewrite Z.add_0_r in E. rewrite E. simpl.
    unfold is_digit in Hx. apply andb_false_iff in Hx.
    destruct (Z.eqb_spec x 0), (Z.ltb_spec 0x39 x), (Z.ltb_spec x 0x30); try done.
    destruct Hx as [Hx%Z.leb_gt|Hx%Z.leb_gt]; lia.
  - pose proof (Hp 0%nat c eq_refl) as E. rewrite Z.add_0_r in E. rewrite E. cbn [mbind res_bind].
    apply Forall_cons in Hc as [Hd Hc]. pose proof Hd as Hd'.
    unfold is_digit in Hd. apply andb_true_iff in Hd as [H1%Z.leb_le H2%Z.leb_le].
    rewrite (proj2 (Z.eqb_neq _ _)), (proj2 (Z.ltb_ge _ _)), (proj2 (Z.ltb_ge _ _)) by lia. simpl.
    assert (r * 10 + (c - 0x30) ≤ dec_value (r * 10 + (c - 0x30)) cs) by (apply dec_value_ge; [done|lia]).
    assert (dec_value r (c :: cs) = dec_value (r * 10 + (c - 0x30)) cs) as Ev by done. rewrite Ev in *.
    rewrite (proj2 (Z.ltb_lt _ _)) by lia. simpl.
    replace (r * 10 + c - 48) with (r * 10 + (c - 0x30)) by lia. apply (IH _ _ _ _ x); try done; try lia.
    intros j y Hj. replace (i + 1 + Z.of_nat j) with (i + Z.of_nat (S j)) by lia. by apply Hp.
Qed.

(** [atoi] returns the value of the digits up to the first byte that is not a
    digit, with no overflow on the way when that value leaves room for one
    character code below 2^31. *)
Theorem atoi_ok cs x fuel p : bytes_at p (cs ++ [x]) → Forall (λ c, is_digit c = true) cs →
  is_digit x = false → dec_value 0 cs + 0x30 < 2 ^ 31 → (length cs < fuel)%nat →
  atoi fuel p = Ok (dec_value 0 cs).
Proof. intros Hp Hc Hx Hb Hf. by apply (atoi_from_ok cs fuel p 0 0 x). Qed.

Lemma atoi_ok_witness : atoi 5 (lit "427x") = Ok 427.
Proof.
  apply (atoi_ok [0x34; 0x32; 0x37] 0x78 5 (lit "427x")).
  - intros i b Hi. apply (lit_bytes_at "427x"). apply (lookup_app_l_Some [0x34; 0x32; 0x37; 0x78] [0]), Hi.
  - repeat constructor.
  - reflexivity.
  - vm_compute. reflexivity.
  - simpl. lia.
Defined.

(** Comparing with a literal over its whole length, terminator included: the
    walk stops at the first difference, so it stays inside both strings. *)
Lemma strncmp_lit_from ds : ∀ cs p q i, cstring (shift_ptr p i) cs → cstring (shift_ptr q i) ds →
  ∃ r, strncmp_from (S (length ds)) p q i = Ok r ∧ (r = 0 ↔ cs = ds).
Proof.
  induction ds as [|d ds IH]; intros cs p q i Hp Hq.
  - pose proof (cstring_nil _ Hq) as Eq. unfold shift_ptr in Eq. rewrite Z.add_0_r in Eq.
    destruct cs as [|c cs].
    + pose proof (cstring_nil _ Hp) as Ep. unfold shift_ptr in Ep. rewrite Z.add_0_r in Ep.
      exists 0. simpl. by rewrite Ep, Eq.
    + destruct (cstring_cons _ _ _ Hp) as (Ep & Hc & _). unfold shift_ptr in Ep. rewrite Z.add_0_r in Ep.
      exists (byte_cmp c 0). simpl. rewrite Ep, Eq. simpl. rewrite (proj2 (Z.eqb_neq c 0)) by lia.
      split; [done|]. rewrite byte_cmp_0. split; [lia|done].
  - destruct (cstring_cons _ _ _ Hq) as (Eq & Hd & Hq'). unfold shift_ptr in Eq. rewrite Z.add_0_r in Eq.
    assert (∀ (p : cptr), shift_ptr (shift_ptr p i) 1 = λ k, p (i + (1 + k))) as Hsh by done.
    destruct cs as [|c cs].
    + pose proof (cstring_nil _ Hp) as Ep. unfold shift_ptr in Ep. rewrite Z.add_0_r in Ep.
      exists (byte_cmp 0 d). cbn [strncmp_from length]. rewrite Ep, Eq. cbn [mbind res_bind].
      rewrite (proj2 (Z.eqb_neq 0 d)) by lia. split; [done|]. rewrite byte_cmp_0. split; [lia|done].
    + destruct (cstring_cons _ _ _ Hp) as (Ep & Hc & Hp'). unfold shift_ptr in Ep. rewrite Z.add_0_r in Ep.
      cbn [strncmp_from length]. rewrite Ep, Eq. cbn [mbind res_bind]. destruct (Z.eqb_spec c d) as [->|Hne].
      * destruct (IH cs p q (i + 1)) as (r & E & Hr).
        -- destruct Hp' as [H1 H2]. split; [|done]. intros j b Hj. specialize (H1 j b Hj).
           unfold shift_ptr in *. by rewrite <- Z.add_assoc.
        -- destruct Hq' as [H1 H2]. split; [|done]. intros j b Hj. specialize (H1 j b Hj).
           unfold shift_ptr in *. by rewrite <- Z.add_assoc.
        -- exists r. split; [exact E|]. rewrite Hr. split; congruence.
      * exists (byte_cmp c d). split; [done|]. rewrite byte_cmp_0. split; congruence.
Qed.

Lemma strncmp_lit cs ds p q : cstring p cs → cstring q ds →
  ∃ r, strncmp p q (Z.of_nat (length ds) + 1) = Ok r ∧ (r = 0 ↔ cs = ds).
Proof.
  intros Hp Hq. unfold strncmp. replace (Z.to_nat (Z.of_nat (length ds) + 1)) with (S (length ds)) by lia.
  by apply strncmp_lit_from.
Qed.

(** Comparing [len] bytes of two strings of length [len]. *)
Lemma strncmp_same_length cs ds p q : cstring p cs → cstring q ds → length cs = length ds →
  ∃ r, strncmp p q (Z.of_nat (length cs)) = Ok r ∧ (r = 0 ↔ cs = ds).
Proof.
  intros [Hp _] [Hq _] Hl. unfold strncmp. rewrite Nat2Z.id. apply strncmp_from_ok; [done| |].
  - intros j b Hj. apply Hp. by apply lookup_app_l_Some.
  - intros j b Hj. apply Hq. by apply lookup_app_l_Some.
Qed.
