(* ===== verification/Dtb.v ===== *)
(** lib/dtb.c: the flattened device tree. *)
From S2P Require Import Prelude Util Mem CString.
Local Open Scope Z_scope.

Definition FDT_MAGIC : Z := 0xD00DFEED.
Definition FDT_BEGIN_NODE : Z := 1.
Definition FDT_END_NODE : Z := 2.
Definition FDT_PROP : Z := 3.
Definition FDT_NOP : Z := 4.
Definition FDT_END : Z := 9.
Definition FDT_ALIGNMENT : Z := 4.

Definition big2little (data : Z) : Z :=
  Z.lor (Z.land (Z.shiftr data 24) 0xff)
  (Z.lor (Z.land (Z.shiftr data 8) 0xff00)
  (Z.lor (Z.land (u32 (Z.shiftl data 8)) 0xff0000)
         (Z.land (u32 (Z.shiftl data 24)) 0xff000000))).

Definition big2little64 (data : Z) : Z :=
  Z.lor (Z.land (Z.shiftr data 56) 0xff)
  (Z.lor (Z.land (Z.shiftr data 40) 0xff00)
  (Z.lor (Z.land (Z.shiftr data 24) 0xff0000)
  (Z.lor (Z.land (Z.shiftr data 8) 0xff000000)
  (Z.lor (Z.land (u64 (Z.shiftl data 8)) 0xff00000000)
  (Z.lor (Z.land (u64 (Z.shiftl data 24)) 0xff0000000000)
  (Z.lor (Z.land (u64 (Z.shiftl data 40)) 0xff000000000000)
         (Z.land (u64 (Z.shiftl data 56)) 0xff00000000000000))))))).

(** The fields of [fdt_header] the code reads, by their offset. *)
Definition hdr_magic (m : bmem) (h : Z) : res Z := load32 m h.
Definition hdr_off_dt_struct (m : bmem) (h : Z) : res Z := load32 m (h + 8).
Definition hdr_off_dt_strings (m : bmem) (h : Z) : res Z := load32 m (h + 12).
Definition hdr_off_mem_rsvmap (m : bmem) (h : Z) : res Z := load32 m (h + 16).
Definition hdr_size_dt_struct (m : bmem) (h : Z) : res Z := load32 m (h + 36).

Section traverse.
Context {St : Type} (m : bmem).
(** [callback(token, name, value, value_len)] *)
Variable callback : Z → Z → Z → Z → St → res St.
Variable name_start : Z.

(** [while (ptr < end)] of [fdt_traverse]. *)
Fixpoint fdt_walk (fuel : nat) (ptr fin : Z) (s : St) : res St :=
  match fuel with
  | O => Fuel
  | S fuel =>
      if negb (ptr <? fin) then mret s
      else
        w ← load32 m ptr;
        let token := big2little w in
        let ptr := u64 (ptr + 4) in
        if token =? FDT_BEGIN_NODE then
          s ← callback token ptr 0 0 s;
          n ← strlen (mem_fuel m) (at_mem m ptr);
          let ptr := u64 (ptr + u32 (n + 1)) in
          fdt_walk fuel (align_up ptr FDT_ALIGNMENT) fin s
        else if token =? FDT_PROP then
          l ← load32 m ptr;
          let len := big2little l in
          let ptr := u64 (ptr + 4) in
          o ← load32 m ptr;
          let name := u64 (name_start + big2little o) in
          let ptr := u64 (ptr + 4) in
          s ← callback token name ptr len s;
          let ptr := u64 (ptr + len) in
          fdt_walk fuel (align_up ptr FDT_ALIGNMENT) fin s
        else if (token =? FDT_END_NODE) || (token =? FDT_NOP) || (token =? FDT_END) then
          s ← callback token 0 0 0 s; fdt_walk fuel ptr fin s
        else (* prints "token value error" *) fdt_walk fuel ptr fin s
  end.
End traverse.

(** Each turn of the walk moves at least one word forward. *)
Definition fdt_fuel (size : Z) : nat := S (Z.to_nat (size / 4 + 1)).

Definition fdt_traverse {St} (m : bmem) (dtb_addr : Z)
    (callback : Z → Z → Z → Z → St → res St) (s : St) : res St :=
  magic ← hdr_magic m dtb_addr;
  if negb (big2little magic =? FDT_MAGIC) then mret s
  else
    sz ← hdr_size_dt_struct m dtb_addr;
    off ← hdr_off_dt_struct m dtb_addr;
    str ← hdr_off_dt_strings m dtb_addr;
    let size := big2little sz in
    let ptr := u64 (dtb_addr + big2little off) in
    let name_start := u64 (dtb_addr + big2little str) in
    fdt_walk m callback name_start (fdt_fuel size) ptr (u64 (ptr + size)) s.

(** The globals [cpio_ramfs] and [cpio_ramfs_end] of include/cpio.h. *)
Record ramfs := Ramfs { cpio_ramfs : Z; cpio_ramfs_end : Z }.

Definition fdt_callback_initramfs (m : bmem) (token name value value_len : Z) (g : ramfs)
    : res ramfs :=
  if negb (token =? FDT_PROP) then mret g
  else
    c1 ← strncmp (at_mem m name) (lit "linux,initrd-start") 19;
    g ← (if c1 =? 0 then
           v ← load32 m value; mret (Ramfs (PHYS_TO_VIRT (big2little v)) (cpio_ramfs_end g))
         else mret g);
    c2 ← strncmp (at_mem m name) (lit "linux,initrd-end") 17;
    if c2 =? 0 then
      v ← load32 m value; mret (Ramfs (cpio_ramfs g) (PHYS_TO_VIRT (big2little v)))
    else mret g.

(** Reads the first entry of the memory reservation block only. *)
Definition dtb_reserve_mem {St} (m : bmem) (dtb_addr : Z)
    (reserve_page_ptr : Z → Z → St → res St) (s : St) : res St :=
  magic ← hdr_magic m dtb_addr;
  if negb (big2little magic =? FDT_MAGIC) then mret s
  else
    off ← hdr_off_mem_rsvmap m dtb_addr;
    let entry := u64 (dtb_addr + big2little off) in
    a ← load64 m entry;
    z ← load64 m (entry + 8);
    let reserve_mem_start := PHYS_TO_VIRT (big2little64 a) in
    let reserve_mem_end := u64 (reserve_mem_start + big2little64 z) in
    reserve_page_ptr reserve_mem_start reserve_mem_end s.

(** ** Byte order *)

(** Byte [i] of a word, 0 the least significant. *)
Definition byte_of (x i : Z) : Z := Z.land (Z.shiftr x (8 * i)) 0xff.

Lemma byte_of_testbit x i n : 0 ≤ i → 0 ≤ n →
  Z.testbit (byte_of x i) n = (n <? 8) && Z.testbit x (n + 8 * i).
Proof.
  intros Hi Hn. unfold byte_of. rewrite Z.land_spec, Z.shiftr_spec by done. change 0xff with (Z.ones 8).
  rewrite Z.testbit_ones_nonneg by lia. apply andb_comm.
Qed.

Ltac bit_cases n :=
  let H := fresh in
  assert (n = 0 ∨ n = 1 ∨ n = 2 ∨ n = 3 ∨ n = 4 ∨ n = 5 ∨ n = 6 ∨ n = 7) as H by lia;
  repeat (destruct H as [H|H]; [subst n|]); [..|subst n].

Ltac bit_solve :=
  rewrite ?Z.shiftr_spec, ?Z.shiftl_spec by done; cbn -[Z.testbit];
  cbn [Z.testbit Pos.testbit Pos.pred_double Pos.pred_N];
  rewrite ?andb_false_r, ?andb_true_r, ?orb_false_r; try done.

Lemma big2little_byte x i : 0 ≤ i < 4 → byte_of (big2little x) i = byte_of x (3 - i).
Proof.
  intros Hi. apply Z.bits_inj'. intros n Hn. rewrite !byte_of_testbit by lia.
  destruct (Z.ltb_spec n 8); [simpl|done].
  unfold big2little. rewrite !Z.lor_spec, !Z.land_spec, !u32_testbit.
  assert (i = 0 ∨ i = 1 ∨ i = 2 ∨ i = 3) as [->|[->|[->| ->]]] by lia; bit_cases n; bit_solve.
Qed.

Lemma big2little64_byte x i : 0 ≤ i < 8 → byte_of (big2little64 x) i = byte_of x (7 - i).
Proof.
  intros Hi. apply Z.bits_inj'. intros n Hn. rewrite !byte_of_testbit by lia.
  destruct (Z.ltb_spec n 8); [simpl|done].
  unfold big2little64. rewrite !Z.lor_spec, !Z.land_spec, !u64_testbit.
  bit_cases i; bit_cases n; bit_solve.
Qed.

(** Masked words are words. *)
Lemma lor_small x y k : 0 ≤ k → 0 ≤ x < 2 ^ k → 0 ≤ y < 2 ^ k → 0 ≤ Z.lor x y < 2 ^ k.
Proof.
  intros Hk Hx Hy. assert (0 ≤ Z.lor x y) as H0 by (apply Z.lor_nonneg; lia). split; [done|].
  assert (Z.lor x y mod 2 ^ k = Z.lor x y) as <-; [|apply Z.mod_pos_bound; lia].
  apply Z.bits_inj'. intros n Hn. destruct (Z.lt_ge_cases n k).
  - by rewrite Z.mod_pow2_bits_low.
  - rewrite Z.mod_pow2_bits_high, Z.lor_spec by done.
    rewrite <- (Z.mod_small x (2 ^ k)), <- (Z.mod_small y (2 ^ k)) by done.
    by rewrite !Z.mod_pow2_bits_high.
Qed.

Lemma land_small x y k : 0 ≤ k → 0 ≤ y < 2 ^ k → 0 ≤ Z.land x y < 2 ^ k.
Proof.
  intros Hk Hy. assert (0 ≤ Z.land x y) as H0 by (apply Z.land_nonneg; lia). split; [done|].
  assert (Z.land x y mod 2 ^ k = Z.land x y) as <-; [|apply Z.mod_pos_bound; lia].
  apply Z.bits_inj'. intros n Hn. destruct (Z.lt_ge_cases n k).
  - by rewrite Z.mod_pow2_bits_low.
  - rewrite Z.mod_pow2_bits_high, Z.land_spec by done.
    rewrite <- (Z.mod_small y (2 ^ k)) by done. by rewrite Z.mod_pow2_bits_high, andb_false_r.
Qed.

Lemma big2little_range x : 0 ≤ big2little x < 2 ^ 32.
Proof. unfold big2little. repeat (apply lor_small; [done|by apply land_small|]). by apply land_small. Qed.

Lemma big2little64_range x : 0 ≤ big2little64 x < 2 ^ 64.
Proof. unfold big2little64. repeat (apply lor_small; [done|by apply land_small|]). by apply land_small. Qed.

Lemma word_bytes_eq k x y : 0 ≤ k → 0 ≤ x < 2 ^ (8 * k) → 0 ≤ y < 2 ^ (8 * k) →
  (∀ i, 0 ≤ i < k → byte_of x i = byte_of y i) → x = y.
Proof.
  intros Hk Hx Hy H. apply Z.bits_inj'. intros n Hn. destruct (Z.lt_ge_cases n (8 * k)).
  - pose proof (Z.div_mod n 8 ltac:(lia)) as E. pose proof (Z.mod_pos_bound n 8 ltac:(lia)).
    assert (0 ≤ n / 8 < k) as Hi by lia.
    pose proof (f_equal (λ z, Z.testbit z (n mod 8)) (H _ Hi)) as Hb. simpl in Hb.
    rewrite !byte_of_testbit in Hb by lia. replace (n mod 8 <? 8) with true in Hb by lia. simpl in Hb.
    by replace (n mod 8 + 8 * (n / 8)) with n in Hb by lia.
  - rewrite <- (Z.mod_small x (2 ^ (8 * k))), <- (Z.mod_small y (2 ^ (8 * k))) by done.
    rewrite !Z.mod_pow2_bits_high by lia. done.
Qed.

(** ** Big-endian fields *)

(** The number whose digits in base 256 are [bs], most significant first. *)
Definition be_value (bs : list Z) : Z := foldl (λ acc b, acc * 256 + b) 0 bs.

Lemma byte_of_div x i : 0 ≤ i → byte_of x i = (x / 2 ^ (8 * i)) mod 256.
Proof.
  intros Hi. unfold byte_of. change 0xff with (Z.ones 8).
  by rewrite Z.land_ones, Z.shiftr_div_pow2 by lia.
Qed.

Lemma load32_bytes m a b0 b1 b2 b3 : mem_bytes m a [b0; b1; b2; b3] →
  ∃ w, load32 m a = Ok w ∧ 0 ≤ w < 2 ^ 32 ∧
    byte_of w 0 = b0 ∧ byte_of w 1 = b1 ∧ byte_of w 2 = b2 ∧ byte_of w 3 = b3.
Proof.
  intros [Hm Hb]. rewrite !Forall_cons in Hb. destruct Hb as (H0 & H1 & H2 & H3 & _).
  pose proof (Hm 0%nat b0 eq_refl) as E0. pose proof (Hm 1%nat b1 eq_refl) as E1.
  pose proof (Hm 2%nat b2 eq_refl) as E2. pose proof (Hm 3%nat b3 eq_refl) as E3. unfold at_mem in *.
  change (Z.of_nat 0) with 0 in E0. change (Z.of_nat 1) with 1 in E1.
  change (Z.of_nat 2) with 2 in E2. change (Z.of_nat 3) with 3 in E3.
  rewrite Z.add_0_r in E0. unfold load32. rewrite E0, E1, E2, E3. cbn [mbind res_bind].
  rewrite <- (u8_small b0), <- (u8_small b1), <- (u8_small b2), <- (u8_small b3) by done.
  eexists. split; [done|]. split.
  - repeat (apply lor_small; [done| |]); try (pose proof (u8_range b0); lia);
      rewrite Z.shiftl_mul_pow2 by done;
      pose proof (u8_range b1); pose proof (u8_range b2); pose proof (u8_range b3); lia.
  - split_and!; apply Z.bits_inj'; intros n Hn; rewrite byte_of_testbit, ?u8_testbit by lia;
      (destruct (Z.ltb_spec n 8); [|done]); rewrite !Z.lor_spec; bit_cases n;
      rewrite ?Z.shiftl_spec by done; cbn -[Z.testbit u8]; rewrite ?u8_testbit;
      cbn -[Z.testbit]; rewrite ?(Z.testbit_neg_r _ (Zneg _)) by done; rewrite ?orb_false_r; done.
Qed.

Lemma byte_of_join lo hi i : 0 ≤ lo < 2 ^ 32 → 0 ≤ i →
  byte_of (Z.lor lo (Z.shiftl hi 32)) i = if i <? 4 then byte_of lo i else byte_of hi (i - 4).
Proof.
  intros Hlo Hi. apply Z.bits_inj'. intros n Hn.
  rewrite <- (u32_small lo) by done. destruct (Z.ltb_spec i 4).
  - rewrite !byte_of_testbit by lia. destruct (Z.ltb_spec n 8); [|done].
    rewrite Z.lor_spec, Z.shiftl_spec by lia. rewrite (Z.testbit_neg_r hi) by lia. by rewrite orb_false_r.
  - rewrite !byte_of_testbit by lia. destruct (Z.ltb_spec n 8); [|done].
    rewrite Z.lor_spec, Z.shiftl_spec, u32_testbit by lia. rewrite (proj2 (Z.ltb_ge _ 32)) by lia.
    simpl. by replace (n + 8 * i - 32) with (n + 8 * (i - 4)) by lia.
Qed.

Lemma be_value_snoc bs b : be_value (bs ++ [b]) = be_value bs * 256 + b.
Proof. unfold be_value. by rewrite foldl_app. Qed.

Lemma be_value_range bs : Forall (λ b, 0 ≤ b < 256) bs →
  0 ≤ be_value bs < 2 ^ (8 * Z.of_nat (length bs)).
Proof.
  induction bs as [|b bs IH] using rev_ind; intros H; [done|].
  apply Forall_app in H as [H [Hb _]%Forall_cons]. specialize (IH H).
  rewrite be_value_snoc, length_app. simpl in Hb. change (length [b]) with 1%nat.
  replace (8 * Z.of_nat (length bs + 1)) with (8 * Z.of_nat (length bs) + 8) by lia.
  rewrite Z.pow_add_r by lia. change (2 ^ 8) with 256. lia.
Qed.

(** Digit [i] from the right. *)
Lemma be_value_byte bs i b : Forall (λ b, 0 ≤ b < 256) bs →
  reverse bs !! i = Some b → byte_of (be_value bs) (Z.of_nat i) = b.
Proof.
  revert i. induction bs as [|c bs IH] using rev_ind; intros i H Hi; [done|].
  apply Forall_app in H as [H [Hc _]%Forall_cons].
  simpl in Hc. rewrite reverse_snoc in Hi. rewrite be_value_snoc, byte_of_div by lia.
  pose proof (be_value_range bs H). destruct i as [|i]; simplify_eq/=.
  - change (2 ^ (8 * Z.of_nat 0)) with 1. rewrite Z.div_1_r, Z.add_comm, Z.mod_add by lia.
    by apply Z.mod_small.
  - rewrite <- (IH i H Hi), byte_of_div by lia.
    replace (8 * Z.of_nat (S i)) with (8 + 8 * Z.of_nat i) by lia.
    assert (0 < 2 ^ (8 * Z.of_nat i)) by (apply Z.pow_pos_nonneg; lia).
    rewrite Z.pow_add_r, <- Z.div_div by lia. change (2 ^ 8) with 256.
    by replace ((be_value bs * 256 + c) / 256) with (be_value bs)
      by (rewrite Z.div_add_l, Z.div_small by lia; lia).
Qed.

Lemma load32_be m a b0 b1 b2 b3 : mem_bytes m a [b0; b1; b2; b3] →
  ∃ w, load32 m a = Ok w ∧ big2little w = be_value [b0; b1; b2; b3].
Proof.
  intros Hm. destruct (load32_bytes _ _ _ _ _ _ Hm) as (w & E & Hw & E0 & E1 & E2 & E3).
  exists w. split; [done|]. apply (word_bytes_eq 4); [done|apply big2little_range|apply be_value_range, Hm|].
  intros i Hi. rewrite big2little_byte by done. symmetry.
  assert (i = 0 ∨ i = 1 ∨ i = 2 ∨ i = 3) as [->|[->|[->| ->]]] by lia;
    [apply (be_value_byte _ 0)|apply (be_value_byte _ 1)|apply (be_value_byte _ 2)|apply (be_value_byte _ 3)];
    try apply Hm; apply (f_equal Some); symmetry; assumption.
Qed.

Lemma load64_be m a b0 b1 b2 b3 b4 b5 b6 b7 : mem_bytes m a [b0; b1; b2; b3; b4; b5; b6; b7] →
  ∃ w, load64 m a = Ok w ∧ big2little64 w = be_value [b0; b1; b2; b3; b4; b5; b6; b7].
Proof.
  intros Hm.
  destruct (mem_bytes_app m a [b0; b1; b2; b3] [b4; b5; b6; b7] Hm) as [Hlo Hhi].
  destruct (load32_bytes _ _ _ _ _ _ Hlo) as (w & E & Hw & E0 & E1 & E2 & E3).
  destruct (load32_bytes _ _ _ _ _ _ Hhi) as (v & F & Hv & E4 & E5 & E6 & E7).
  change (Z.of_nat (length _)) with 4 in F.
  eexists. split; [unfold load64; by rewrite E, F|].
  apply (word_bytes_eq 8); [done|apply big2little64_range|apply be_value_range, Hm|].
  intros i Hi. rewrite big2little64_byte by done. rewrite byte_of_join by lia. symmetry.
  bit_cases i; [apply (be_value_byte _ 0)|apply (be_value_byte _ 1)|apply (be_value_byte _ 2)|
    apply (be_value_byte _ 3)|apply (be_value_byte _ 4)|apply (be_value_byte _ 5)|
    apply (be_value_byte _ 6)|apply (be_value_byte _ 7)]; try apply Hm; apply (f_equal Some); symmetry; assumption.
Qed.

(** [big2little] reverses the bytes of a word, so it undoes itself. *)
Theorem big2little_involutive x : 0 ≤ x < 2 ^ 32 → big2little (big2little x) = x.
Proof.
  intros Hx. apply (word_bytes_eq 4); [done|apply big2little_range|done|].
  intros i Hi. rewrite !big2little_byte by lia. f_equal. lia.
Qed.

Lemma big2little_involutive_witness : big2little (big2little 0xd00dfeed) = 0xd00dfeed.
Proof. apply (big2little_involutive 0xd00dfeed). lia. Defined.

(** ** The memory reservation block *)

(** A device tree at [h] whose first reservation entry is [start, start + size). *)
Record dtb_reserves (m : bmem) (h : Z) (start size : Z) : Prop := {
  dr_magic : mem_bytes m h [0xd0; 0x0d; 0xfe; 0xed];
  dr_entry : ∃ ob ab zb, length ob = 4%nat ∧ length ab = 8%nat ∧ length zb = 8%nat ∧
    mem_bytes m (h + 16) ob ∧ 0 ≤ h ∧ h + be_value ob < 2 ^ 64 ∧
    mem_bytes m (h + be_value ob) (ab ++ zb) ∧ be_value ab = start ∧ be_value zb = size;
}.

Lemma dtb_magic_ok m h : mem_bytes m h [0xd0; 0x0d; 0xfe; 0xed] →
  ∃ w, hdr_magic m h = Ok w ∧ big2little w = FDT_MAGIC.
Proof. intros H. destruct (load32_be _ _ _ _ _ _ H) as (w & E & Ew). by exists w. Qed.

(** [dtb_reserve_mem] reports exactly the first entry, at its virtual address. *)
Lemma dtb_reserve_mem_ok {St} m h start size (cb : Z → Z → St → res St) s :
  dtb_reserves m h start size →
  dtb_reserve_mem m h cb s = cb (PHYS_TO_VIRT start) (u64 (PHYS_TO_VIRT start + size)) s.
Proof.
  intros [Hm (ob & ab & zb & Lo & La & Lz & Ho & Hh & Hr & He & Ha & Hz)].
  destruct (dtb_magic_ok m h Hm) as (w & E & Ew).
  pose proof (be_value_range ob (proj2 Ho)) as [Hpos _].
  destruct ob as [|o0 [|o1 [|o2 [|o3 [|]]]]]; try done.
  destruct ab as [|a0 [|a1 [|a2 [|a3 [|a4 [|a5 [|a6 [|a7 [|]]]]]]]]]; try done.
  destruct zb as [|z0 [|z1 [|z2 [|z3 [|z4 [|z5 [|z6 [|z7 [|]]]]]]]]]; try done.
  apply mem_bytes_app in He as [He1 He2].
  destruct (load32_be _ _ _ _ _ _ Ho) as (o & Eo & Eob).
  destruct (load64_be _ _ _ _ _ _ _ _ _ _ He1) as (a & Ea & Eab).
  destruct (load64_be _ _ _ _ _ _ _ _ _ _ He2) as (z & Ez & Ezb).
  change (Z.of_nat (length _)) with 8 in Ez.
  unfold dtb_reserve_mem. rewrite E. cbn [mbind res_bind]. rewrite Ew. simpl (negb _). cbv iota.
  unfold hdr_off_mem_rsvmap. res_step Eo. rewrite Eob, u64_small by lia.
  res_step Ea. res_step Ez. by rewrite Eab, Ezb, Ha, Hz.
Qed.
