(* ===== verification/DtbWalk.v ===== *)
(** The walk of [fdt_traverse] (lib/dtb.c) against the list of items a structure
    block encodes, and what the initramfs callback finds. *)
From S2P Require Import Prelude Util Mem CString Dtb.
Local Open Scope Z_scope.

(** ** Device trees as data *)

(** The pieces of a structure block; a property has the offset of its name in the
    strings block. *)
Inductive fdt_item : Type :=
| BeginNode (name : list Z)
| EndNode
| Property (nameoff : Z) (value : list Z)
| Nop
| EndTree.

Definition be32 (x : Z) : list Z := [x / 2 ^ 24 mod 256; x / 2 ^ 16 mod 256; x / 2 ^ 8 mod 256; x mod 256].
Definition padded (bs : list Z) : list Z := bs ++ pad4 (length bs).
Definition item_bytes (it : fdt_item) : list Z :=
  match it with
  | BeginNode name => be32 FDT_BEGIN_NODE ++ padded (name ++ [0])
  | EndNode => be32 FDT_END_NODE
  | Property off v => be32 FDT_PROP ++ be32 (Z.of_nat (length v)) ++ be32 off ++ padded v
  | Nop => be32 FDT_NOP
  | EndTree => be32 FDT_END
  end.
Definition struct_bytes (items : list fdt_item) : list Z := flat_map item_bytes items.

Definition item_ok (it : fdt_item) : Prop :=
  match it with
  | BeginNode name => Forall (λ c, 0 < c < 256) name
  | Property off v => 0 ≤ off < 2 ^ 32 ∧ Z.of_nat (length v) < 2 ^ 32
  | _ => True
  end.

(** The arguments of the call for an item at [a]. *)
Definition item_call (names a : Z) (it : fdt_item) : Z * Z * Z * Z :=
  match it with
  | BeginNode _ => (FDT_BEGIN_NODE, a + 4, 0, 0)
  | EndNode => (FDT_END_NODE, 0, 0, 0)
  | Property off v => (FDT_PROP, u64 (names + off), a + 12, Z.of_nat (length v))
  | Nop => (FDT_NOP, 0, 0, 0)
  | EndTree => (FDT_END, 0, 0, 0)
  end.
Fixpoint item_calls (names a : Z) (items : list fdt_item) : list (Z * Z * Z * Z) :=
  match items with
  | [] => []
  | it :: items => item_call names a it :: item_calls names (a + Z.of_nat (length (item_bytes it))) items
  end.

(** The calls one after the other. *)
Fixpoint run_calls {St} (callback : Z → Z → Z → Z → St → res St) (l : list (Z * Z * Z * Z)) (s : St) : res St :=
  match l with
  | [] => mret s
  | (t, n, v, len) :: l => s ← callback t n v len s; run_calls callback l s
  end.

(** A device tree at [h]: its header, and a structure block that encodes [items]. *)
Record device_tree (m : bmem) (h off names : Z) (items : list fdt_item) : Prop := {
  dt_magic : mem_bytes m h (be32 FDT_MAGIC);
  dt_size : mem_bytes m (h + 36) (be32 (Z.of_nat (length (struct_bytes items))));
  dt_off : mem_bytes m (h + 8) (be32 off);
  dt_strings : mem_bytes m (h + 12) (be32 names);
  dt_struct : mem_bytes m (h + off) (struct_bytes items);
  dt_items : Forall item_ok items;
  dt_range : 0 ≤ off < 2 ^ 32 ∧ 0 ≤ names < 2 ^ 32 ∧ 0 ≤ h ∧ h + names < 2 ^ 64 ∧ (h + off) mod 4 = 0 ∧
    Z.of_nat (length (struct_bytes items)) < 2 ^ 32 ∧ h + off + Z.of_nat (length (struct_bytes items)) + 8 ≤ 2 ^ 64;
}.

(** ** The walk *)

Lemma be32_value x : 0 ≤ x < 2 ^ 32 → be_value (be32 x) = x.
Proof.
  intros Hx. unfold be_value, be32. cbn [foldl].
  change (2 ^ 24) with 16777216. change (2 ^ 16) with 65536. change (2 ^ 8) with 256. change (2 ^ 32) with 4294967296 in Hx.
  Z.to_euclidean_division_equations. lia.
Qed.

Lemma load_be32 m a x : mem_bytes m a (be32 x) → 0 ≤ x < 2 ^ 32 → ∃ w, load32 m a = Ok w ∧ big2little w = x.
Proof. intros Hm Hx. destruct (load32_be _ _ _ _ _ _ Hm) as (w & E & Ew). exists w. split; [done|]. rewrite Ew. by apply be32_value. Qed.

Lemma padded_length bs : Z.of_nat (length (padded bs)) mod 4 = 0.
Proof. unfold padded. rewrite length_app, Nat2Z.inj_add. apply pad4_length. Qed.

Lemma item_length it : Z.of_nat (length (item_bytes it)) mod 4 = 0 ∧ (4 ≤ length (item_bytes it))%nat.
Proof.
  destruct it as [n| |o v| |]; try done; cbn [item_bytes]; rewrite !length_app;
    change (length (be32 _)) with 4%nat; (split; [|lia]).
  - rewrite Nat2Z.inj_add, <- Z.add_mod_idemp_r, padded_length by done. done.
  - rewrite !Nat2Z.inj_add, !Z.add_assoc, <- Z.add_mod_idemp_r, padded_length by done. done.
Qed.

Lemma struct_length items : (4 * length items ≤ length (struct_bytes items))%nat.
Proof.
  unfold struct_bytes. induction items as [|it items IH]; [simpl; lia|].
  cbn [flat_map length]. rewrite length_app. pose proof (proj2 (item_length it)). lia.
Qed.

Lemma padded_end a bs : 0 ≤ a → a mod 4 = 0 → a + Z.of_nat (length (padded bs)) + 8 ≤ 2 ^ 64 →
  align_up (a + Z.of_nat (length bs)) 4 = a + Z.of_nat (length (padded bs)).
Proof.
  intros Ha Hm Hr. unfold padded in *. rewrite length_app in *. apply align_up_pad; [done|done|]. lia.
Qed.

Section walk.
Context {St : Type} (m : bmem) (callback : Z → Z → Z → Z → St → res St) (names : Z).

(** Where the walk stands, with [items] to go. *)
Definition at_items (a : Z) (items : list fdt_item) : Prop :=
  mem_bytes m a (struct_bytes items) ∧ 0 ≤ a ∧ a mod 4 = 0 ∧ a + Z.of_nat (length (struct_bytes items)) + 8 ≤ 2 ^ 64 ∧
  Z.of_nat (length (struct_bytes items)) < 2 ^ 32.

Lemma at_items_next a it items : at_items a (it :: items) →
  at_items (a + Z.of_nat (length (item_bytes it))) items ∧ mem_bytes m a (item_bytes it) ∧
  0 ≤ a ∧ a mod 4 = 0 ∧ a + Z.of_nat (length (item_bytes it)) + 8 ≤ 2 ^ 64 ∧ Z.of_nat (length (item_bytes it)) < 2 ^ 32.
Proof using.
  intros (Hm & Ha & Hmod & Hr & Hl). unfold struct_bytes in *. cbn [flat_map] in *. rewrite length_app in *.
  apply mem_bytes_app in Hm as [H1 H2]. split; [|split; [exact H1|]; split_and!; try done; lia]. unfold at_items, struct_bytes. split; [done|]. split; [lia|]. split; [|lia].
  rewrite <- Z.add_mod_idemp_r, (proj1 (item_length it)), Z.add_0_r by done. done.
Qed.

(** A token with nothing behind it. *)
Lemma plain_turn t a fin fuel s : mem_bytes m a (be32 t) → t ∈ [FDT_END_NODE; FDT_NOP; FDT_END] → 0 ≤ a → a < fin → a + 4 + 8 ≤ 2 ^ 64 →
  fdt_walk m callback names (S fuel) a fin s = (s ← callback t 0 0 0 s; fdt_walk m callback names fuel (a + 4) fin s).
Proof using.
  intros Hm Ht Ha Hfin Hr. destruct (load_be32 _ _ t Hm) as (w & E & Ew).
  { rewrite !elem_of_cons in Ht. destruct Ht as [->|[->|[->|Ht]]]; [done..|]. by apply not_elem_of_nil in Ht. }
  cbn [fdt_walk]. rewrite (proj2 (Z.ltb_lt a fin)) by done. cbn [negb]. res_step E. rewrite Ew, u64_small by lia.
  rewrite !elem_of_cons in Ht. destruct Ht as [->|[->|[->|Ht]]]; [done..|]. by apply not_elem_of_nil in Ht.
Qed.

Lemma begin_turn name a fin fuel s : mem_bytes m a (item_bytes (BeginNode name)) → item_ok (BeginNode name) → 0 ≤ a → a mod 4 = 0 → a < fin →
  a + Z.of_nat (length (item_bytes (BeginNode name))) + 8 ≤ 2 ^ 64 → Z.of_nat (length (item_bytes (BeginNode name))) < 2 ^ 32 →
  fdt_walk m callback names (S fuel) a fin s = (s ← callback FDT_BEGIN_NODE (a + 4) 0 0 s;
    fdt_walk m callback names fuel (a + Z.of_nat (length (item_bytes (BeginNode name)))) fin s).
Proof using.
  intros Hm Hok Ha Hmod Hfin Hr Hl. cbn [item_bytes] in *. rewrite length_app in *. change (length (be32 _)) with 4%nat in *.
  apply mem_bytes_app in Hm as [Ht Hn]. change (Z.of_nat (length (be32 _))) with 4 in Hn.
  destruct (load_be32 _ _ FDT_BEGIN_NODE Ht) as (w & E & Ew); [done|].
  assert (length (name ++ [0]) = S (length name)) as En by (rewrite length_app; simpl; lia).
  assert (length name < length (padded (name ++ [0%Z])))%nat as Hlt by (unfold padded; rewrite length_app, En; lia).
  cbn [fdt_walk]. rewrite (proj2 (Z.ltb_lt a fin)) by done. cbn [negb]. res_step E. rewrite Ew, (u64_small (a + 4)) by lia.
  change (FDT_BEGIN_NODE =? FDT_BEGIN_NODE) with true. cbv iota. destruct (callback _ _ _ _ _) as [s1| |]; [|done..]. cbn [mbind res_bind].
  rewrite (strlen_ok m (a + 4) name); [|split; [|done]|lia].
  2:{ pose proof Hn as Hn'. unfold padded in Hn'. apply mem_bytes_app in Hn' as [[Hb _] _]. exact Hb. }
  cbn [mbind res_bind]. rewrite u32_small by lia. rewrite (u64_small (a + 4 + _)) by lia.
  replace (a + 4 + (Z.of_nat (length name) + 1)) with (a + 4 + Z.of_nat (length (name ++ [0]))) by lia.
  change FDT_ALIGNMENT with 4. rewrite (padded_end (a + 4)); [|lia| |lia].
  - f_equal. lia.
  - by rewrite <- Z.add_mod_idemp_r, Z.add_0_r.
Qed.

Lemma property_turn off v a fin fuel s : mem_bytes m a (item_bytes (Property off v)) → item_ok (Property off v) → 0 ≤ a → a mod 4 = 0 → a < fin →
  a + Z.of_nat (length (item_bytes (Property off v))) + 8 ≤ 2 ^ 64 →
  fdt_walk m callback names (S fuel) a fin s = (s ← callback FDT_PROP (u64 (names + off)) (a + 12) (Z.of_nat (length v)) s;
    fdt_walk m callback names fuel (a + Z.of_nat (length (item_bytes (Property off v)))) fin s).
Proof using.
  intros Hm [Ho Hv] Ha Hmod Hfin Hr. cbn [item_bytes] in *. rewrite !length_app in *. change (length (be32 _)) with 4%nat in *.
  apply mem_bytes_app in Hm as [Ht Hm]. apply mem_bytes_app in Hm as [Hl Hm]. apply mem_bytes_app in Hm as [Hoff _].
  change (Z.of_nat (length (be32 _))) with 4 in *.
  destruct (load_be32 _ _ FDT_PROP Ht) as (w & E & Ew); [done|]. destruct (load_be32 _ _ _ Hl) as (w1 & E1 & Ew1); [lia|].
  destruct (load_be32 _ _ _ Hoff Ho) as (w2 & E2 & Ew2). assert (length v ≤ length (padded v))%nat as Hlt by (unfold padded; rewrite length_app; lia).
  cbn [fdt_walk]. rewrite (proj2 (Z.ltb_lt a fin)) by done. cbn [negb]. res_step E. rewrite Ew, (u64_small (a + 4)) by lia.
  change (FDT_PROP =? FDT_BEGIN_NODE) with false. change (FDT_PROP =? FDT_PROP) with true. cbv iota.
  res_step E1. rewrite Ew1, (u64_small (a + 4 + 4)) by lia. res_step E2. rewrite Ew2, (u64_small (a + 4 + 4 + 4)) by lia.
  replace (a + 4 + 4 + 4) with (a + 12) by lia. destruct (callback _ _ _ _ _) as [s1| |]; [|done..]. cbn [mbind res_bind].
  rewrite u64_small by lia. change FDT_ALIGNMENT with 4. rewrite (padded_end (a + 12)); [|lia| |lia].
  - f_equal. lia.
  - rewrite <- Z.add_mod_idemp_r by done. change (12 mod 4) with 0. by rewrite Z.add_0_r.
Qed.

Lemma walk_ok items : ∀ a fuel s, Forall item_ok items → at_items a items → (length items < fuel)%nat →
  fdt_walk m callback names fuel a (a + Z.of_nat (length (struct_bytes items))) s = run_calls callback (item_calls names a items) s.
Proof using.
  induction items as [|it items IH]; intros a [|fuel] s Hok Ha Hf; simpl in Hf; try lia.
  - cbn [fdt_walk]. by rewrite (proj2 (Z.ltb_ge a _)) by (simpl; lia).
  - apply Forall_cons in Hok as [Hi Hok]. destruct (at_items_next _ _ _ Ha) as (Hn & Hm & H0 & Hmod & Hr & Hl).
    cbn [item_calls]. set (a' := a + Z.of_nat (length (item_bytes it))) in *.
    assert (a + Z.of_nat (length (struct_bytes (it :: items))) = a' + Z.of_nat (length (struct_bytes items))) as ->.
    { unfold struct_bytes, a'. cbn [flat_map]. rewrite length_app. lia. }
    assert (a < a' + Z.of_nat (length (struct_bytes items))) as Hlt by (pose proof (proj2 (item_length it)); unfold a'; lia).
    assert (∀ s1, fdt_walk m callback names fuel a' (a' + Z.of_nat (length (struct_bytes items))) s1 =
      run_calls callback (item_calls names a' items) s1) as Hrest by (intros s1; apply IH; [done|done|lia]).
    destruct it as [name| |off v| |]; cbn [item_call run_calls].
    + rewrite (begin_turn name) by done. destruct (callback _ _ _ _ _) as [s1| |]; [|done..]. apply Hrest.
    + rewrite (plain_turn FDT_END_NODE) by (done || (simpl in Hr; lia) || (rewrite !elem_of_cons; tauto)). destruct (callback _ _ _ _ _) as [s1| |]; [|done..]. apply Hrest.
    + rewrite (property_turn off v) by done. destruct (callback _ _ _ _ _) as [s1| |]; [|done..]. apply Hrest.
    + rewrite (plain_turn FDT_NOP) by (done || (simpl in Hr; lia) || (rewrite !elem_of_cons; tauto)). destruct (callback _ _ _ _ _) as [s1| |]; [|done..]. apply Hrest.
    + rewrite (plain_turn FDT_END) by (done || (simpl in Hr; lia) || (rewrite !elem_of_cons; tauto)). destruct (callback _ _ _ _ _) as [s1| |]; [|done..]. apply Hrest.
Qed.

End walk.

Lemma fdt_traverse_run {St} m (callback : Z → Z → Z → Z → St → res St) h off names items s : device_tree m h off names items →
  fdt_traverse m h callback s = run_calls callback (item_calls (h + names) (h + off) items) s.
Proof.
  intros [Hmag Hsz Hoff Hstr Hs Hok (Ho & Hn & Hh & Hhn & Hmod & Hl & Hr)].
  destruct (load_be32 _ _ _ Hmag) as (w & E & Ew); [done|]. destruct (load_be32 _ _ _ Hsz) as (w1 & E1 & Ew1); [lia|].
  destruct (load_be32 _ _ _ Hoff Ho) as (w2 & E2 & Ew2). destruct (load_be32 _ _ _ Hstr Hn) as (w3 & E3 & Ew3).
  unfold fdt_traverse, hdr_magic, hdr_size_dt_struct, hdr_off_dt_struct, hdr_off_dt_strings. res_step E.
  rewrite Ew, Z.eqb_refl. cbn [negb]. res_step E1. res_step E2. res_step E3. rewrite Ew1, Ew2, Ew3.
  rewrite (u64_small (h + off)), (u64_small (h + names)), u64_small by lia.
  apply walk_ok; [done|split_and!; (done || lia)|]. pose proof (struct_length items) as Hlen. unfold fdt_fuel.
  pose proof (Z.div_le_lower_bound (Z.of_nat (length (struct_bytes items))) 4 (Z.of_nat (length items))). lia.
Qed.

(** C7: [fdt_traverse] over a well-formed device tree is the iteration over its
    items: it terminates, and has called the callback once for each token of the
    structure block, in order, with the token, the address of the name and the
    address and length of the value, whatever the callback does. *)
Theorem fdt_traverse_ok {St} m (callback : Z → Z → Z → Z → St → res St) h off names items s : device_tree m h off names items →
  fdt_traverse m h callback s = run_calls callback (item_calls (h + names) (h + off) items) s.
Proof. apply fdt_traverse_run. Qed.

(** ** The address of the initramfs *)

Definition initrd_start : list Z := removelast (lit_bytes "linux,initrd-start").
Definition initrd_end : list Z := removelast (lit_bytes "linux,initrd-end").

(** What the properties with the two names say; the last one counts. *)
Definition found_ramfs (name_of : Z → list Z) (g : ramfs) (it : fdt_item) : ramfs :=
  match it with
  | Property off v =>
      let x := PHYS_TO_VIRT (be_value (take 4 v)) in
      if decide (name_of off = initrd_start) then Ramfs x (cpio_ramfs_end g)
      else if decide (name_of off = initrd_end) then Ramfs (cpio_ramfs g) x else g
  | _ => g
  end.

(** The strings block has the name, and the two properties have a cell. *)
Definition named (m : bmem) (names : Z) (name_of : Z → list Z) (it : fdt_item) : Prop :=
  match it with
  | Property off v => cstring (at_mem m (u64 (names + off))) (name_of off) ∧
      (name_of off = initrd_start ∨ name_of off = initrd_end → (4 ≤ length v)%nat)
  | _ => True
  end.

Lemma cell_load m a v : mem_bytes m a v → (4 ≤ length v)%nat → ∃ w, load32 m a = Ok w ∧ big2little w = be_value (take 4 v).
Proof.
  intros Hm Hl. destruct v as [|b0 [|b1 [|b2 [|b3 v]]]]; simpl in Hl; try lia.
  change (b0 :: b1 :: b2 :: b3 :: v) with ([b0; b1; b2; b3] ++ v) in Hm. apply mem_bytes_app in Hm as [Hm _].
  by apply load32_be.
Qed.

Lemma callback_ok m names name_of off v a len g : named m names name_of (Property off v) → mem_bytes m a v →
  fdt_callback_initramfs m FDT_PROP (u64 (names + off)) a len g = Ok (found_ramfs name_of g (Property off v)).
Proof.
  intros [Hn Hl] Hm. unfold fdt_callback_initramfs. change (negb (FDT_PROP =? FDT_PROP)) with false. cbv iota.
  destruct (strncmp_lit (name_of off) initrd_start _ (lit "linux,initrd-start") Hn) as (c1 & E1 & H1);
    [apply (lit_cstring "linux,initrd-start"); repeat constructor; lia|].
  destruct (strncmp_lit (name_of off) initrd_end _ (lit "linux,initrd-end") Hn) as (c2 & E2 & H2);
    [apply (lit_cstring "linux,initrd-end"); repeat constructor; lia|].
  change (Z.of_nat (length initrd_start) + 1) with 19 in E1. change (Z.of_nat (length initrd_end) + 1) with 17 in E2.
  res_step E1. unfold found_ramfs. case_decide as D1.
  - destruct (cell_load m a v Hm) as (w & E & Ew); [by apply Hl; left|]. rewrite (proj2 (Z.eqb_eq c1 0)) by tauto.
    res_step E. res_step E2. rewrite (proj2 (Z.eqb_neq c2 0)), Ew; [done|]. intros Hc%H2. rewrite D1 in Hc. discriminate.
  - rewrite (proj2 (Z.eqb_neq c1 0)) by tauto. cbn [mbind res_bind mret res_ret]. res_step E2. case_decide as D2.
    + destruct (cell_load m a v Hm) as (w & E & Ew); [by apply Hl; right|]. rewrite (proj2 (Z.eqb_eq c2 0)) by tauto. res_step E. by rewrite Ew.
    + by rewrite (proj2 (Z.eqb_neq c2 0)) by tauto.
Qed.

Lemma property_value m a off v : mem_bytes m a (item_bytes (Property off v)) → mem_bytes m (a + 12) v.
Proof.
  cbn [item_bytes]. intros Hm. apply mem_bytes_app in Hm as [_ Hm]. apply mem_bytes_app in Hm as [_ Hm]. apply mem_bytes_app in Hm as [_ Hm].
  unfold padded in Hm. apply mem_bytes_app in Hm as [Hm _]. change (Z.of_nat (length (be32 _))) with 4 in Hm.
  by replace (a + 12) with (a + 4 + 4 + 4) by lia.
Qed.

Lemma calls_found m names name_of items : ∀ a g, at_items m a items → Forall (named m names name_of) items →
  run_calls (fdt_callback_initramfs m) (item_calls names a items) g = Ok (foldl (found_ramfs name_of) g items).
Proof.
  induction items as [|it items IH]; intros a g Ha Hn; [done|]. apply Forall_cons in Hn as [Hit Hn].
  destruct (at_items_next _ _ _ _ Ha) as (Hnext & Hm & _). cbn [item_calls foldl].
  assert (∃ t n v l, item_call names a it = (t, n, v, l) ∧ fdt_callback_initramfs m t n v l g = Ok (found_ramfs name_of g it)) as (t & n & v & l & Ec & E).
  { destruct it as [nm| |off v| |]; eexists _, _, _, _; (split; [reflexivity|]); try done.
    apply callback_ok; [done|by eapply property_value]. }
  rewrite Ec. cbn [run_calls]. res_step E. by apply IH.
Qed.

Lemma initramfs_run m h off names items name_of g : device_tree m h off names items →
  Forall (named m (h + names) name_of) items →
  fdt_traverse m h (fdt_callback_initramfs m) g = Ok (foldl (found_ramfs name_of) g items).
Proof.
  intros Hd Hn. rewrite (fdt_traverse_run _ _ _ _ _ _ _ Hd). apply calls_found; [|done].
  destruct Hd as [_ _ _ _ Hs _ (Ho & _ & Hh & _ & Hmod & Hl & Hr)]. split_and!; (done || lia).
Qed.

(** traversing the device tree with the callback for the initramfs terminates and
    sets [cpio_ramfs] and [cpio_ramfs_end] to the virtual addresses that the
    properties "linux,initrd-start" and "linux,initrd-end" give (the last ones
    win), and to nothing else: every other item leaves them as they are. *)
Theorem initramfs_found m h off names items name_of g : device_tree m h off names items →
  Forall (named m (h + names) name_of) items →
  fdt_traverse m h (fdt_callback_initramfs m) g = Ok (foldl (found_ramfs name_of) g items).
Proof. apply initramfs_run. Qed.

(** ** A device tree for the examples *)

Lemma mem_bytes_sub m a bs k n : mem_bytes m a bs → (k ≤ length bs)%nat → mem_bytes m (a + Z.of_nat k) (take n (drop k bs)).
Proof.
  intros Hm Hk. rewrite <- (take_drop k bs) in Hm. apply mem_bytes_app in Hm as [_ Hm]. rewrite length_take, Nat.min_l in Hm by done.
  rewrite <- (take_drop n (drop k bs)) in Hm. by apply mem_bytes_app in Hm as [Hm _].
Qed.

Definition items_ex : list fdt_item :=
  [BeginNode []; BeginNode [99; 104; 111; 115; 101; 110]; Property 0 (be32 0x8000000); Property 19 (be32 0x8001000); EndNode; EndNode; EndTree].
Definition strings_ex : list Z := initrd_start ++ [0] ++ initrd_end ++ [0].
Definition name_ex (off : Z) : list Z := if off =? 0 then initrd_start else initrd_end.
(** Header, one reservation entry (the first page), structure block, strings. *)
Definition tree_bytes : list Z :=
  be32 FDT_MAGIC ++ be32 0 ++ be32 56 ++ be32 (56 + Z.of_nat (length (struct_bytes items_ex))) ++ be32 40 ++ be32 17 ++ be32 16 ++ be32 0 ++
  be32 (Z.of_nat (length strings_ex)) ++ be32 (Z.of_nat (length (struct_bytes items_ex))) ++
  (be32 0 ++ be32 0 ++ be32 0 ++ be32 0x1000) ++ struct_bytes items_ex ++ strings_ex.
Definition tree_base : Z := 0xffff000008200000.
Definition tree_ex : bmem := bytes_mem tree_base tree_bytes.

Lemma tree_ex_bytes k bs : Nat.leb k (length tree_bytes) = true → take (length bs) (drop k tree_bytes) = bs → mem_bytes tree_ex (tree_base + Z.of_nat k) bs.
Proof.
  intros Hk%Nat.leb_le <-. apply mem_bytes_sub; [|done]. apply bytes_mem_ok; [done|vm_compute; discriminate|].
  apply Forall_forall. intros x Hx. assert (forallb (λ b, (0 <=? b) && (b <? 256)) tree_bytes = true) as Hb by reflexivity.
  rewrite forallb_forall in Hb. apply list_elem_of_In, Hb in Hx. lia.
Qed.

Lemma tree_ex_ok : device_tree tree_ex tree_base 56 (56 + Z.of_nat (length (struct_bytes items_ex))) items_ex.
Proof.
  split.
  - apply (tree_ex_bytes 0); reflexivity.
  - apply (tree_ex_bytes 36); reflexivity.
  - apply (tree_ex_bytes 8); reflexivity.
  - apply (tree_ex_bytes 12); reflexivity.
  - apply (tree_ex_bytes 56); reflexivity.
  - repeat constructor; simpl; lia.
  - repeat split; vm_compute; congruence.
Qed.

Lemma tree_ex_named : Forall (named tree_ex (tree_base + (56 + Z.of_nat (length (struct_bytes items_ex)))) name_ex) items_ex.
Proof.
  assert (∀ k cs, Nat.leb k (length tree_bytes) = true → take (length (cs ++ [0])) (drop k tree_bytes) = cs ++ [0] → Forall (λ c, 0 < c < 256) cs →
    cstring (at_mem tree_ex (tree_base + Z.of_nat k)) cs) as Hs.
  { intros k cs Hk E Hc. split; [|done]. exact (proj1 (tree_ex_bytes k (cs ++ [0]) Hk E)). }
  unfold items_ex. repeat apply Forall_cons_2; try exact I; try apply Forall_nil_2; (split; [|intros _; simpl; lia]).
  - apply (Hs 120%nat initrd_start); [reflexivity|reflexivity|repeat constructor; lia].
  - apply (Hs 139%nat initrd_end); [reflexivity|reflexivity|repeat constructor; lia].
Qed.

Lemma fdt_traverse_ok_witness :
  fdt_traverse tree_ex tree_base (λ t n v len l, Ok (l ++ [t])) [] = Ok [1; 1; 3; 3; 2; 2; 9].
Proof.
  rewrite (fdt_traverse_ok tree_ex (λ t n v len l, Ok (l ++ [t])) tree_base 56 _ items_ex [] tree_ex_ok). reflexivity.
Defined.

Lemma initramfs_found_witness :
  fdt_traverse tree_ex tree_base (fdt_callback_initramfs tree_ex) (Ramfs 0 0) = Ok (Ramfs (PHYS_TO_VIRT 0x8000000) (PHYS_TO_VIRT 0x8001000)).
Proof. exact (initramfs_found tree_ex tree_base 56 _ items_ex name_ex (Ramfs 0 0) tree_ex_ok tree_ex_named). Defined.
