(* ===== verification/Malloc.v ===== *)
(** lib/malloc.c and include/malloc.h: the page (buddy) allocator and the bins
    carved from pages. Definitions only; see Buddy.v, Reserve.v and Heap.v. *)
From S2P Require Import Prelude Util ListHead Lock.
Local Open Scope Z_scope.

Definition MAXORDER : Z := 6.
Definition MAXBINORDER : Z := 4.
Definition FRAME_START : Z := PHYS_TO_VIRT 0x0.
Definition FRAMES_COUNT : Z := 0x3c000.
Definition sizeof_frame : Z := 32.
Definition sizeof_list_head : Z := 16.

(** Addresses the linker chooses: link.ld and the two static arrays. *)
Record layout := Layout {
  kernel_start : Z; kernel_end : Z; heap_start : Z;
  free_list : Z; bin_list : Z;
}.

(** [struct frame] without its [list_head], which lives in the list memory. *)
Record frame := Frame { val : Z; used : Z; bin_val : Z; idx : Z }.
Definition set_val (v : Z) (f : frame) : frame := Frame v (used f) (bin_val f) (idx f).
Definition set_used (u : Z) (f : frame) : frame := Frame (val f) u (bin_val f) (idx f).
Definition set_bin_val (b : Z) (f : frame) : frame := Frame (val f) (used f) b (idx f).
Definition set_idx (i : Z) (f : frame) : frame := Frame (val f) (used f) (bin_val f) i.

(** The allocator's globals, the list memory and the interrupt lock. [fr] is
    the memory of the frame structures by address. *)
Record mstate := MState {
  heap_top : Z; frames : Z; fr : gmap Z frame; lm : lmem; lk : lockst;
}.
Definition with_heap_top (h : Z) (s : mstate) := MState h (frames s) (fr s) (lm s) (lk s).
Definition with_frames (p : Z) (s : mstate) := MState (heap_top s) p (fr s) (lm s) (lk s).
Definition with_fr (m : gmap Z frame) (s : mstate) := MState (heap_top s) (frames s) m (lm s) (lk s).
Definition with_lm (m : lmem) (s : mstate) := MState (heap_top s) (frames s) (fr s) m (lk s).
Definition with_lk (k : lockst) (s : mstate) := MState (heap_top s) (frames s) (fr s) (lm s) k.

(** [&frames[i]], [&free_list[i]], [&bin_list[i]]; an index outside a static
    array is a fault. *)
Definition frame_at (s : mstate) (i : Z) : Z := frames s + sizeof_frame * i.
Definition free_head (ly : layout) (i : Z) : Z := free_list ly + sizeof_list_head * i.
Definition bin_head (ly : layout) (i : Z) : Z := bin_list ly + sizeof_list_head * i.
Definition free_list_at (ly : layout) (i : Z) : res Z :=
  _ ← require ((0 <=? i) && (i <=? MAXORDER)); mret (free_head ly i).
Definition bin_list_at (ly : layout) (i : Z) : res Z :=
  _ ← require ((0 <=? i) && (i <=? MAXBINORDER)); mret (bin_head ly i).

Definition get_frame (s : mstate) (p : Z) : res frame := load (fr s !! p).
Definition upd_frame (s : mstate) (p : Z) (g : frame → frame) : res mstate :=
  f ← get_frame s p; mret (with_fr (<[p := g f]> (fr s)) s).

Definition simple_malloc (size : Z) (s : mstate) : Z * mstate :=
  (heap_top s, with_heap_top (align_up (u64 (heap_top s + size)) 0x10) s).

(** [frame->idx ^ (1 << frame->val)]: the shift is of an [int]. *)
Definition get_buddy (s : mstate) (p : Z) : res Z :=
  f ← get_frame s p;
  _ ← require ((0 <=? val f) && (val f <? 31));
  mret (frame_at s (Z.lxor (idx f) (Z.shiftl 1 (val f)))).

Definition list_add_free (ly : layout) (s : mstate) (p i : Z) : res mstate :=
  h ← free_list_at ly i; m ← list_add (lm s) p h; mret (with_lm m s).

Definition del_entry (s : mstate) (p : Z) : res mstate :=
  m ← list_del_entry (lm s) p; mret (with_lm m s).

Definition split_frame (ly : layout) (s : mstate) (p : Z) : res (Z * mstate) :=
  f ← get_frame s p;
  s ← upd_frame s p (set_val (val f - 1));
  aibou ← get_buddy s p;
  s ← upd_frame s aibou (set_used 0);
  f ← get_frame s p;
  s ← upd_frame s aibou (set_val (val f));
  a ← get_frame s aibou;
  s ← list_add_free ly s aibou (val a);
  mret (p, s).

(** [for (i = 0; i <= max; i++) if (size <= (unit << i)) { val = i; break; }],
    with [val] initialised to 0. *)
Fixpoint first_order (unit size : Z) (n : nat) (i : Z) : Z :=
  match n with
  | O => 0
  | S n => if size <=? Z.shiftl unit i then i else first_order unit size n (i + 1)
  end.
Definition page_order (size : Z) : Z := first_order 0x1000 size (Z.to_nat (MAXORDER + 1)) 0.
Definition bin_order (size : Z) : Z := first_order 0x20 size (Z.to_nat (MAXBINORDER + 1)) 0.

(** [for (canuse_val = val; canuse_val <= MAXORDER; canuse_val++)] up to the
    first list that is not empty. *)
Fixpoint find_free (ly : layout) (s : mstate) (n : nat) (v : Z) : res Z :=
  match n with
  | O => mret v
  | S n =>
      h ← free_list_at ly v; e ← list_empty (lm s) h;
      if (e : bool) then find_free ly s n (v + 1) else mret v
  end.

(** [for (j = canuse_val; j > val; j--) target_frame = split_frame(target_frame);] *)
Fixpoint split_down (ly : layout) (n : nat) (p : Z) (s : mstate) : res (Z * mstate) :=
  match n with
  | O => mret (p, s)
  | S n => '(p, s) ← split_frame ly s p; split_down ly n p s
  end.

(** Without a free block the code prints a message and goes on with
    [free_list[MAXORDER + 1]]. *)
Definition alloc_page (ly : layout) (size : Z) (s : mstate) : res (Z * mstate) :=
  let v := page_order size in
  if MAXORDER <? v then mret (0, s)
  else
    canuse_val ← find_free ly s (Z.to_nat (MAXORDER + 1 - v)) v;
    h ← free_list_at ly canuse_val;
    target_frame ← get_next (lm s) h;
    s ← del_entry s target_frame;
    '(target_frame, s) ← split_down ly (Z.to_nat (canuse_val - v)) target_frame s;
    s ← upd_frame s target_frame (set_used 1);
    f ← get_frame s target_frame;
    mret (u64 (FRAME_START + u32 (0x1000 * idx f)), s).

(** Returns 0 when the buddy was absorbed and -1 otherwise. *)
Definition combine_page (s : mstate) (p : Z) : res (Z * mstate) :=
  buddy ← get_buddy s p;
  f ← get_frame s p;
  if val f =? MAXORDER then mret (-1, s)
  else
    b ← get_frame s buddy;
    if negb (val b =? val f) then mret (-1, s)
    else if used b =? 1 then mret (-1, s)
    else
      s ← del_entry s buddy;
      s ← upd_frame s p (set_val (val f + 1));
      mret (0, s).

(** [while (combine_page(target_frame) == 0);] *)
Fixpoint combine_loop (fuel : nat) (p : Z) (s : mstate) : res mstate :=
  match fuel with
  | O => Fuel
  | S fuel =>
      '(r, s) ← combine_page s p;
      if r =? 0 then combine_loop fuel p s else mret s
  end.
Definition combine_fuel : nat := Z.to_nat (MAXORDER + 1).

(** [&frames[((size_t)ptr - FRAME_START) >> 12]] *)
Definition frame_of (s : mstate) (ptr : Z) : Z :=
  frame_at s (Z.shiftr (u64 (ptr - FRAME_START)) 12).

Definition free_page (ly : layout) (ptr : Z) (s : mstate) : res mstate :=
  let target_frame := frame_of s ptr in
  s ← upd_frame s target_frame (set_used 0);
  s ← combine_loop combine_fuel target_frame s;
  f ← get_frame s target_frame;
  list_add_free ly s target_frame (val f).

Definition from_page_get_bins (ly : layout) (bv : Z) (s : mstate) : res mstate :=
  '(page, s) ← alloc_page ly 0x1000 s;
  let binsize := Z.shiftl 0x20 bv in
  s ← upd_frame s (frame_of s page) (set_bin_val bv);
  h ← bin_list_at ly bv;
  (* for (i = 0; i < 0x1000; i += binsize) *)
  for_loop (Z.to_nat (0x1000 / binsize)) 0
    (λ k s, m ← list_add (lm s) (page + k * binsize) h; mret (with_lm m s)) s.

Definition alloc_bin (ly : layout) (size : Z) (s : mstate) : res (Z * mstate) :=
  let bv := bin_order size in
  h ← bin_list_at ly bv;
  e ← list_empty (lm s) h;
  s ← (if (e : bool) then from_page_get_bins ly bv s else mret s);
  bin ← get_next (lm s) h;
  s ← del_entry s bin;
  mret (bin, s).

Definition free_bin (ly : layout) (ptr : Z) (s : mstate) : res mstate :=
  f ← get_frame s (frame_of s ptr);
  h ← bin_list_at ly (bin_val f);
  m ← list_add (lm s) ptr h;
  mret (with_lm m s).

(** The parameter is a [uint32_t]. *)
Definition kmalloc (ly : layout) (size : Z) (s : mstate) : res (Z * mstate) :=
  let size := u32 size in
  if size <=? Z.shiftl 0x20 MAXBINORDER then alloc_bin ly size s
  else alloc_page ly size s.

Definition kfree (ly : layout) (ptr : Z) (s : mstate) : res mstate :=
  curr_frame ← get_frame s (frame_of s ptr);
  if negb (ptr mod 0x1000 =? 0) && negb (bin_val curr_frame =? -1)
  then free_bin ly ptr s
  else free_page ly ptr s.

(** One turn of [list_for_each(curr, &free_list[val])]. *)
Definition reserve_body (ly : layout) (start fin v : Z) (curr : Z) (s : mstate)
    : res (flow mstate) :=
  f ← get_frame s curr;
  let page_start := u64 (u32 (Z.shiftl (idx f) 12) + FRAME_START) in
  let nxt_page_start := u64 (page_start + Z.shiftl 0x1000 v) in
  if (start <=? page_start) && (nxt_page_start <=? fin) then
    s ← upd_frame s curr (set_used 1);
    s ← del_entry s curr;
    mret (Next curr s)
  else if (nxt_page_start <=? start) || (fin <=? page_start) then mret (Next curr s)
  else
    s ← del_entry s curr;
    prev ← get_prev (lm s) curr;
    '(curr, s) ← split_frame ly s curr;
    s ← list_add_free ly s curr (v - 1);
    mret (Next prev s).

(** [for (val = MAXORDER; val >= 0; val--)], [n] turns from [v] downwards. *)
Fixpoint reserve_orders (ly : layout) (start fin : Z) (n : nat) (v : Z) (s : mstate)
    : res mstate :=
  match n with
  | O => mret s
  | S n =>
      h ← free_list_at ly v;
      '(_, s) ← list_for_each lm (ring_fuel (lm s)) h (reserve_body ly start fin v) s;
      reserve_orders ly start fin n (v - 1) s
  end.

Definition reserve_page (ly : layout) (start fin : Z) (s : mstate) : res mstate :=
  let s := with_lk (lock (lk s)) s in
  let start := Z.land start (u64 (Z.lnot 0xfff)) in
  let fin := align_up fin 0x1000 in
  s ← reserve_orders ly start fin (Z.to_nat (MAXORDER + 1)) MAXORDER s;
  mret (with_lk (unlock (lk s)) s).

(** The frame structures as the raw memory of the heap holds them before
    [init_allocator] writes them. *)
Definition map_frames (raw : Z → frame) (base : Z) : gmap Z frame :=
  list_to_map ((λ i, (base + sizeof_frame * i, raw i)) <$> seqZ 0 FRAMES_COUNT).

Definition init_frame (ly : layout) (i : Z) (s : mstate) : res mstate :=
  let s := with_lm (INIT_LIST_HEAD (lm s) (frame_at s i)) s in
  s ← upd_frame s (frame_at s i) (set_idx i);
  s ← upd_frame s (frame_at s i) (set_bin_val (-1));
  if i mod (Z.shiftl 1 MAXORDER) =? 0 then
    s ← upd_frame s (frame_at s i) (set_val 6);
    s ← upd_frame s (frame_at s i) (set_used 0);
    list_add_free ly s (frame_at s i) MAXORDER
  else mret s.

(** [raw] is what the heap memory holds; [dtb_reserve_mem], [cpio_ramfs] and
    [cpio_ramfs_end] come from the device tree (Dtb.v). *)
Definition init_allocator (ly : layout) (raw : Z → frame)
    (dtb_reserve_mem : (Z → Z → mstate → res mstate) → mstate → res mstate)
    (cpio_ramfs cpio_ramfs_end : Z) (s : mstate) : res mstate :=
  let '(p, s) := simple_malloc (FRAMES_COUNT * sizeof_frame) s in
  let s := with_fr (map_frames raw p) (with_frames p s) in
  s ← for_loop (Z.to_nat (MAXORDER + 1)) 0
        (λ i s, mret (with_lm (INIT_LIST_HEAD (lm s) (free_head ly i)) s)) s;
  s ← for_loop (Z.to_nat (MAXBINORDER + 1)) 0
        (λ i s, mret (with_lm (INIT_LIST_HEAD (lm s) (bin_head ly i)) s)) s;
  s ← for_loop (Z.to_nat FRAMES_COUNT) 0 (init_frame ly) s;
  s ← dtb_reserve_mem (reserve_page ly) s;
  s ← reserve_page ly (PHYS_TO_VIRT 0x1000) (PHYS_TO_VIRT 0x4000) s;
  s ← reserve_page ly (kernel_start ly) (kernel_end ly) s;
  s ← reserve_page ly cpio_ramfs cpio_ramfs_end s;
  s ← reserve_page ly (heap_start ly) (heap_top s) s;
  reserve_page ly (PHYS_TO_VIRT 0x2c000000) (PHYS_TO_VIRT 0x3c000000) s.
