(* ===== verification/Buddy.v ===== *)
(** The page allocator of lib/malloc.c as a partition of the frames into
    blocks: invariant, and what each operation does to the partition. *)
From S2P Require Import Prelude Util ListHead Lock Malloc.
Local Open Scope Z_scope.

(** ** Frame numbers as bit strings *)

(** [hi v x y]: the same bits from [v] on, i.e. [x] and [y] lie in the same
    aligned block of [2 ^ v] frames. [lo k x y]: the same bits below [k]. *)
Definition hi (v x y : Z) : Prop := ∀ n, v ≤ n → Z.testbit x n = Z.testbit y n.
Definition lo (k x y : Z) : Prop := ∀ n, n < k → Z.testbit x n = Z.testbit y n.

Section bits.
Implicit Types (x y z i v w k n : Z).

Lemma hi_refl v x : hi v x x.
Proof. done. Qed.
Lemma hi_sym v x y : hi v x y → hi v y x.
Proof. intros H n Hn. by rewrite H. Qed.
Lemma hi_trans v x y z : hi v x y → hi v y z → hi v x z.
Proof. intros H1 H2 n Hn. by rewrite H1, H2. Qed.
Lemma hi_mono v w x y : hi v x y → v ≤ w → hi w x y.
Proof. intros H Hw n Hn. apply H. lia. Qed.
Lemma lo_refl k x : lo k x x.
Proof. done. Qed.
Lemma lo_sym k x y : lo k x y → lo k y x.
Proof. intros H n Hn. by rewrite H. Qed.
Lemma lo_trans k x y z : lo k x y → lo k y z → lo k x z.
Proof. intros H1 H2 n Hn. by rewrite H1, H2. Qed.
Lemma lo_mono k j x y : lo k x y → j ≤ k → lo j x y.
Proof. intros H Hj n Hn. apply H. lia. Qed.

Lemma hi_lo_eq v k x y : hi v x y → lo k x y → v ≤ k → x = y.
Proof.
  intros H1 H2 Hk. apply Z.bits_inj. intros n.
  destruct (Z.lt_ge_cases n k); [apply H2|apply H1]; lia.
Qed.

Lemma hi_0_eq x y : hi 0 x y → x = y.
Proof.
  intros H. apply Z.bits_inj'. intros n Hn. by apply H.
Qed.

Lemma hi_div v x y : 0 ≤ v → hi v x y ↔ x / 2 ^ v = y / 2 ^ v.
Proof.
  intros Hv. rewrite <- !Z.shiftr_div_pow2 by done. split.
  - intros H. apply Z.bits_inj'. intros n Hn. rewrite !Z.shiftr_spec by done. apply H. lia.
  - intros E n Hn. replace n with (n - v + v) by lia.
    rewrite <- !Z.shiftr_spec by lia. by rewrite E.
Qed.

Lemma lo_mod k x y : 0 ≤ k → lo k x y ↔ x mod 2 ^ k = y mod 2 ^ k.
Proof.
  intros Hk. split.
  - intros H. apply Z.bits_inj'. intros n Hn.
    destruct (Z.lt_ge_cases n k).
    + rewrite !Z.mod_pow2_bits_low by lia. by apply H.
    + by rewrite !Z.mod_pow2_bits_high by lia.
  - intros E n Hn. destruct (Z.lt_ge_cases n 0); [by rewrite !Z.testbit_neg_r|].
    rewrite <- (Z.mod_pow2_bits_low x k n), <- (Z.mod_pow2_bits_low y k n) by lia.
    by rewrite E.
Qed.

(** [flip i v] is the buddy of [i] at order [v]: bit [v] inverted. *)
Definition flip i v : Z := Z.lxor i (Z.shiftl 1 v).

Lemma flip_spec i v n : 0 ≤ v → 0 ≤ n →
  Z.testbit (flip i v) n = xorb (Z.testbit i n) (bool_decide (n = v)).
Proof.
  intros Hv Hn. unfold flip. rewrite Z.lxor_spec, Z.shiftl_1_l. f_equal.
  rewrite Z.pow2_bits_eqb by done. apply eq_bool_prop_intro.
  rewrite bool_decide_spec. destruct (Z.eqb_spec v n); simpl; split; [done|done|done|].
  intros ->. done.
Qed.

Lemma flip_other i v n : 0 ≤ v → n ≠ v → Z.testbit (flip i v) n = Z.testbit i n.
Proof.
  intros Hv Hn. destruct (Z.lt_ge_cases n 0); [by rewrite !Z.testbit_neg_r|].
  rewrite flip_spec, bool_decide_eq_false_2 by done. apply xorb_false_r.
Qed.

Lemma flip_this i v : 0 ≤ v → Z.testbit (flip i v) v = negb (Z.testbit i v).
Proof. intros Hv. rewrite flip_spec, bool_decide_eq_true_2 by done. apply xorb_true_r. Qed.

Lemma flip_ne i v : 0 ≤ v → flip i v ≠ i.
Proof.
  intros Hv E. pose proof (flip_this i v Hv) as H. rewrite E in H.
  by destruct (Z.testbit i v).
Qed.

Lemma flip_flip i v : flip (flip i v) v = i.
Proof. unfold flip. by rewrite Z.lxor_assoc, Z.lxor_nilpotent, Z.lxor_0_r. Qed.

Lemma hi_flip i v w : 0 ≤ v → v < w → hi w (flip i v) i.
Proof. intros Hv Hw n Hn. apply flip_other; lia. Qed.

Lemma lo_flip i v k : 0 ≤ v → k ≤ v → lo k (flip i v) i.
Proof. intros Hv Hk n Hn. apply flip_other; lia. Qed.

(** A block of order [v + 1] is the block of [i] and that of its buddy. *)
Lemma hi_halves i v x : 0 ≤ v → hi (v + 1) x i → hi v x i ∨ hi v x (flip i v).
Proof.
  intros Hv H. destruct (decide (Z.testbit x v = Z.testbit i v)) as [E|E].
  - left. intros n Hn. destruct (decide (n = v)) as [->|]; [done|]. apply H. lia.
  - right. intros n Hn. destruct (decide (n = v)) as [->|].
    + rewrite flip_this by done. destruct (Z.testbit x v), (Z.testbit i v); done.
    + rewrite flip_other by done. apply H. lia.
Qed.

Lemma hi_flip_not i v : 0 ≤ v → ¬ hi v i (flip i v).
Proof.
  intros Hv H. specialize (H v ltac:(lia)). rewrite flip_this in H by done.
  by destruct (Z.testbit i v).
Qed.

(** Different frames of a block agree on less than its order of low bits. *)
Lemma hi_lo_lt v k x y : hi v x y → lo k x y → x ≠ y → k < v.
Proof.
  intros H1 H2 Hne. destruct (Z.lt_ge_cases k v); [done|].
  by destruct Hne; apply (hi_lo_eq v k).
Qed.

Lemma frames_block i x : 0 ≤ i < FRAMES_COUNT → hi 6 x i → 0 ≤ x < FRAMES_COUNT.
Proof.
  unfold FRAMES_COUNT. intros Hi H. apply hi_div in H; [|done].
  pose proof (Z.div_mod x (2 ^ 6) ltac:(lia)). pose proof (Z.mod_pos_bound x (2 ^ 6) ltac:(lia)).
  pose proof (Z.div_mod i (2 ^ 6) ltac:(lia)). pose proof (Z.mod_pos_bound i (2 ^ 6) ltac:(lia)).
  change (2 ^ 6) with 64 in *. lia.
Qed.
End bits.

Create HintDb bits discriminated.
#[export] Hint Resolve hi_refl hi_sym hi_trans hi_mono lo_refl lo_sym lo_trans lo_mono : bits.

(** ** The invariant *)

(** A block is in its free list, allocated, or in the hands of the code. *)
Inductive status := Avail | Busy | Held.
#[export] Instance status_eq_dec : EqDecision status.
Proof. solve_decision. Defined.

(** The blocks, by representative: order and status. *)
Abbreviation blocks := (gmap Z (Z * status)).

Definition faddr (ly : layout) (i : Z) : Z := heap_start ly + sizeof_frame * i.

Record layout_ok (ly : layout) : Prop := {
  ly_start : kernel_start ly = VIRT_BASE + 0x80000;
  ly_free : kernel_start ly ≤ free_list ly ∧
    free_list ly + sizeof_list_head * (MAXORDER + 1) ≤ heap_start ly;
  ly_bin : kernel_start ly ≤ bin_list ly ∧
    bin_list ly + sizeof_list_head * (MAXBINORDER + 1) ≤ heap_start ly;
  ly_sep : free_list ly + sizeof_list_head * (MAXORDER + 1) ≤ bin_list ly ∨
    bin_list ly + sizeof_list_head * (MAXBINORDER + 1) ≤ free_list ly;
  ly_end : kernel_end ly = heap_start ly;
  ly_room : heap_start ly + sizeof_frame * FRAMES_COUNT + 0x10 ≤ VIRT_BASE + 0x2c000000;
}.

(** The blocks partition the frames. *)
Record part_ok (B : blocks) : Prop := {
  po_range : ∀ i v st, B !! i = Some (v, st) → 0 ≤ i < FRAMES_COUNT ∧ 0 ≤ v ≤ MAXORDER;
  po_cover : ∀ x, 0 ≤ x < FRAMES_COUNT → ∃ i v st, B !! i = Some (v, st) ∧ hi v x i;
  po_disj : ∀ x i v st j w st', B !! i = Some (v, st) → B !! j = Some (w, st') →
    hi v x i → hi w x j → i = j;
}.

(** The frame structures agree with the partition. The [val] of a frame that
    does not represent its block is an order it had when it last did. *)
Record frames_ok (ly : layout) (m : gmap Z frame) (B : blocks) : Prop := {
  fo_idx : ∀ i, 0 ≤ i < FRAMES_COUNT → ∃ f, m !! faddr ly i = Some f ∧ idx f = i;
  fo_val : ∀ i v st f, B !! i = Some (v, st) → m !! faddr ly i = Some f → val f = v;
  fo_used : ∀ i v st f, B !! i = Some (v, st) → m !! faddr ly i = Some f →
    used f = if decide (st = Busy) then 1 else 0;
  fo_stale : ∀ i v st x f, B !! i = Some (v, st) → hi v x i →
    m !! faddr ly x = Some f → 0 ≤ val f ∧ lo (val f) x i;
}.

(** The free lists hold exactly the available blocks of their order, and a
    frame is a list node only as an available block. *)
Record free_ok (ly : layout) (L : gmap Z (list Z)) (B : blocks) : Prop := {
  fl_free : ∀ v, 0 ≤ v ≤ MAXORDER → ∃ l, L !! free_head ly v = Some l ∧
    ∀ p, p ∈ l ↔ ∃ i, p = faddr ly i ∧ B !! i = Some (v, Avail);
  fl_node : ∀ i, 0 ≤ i < FRAMES_COUNT → node L (faddr ly i) → ∃ v, B !! i = Some (v, Avail);
}.

Record buddy_inv (ly : layout) (s : mstate) (L : gmap Z (list Z)) (B : blocks) : Prop := {
  bi_base : frames s = heap_start ly;
  bi_lists : lists_ok (lm s) L;
  bi_part : part_ok B;
  bi_frames : frames_ok ly (fr s) B;
  bi_free : free_ok ly L B;
}.

(** No block is in the hands of the code: the state between operations. *)
Definition settled (B : blocks) : Prop := ∀ i v, B !! i ≠ Some (v, Held).

(** Until the first [kfree], every block is represented by its first frame. *)
Definition aligned (B : blocks) : Prop := ∀ i v st, B !! i = Some (v, st) → lo v i 0.

(** Frame [x] is free. *)
Definition free_frame (B : blocks) (x : Z) : Prop :=
  ∃ i v, B !! i = Some (v, Avail) ∧ hi v x i.

(** ** The partition under the four moves: restatus, split, merge *)

Lemma part_ok_status B i v st st' :
  B !! i = Some (v, st) → part_ok B → part_ok (<[i:=(v, st')]> B).
Proof.
  intros Hi [Hr Hc Hd].
  assert (∀ j w t, <[i:=(v, st')]> B !! j = Some (w, t) → ∃ t', B !! j = Some (w, t')) as Hsub.
  { intros j w t [[<- [= <- <-]]|[? ?]]%lookup_insert_Some; eauto. }
  split.
  - intros j w t H. apply Hsub in H as [t' H]. eauto.
  - intros x Hx. destruct (Hc x Hx) as (j & w & t & Hj & Hw).
    destruct (decide (i = j)) as [<-|Hne].
    + exists i, v, st'. rewrite lookup_insert_eq. by simplify_eq.
    + exists j, w, t. by rewrite lookup_insert_ne.
  - intros x j w t k u t' H1 H2. apply Hsub in H1 as [? H1]. apply Hsub in H2 as [? H2].
    by eapply Hd.
Qed.

Lemma split_fresh B i v st b : part_ok B → B !! i = Some (v + 1, st) → 0 ≤ v →
  b = flip i v → B !! b = None.
Proof.
  intros [_ _ Hd] Hi Hv ->. destruct (B !! flip i v) as [[w t]|] eqn:E; [|done].
  destruct (flip_ne i v Hv). eapply (Hd (flip i v)); [done|done|apply hi_refl|].
  apply hi_flip; lia.
Qed.

Lemma part_ok_split B i v st t1 t2 : part_ok B → B !! i = Some (v + 1, st) → 0 ≤ v →
  part_ok (<[flip i v:=(v, t2)]> (<[i:=(v, t1)]> B)).
Proof.
  intros HP Hi Hv. pose proof (split_fresh B i v st _ HP Hi Hv eq_refl) as Hb.
  pose proof (flip_ne i v Hv) as Hne. destruct HP as [Hr Hc Hd].
  assert (∀ x j w t, <[flip i v:=(v, t2)]> (<[i:=(v, t1)]> B) !! j = Some (w, t) → hi w x j →
    (j = flip i v ∧ w = v ∧ hi v x j) ∨ (j = i ∧ w = v ∧ hi v x j) ∨
    (j ≠ i ∧ B !! j = Some (w, t) ∧ ¬ hi (v + 1) x i)) as Hinv.
  { intros x j w t Hj Hx. apply lookup_insert_Some in Hj as [[<- [= <- <-]]|[? Hj]]; [by left|].
    apply lookup_insert_Some in Hj as [[<- [= <- <-]]|[? Hj]]; [by right; left|].
    right. right. split_and!; [done|done|]. intros Hx'. destruct (Hd x i (v+1) st j w t); done. }
  assert (∀ x, hi v x (flip i v) → hi (v + 1) x i) as Hb1.
  { intros x Hx. apply (hi_trans _ _ (flip i v)); [apply (hi_mono v); [done|lia]|apply hi_flip; lia]. }
  assert (∀ x, hi v x i → hi (v + 1) x i) as Hi1.
  { intros x Hx. apply (hi_mono v); [done|lia]. }
  split.
  - intros j w t Hj. destruct (Hinv j j w t Hj (hi_refl _ _)) as [(-> & -> & _)|[(-> & -> & _)|(_ & Hj' & _)]].
    + destruct (Hr _ _ _ Hi) as [? [? Hm]]. split; [|lia].
      apply (frames_block i); [done|]. apply hi_flip; [done|]. unfold MAXORDER in Hm. lia.
    + destruct (Hr _ _ _ Hi). split; [done|lia].
    + eauto.
  - intros x Hx. destruct (Hc x Hx) as (j & w & t & Hj & Hw).
    destruct (decide (j = i)) as [->|Hji].
    + simplify_eq. destruct (hi_halves i v x Hv Hw).
      * exists i, v, t1. by rewrite lookup_insert_ne, lookup_insert_eq.
      * exists (flip i v), v, t2. by rewrite lookup_insert_eq.
    + exists j, w, t. rewrite !lookup_insert_ne; [done|done|]. intros <-. congruence.
  - intros x j w t k u t' Hj Hk Hxj Hxk.
    destruct (Hinv x j w t Hj Hxj) as [(-> & -> & ?)|[(-> & -> & ?)|(? & ? & ?)]],
      (Hinv x k u t' Hk Hxk) as [(-> & -> & ?)|[(-> & -> & ?)|(? & ? & ?)]];
      try done; try (by destruct Hb1; auto); try (exfalso; by eauto).
    + destruct (hi_flip_not i v Hv). by eauto using hi_trans, hi_sym.
    + destruct (hi_flip_not i v Hv). by eauto using hi_trans, hi_sym.
    + by eapply Hd.
Qed.

Lemma part_ok_merge B i v st st' t : part_ok B → v < MAXORDER →
  B !! i = Some (v, st) → B !! flip i v = Some (v, st') →
  part_ok (<[i:=(v + 1, t)]> (delete (flip i v) B)).
Proof.
  intros [Hr Hc Hd] Hm Hi Hb. destruct (Hr _ _ _ Hi) as [? [Hv _]].
  pose proof (flip_ne i v Hv) as Hne.
  assert (∀ j w u, <[i:=(v + 1, t)]> (delete (flip i v) B) !! j = Some (w, u) →
    (j = i ∧ w = v + 1) ∨ (j ≠ i ∧ j ≠ flip i v ∧ B !! j = Some (w, u))) as Hinv.
  { intros j w u [[<- [= <- <-]]|[? [? Hj]%lookup_delete_Some]]%lookup_insert_Some; [by left|].
    right. done. }
  assert (∀ x j w u, B !! j = Some (w, u) → j ≠ i → j ≠ flip i v → hi w x j → ¬ hi (v + 1) x i) as Hout.
  { intros x j w u Hj ? Hjb Hx Hx'. destruct (hi_halves i v x Hv Hx') as [Hx1|Hx1].
    - destruct (Hd x i v st j w u); done.
    - destruct Hjb. by eapply (Hd x j w u (flip i v) v st'). }
  split.
  - intros j w u [[-> ->]|(_ & _ & Hj)]%Hinv; [split; [done|lia]|eauto].
  - intros x Hx. destruct (Hc x Hx) as (j & w & u & Hj & Hw).
    destruct (decide (j = i)) as [->|Hji].
    { exists i, (v + 1), t. rewrite lookup_insert_eq. split; [done|].
      simplify_eq. apply (hi_mono v); [done|lia]. }
    destruct (decide (j = flip i v)) as [->|Hjb].
    { exists i, (v + 1), t. rewrite lookup_insert_eq. split; [done|]. simplify_eq.
      apply (hi_trans _ _ (flip i v)); [apply (hi_mono v); [done|lia]|apply hi_flip; lia]. }
    exists j, w, u. by rewrite lookup_insert_ne, lookup_delete_ne.
  - intros x j w u k u' t' Hj Hk Hxj Hxk.
    apply Hinv in Hj as [[-> ->]|(? & ? & ?)], Hk as [[-> ->]|(? & ? & ?)]; [done| | |by eapply Hd].
    + exfalso. by eapply Hout.
    + exfalso. by eapply (Hout x j).
Qed.

(** ** Addresses *)

Section addresses.
Context (ly : layout) (Hly : layout_ok ly).

Lemma faddr_inj i j : faddr ly i = faddr ly j → i = j.
Proof using. unfold faddr, sizeof_frame. lia. Qed.

Lemma faddr_free_head i v : 0 ≤ i → v ≤ MAXORDER → faddr ly i ≠ free_head ly v.
Proof using Hly.
  destruct Hly as [_ [_ H] _ _ _ _].
  unfold faddr, free_head, sizeof_frame, sizeof_list_head, MAXORDER in *. lia.
Qed.

Lemma faddr_bin_head i k : 0 ≤ i → k ≤ MAXBINORDER → faddr ly i ≠ bin_head ly k.
Proof using Hly.
  destruct Hly as [_ _ [_ H] _ _ _].
  unfold faddr, bin_head, sizeof_frame, sizeof_list_head, MAXBINORDER in *. lia.
Qed.

Lemma free_head_inj v w : free_head ly v = free_head ly w → v = w.
Proof using. unfold free_head, sizeof_list_head. lia. Qed.

Lemma bin_head_inj v w : bin_head ly v = bin_head ly w → v = w.
Proof using. unfold bin_head, sizeof_list_head. lia. Qed.

Lemma free_bin_head v k : 0 ≤ v ≤ MAXORDER → 0 ≤ k ≤ MAXBINORDER →
  free_head ly v ≠ bin_head ly k.
Proof using Hly.
  destruct Hly as [_ _ _ Hs _ _].
  unfold free_head, bin_head, sizeof_list_head, MAXORDER, MAXBINORDER in *. lia.
Qed.

Lemma free_list_at_ok v : 0 ≤ v ≤ MAXORDER → free_list_at ly v = Ok (free_head ly v).
Proof using.
  intros H. unfold free_list_at. replace ((0 <=? v) && (v <=? MAXORDER)) with true; [done|].
  symmetry. apply andb_true_intro. lia.
Qed.

Lemma bin_list_at_ok v : 0 ≤ v ≤ MAXBINORDER → bin_list_at ly v = Ok (bin_head ly v).
Proof using.
  intros H. unfold bin_list_at. replace ((0 <=? v) && (v <=? MAXBINORDER)) with true; [done|].
  symmetry. apply andb_true_intro. lia.
Qed.

Lemma frame_at_faddr s i : frames s = heap_start ly → frame_at s i = faddr ly i.
Proof using. intros E. unfold frame_at, faddr. by rewrite E. Qed.

(** ** The frame structures under the four moves *)

Definition upd (m : gmap Z frame) (i : Z) (g : frame → frame) : gmap Z frame :=
  alter g (faddr ly i) m.

Lemma upd_lookup m i g j :
  upd m i g !! faddr ly j = (if decide (i = j) then g <$> m !! faddr ly j else m !! faddr ly j).
Proof using.
  unfold upd. case_decide as E; [subst; by rewrite lookup_alter_eq|].
  rewrite lookup_alter_ne; [done|]. by intros ?%faddr_inj.
Qed.

Lemma frames_ok_upd_idx m i g :
  (∀ f, idx (g f) = idx f) →
  (∀ j, 0 ≤ j < FRAMES_COUNT → ∃ f, m !! faddr ly j = Some f ∧ idx f = j) →
  (∀ j, 0 ≤ j < FRAMES_COUNT → ∃ f, upd m i g !! faddr ly j = Some f ∧ idx f = j).
Proof using.
  intros Hg H j Hj. destruct (H j Hj) as (f & Hf & E). rewrite upd_lookup, Hf.
  case_decide; simpl; eexists; split; try done. by rewrite Hg.
Qed.

(** A new status, and the [used] field that goes with it. *)
Lemma frames_ok_status m B i v st st' u :
  frames_ok ly m B → B !! i = Some (v, st) → u = (if decide (st' = Busy) then 1 else 0) →
  frames_ok ly (upd m i (set_used u)) (<[i:=(v, st')]> B).
Proof using.
  intros [Hi Hv Hu Hs] Hb Eu.
  assert (∀ j w t, <[i:=(v, st')]> B !! j = Some (w, t) → ∃ t', B !! j = Some (w, t')) as Hsub.
  { intros j w t [[<- [= <- <-]]|[? ?]]%lookup_insert_Some; eauto. }
  split.
  - by apply frames_ok_upd_idx.
  - intros j w t f Hj Hf. apply Hsub in Hj as [t' Hj]. rewrite upd_lookup in Hf.
    case_decide; [|by eauto]. apply fmap_Some in Hf as (f0 & Hf & ->). simpl. eauto.
  - intros j w t f Hj Hf. rewrite upd_lookup in Hf.
    apply lookup_insert_Some in Hj as [[<- [= <- <-]]|[? Hj]].
    + rewrite decide_True in Hf by done. apply fmap_Some in Hf as (f0 & Hf & ->). done.
    + rewrite decide_False in Hf by done. eauto.
  - intros j w t x f Hj Hx Hf. apply Hsub in Hj as [t' Hj]. rewrite upd_lookup in Hf.
    case_decide; [|by eauto]. apply fmap_Some in Hf as (f0 & Hf & ->). simpl. eauto.
Qed.

(** A status change that keeps [used] needs no write. *)
Lemma frames_ok_restatus m B i v st st' :
  frames_ok ly m B → B !! i = Some (v, st) → (st = Busy ↔ st' = Busy) →
  frames_ok ly m (<[i:=(v, st')]> B).
Proof using.
  intros [Hi Hv Hu Hs] Hb Est.
  assert (∀ j w t, <[i:=(v, st')]> B !! j = Some (w, t) →
    ∃ t', B !! j = Some (w, t') ∧ (t' = Busy ↔ t = Busy)) as Hsub.
  { intros j w t [[<- [= <- <-]]|[? ?]]%lookup_insert_Some; eauto. }
  split; [done| | |].
  - intros j w t f (t' & Hj & _)%Hsub. eauto.
  - intros j w t f (t' & Hj & E)%Hsub Hf. rewrite (Hu _ _ _ _ Hj Hf). by apply decide_ext.
  - intros j w t x f (t' & Hj & _)%Hsub. eauto.
Qed.

(** [split_frame]'s three writes. *)
Lemma frames_ok_split m B i v :
  part_ok B → frames_ok ly m B → B !! i = Some (v + 1, Held) → 0 ≤ v →
  frames_ok ly (upd (upd (upd m i (set_val v)) (flip i v) (set_used 0)) (flip i v) (set_val v))
    (<[flip i v:=(v, Held)]> (<[i:=(v, Held)]> B)).
Proof using.
  intros HP [Hi Hv Hu Hs] Hb H0. pose proof (flip_ne i v H0) as Hne.
  pose proof (split_fresh B i v Held _ HP Hb H0 eq_refl) as Hfresh.
  set (m' := upd _ _ _). set (B' := <[flip i v:=_]> _).
  assert (∀ j f, m' !! faddr ly j = Some f → ∃ f0, m !! faddr ly j = Some f0 ∧ idx f = idx f0 ∧
    val f = (if decide (j = i ∨ j = flip i v) then v else val f0) ∧
    used f = (if decide (j = flip i v) then 0 else used f0)) as Hm.
  { intros j f Hf. unfold m' in Hf. rewrite !upd_lookup in Hf.
    destruct (m !! faddr ly j) as [f0|]; [|by repeat case_decide]. exists f0.
    destruct (decide (flip i v = j)) as [E1|Hj1], (decide (i = j)) as [E2|Hj2];
      simpl in Hf; injection Hf as <-; simpl.
    - by rewrite decide_True, decide_True by auto.
    - by rewrite decide_True, decide_True by auto.
    - by rewrite decide_True, decide_False by auto.
    - by rewrite decide_False, decide_False by naive_solver. }
  assert (∀ j w t, B' !! j = Some (w, t) → (j = flip i v ∧ w = v ∧ t = Held) ∨
    (j = i ∧ w = v ∧ t = Held) ∨ (j ≠ i ∧ j ≠ flip i v ∧ B !! j = Some (w, t))) as HB.
  { intros j w t [[<- [= <- <-]]|[? [[<- [= <- <-]]|[? ?]]%lookup_insert_Some]]%lookup_insert_Some;
      [by left|by right; left|]. right. right. done. }
  assert (∀ x j w t, B !! j = Some (w, t) → hi w x j → j ≠ i → ¬ hi (v + 1) x i) as Hout.
  { intros x j w t Hj Hx Hji Hx'. destruct Hji. by eapply (po_disj B HP x j w t i). }
  split.
  - unfold m'. by repeat apply frames_ok_upd_idx.
  - intros j w t f Hj Hf. destruct (Hm _ _ Hf) as (f0 & Hf0 & _ & E & _). rewrite E.
    apply HB in Hj as [(-> & -> & ->)|[(-> & -> & ->)|(? & ? & Hj)]].
    + rewrite decide_True by auto. done.
    + rewrite decide_True by auto. done.
    + rewrite decide_False by naive_solver. eauto.
  - intros j w t f Hj Hf. destruct (Hm _ _ Hf) as (f0 & Hf0 & _ & _ & E). rewrite E.
    apply HB in Hj as [(-> & -> & ->)|[(-> & -> & ->)|(? & ? & Hj)]].
    + by rewrite decide_True.
    + rewrite decide_False by naive_solver. by rewrite (Hu _ _ _ _ Hb Hf0).
    + rewrite decide_False by naive_solver. eauto.
  - intros j w t x f Hj Hx Hf. destruct (Hm _ _ Hf) as (f0 & Hf0 & _ & E & _). rewrite E.
    apply HB in Hj as [(-> & -> & ->)|[(-> & -> & ->)|(? & ? & Hj)]].
    + case_decide as Hd.
      * split; [done|]. destruct Hd as [->| ->]; [by destruct (hi_flip_not i v)|apply lo_refl].
      * assert (hi (v + 1) x i) as Hx1.
        { apply (hi_trans _ _ (flip i v)); [apply (hi_mono v); [done|lia]|apply hi_flip; lia]. }
        destruct (Hs _ _ _ x f0 Hb Hx1 Hf0) as [? Hl]. split; [done|].
        assert (val f0 < v + 1) by (apply (hi_lo_lt _ _ x i); naive_solver).
        apply (lo_trans _ _ i); [done|]. apply lo_sym, lo_flip; lia.
    + case_decide as Hd.
      * split; [done|]. destruct Hd as [->| ->]; [apply lo_refl|].
        destruct (hi_flip_not i v H0). by apply hi_sym.
      * apply (Hs _ _ _ x f0 Hb); [|done]. apply (hi_mono v); [done|lia].
    + rewrite decide_False; [by eapply Hs|]. intros [->| ->].
      * by eapply (Hout i j w t); [| | |apply hi_refl].
      * eapply (Hout (flip i v) j w t); [done|done|done|]. apply hi_flip; lia.
Qed.

(** [frame->val += 1] when the buddy has been absorbed. *)
Lemma frames_ok_merge m B i v st :
  part_ok B → frames_ok ly m B → B !! i = Some (v, Held) → B !! flip i v = Some (v, st) →
  v < MAXORDER →
  frames_ok ly (upd m i (set_val (v + 1))) (<[i:=(v + 1, Held)]> (delete (flip i v) B)).
Proof using.
  intros HP [Hi Hv Hu Hs] Hb Hb2 Hm. destruct (po_range B HP _ _ _ Hb) as [Hr [H0 _]].
  pose proof (flip_ne i v H0) as Hne.
  set (B' := <[i:=_]> _).
  assert (∀ j w t, B' !! j = Some (w, t) → (j = i ∧ w = v + 1 ∧ t = Held) ∨
    (j ≠ i ∧ j ≠ flip i v ∧ B !! j = Some (w, t))) as HB.
  { intros j w t [[<- [= <- <-]]|[? [? ?]%lookup_delete_Some]]%lookup_insert_Some; [by left|].
    right. done. }
  split.
  - by apply frames_ok_upd_idx.
  - intros j w t f Hj Hf. rewrite upd_lookup in Hf.
    apply HB in Hj as [(-> & -> & ->)|(? & ? & Hj)].
    + rewrite decide_True in Hf by done. apply fmap_Some in Hf as (f0 & Hf & ->). done.
    + rewrite decide_False in Hf by done. eauto.
  - intros j w t f Hj Hf. rewrite upd_lookup in Hf.
    apply HB in Hj as [(-> & -> & ->)|(? & ? & Hj)].
    + rewrite decide_True in Hf by done. apply fmap_Some in Hf as (f0 & Hf & ->). simpl. by rewrite (Hu _ _ _ _ Hb Hf).
    + rewrite decide_False in Hf by done. eauto.
  - intros j w t x f Hj Hx Hf. rewrite upd_lookup in Hf.
    apply HB in Hj as [(-> & -> & ->)|(Hji & Hjb & Hj)].
    + case_decide as Hxi.
      * subst x. apply fmap_Some in Hf as (f0 & Hf & ->). simpl. split; [lia|apply lo_refl].
      * destruct (hi_halves i v x H0 Hx) as [Hx'|Hx']; [by eapply Hs|].
        destruct (Hs _ _ _ x f Hb2 Hx' Hf) as [? Hl]. split; [done|].
        apply (lo_trans _ _ (flip i v)); [done|]. apply lo_flip; [done|].
        destruct (decide (x = flip i v)) as [->|Hxb].
        -- by rewrite (Hv _ _ _ _ Hb2 Hf).
        -- apply Z.lt_le_incl. by apply (hi_lo_lt _ _ x (flip i v)).
    + case_decide as Hxi; [|by eauto]. subst x. exfalso. apply Hji.
      eapply (po_disj B HP i); [done|done|done|apply hi_refl].
Qed.
End addresses.

(** ** Footprints: what the page operations leave alone *)

Definition same_rest (s s' : mstate) : Prop :=
  heap_top s' = heap_top s ∧ frames s' = frames s ∧ lk s' = lk s ∧
  ∀ p, bin_val <$> fr s' !! p = bin_val <$> fr s !! p.

#[export] Instance same_rest_preorder : PreOrder same_rest.
Proof.
  split; [by intros s|]. intros s1 s2 s3 (A1 & A2 & A3 & A4) (B1 & B2 & B3 & B4).
  split_and!; [congruence..|]. intros p. by rewrite B4, A4.
Qed.

(** Only free-list heads may have changed. *)
Definition same_lists (ly : layout) (L L' : gmap Z (list Z)) : Prop :=
  ∀ h, (∀ v, 0 ≤ v ≤ MAXORDER → h ≠ free_head ly v) → L' !! h = L !! h.

#[export] Instance same_lists_preorder ly : PreOrder (same_lists ly).
Proof. split; [by intros L h|]. intros L1 L2 L3 H1 H2 h Hh. by rewrite H2, H1. Qed.

Lemma same_lists_insert ly L v l :
  0 ≤ v ≤ MAXORDER → same_lists ly L (<[free_head ly v := l]> L).
Proof. intros Hv h Hh. rewrite lookup_insert_ne; [done|]. intros <-. by apply (Hh v). Qed.

Section operations.
Context (ly : layout) (Hly : layout_ok ly).

(** ** The free lists under the moves *)

Lemma free_ok_take L B i v l1 l2 :
  part_ok B → free_ok ly L B → B !! i = Some (v, Avail) →
  L !! free_head ly v = Some (l1 ++ faddr ly i :: l2) → NoDup (l1 ++ faddr ly i :: l2) →
  ¬ node (<[free_head ly v := l1 ++ l2]> L) (faddr ly i) →
  free_ok ly (<[free_head ly v := l1 ++ l2]> L) (<[i:=(v, Held)]> B).
Proof using Hly.
  intros HP [Hf Hn] Hi HL Hnd Hgone. destruct (po_range B HP _ _ _ Hi) as [_ Hv]. split.
  - intros w Hw. destruct (Hf w Hw) as (l & Hl & Hin). destruct (decide (w = v)) as [->|Hne].
    + exists (l1 ++ l2). rewrite lookup_insert_eq. split; [done|]. intros p. simplify_eq.
      assert (p ∈ l1 ++ l2 ↔ p ≠ faddr ly i ∧ p ∈ l1 ++ faddr ly i :: l2) as ->.
      { rewrite !elem_of_app, elem_of_cons. apply NoDup_app in Hnd as (_ & Hd & Hnd).
        apply NoDup_cons in Hnd as [Hd2 _]. split.
        - intros [Hp|Hp]; split; [|tauto| |tauto]; intros ->; [|done].
          by apply (Hd _ Hp), elem_of_cons; left.
        - tauto. }
      rewrite Hin. split.
      * intros [Hp (j & -> & Hj)]. exists j. split; [done|].
        rewrite lookup_insert_ne; [done|]. by intros ->.
      * intros (j & -> & [[<- [=]]|[? Hj]]%lookup_insert_Some). split; [by intros ?%faddr_inj|].
        by exists j.
    + exists l. rewrite lookup_insert_ne by (by intros ?%free_head_inj). split; [done|].
      intros p. rewrite Hin. split; intros (j & -> & Hj); exists j; (split; [done|]).
      * rewrite lookup_insert_ne; [done|]. intros ->. congruence.
      * by apply lookup_insert_Some in Hj as [[<- [=]]|[? ?]].
  - intros j Hj Hnj. destruct (decide (j = i)) as [->|Hji]; [done|].
    destruct (Hn j Hj) as [w Hw].
    + apply node_insert in Hnj as [Hx|Hx]; [|done]. apply (node_elem L (free_head ly v) _ _ HL).
      rewrite elem_of_cons, elem_of_app in *. rewrite elem_of_cons. tauto.
    + exists w. by rewrite lookup_insert_ne.
Qed.

Lemma free_ok_put L B i v l :
  part_ok B → free_ok ly L B → B !! i = Some (v, Held) → L !! free_head ly v = Some l →
  free_ok ly (<[free_head ly v := faddr ly i :: l]> L) (<[i:=(v, Avail)]> B).
Proof using Hly.
  intros HP [Hf Hn] Hi HL. destruct (po_range B HP _ _ _ Hi) as [Hr Hv]. split.
  - intros w Hw. destruct (Hf w Hw) as (l' & Hl & Hin). destruct (decide (w = v)) as [->|Hne].
    + exists (faddr ly i :: l). rewrite lookup_insert_eq. split; [done|]. intros p. simplify_eq.
      rewrite elem_of_cons, Hin. split.
      * intros [->|(j & -> & Hj)]; [exists i; by rewrite lookup_insert_eq|].
        exists j. split; [done|]. rewrite lookup_insert_ne; [done|]. intros ->. congruence.
      * intros (j & -> & [[<- _]|[? Hj]]%lookup_insert_Some); [by left|right; by exists j].
    + exists l'. rewrite lookup_insert_ne by (by intros ?%free_head_inj). split; [done|].
      intros p. rewrite Hin. split; intros (j & -> & Hj); exists j; (split; [done|]).
      * rewrite lookup_insert_ne; [done|]. intros ->. congruence.
      * apply lookup_insert_Some in Hj as [[<- [=]]|[? ?]]; done.
  - intros j Hj Hnj. destruct (decide (j = i)) as [->|Hji]; [exists v; by rewrite lookup_insert_eq|].
    destruct (Hn j Hj) as [w Hw].
    + apply node_insert in Hnj as [Hx|Hx]; [|done]. apply (node_elem L (free_head ly v) _ _ HL).
      rewrite !elem_of_cons in *. destruct Hx as [?|[?%faddr_inj|?]]; [by left|done|by right].
    + exists w. by rewrite lookup_insert_ne.
Qed.

Lemma free_ok_same L B B' :
  free_ok ly L B → (∀ i v, B' !! i = Some (v, Avail) ↔ B !! i = Some (v, Avail)) → free_ok ly L B'.
Proof using.
  intros [Hf Hn] E. split.
  - intros v Hv. destruct (Hf v Hv) as (l & Hl & Hin). exists l. split; [done|]. intros p.
    rewrite Hin. by setoid_rewrite E.
  - intros i Hi Hni. destruct (Hn i Hi Hni) as [v Hv]. exists v. by apply E.
Qed.

(** ** Frame accesses *)

Lemma get_frame_ok s L B i : buddy_inv ly s L B → 0 ≤ i < FRAMES_COUNT →
  ∃ f, get_frame s (faddr ly i) = Ok f ∧ fr s !! faddr ly i = Some f ∧ idx f = i.
Proof using.
  intros HI Hi. destruct (fo_idx _ _ _ (bi_frames _ _ _ _ HI) i Hi) as (f & Hf & E).
  exists f. unfold get_frame. by rewrite Hf.
Qed.

Lemma get_frame_eq s p f : fr s !! p = Some f → get_frame s p = Ok f.
Proof using. intros Hf. unfold get_frame. by rewrite Hf. Qed.

Lemma upd_frame_ok s i g f : fr s !! faddr ly i = Some f →
  upd_frame s (faddr ly i) g = Ok (with_fr (upd ly (fr s) i g) s).
Proof using.
  intros Hf. unfold upd_frame, get_frame. rewrite Hf. simpl. do 2 f_equal.
  apply map_eq. intros p. unfold upd. destruct (decide (p = faddr ly i)) as [->|].
  - by rewrite lookup_insert_eq, lookup_alter_eq, Hf.
  - by rewrite lookup_insert_ne, lookup_alter_ne.
Qed.

Lemma same_rest_upd s i g : (∀ f, bin_val (g f) = bin_val f) →
  same_rest s (with_fr (upd ly (fr s) i g) s).
Proof using.
  intros Hg. split_and!; [done..|]. intros p. simpl. unfold upd.
  destruct (decide (p = faddr ly i)) as [->|].
  - rewrite lookup_alter_eq, <- option_fmap_compose. apply option_fmap_ext. done.
  - by rewrite lookup_alter_ne.
Qed.

Lemma same_rest_lm s m : same_rest s (with_lm m s).
Proof using. done. Qed.

(** ** Taking a block out of its free list, and putting one in *)

Lemma take_ok s L B i v l1 l2 :
  buddy_inv ly s L B → B !! i = Some (v, Avail) →
  L !! free_head ly v = Some (l1 ++ faddr ly i :: l2) →
  ∃ m, del_entry s (faddr ly i) = Ok (with_lm m s) ∧
    buddy_inv ly (with_lm m s) (<[free_head ly v := l1 ++ l2]> L) (<[i:=(v, Held)]> B) ∧
    get_next m (faddr ly i) = Ok (after (free_head ly v) l2) ∧
    get_prev m (faddr ly i) = Ok (before (free_head ly v) l1).
Proof using Hly.
  intros [Hb Hl HP Hfr Hfl] Hi HL.
  destruct (list_del_entry_ok _ _ _ _ _ _ Hl HL) as (m & E & Hok & Hgone & Hnx & Hpv).
  exists m. unfold del_entry. rewrite E. split_and!; [done| |done|done]. split; simpl.
  - done.
  - done.
  - by eapply part_ok_status.
  - by eapply frames_ok_restatus.
  - apply free_ok_take; try done. pose proof (lo_nodup _ _ Hl _ _ HL) as Hn.
    by apply NoDup_cons in Hn as [_ ?].
Qed.

Lemma put_ok s L B i v l :
  buddy_inv ly s L B → B !! i = Some (v, Held) → L !! free_head ly v = Some l →
  ∃ m, list_add_free ly s (faddr ly i) v = Ok (with_lm m s) ∧
    buddy_inv ly (with_lm m s) (<[free_head ly v := faddr ly i :: l]> L) (<[i:=(v, Avail)]> B).
Proof using Hly.
  intros [Hb Hl HP Hfr Hfl] Hi HL. destruct (po_range B HP _ _ _ Hi) as [Hr Hv].
  destruct (list_add_ok (lm s) L (free_head ly v) [] l (faddr ly i)) as (m & E & Hok); [done|done| |].
  { intros Hn. destruct (fl_node _ _ _ Hfl i Hr Hn) as [w ?]. congruence. }
  exists m. unfold list_add_free. rewrite free_list_at_ok by done. simpl in *. rewrite E.
  split; [done|]. split; simpl; try done.
  - by eapply part_ok_status.
  - by eapply frames_ok_restatus.
  - by apply free_ok_put.
Qed.

(** ** split_frame *)

Lemma get_buddy_ok s i f v : frames s = heap_start ly →
  fr s !! faddr ly i = Some f → idx f = i → val f = v → 0 ≤ v ≤ MAXORDER →
  get_buddy s (faddr ly i) = Ok (faddr ly (flip i v)).
Proof using.
  intros Hb Hf Hidx Hval Hv. unfold get_buddy, get_frame. rewrite Hf. simpl. rewrite Hval, Hidx.
  unfold MAXORDER in Hv. replace ((0 <=? v) && (v <? 31)) with true by lia. simpl.
  by rewrite (frame_at_faddr ly).
Qed.

Lemma split_frame_ok s L B i v l :
  buddy_inv ly s L B → B !! i = Some (v + 1, Held) → 0 ≤ v → L !! free_head ly v = Some l →
  ∃ s', split_frame ly s (faddr ly i) = Ok (faddr ly i, s') ∧ same_rest s s' ∧
    buddy_inv ly s' (<[free_head ly v := faddr ly (flip i v) :: l]> L)
      (<[flip i v := (v, Avail)]> (<[i:=(v, Held)]> B)).
Proof using Hly.
  intros HI Hi H0 HL. pose proof HI as [Hb Hl HP Hfr Hfl].
  destruct (po_range B HP _ _ _ Hi) as [Hr Hv]. pose proof (flip_ne i v H0) as Hne.
  pose proof (split_fresh B i v Held _ HP Hi H0 eq_refl) as Hfresh.
  assert (0 ≤ flip i v < FRAMES_COUNT) as Hbr.
  { apply (frames_block i); [done|]. unfold MAXORDER in Hv. apply hi_flip; lia. }
  destruct (get_frame_ok _ _ _ i HI Hr) as (f & Hgf & Hf & Hidx).
  destruct (get_frame_ok _ _ _ _ HI Hbr) as (b & _ & Hfb & _).
  pose proof (fo_val _ _ _ Hfr _ _ _ _ Hi Hf) as Hval.
  set (s1 := with_fr (upd ly (fr s) i (set_val v)) s).
  set (s2 := with_fr (upd ly (fr s1) (flip i v) (set_used 0)) s1).
  set (s3 := with_fr (upd ly (fr s2) (flip i v) (set_val v)) s2).
  assert (fr s1 !! faddr ly i = Some (set_val v f)) as F1.
  { simpl. by rewrite upd_lookup, decide_True, Hf. }
  assert (fr s1 !! faddr ly (flip i v) = Some b) as F1b.
  { simpl. rewrite upd_lookup, decide_False by done. done. }
  assert (fr s2 !! faddr ly i = Some (set_val v f)) as F2.
  { simpl. rewrite upd_lookup, decide_False by done. done. }
  assert (fr s2 !! faddr ly (flip i v) = Some (set_used 0 b)) as F2b.
  { simpl. rewrite upd_lookup, decide_True by done. simpl in F1b. by rewrite F1b. }
  assert (fr s3 !! faddr ly (flip i v) = Some (set_val v (set_used 0 b))) as F3b.
  { simpl. rewrite upd_lookup, decide_True by done. simpl in F2b. by rewrite F2b. }
  assert (buddy_inv ly s3 L (<[flip i v := (v, Held)]> (<[i:=(v, Held)]> B))) as HI3.
  { split; simpl; [done|done| | |].
    - by eapply part_ok_split.
    - by apply frames_ok_split.
    - apply (free_ok_same L B); [done|]. intros j w. split.
      + intros [[? [=]]|[? [[? [=]]|[? ?]]%lookup_insert_Some]]%lookup_insert_Some. done.
      + intros Hj. rewrite !lookup_insert_ne; [done|..]; intros <-; congruence. }
  destruct (put_ok s3 L _ (flip i v) v l HI3) as (m & Em & HIm); [by rewrite lookup_insert_eq|done|].
  exists (with_lm m s3). split_and!.
  - unfold split_frame. res_step Hgf. rewrite Hval. replace (v + 1 - 1) with v by lia.
    res_step (upd_frame_ok s i (set_val v) f Hf). fold s1.
    res_step (get_buddy_ok s1 i (set_val v f) v Hb F1 Hidx eq_refl ltac:(lia)).
    res_step (upd_frame_ok s1 _ (set_used 0) b F1b). fold s2.
    res_step (get_frame_eq s2 _ _ F2). change (val (set_val v f)) with v.
    res_step (upd_frame_ok s2 _ (set_val v) _ F2b). fold s3.
    res_step (get_frame_eq s3 _ _ F3b). change (val (set_val _ _)) with v. by res_step Em.
  - transitivity s3; [|apply same_rest_lm]. transitivity s1; [by apply same_rest_upd|].
    transitivity s2; by apply same_rest_upd.
  - by rewrite insert_insert_eq in HIm.
Qed.

(** ** alloc_page *)

Lemma free_frame_put B i v : B !! i = Some (v, Held) → ∀ x,
  free_frame (<[i:=(v, Avail)]> B) x ↔ free_frame B x ∨ hi v x i.
Proof using.
  intros Hi x. split.
  - intros (j & w & [[<- [= <-]]|[? Hj]]%lookup_insert_Some & Hx); [by right|left; by exists j, w].
  - intros [(j & w & Hj & Hx)|Hx].
    + exists j, w. split; [|done]. rewrite lookup_insert_ne; [done|]. intros <-. congruence.
    + exists i, v. by rewrite lookup_insert_eq.
Qed.

Lemma free_frame_not_avail B i v st w t : B !! i = Some (v, st) → st ≠ Avail → t ≠ Avail → ∀ x,
  free_frame (<[i:=(w, t)]> B) x ↔ free_frame B x.
Proof using.
  intros Hi Hs Ht x. split; intros (j & u & Hj & Hx); exists j, u; (split; [|done]).
  - apply lookup_insert_Some in Hj as [[<- [= ]]|[? Hj]]; [done|done].
  - rewrite lookup_insert_ne; [done|]. intros <-. congruence.
Qed.

Lemma free_frame_take B i v t : part_ok B → B !! i = Some (v, Avail) → t ≠ Avail → ∀ x,
  free_frame (<[i:=(v, t)]> B) x ↔ free_frame B x ∧ ¬ hi v x i.
Proof using.
  intros HP Hi Ht x. split.
  - intros (j & w & [[<- [= ]]|[? Hj]]%lookup_insert_Some & Hx); [done|].
    split; [by exists j, w|]. intros Hx'. by eapply H, (po_disj B HP x i v Avail j w).
  - intros [(j & w & Hj & Hx) Hx']. exists j, w. split; [|done].
    rewrite lookup_insert_ne; [done|]. intros <-. congruence.
Qed.

(** The outcome of a run of splits that started with block [i] of order [w]. *)
Record split_to (B : blocks) (i w v : Z) (B' : blocks) : Prop := {
  st_rep : B' !! i = Some (v, Held);
  st_free : ∀ x, free_frame B' x ↔ free_frame B x ∨ (hi w x i ∧ ¬ hi v x i);
  st_kept : ∀ j u t, j ≠ i → t ≠ Avail → B' !! j = Some (u, t) ↔ B !! j = Some (u, t);
  st_avail : ∀ j u, B !! j = Some (u, Avail) → B' !! j = Some (u, Avail);
  st_aligned : ∀ j u t, B' !! j = Some (u, t) → B !! j = Some (u, t) ∨ (v ≤ u < w ∧ lo u j i) ∨ (j = i ∧ u = v);
}.

Lemma split_down_ok n : ∀ s L B i v,
  buddy_inv ly s L B → B !! i = Some (v + Z.of_nat n, Held) → 0 ≤ v →
  ∃ s' L' B', split_down ly n (faddr ly i) s = Ok (faddr ly i, s') ∧ same_rest s s' ∧
    same_lists ly L L' ∧ buddy_inv ly s' L' B' ∧ split_to B i (v + Z.of_nat n) v B'.
Proof using Hly.
  induction n as [|n IH]; intros s L B i v HI Hi Hv.
  { exists s, L, B. split_and!; [done|done|done|done|].
    replace (v + Z.of_nat 0) with v in * by lia.
    split; [done| |done|done|by auto]. intros x. split; [by left|intros [?|[??]]; done]. }
  pose proof HI as [Hb Hl HP Hfr Hfl]. destruct (po_range B HP _ _ _ Hi) as [Hr Hm].
  set (w := v + Z.of_nat n) in *.
  assert (v + Z.of_nat (S n) = w + 1) as Ew by lia. rewrite Ew in *.
  destruct (fl_free _ _ _ Hfl w) as (l & HL & _); [lia|].
  destruct (split_frame_ok s L B i w l HI Hi) as (s1 & E1 & R1 & HI1); [lia|done|].
  pose proof (split_fresh B i w Held _ HP Hi ltac:(lia) eq_refl) as Hfresh.
  pose proof (flip_ne i w ltac:(lia)) as Hne.
  destruct (IH s1 _ _ i v HI1) as (s2 & L2 & B2 & E2 & R2 & SL2 & HI2 & [S1 S2 S3 S5 S4]);
    [by rewrite lookup_insert_ne, lookup_insert_eq by done|done|].
  exists s2, L2, B2. split_and!; [simpl; by rewrite E1|by transitivity s1| |done|].
  { transitivity (<[free_head ly w:=faddr ly (flip i w) :: l]> L); [|done].
    apply same_lists_insert. lia. }
  assert (∀ x, free_frame (<[flip i w:=(w, Avail)]> (<[i:=(w, Held)]> B)) x ↔
    free_frame B x ∨ hi w x (flip i w)) as HF.
  { intros x. rewrite <- (insert_insert_eq _ (flip i w) (w, Avail) (w, Held)).
    rewrite (free_frame_put _ _ w) by apply lookup_insert_eq.
    apply or_iff_compat_r. unfold free_frame. split; intros (j & u & Hj & Hx); exists j, u; (split; [|done]).
    - by apply lookup_insert_Some in Hj as [[? [=]]|[? [[? [=]]|[? ?]]%lookup_insert_Some]].
    - rewrite !lookup_insert_ne; [done|..]; intros <-; congruence. }
  split; [done| | | |].
  - intros x. rewrite S2, HF. fold w. split.
    + intros [[?|Hx]|[Hx ?]]; [by left| |].
      * right. split.
        -- apply (hi_trans _ _ (flip i w)); [apply (hi_mono w); [done|lia]|apply hi_flip; lia].
        -- intros Hx'. destruct (hi_flip_not i w ltac:(lia)).
           apply (hi_trans _ _ x); [|done]. apply hi_sym, (hi_mono v); [done|lia].
      * right. split; [apply (hi_mono w); [done|lia]|done].
    + intros [?|[Hx ?]]; [by left; left|].
      destruct (hi_halves i w x ltac:(lia) Hx); [by right|by left; right].
  - intros j u t Hj Ht. rewrite S3 by done. split.
    + intros [[<- [= <- <-]]|[? [[<- [= <- <-]]|[? ?]]%lookup_insert_Some]]%lookup_insert_Some; done.
    + intros Hj'. rewrite !lookup_insert_ne; [done|done|]. intros <-. congruence.
  - intros j u Hj. apply S5. rewrite !lookup_insert_ne; [done|..]; intros <-; congruence.
  - intros j u t [Hj|[[? ?]|?]]%S4; [|right; left; split; [lia|done]|by right; right].
    apply lookup_insert_Some in Hj as [[<- [= <- <-]]|[? [[<- [= <- <-]]|[? ?]]%lookup_insert_Some]].
    + right. left. split; [lia|]. apply lo_flip; lia.
    + destruct (decide (v = w)) as [E|]; [right; right; split; [done|lia]|].
      right. left. split; [lia|apply lo_refl].
    + by left.
Qed.

Lemma first_order_spec unit size n : ∀ i, 0 ≤ unit → 0 ≤ i →
  let v := first_order unit size n i in
  (i ≤ v < i + Z.of_nat n ∧ size ≤ Z.shiftl unit v ∧ (∀ j, i ≤ j < v → Z.shiftl unit j < size)) ∨
  (v = 0 ∧ ∀ j, i ≤ j < i + Z.of_nat n → Z.shiftl unit j < size).
Proof using.
  induction n as [|n IH]; intros i Hu Hi; simpl.
  { right. split; [done|]. lia. }
  destruct (Z.leb_spec size (Z.shiftl unit i)).
  - left. split_and!; [lia|lia|done|]. lia.
  - destruct (IH (i + 1) Hu ltac:(lia)) as [(A & B & C)|[A B]].
    + left. split_and!; [lia|lia|done|]. intros j Hj.
      destruct (decide (j = i)) as [->|]; [done|]. apply C. lia.
    + right. split; [done|]. intros j Hj. destruct (decide (j = i)) as [->|]; [done|]. apply B. lia.
Qed.

Lemma page_order_range size : 0 ≤ page_order size ≤ MAXORDER.
Proof using.
  destruct (first_order_spec 0x1000 size (Z.to_nat (MAXORDER + 1)) 0) as [(A & _)|[A _]]; [lia|lia| |];
    unfold page_order, MAXORDER in *; lia.
Qed.

Lemma find_free_ok s L B n : ∀ v, buddy_inv ly s L B → 0 ≤ v → v + Z.of_nat n = MAXORDER + 1 →
  ∃ c, find_free ly s n v = Ok c ∧ v ≤ c ≤ MAXORDER + 1 ∧
    (∀ w i, v ≤ w < c → B !! i ≠ Some (w, Avail)) ∧
    (c ≤ MAXORDER → ∃ i l, L !! free_head ly c = Some (faddr ly i :: l) ∧ B !! i = Some (c, Avail)).
Proof using Hly.
  induction n as [|n IH]; intros v HI Hv Hn.
  { exists v. simpl. split_and!; [done|lia|lia|lia|lia]. }
  destruct (fl_free _ _ _ (bi_free _ _ _ _ HI) v) as (l & HL & Hin); [lia|].
  simpl. rewrite free_list_at_ok by lia. simpl.
  rewrite (list_empty_ok _ L _ l (bi_lists _ _ _ _ HI) HL). simpl.
  destruct l as [|p l].
  - rewrite bool_decide_eq_true_2 by done.
    destruct (IH (v + 1) HI) as (c & E & Hc & Hnone & Hsome); [lia|lia|].
    exists c. split_and!; [done|lia|lia| |done]. intros w i Hw Hi.
    destruct (decide (w = v)) as [->|]; [|by apply (Hnone w i); [lia|]].
    assert (faddr ly i ∈ []) by (apply Hin; eauto). set_solver.
  - rewrite bool_decide_eq_false_2 by done. exists v. split_and!; [done|lia|lia|lia|].
    intros _. destruct (proj1 (Hin p)) as (i & -> & Hi); [set_solver|]. eauto.
Qed.

(** Block [i] of order [v] was free and is now allocated; nothing else changed. *)
Record allocated (B : blocks) (i v : Z) (B' : blocks) : Prop := {
  al_rep : B' !! i = Some (v, Busy);
  al_was_free : ∀ x, hi v x i → free_frame B x;
  al_free : ∀ x, free_frame B' x ↔ free_frame B x ∧ ¬ hi v x i;
  al_busy : ∀ j w, j ≠ i → B' !! j = Some (w, Busy) ↔ B !! j = Some (w, Busy);
  al_avail : ∀ j w, j ≠ i → B !! j = Some (w, Avail) → B' !! j = Some (w, Avail);
  al_aligned : aligned B → aligned B';
}.

Definition page_addr (i : Z) : Z := FRAME_START + 0x1000 * i.

Lemma page_addr_eq i : 0 ≤ i < FRAMES_COUNT → u64 (FRAME_START + u32 (0x1000 * i)) = page_addr i.
Proof using.
  unfold FRAMES_COUNT, page_addr. intros Hi. rewrite (u32_small (0x1000 * i)) by lia.
  change FRAME_START with VIRT_BASE. unfold VIRT_BASE. apply u64_small. lia.
Qed.

(** A block that is big enough exists. *)
Definition can_alloc (B : blocks) (v : Z) : Prop :=
  ∃ i w, v ≤ w ∧ B !! i = Some (w, Avail).

Lemma alloc_page_ok s L B size :
  buddy_inv ly s L B → settled B → can_alloc B (page_order size) →
  ∃ i s' L' B', alloc_page ly size s = Ok (page_addr i, s') ∧ 0 ≤ i < FRAMES_COUNT ∧
    same_rest s s' ∧ same_lists ly L L' ∧ buddy_inv ly s' L' B' ∧ settled B' ∧
    allocated B i (page_order size) B' ∧
    (∀ j l, L !! free_head ly (page_order size) = Some (faddr ly j :: l) → i = j).
Proof using Hly.
  intros HI HS (i0 & w0 & Hw0 & Hi0). pose proof (page_order_range size) as Hv.
  set (v := page_order size) in *.
  assert (w0 ≤ MAXORDER) by (apply (po_range B (bi_part _ _ _ _ HI) i0 w0 Avail Hi0)).
  destruct (find_free_ok s L B (Z.to_nat (MAXORDER + 1 - v)) v HI) as (c & Ec & Hc & Hnone & Hsome);
    [lia|lia|].
  assert (c ≤ MAXORDER) as Hc6.
  { destruct (decide (c ≤ MAXORDER)); [done|]. by destruct (Hnone w0 i0); [lia|]. }
  destruct (Hsome Hc6) as (i & l & HL & Hi).
  pose proof (bi_part _ _ _ _ HI) as HP. destruct (po_range B HP _ _ _ Hi) as [Hr _].
  destruct (take_ok s L B i c [] l HI Hi HL) as (m & Em & HIm & _ & _).
  destruct (split_down_ok (Z.to_nat (c - v)) _ _ _ i v HIm) as (s2 & L2 & B2 & E2 & R2 & SL2 & HI2 & S2);
    [by rewrite lookup_insert_eq, Z2Nat.id by lia; do 2 f_equal; lia|lia|].
  replace (v + Z.of_nat (Z.to_nat (c - v))) with c in S2 by lia.
  destruct S2 as [S2r S2f S2k S2v S2a].
  destruct (get_frame_ok s2 L2 B2 i HI2 Hr) as (f & _ & Hf & Hidx).
  set (s3 := with_fr (upd ly (fr s2) i (set_used 1)) s2).
  exists i, s3, L2, (<[i:=(v, Busy)]> B2). split_and!; [|lia|lia| | | | | |].
  - unfold alloc_page. fold v. rewrite (proj2 (Z.ltb_ge _ _)) by lia.
    res_step Ec. res_step (free_list_at_ok ly c ltac:(lia)).
    res_step (get_next_ok _ L (free_head ly c) [] _ (bi_lists _ _ _ _ HI) HL : get_next _ (free_head ly c) = _).
    cbn [head default from_option id]. res_step Em. res_step E2.
    res_step (upd_frame_ok s2 i (set_used 1) f Hf). fold s3.
    assert (fr s3 !! faddr ly i = Some (set_used 1 f)) as F3.
    { simpl. by rewrite upd_lookup, decide_True, Hf. }
    res_step (get_frame_eq s3 _ _ F3). change (idx (set_used 1 f)) with (idx f).
    by rewrite Hidx, page_addr_eq.
  - transitivity s2; [|by apply same_rest_upd]. by transitivity (with_lm m s).
  - etransitivity; [|done]. apply same_lists_insert. lia.
  - pose proof HI2 as [Hb2 Hl2 HP2 Hfr2 Hfl2]. split; simpl; [done|done| | |].
    + by eapply part_ok_status.
    + by apply (frames_ok_status ly _ _ i v Held).
    + apply (free_ok_same L2 B2); [done|]. intros j w. split.
      * intros [[? [=]]|[? ?]]%lookup_insert_Some; done.
      * intros Hj. rewrite lookup_insert_ne; [done|]. intros <-. congruence.
  - intros j w [[? [=]]|[? Hj]]%lookup_insert_Some.
    rewrite S2k in Hj by done. rewrite lookup_insert_ne in Hj by done. by eapply HS.
  - split.
    + by rewrite lookup_insert_eq.
    + intros x Hx. exists i, c. split; [done|]. apply (hi_mono v); [done|lia].
    + intros x. rewrite (free_frame_not_avail B2 i v Held) by done. rewrite S2f.
      rewrite (free_frame_take B i c Held HP Hi) by done. split.
      * intros [[? Hx]|[? ?]]; [|by split; [exists i, c|]].
        split; [done|]. intros Hx'. apply Hx, (hi_mono v); [done|lia].
      * intros [Hx ?]. destruct (decide (x / 2 ^ c = i / 2 ^ c)) as [E|E];
          rewrite <- hi_div in E by lia; [by right|by left].
    + intros j w Hj. rewrite lookup_insert_ne by done. rewrite S2k by done.
      by rewrite lookup_insert_ne.
    + intros j w Hne Hj. rewrite lookup_insert_ne by done. apply S2v. by rewrite lookup_insert_ne.
    + intros HA. pose proof (HA _ _ _ Hi) as Hic.
      assert (∀ j u t, B2 !! j = Some (u, t) → lo u j 0) as HA2.
      { intros j u t [Hj|[[Hu Hj]|[-> ->]]]%S2a.
        - apply lookup_insert_Some in Hj as [[<- [= <- <-]]|[_ Hj]]; [done|by eapply HA].
        - apply (lo_trans _ _ i); [done|]. apply (lo_mono c); [done|lia].
        - apply (lo_mono c); [done|lia]. }
      intros j u t [[<- [= <- <-]]|[_ Hj]]%lookup_insert_Some; [by apply (HA2 i v Held)|by eapply HA2].
  - intros j l' Hl'. destruct (fl_free _ _ _ (bi_free _ _ _ _ HI) v ltac:(lia)) as (l0 & Hl0 & Hin). rewrite Hl' in Hl0. injection Hl0 as <-.
    destruct (proj1 (Hin (faddr ly j))) as (j' & Ej & Hj); [by left|]. destruct (decide (v < c)) as [Hlt|Hge]; [by destruct (Hnone v j'); [lia|]|].
    assert (c = v) as -> by lia. rewrite Hl' in HL. injection HL as E _. symmetry. by apply (faddr_inj ly).
Qed.

(** ** combine_page and free_page *)

(** Page operations move frames between free lists and touch no other node. *)
Lemma node_same_lists s L B s' L' B' p :
  buddy_inv ly s L B → buddy_inv ly s' L' B' → same_lists ly L L' → node L' p →
  node L p ∨ ∃ i, 0 ≤ i < FRAMES_COUNT ∧ p = faddr ly i.
Proof using.
  intros HI HI' HSL (h & l & Hh & Hp).
  destruct (decide (h ∈ free_head ly <$> seqZ 0 (MAXORDER + 1))) as [Hd|Hn].
  - apply list_elem_of_fmap in Hd as (v & -> & Hv%elem_of_seqZ).
    assert (0 ≤ v ≤ MAXORDER) by lia.
    destruct (fl_free _ _ _ (bi_free _ _ _ _ HI) v) as (l0 & Hl0 & _); [done|].
    destruct (fl_free _ _ _ (bi_free _ _ _ _ HI') v) as (l1 & Hl1 & Hin); [done|]. simplify_eq.
    apply elem_of_cons in Hp as [->|Hp]; [left; apply (node_elem L (free_head ly v) l0 _ Hl0); by left|right].
    apply Hin in Hp as (i & -> & Hi). exists i. split; [|done].
    by apply (po_range B' (bi_part _ _ _ _ HI') _ _ _ Hi).
  - left. exists h, l. split; [|done]. rewrite <- HSL; [done|]. intros v Hv ->.
    apply Hn, list_elem_of_fmap. exists v. split; [done|]. apply elem_of_seqZ. lia.
Qed.

(** The list cells a page operation may write. *)
Definition page_cells (L : gmap Z (list Z)) (q : Z) : Prop := node L q ∨ ∃ j, 0 ≤ j < FRAMES_COUNT ∧ q = faddr ly j.

Lemma page_cells_step s L B s' L' B' q :
  buddy_inv ly s L B → buddy_inv ly s' L' B' → same_lists ly L L' → page_cells L' q → page_cells L q.
Proof using.
  intros HI HI' HSL [Hn|Hj]; [|by right]. destruct (node_same_lists _ _ _ _ _ _ _ HI HI' HSL Hn) as [?|?]; [by left|by right].
Qed.

Definition only_held (B : blocks) (i : Z) : Prop := ∀ j w, B !! j = Some (w, Held) → j = i.

(** A buddy that shows the same order and is not in use is an available
    block: stale [val] fields of absorbed frames are never mistaken for it. *)
Lemma buddy_found s L B i v b :
  buddy_inv ly s L B → B !! i = Some (v, Held) → only_held B i → v < MAXORDER →
  fr s !! faddr ly (flip i v) = Some b →
  (val b = v ∧ used b ≠ 1) ↔ B !! flip i v = Some (v, Avail).
Proof using.
  intros HI Hi Hh Hm Hb. pose proof (bi_part _ _ _ _ HI) as HP.
  pose proof (bi_frames _ _ _ _ HI) as HF. destruct (po_range B HP _ _ _ Hi) as [Hr [H0 _]].
  split.
  - intros [Hval Hu].
    assert (0 ≤ flip i v < FRAMES_COUNT) as Hbr.
    { apply (frames_block i); [done|]. unfold MAXORDER in Hm. apply hi_flip; lia. }
    destruct (po_cover B HP _ Hbr) as (k & w & st & Hk & Hx).
    destruct (fo_stale _ _ _ HF _ _ _ _ _ Hk Hx Hb) as [_ Hlo]. rewrite Hval in Hlo.
    destruct (decide (flip i v = k)) as [<-|Hne].
    + rewrite (fo_val _ _ _ HF _ _ _ _ Hk Hb) in Hval. subst w.
      pose proof (fo_used _ _ _ HF _ _ _ _ Hk Hb) as Hub.
      destruct st; [done|by rewrite decide_True in Hub|].
      destruct (flip_ne i v H0). by apply (Hh _ v).
    + pose proof (hi_lo_lt _ _ _ _ Hx Hlo Hne) as Hvw.
      assert (k = i) as ->.
      { apply (po_disj B HP i k w st i v Held Hk Hi); [|apply hi_refl].
        apply (hi_trans _ _ (flip i v)); [|done]. apply hi_sym, hi_flip; lia. }
      simplify_eq. lia.
  - intros Hk. rewrite (fo_val _ _ _ HF _ _ _ _ Hk Hb). split; [done|].
    rewrite (fo_used _ _ _ HF _ _ _ _ Hk Hb). by rewrite decide_False.
Qed.

Lemma combine_page_ok s L B i v :
  buddy_inv ly s L B → B !! i = Some (v, Held) → only_held B i →
  (combine_page s (faddr ly i) = Ok (-1, s) ∧
    (v = MAXORDER ∨ B !! flip i v ≠ Some (v, Avail))) ∨
  (v < MAXORDER ∧ B !! flip i v = Some (v, Avail) ∧
    ∃ s' L', combine_page s (faddr ly i) = Ok (0, s') ∧ same_rest s s' ∧ same_lists ly L L' ∧
      buddy_inv ly s' L' (<[i:=(v + 1, Held)]> (delete (flip i v) B)) ∧ cells_same (page_cells L) (lm s) (lm s')).
Proof using Hly.
  intros HI Hi Hh. pose proof (bi_part _ _ _ _ HI) as HP.
  destruct (po_range B HP _ _ _ Hi) as [Hr Hv].
  destruct (get_frame_ok _ _ _ i HI Hr) as (f & Hgf & Hf & Hidx).
  pose proof (fo_val _ _ _ (bi_frames _ _ _ _ HI) _ _ _ _ Hi Hf) as Hval.
  assert (get_buddy s (faddr ly i) = Ok (faddr ly (flip i v))) as Egb.
  { by apply (get_buddy_ok s i f); [apply (bi_base _ _ _ _ HI)|..]. }
  unfold combine_page. rewrite Egb. cbn [mbind res_bind]. rewrite Hgf. cbn [mbind res_bind].
  rewrite Hval. destruct (Z.eqb_spec v MAXORDER) as [->|Hm]; [left; auto|].
  assert (v < MAXORDER) as Hlt by lia.
  assert (0 ≤ flip i v < FRAMES_COUNT) as Hbr.
  { apply (frames_block i); [done|]. unfold MAXORDER in Hlt. apply hi_flip; lia. }
  destruct (get_frame_ok _ _ _ _ HI Hbr) as (b & Hgb & Hb & _).
  rewrite Hgb. cbn [mbind res_bind]. pose proof (buddy_found s L B i v b HI Hi Hh Hlt Hb) as Hfound.
  destruct (Z.eqb_spec (val b) v) as [Evb|Evb]; simpl; [|left; split; [done|right; tauto]].
  destruct (Z.eqb_spec (used b) 1) as [Eub|Eub]; [left; split; [done|right; tauto]|].
  right. assert (B !! flip i v = Some (v, Avail)) as Hbuddy by tauto.
  split_and!; [done|done|].
  destruct (fl_free _ _ _ (bi_free _ _ _ _ HI) v Hv) as (l & HL & Hin).
  assert (faddr ly (flip i v) ∈ l) as Hinl by (apply Hin; eauto).
  apply list_elem_of_split in Hinl as (l1 & l2 & ->).
  destruct (take_ok s L B _ v l1 l2 HI Hbuddy HL) as (m & Em & HIm & _ & _).
  rewrite Em. cbn [mbind res_bind].
  rewrite (upd_frame_ok (with_lm m s) i _ f Hf). cbn [mbind res_bind].
  pose proof (flip_ne i v ltac:(lia)) as Hne.
  eexists _, _. split; [done|]. split; [|split; [|split]].
  - transitivity (with_lm m s); [done|]. by apply same_rest_upd.
  - by apply same_lists_insert.
  - pose proof HIm as [Hb2 Hl2 HP2 Hfr2 Hfl2].
    assert (delete (flip i v) B = delete (flip i v) (<[flip i v:=(v, Held)]> B)) as ->
      by (by rewrite delete_insert_eq).
    split; simpl; [done|done| | |].
    + eapply part_ok_merge; [done|done| |by rewrite lookup_insert_eq].
      by rewrite lookup_insert_ne.
    + eapply frames_ok_merge; [done|done| |by rewrite lookup_insert_eq|done].
      by rewrite lookup_insert_ne.
    + apply (free_ok_same _ (<[flip i v:=(v, Held)]> B)); [done|]. intros j w. split.
      * intros [[? [=]]|[? [? ?]%lookup_delete_Some]]%lookup_insert_Some. done.
      * intros Hj. rewrite lookup_insert_ne.
        -- rewrite lookup_delete_ne; [done|]. intros <-. by rewrite lookup_insert_eq in Hj.
        -- intros <-. by rewrite lookup_insert_ne, Hi in Hj by done.
  - unfold del_entry in Em. apply bind_Ok in Em as (m' & Em & [= ->]).
    apply (cells_same_weaken (λ q, node L q ∧ q ≠ faddr ly (flip i v))); [intros q [Hq _]; by left|].
    eapply list_del_cells; [exact (bi_lists _ _ _ _ HI)|exact HL| |exact Em]. apply elem_of_app. right. by left.
Qed.

(** The outcome of the merges of a block [i] of order [v]. *)
Record merged (B : blocks) (i v w : Z) (B' : blocks) : Prop := {
  mg_rep : B' !! i = Some (w, Held);
  mg_free : ∀ x, free_frame B' x ∨ hi w x i ↔ free_frame B x ∨ hi v x i;
  mg_kept : ∀ j u t, j ≠ i → t ≠ Avail → B' !! j = Some (u, t) ↔ B !! j = Some (u, t);
  mg_max : w = MAXORDER ∨ B' !! flip i w ≠ Some (w, Avail);
  mg_big : ∀ j, B !! j = Some (MAXORDER, Avail) → B' !! j = Some (MAXORDER, Avail);
  mg_sub : ∀ j u t, j ≠ i → B' !! j = Some (u, t) → B !! j = Some (u, t);
}.

Lemma combine_loop_ok fuel : ∀ s L B i v,
  buddy_inv ly s L B → B !! i = Some (v, Held) → only_held B i →
  MAXORDER - v < Z.of_nat fuel →
  ∃ s' L' B' w, combine_loop fuel (faddr ly i) s = Ok s' ∧ same_rest s s' ∧ same_lists ly L L' ∧
    buddy_inv ly s' L' B' ∧ merged B i v w B' ∧ cells_same (page_cells L) (lm s) (lm s').
Proof using Hly.
  induction fuel as [|fuel IH]; intros s L B i v HI Hi Hh Hf.
  { destruct (po_range B (bi_part _ _ _ _ HI) _ _ _ Hi). lia. }
  pose proof (bi_part _ _ _ _ HI) as HP. destruct (po_range B HP _ _ _ Hi) as [Hr [H0 _]].
  pose proof (flip_ne i v H0) as Hne.
  destruct (combine_page_ok s L B i v HI Hi Hh) as [[E Hmax]|(Hlt & Hbud & s1 & L1 & E & R1 & SL1 & HI1 & C1)].
  { exists s, L, B, v. simpl. rewrite E. done. }
  destruct (IH s1 L1 _ i (v + 1) HI1) as (s2 & L2 & B2 & w & E2 & R2 & SL2 & HI2 & [M1 M2 M3 M4 M5 M6] & C2).
  { by rewrite lookup_insert_eq. }
  { intros j u [[<- _]|[? [? Hj]%lookup_delete_Some]]%lookup_insert_Some; [done|]. by apply (Hh j u). }
  { lia. }
  exists s2, L2, B2, w. split_and!; [simpl; by rewrite E|by transitivity s1|by transitivity L1|done| |].
  2: { transitivity (lm s1); [done|]. eapply cells_same_weaken; [|exact C2]. intros q. by apply (page_cells_step s L B s1 L1 (<[i:=(v + 1, Held)]> (delete (flip i v) B))). }
  split; [done| | |done| |].
  - intros x. rewrite M2. split.
    + intros [(j & u & Hj & Hx)|Hx].
      * apply lookup_insert_Some in Hj as [[? [=]]|[? [? Hj]%lookup_delete_Some]].
        left. by exists j, u.
      * destruct (hi_halves i v x H0 Hx) as [?|?]; [by right|left]. by exists (flip i v), v.
    + intros [(j & u & Hj & Hx)|Hx]; [|right; apply (hi_mono v); [done|lia]].
      destruct (decide (j = flip i v)) as [->|Hjb].
      * simplify_eq. right. apply (hi_trans _ _ (flip i v)); [apply (hi_mono v); [done|lia]|].
        apply hi_flip; lia.
      * left. exists j, u. split; [|done]. rewrite lookup_insert_ne, lookup_delete_ne; [done|done|].
        intros <-. congruence.
  - intros j u t Hj Ht. rewrite M3, lookup_insert_ne by done.
    destruct (decide (j = flip i v)) as [->|]; [|by rewrite lookup_delete_ne].
    rewrite lookup_delete_eq, Hbud. naive_solver.
  - intros j Hj. apply M5. rewrite lookup_insert_ne, lookup_delete_ne; [done|..]; intros <-; simplify_eq; lia.
  - intros j u t Hj Ht%M6; [|done]. rewrite lookup_insert_ne in Ht by done. by apply lookup_delete_Some in Ht as [_ ?].
Qed.

(** Block [i] of order [v] was allocated and its frames are free again. *)
Record freed (B : blocks) (i v : Z) (B' : blocks) : Prop := {
  fd_free : ∀ x, free_frame B' x ↔ free_frame B x ∨ hi v x i;
  fd_busy : ∀ j w, B' !! j = Some (w, Busy) ↔ j ≠ i ∧ B !! j = Some (w, Busy);
  fd_rep : ∃ w, B' !! i = Some (w, Avail) ∧
    (w = MAXORDER ∨ B' !! flip i w ≠ Some (w, Avail));
  fd_big : ∀ j, B !! j = Some (MAXORDER, Avail) → B' !! j = Some (MAXORDER, Avail);
  fd_sub : ∀ j u t, j ≠ i → B' !! j = Some (u, t) → B !! j = Some (u, t);
}.

Lemma frame_of_page s i d : frames s = heap_start ly → 0 ≤ i < FRAMES_COUNT → 0 ≤ d < 0x1000 →
  frame_of s (page_addr i + d) = faddr ly i.
Proof using.
  intros Hb Hi Hd. unfold frame_of, page_addr. rewrite (frame_at_faddr ly) by done. f_equal.
  replace (FRAME_START + 0x1000 * i + d - FRAME_START) with (i * 0x1000 + d) by lia.
  unfold FRAMES_COUNT in Hi. rewrite u64_small by lia. rewrite Z.shiftr_div_pow2 by lia.
  change (2 ^ 12) with 0x1000. rewrite Z.div_add_l by lia. rewrite Z.div_small by lia. lia.
Qed.

Lemma free_page_ok s L B i v :
  buddy_inv ly s L B → settled B → B !! i = Some (v, Busy) →
  ∃ s' L' B', free_page ly (page_addr i) s = Ok s' ∧ same_rest s s' ∧ same_lists ly L L' ∧
    buddy_inv ly s' L' B' ∧ settled B' ∧ freed B i v B' ∧ cells_same (page_cells L) (lm s) (lm s') ∧
    (∃ w l, B' !! i = Some (w, Avail) ∧ L' !! free_head ly w = Some (faddr ly i :: l)).
Proof using Hly.
  intros HI HS Hi. pose proof (bi_part _ _ _ _ HI) as HP.
  destruct (po_range B HP _ _ _ Hi) as [Hr Hv].
  destruct (get_frame_ok s L B i HI Hr) as (f & _ & Hf & _).
  set (s1 := with_fr (upd ly (fr s) i (set_used 0)) s).
  assert (buddy_inv ly s1 L (<[i:=(v, Held)]> B)) as HI1.
  { destruct HI as [Hb Hl _ Hfr Hfl]. split; simpl; [done|done| | |].
    - by eapply part_ok_status.
    - by apply (frames_ok_status ly _ _ i v Busy).
    - apply (free_ok_same L B); [done|]. intros j w. split.
      + intros [[? [=]]|[? ?]]%lookup_insert_Some; done.
      + intros Hj. rewrite lookup_insert_ne; [done|]. intros <-. congruence. }
  destruct (combine_loop_ok combine_fuel s1 L _ i v HI1) as
    (s2 & L2 & B2 & w & E2 & R2 & SL2 & HI2 & [M1 M2 M3 M4 M5 M6] & C2).
  { by rewrite lookup_insert_eq. }
  { intros j u [[<- _]|[? Hj]]%lookup_insert_Some; [done|]. by destruct (HS j u). }
  { unfold combine_fuel, MAXORDER. lia. }
  destruct (po_range B2 (bi_part _ _ _ _ HI2) _ _ _ M1) as [_ Hw].
  destruct (get_frame_ok s2 L2 B2 i HI2 Hr) as (f2 & Hg2 & Hf2 & _).
  pose proof (fo_val _ _ _ (bi_frames _ _ _ _ HI2) _ _ _ _ M1 Hf2) as Hval2.
  destruct (fl_free _ _ _ (bi_free _ _ _ _ HI2) w Hw) as (l & HL & _).
  destruct (put_ok s2 L2 B2 i w l HI2 M1 HL) as (m & Em & HIm).
  exists (with_lm m s2), (<[free_head ly w:=faddr ly i :: l]> L2), (<[i:=(w, Avail)]> B2).
  split_and!.
  - unfold free_page. replace (page_addr i) with (page_addr i + 0) by lia.
    rewrite (frame_of_page s i 0 (bi_base _ _ _ _ HI) Hr) by lia. cbv zeta.
    res_step (upd_frame_ok s i (set_used 0) f Hf). fold s1. res_step E2. res_step Hg2.
    by rewrite Hval2, Em.
  - transitivity s1; [by apply same_rest_upd|]. by transitivity s2.
  - transitivity L2; [done|]. by apply same_lists_insert.
  - done.
  - intros j u [[? [=]]|[? Hj]]%lookup_insert_Some.
    rewrite M3 in Hj by done. rewrite lookup_insert_ne in Hj by done. by eapply HS.
  - split.
    + intros x. rewrite (free_frame_put B2 i w M1), M2.
      by rewrite (free_frame_not_avail B i v Busy v Held Hi).
    + intros j u. destruct (decide (j = i)) as [->|Hj].
      * rewrite lookup_insert_eq. naive_solver.
      * rewrite lookup_insert_ne, M3, lookup_insert_ne by done. naive_solver.
    + exists w. rewrite lookup_insert_eq. split; [done|]. destruct M4 as [?|M4]; [by left|right].
      rewrite lookup_insert_ne; [done|]. intros E. symmetry in E. revert E. apply flip_ne. lia.
    + intros j Hj. rewrite lookup_insert_ne by congruence. apply M5. by rewrite lookup_insert_ne by congruence.
    + intros j u t Hj Ht. rewrite lookup_insert_ne in Ht by done. apply M6 in Ht; [|done]. by rewrite lookup_insert_ne in Ht by done.
  - transitivity (lm s2); [exact C2|]. unfold list_add_free in Em. rewrite free_list_at_ok in Em by done. cbn [mbind res_bind] in Em.
    apply bind_Ok in Em as (m' & Em & [= ->]). pose proof (list_add_cells _ _ _ _ _ _ (bi_lists _ _ _ _ HI2) HL Em) as C3.
    eapply cells_same_weaken; [|exact C3]. intros q [Hq| ->]; [|right; by exists i].
    apply (page_cells_step s1 L (<[i:=(v, Held)]> B) s2 L2 B2 q); [done..|by left].
  - exists w, l. by rewrite !lookup_insert_eq.
Qed.
End operations.
