(* ===== verification/Reserve.v ===== *)
(** [reserve_page] and [init_allocator] of lib/malloc.c: which frames are free
    once the boot reservations are made. *)
From S2P Require Import Prelude Util ListHead Lock Malloc Buddy.
Local Open Scope Z_scope.

Lemma aligned_block i v x : 0 ≤ v → lo v i 0 → hi v x i ↔ i ≤ x < i + 2 ^ v.
Proof.
  intros Hv Hl. apply lo_mod in Hl; [|done]. rewrite Z.mod_0_l in Hl by lia.
  rewrite hi_div by done. assert (0 < 2 ^ v) by lia.
  pose proof (Z.div_mod i (2 ^ v)). pose proof (Z.div_mod x (2 ^ v)).
  pose proof (Z.mod_pos_bound x (2 ^ v)). split.
  - intros E. rewrite E in *. lia.
  - intros Hx. symmetry. apply Z.div_unique with (r := x - i); lia.
Qed.

Lemma lo_0_flip i v : 0 ≤ v → lo v i 0 → lo v (flip i v) 0.
Proof. intros Hv H. apply (lo_trans _ _ i); [by apply lo_flip|done]. Qed.

Section reserve.
Context (ly : layout) (Hly : layout_ok ly).
(** The range, already rounded to pages. *)
Context (start fin : Z) (Hstart : (0x1000 | start)) (Hfin : (0x1000 | fin)).

Definition covered (x : Z) : Prop := start ≤ page_addr x < fin.

(** A block of order [v] with no covered frame. *)
Definition clear (v j : Z) : Prop := ∀ x, hi v x j → ¬ covered x.

(** From [B] to [B'] only covered frames stopped being free, and blocks clear of
    a range that is not empty were not split. *)
Record carved (B B' : blocks) : Prop := {
  cv_shrink : ∀ x, free_frame B' x → free_frame B x;
  cv_keep : ∀ x, ¬ covered x → free_frame B x → free_frame B' x;
  cv_busy : ∀ j w, B !! j = Some (w, Busy) → B' !! j = Some (w, Busy);
  cv_whole : start < fin → ∀ j w, clear w j → B !! j = Some (w, Avail) → B' !! j = Some (w, Avail);
}.

#[local] Instance carved_preorder : PreOrder carved.
Proof. split; [by split|]. intros B1 B2 B3 [] []. split; eauto. Qed.

Definition good (s : mstate) (L : gmap Z (list Z)) (B : blocks) : Prop :=
  buddy_inv ly s L B ∧ settled B ∧ aligned B.

Lemma page_addr_divide x : (0x1000 | page_addr x).
Proof using.
  unfold page_addr. change FRAME_START with (0x1000 * 0xffff000000000).
  exists (0xffff000000000 + x). lia.
Qed.

Lemma page_bounds i v f : idx f = i → 0 ≤ i < FRAMES_COUNT → 0 ≤ v ≤ MAXORDER →
  u64 (u32 (Z.shiftl (idx f) 12) + FRAME_START) = page_addr i ∧
  u64 (page_addr i + Z.shiftl 0x1000 v) = page_addr i + 0x1000 * 2 ^ v.
Proof using.
  intros -> Hi Hv. unfold FRAMES_COUNT, MAXORDER in *. split.
  - rewrite Z.shiftl_mul_pow2 by lia. change (2 ^ 12) with 0x1000.
    rewrite Z.mul_comm, Z.add_comm. by apply page_addr_eq.
  - rewrite Z.shiftl_mul_pow2 by lia. assert (2 ^ v ≤ 2 ^ 6) by (apply Z.pow_le_mono_r; lia).
    assert (0 < 2 ^ v) by lia. unfold page_addr. change FRAME_START with 0xffff000000000000.
    change (2 ^ 6) with 64 in *. apply u64_small. lia.
Qed.

(** The three cases of the body, for the block of [i]. *)
Lemma clear_outside i v : 0 ≤ v → lo v i 0 →
  page_addr i + 0x1000 * 2 ^ v ≤ start ∨ fin ≤ page_addr i → clear v i.
Proof using.
  intros Hv Hl H x Hx [Hc1 Hc2]. apply aligned_block in Hx; [|done|done].
  unfold page_addr in *. nia.
Qed.

Lemma covered_inside i v x : 0 ≤ v → lo v i 0 → hi v x i →
  start ≤ page_addr i → page_addr i + 0x1000 * 2 ^ v ≤ fin → covered x.
Proof using.
  intros Hv Hl Hx Hs He. apply aligned_block in Hx; [|done|done].
  unfold covered, page_addr in *. nia.
Qed.

(** A block that straddles the range is bigger than a page. *)
Lemma straddle_order i v : 0 ≤ v →
  ¬ (start ≤ page_addr i ∧ page_addr i + 0x1000 * 2 ^ v ≤ fin) →
  ¬ (page_addr i + 0x1000 * 2 ^ v ≤ start ∨ fin ≤ page_addr i) → 0 < v.
Proof using Hstart Hfin.
  intros Hv H1 H2. destruct (decide (v = 0)) as [->|]; [|lia].
  destruct (page_addr_divide i) as [a Ea], Hstart as [b Eb], Hfin as [c Ec].
  change (2 ^ 0) with 1 in *. lia.
Qed.

(** Taking a covered block away, as [reserve_body] does it: mark, then unlink. *)
Lemma reserve_take s L B i v l1 l2 :
  good s L B → B !! i = Some (v, Avail) → L !! free_head ly v = Some (l1 ++ faddr ly i :: l2) →
  ∃ s1 s2, upd_frame s (faddr ly i) (set_used 1) = Ok s1 ∧ del_entry s1 (faddr ly i) = Ok s2 ∧
    same_rest s s2 ∧ get_next (lm s2) (faddr ly i) = Ok (after (free_head ly v) l2) ∧
    good s2 (<[free_head ly v := l1 ++ l2]> L) (<[i:=(v, Busy)]> B).
Proof using Hly.
  intros (HI & HS & HA) Hi HL. pose proof (bi_part _ _ _ _ HI) as HP.
  destruct (po_range B HP _ _ _ Hi) as [Hr Hv].
  destruct (get_frame_ok ly s L B i HI Hr) as (f & _ & Hf & _).
  destruct (take_ok ly Hly s L B i v l1 l2 HI Hi HL) as (m & Em & HIm & Hnx & _).
  set (s1 := with_fr (upd ly (fr s) i (set_used 1)) s).
  exists s1, (with_lm m s1). split_and!; [by apply (upd_frame_ok ly s i _ f)| | |done|].
  - revert Em. unfold del_entry. simpl. destruct (list_del_entry (lm s) (faddr ly i)); try done.
    simpl. intros [= ->]. done.
  - by transitivity s1; [apply same_rest_upd|].
  - split_and!.
    + destruct HIm as [Hb2 Hl2 HP2 Hfr2 Hfl2]. split; simpl; [done|done| | |].
      * rewrite <- (insert_insert_eq B i (v, Busy) (v, Held)). eapply part_ok_status; [|done].
        by rewrite lookup_insert_eq.
      * rewrite <- (insert_insert_eq B i (v, Busy) (v, Held)).
        apply (frames_ok_status ly _ _ i v Held); [done|by rewrite lookup_insert_eq|done].
      * apply (free_ok_same ly _ (<[i:=(v, Held)]> B)); [done|]. intros j w.
        destruct (decide (j = i)) as [->|]; [by rewrite !lookup_insert_eq|].
        by rewrite !lookup_insert_ne.
    + intros j w [[? [=]]|[? Hj]]%lookup_insert_Some. by eapply HS.
    + intros j w st [[<- [= <- <-]]|[? Hj]]%lookup_insert_Some; by eapply HA.
Qed.

Lemma carved_take B i v : part_ok B → B !! i = Some (v, Avail) →
  (∀ x, hi v x i → covered x) → carved B (<[i:=(v, Busy)]> B).
Proof using.
  intros HP Hi Hcov. pose proof (free_frame_take B i v Busy HP Hi ltac:(done)) as HF. split.
  - intros x Hx. by apply HF in Hx as [? _].
  - intros x Hnc Hx. apply HF. split; [done|]. intros Hx'. by apply Hnc, Hcov.
  - intros j w Hj. rewrite lookup_insert_ne; [done|]. intros <-. congruence.
  - intros _ j w Hc Hj. rewrite lookup_insert_ne; [done|]. intros <-. simplify_eq.
    by apply (Hc i (hi_refl _ _)), Hcov, hi_refl.
Qed.

(** A block that straddles an end of a range is not clear of it. *)
Lemma straddle_not_clear i v : start < fin → 0 ≤ v → lo v i 0 →
  ¬ (page_addr i + 0x1000 * 2 ^ v ≤ start ∨ fin ≤ page_addr i) → ¬ clear v i.
Proof using Hstart Hfin.
  intros Hne Hv Hl Ho Hc. destruct Hstart as [a Ea], Hfin as [b Eb].
  assert (VIRT_BASE = 0x1000 * 0xffff000000000) as Ev by done.
  assert (∀ x, page_addr x = 0x1000 * (0xffff000000000 + x)) as Ep.
  { intros x. unfold page_addr. change FRAME_START with VIRT_BASE. rewrite Ev. lia. }
  rewrite Ep in Ho. set (x := Z.max i (a - 0xffff000000000)).
  apply (Hc x).
  - apply aligned_block; [done|done|]. unfold x. split; lia.
  - unfold covered. rewrite Ep. unfold x. split; lia.
Qed.

(** Splitting a straddling block in two available ones. *)
Lemma reserve_split s L B i v l1 l2 :
  good s L B → B !! i = Some (v, Avail) → 0 < v → (start < fin → ¬ clear v i) →
  L !! free_head ly v = Some (l1 ++ faddr ly i :: l2) →
  ∃ s1 s2 s3 L' B', del_entry s (faddr ly i) = Ok s1 ∧
    get_prev (lm s1) (faddr ly i) = Ok (before (free_head ly v) l1) ∧
    split_frame ly s1 (faddr ly i) = Ok (faddr ly i, s2) ∧
    list_add_free ly s2 (faddr ly i) (v - 1) = Ok s3 ∧
    same_rest s s3 ∧ same_lists ly L L' ∧ good s3 L' B' ∧ carved B B' ∧
    L' !! free_head ly v = Some (l1 ++ l2) ∧
    (∀ j w, v ≤ w → B' !! j = Some (w, Avail) → B !! j = Some (w, Avail)).
Proof using Hly.
  intros (HI & HS & HA) Hi H0 Hnc HL. pose proof (bi_part _ _ _ _ HI) as HP.
  destruct (po_range B HP _ _ _ Hi) as [Hr Hv].
  destruct (take_ok ly Hly s L B i v l1 l2 HI Hi HL) as (m & Em & HI1 & _ & Hpv).
  set (s1 := with_lm m s) in *. set (B1 := <[i:=(v, Held)]> B) in *.
  set (L1 := <[free_head ly v:=l1 ++ l2]> L) in *. set (w := v - 1).
  assert (B1 !! i = Some (w + 1, Held)) as Hi1.
  { unfold B1, w. rewrite lookup_insert_eq. do 2 f_equal. lia. }
  destruct (fl_free _ _ _ (bi_free _ _ _ _ HI1) w) as (l & Hl & _); [unfold w; lia|].
  destruct (split_frame_ok ly Hly s1 L1 B1 i w l HI1 Hi1) as (s2 & E2 & R2 & HI2);
    [unfold w; lia|done|].
  pose proof (flip_ne i w ltac:(unfold w; lia)) as Hne.
  pose proof (split_fresh B1 i w Held _ (bi_part _ _ _ _ HI1) Hi1 ltac:(unfold w; lia) eq_refl) as Hfresh.
  set (L2 := <[free_head ly w:=faddr ly (flip i w) :: l]> L1) in *.
  set (B2 := <[flip i w:=(w, Avail)]> (<[i:=(w, Held)]> B1)) in *.
  assert (B2 !! i = Some (w, Held)) as Hi2.
  { unfold B2. by rewrite lookup_insert_ne, lookup_insert_eq. }
  destruct (put_ok ly Hly s2 L2 B2 i w _ HI2 Hi2 (lookup_insert_eq _ _ _)) as (m3 & E3 & HI3).
  assert (∀ j u t, <[i:=(w, Avail)]> B2 !! j = Some (u, t) →
    (j = i ∧ u = w ∧ t = Avail) ∨ (j = flip i w ∧ u = w ∧ t = Avail) ∨
    (j ≠ i ∧ j ≠ flip i w ∧ B !! j = Some (u, t))) as HB.
  { unfold B2, B1. intros j u t [[<- [= <- <-]]|[? Hj]]%lookup_insert_Some; [by left|right].
    apply lookup_insert_Some in Hj as [[<- [= <- <-]]|[? Hj]]; [by left|right].
    by rewrite !lookup_insert_ne in Hj by done. }
  exists s1, s2, (with_lm m3 s2), (<[free_head ly w:=faddr ly i :: faddr ly (flip i w) :: l]> L2),
    (<[i:=(w, Avail)]> B2).
  split_and!; [done|done|done|done| | | | | |].
  - by transitivity s1; [|transitivity s2].
  - transitivity L1; [by apply same_lists_insert|].
    transitivity L2; apply same_lists_insert; unfold w; lia.
  - split_and!; [done| |].
    + intros j u [(? & ? & [=])|[(? & ? & [=])|(? & ? & Hj)]]%HB. by eapply HS.
    + intros j u t [(-> & -> & _)|[(-> & -> & _)|(? & ? & Hj)]]%HB; [| |by eapply HA].
      * apply (lo_mono v); [by eapply HA|unfold w; lia].
      * apply lo_0_flip; [unfold w; lia|]. apply (lo_mono v); [by eapply HA|unfold w; lia].
  - assert (∀ x, hi v x i ↔ hi w x i ∨ hi w x (flip i w)) as Hhalf.
    { intros x. split.
      - intros Hx. apply hi_halves; [unfold w; lia|]. by replace (w + 1) with v by (unfold w; lia).
      - intros [?|?]; [apply (hi_mono w); [done|unfold w; lia]|].
        apply (hi_trans _ _ (flip i w)); [apply (hi_mono w); [done|unfold w; lia]|].
        apply hi_flip; unfold w; lia. }
    split.
    + intros x (j & u & [(-> & -> & _)|[(-> & -> & _)|(? & ? & Hj)]]%HB & Hx).
      * exists i, v. split; [done|]. apply Hhalf. by left.
      * exists i, v. split; [done|]. apply Hhalf. by right.
      * by exists j, u.
    + intros x _ (j & u & Hj & Hx). destruct (decide (j = i)) as [->|Hji].
      * simplify_eq. apply Hhalf in Hx as [Hx|Hx]; [exists i, w; by rewrite lookup_insert_eq|].
        exists (flip i w), w. rewrite lookup_insert_ne by done. unfold B2. by rewrite lookup_insert_eq.
      * exists j, u. split; [|done]. unfold B2, B1 in *.
        rewrite !lookup_insert_ne; [done|..]; try done; intros <-.
        rewrite lookup_insert_ne in Hfresh by done. congruence.
    + intros j u Hj. unfold B2, B1 in *. rewrite !lookup_insert_ne; [done|..]; intros <-;
        rewrite ?lookup_insert_ne in Hfresh by done; congruence.
    + intros Hse j u Hcl Hj. unfold B2, B1 in *. rewrite !lookup_insert_ne; [done|..]; intros <-;
        rewrite ?lookup_insert_ne in Hfresh by done; simplify_eq; by destruct (Hnc Hse).
  - assert (free_head ly w ≠ free_head ly v).
    { intros ?%free_head_inj. unfold w in *. lia. }
    unfold L2, L1. by rewrite lookup_insert_ne, lookup_insert_ne, lookup_insert_eq by done.
  - intros j u Hu [(-> & -> & _)|[(-> & -> & _)|(? & ? & Hj)]]%HB; [unfold w in *; lia..|done].
Qed.

(** ** The loops *)

(** [l1] are the elements of the list of order [v] the loop has kept. *)
Definition kept_clear (v : Z) (l1 : list Z) : Prop :=
  ∀ j, faddr ly j ∈ l1 → clear v j.

Lemma reserve_body_ok s L B v p l1 l2 :
  good s L B → 0 ≤ v ≤ MAXORDER →
  L !! free_head ly v = Some (l1 ++ p :: l2) → kept_clear v l1 →
  ∃ pos s' L' B' l1', reserve_body ly start fin v p s = Ok (Next pos s') ∧
    get_next (lm s') pos = Ok (after (free_head ly v) l2) ∧
    L' !! free_head ly v = Some (l1' ++ l2) ∧ kept_clear v l1' ∧
    same_rest s s' ∧ same_lists ly L L' ∧ good s' L' B' ∧ carved B B' ∧
    (∀ j w, v < w → B' !! j = Some (w, Avail) → B !! j = Some (w, Avail)).
Proof using Hly Hstart Hfin.
  intros HG Hv HL Hk. pose proof HG as (HI & HS & HA).
  destruct (fl_free _ _ _ (bi_free _ _ _ _ HI) v Hv) as (l & HL' & Hin). simplify_eq.
  destruct (proj1 (Hin p)) as (i & -> & Hi); [set_solver|].
  destruct (po_range B (bi_part _ _ _ _ HI) _ _ _ Hi) as [Hr _]. pose proof (HA _ _ _ Hi) as Hal.
  destruct (get_frame_ok ly s L B i HI Hr) as (f & Hg & Hf & Hidx).
  destruct (page_bounds i v f Hidx Hr Hv) as [E1 E2].
  unfold reserve_body. rewrite Hg. cbn [mbind res_bind]. rewrite E1, E2.
  destruct (Z.leb_spec start (page_addr i)) as [Hs1|Hs1]; cbn [andb];
    [destruct (Z.leb_spec (page_addr i + 0x1000 * 2 ^ v) fin) as [Hs2|Hs2]|].
  1: { destruct (reserve_take s L B i v l1 l2 HG Hi HL) as (s1 & s2 & Eu & Ed & HR & Hnx & HG2).
       rewrite Eu. cbn [mbind res_bind]. rewrite Ed.
       eexists _, s2, _, _, l1. split_and!; [done|done|by rewrite lookup_insert_eq|done|done| |done| |].
       - by apply same_lists_insert.
       - apply carved_take; [apply HI|done|]. intros x Hx. by eapply covered_inside; [apply Hv|..].
       - intros j w ? [[? [=]]|[? ?]]%lookup_insert_Some. done. }
  all: destruct (decide (page_addr i + 0x1000 * 2 ^ v ≤ start ∨ fin ≤ page_addr i)) as [Ho|Ho].
  1, 3: replace ((page_addr i + 0x1000 * 2 ^ v <=? start) || (fin <=? page_addr i)) with true by lia.
  1, 2: eexists _, s, L, B, (l1 ++ [faddr ly i]); split_and!; [done| |by rewrite <- app_assoc| |done..].
  1, 3: pose proof (get_next_ok _ L (free_head ly v) (l1 ++ [faddr ly i]) l2 (bi_lists _ _ _ _ HI)) as E;
    rewrite last_snoc in E; apply E; by rewrite <- app_assoc.
  1, 2: intros j [Hj|Hj%list_elem_of_singleton%faddr_inj]%elem_of_app; [by apply Hk|subst j];
    apply clear_outside; [lia|done|done].
  all: replace ((page_addr i + 0x1000 * 2 ^ v <=? start) || (fin <=? page_addr i)) with false by lia.
  all: assert (0 < v) as H0 by (apply (straddle_order i v); lia).
  all: pose proof (λ Hse, straddle_not_clear i v Hse (proj1 Hv) Hal Ho) as Hnc.
  all: destruct (reserve_split s L B i v l1 l2 HG Hi H0 Hnc HL) as
    (s1 & s2 & s3 & L' & B' & Ed & Ep & Es & Ea & HR & HSL & HG3 & HC & HL3 & Hhi).
  all: rewrite Ed; cbn [mbind res_bind]; rewrite Ep; cbn [mbind res_bind]; rewrite Es;
    cbn [mbind res_bind]; rewrite Ea.
  all: eexists _, s3, L', B', l1; split_and!; [done| |done|done|done|done|done|done|].
  1, 3: apply (get_next_ok _ L'); [apply HG3|done].
  all: intros j w Hw; apply Hhi; lia.
Qed.

Lemma reserve_scan v l2 : ∀ fuel s L B l1,
  good s L B → 0 ≤ v ≤ MAXORDER →
  L !! free_head ly v = Some (l1 ++ l2) → kept_clear v l1 → (length l2 < fuel)%nat →
  ∃ s' L' B' l, list_for_each_from lm fuel (free_head ly v) (reserve_body ly start fin v)
      (after (free_head ly v) l2) s = Ok (free_head ly v, s') ∧
    L' !! free_head ly v = Some l ∧ kept_clear v l ∧
    same_rest s s' ∧ same_lists ly L L' ∧ good s' L' B' ∧ carved B B' ∧
    (∀ j w, v < w → B' !! j = Some (w, Avail) → B !! j = Some (w, Avail)).
Proof using Hly Hstart Hfin.
  induction l2 as [|p l2 IH]; intros fuel s L B l1 HG Hv HL Hk Hf;
    (destruct fuel as [|fuel]; simpl in Hf; [lia|]); simpl.
  - unfold list_is_head. rewrite bool_decide_eq_true_2 by done. rewrite app_nil_r in HL.
    eexists s, L, B, l1. done.
  - pose proof (lo_nodup _ _ (bi_lists _ _ _ _ (proj1 HG)) _ _ HL) as Hn.
    unfold list_is_head. rewrite bool_decide_eq_false_2.
    2: { intros ->. apply NoDup_cons in Hn. set_solver. }
    destruct (reserve_body_ok s L B v p l1 l2 HG Hv HL Hk) as
      (pos & s1 & L1 & B1 & l1' & Eb & Enx & HL1 & Hk1 & R1 & SL1 & HG1 & HC1 & HH1).
    rewrite Eb. cbn [mbind res_bind]. rewrite Enx. cbn [mbind res_bind].
    destruct (IH fuel s1 L1 B1 l1' HG1 Hv HL1 Hk1 ltac:(lia)) as
      (s2 & L2 & B2 & l & E2 & HL2 & Hk2 & R2 & SL2 & HG2 & HC2 & HH2).
    exists s2, L2, B2, l. split_and!; [done|done|done|by transitivity s1|by transitivity L1|done| |].
    + by transitivity B1.
    + intros j w Hw Hj. by apply HH1, HH2.
Qed.

(** Every available block above order [v] is clear of the range. *)
Definition clear_above (v : Z) (B : blocks) : Prop :=
  ∀ j w, v < w → B !! j = Some (w, Avail) → clear w j.

Lemma reserve_orders_ok n : ∀ s L B v,
  good s L B → v + 1 = Z.of_nat n → v ≤ MAXORDER → clear_above v B →
  ∃ s' L' B', reserve_orders ly start fin n v s = Ok s' ∧
    same_rest s s' ∧ same_lists ly L L' ∧ good s' L' B' ∧ carved B B' ∧ clear_above (-1) B'.
Proof using Hly Hstart Hfin.
  induction n as [|n IH]; intros s L B v HG Hn Hv Hc.
  { exists s, L, B. replace v with (-1) in Hc by lia. done. }
  destruct (fl_free _ _ _ (bi_free _ _ _ _ (proj1 HG)) v) as (l & HL & Hin); [lia|].
  pose proof (bi_lists _ _ _ _ (proj1 HG)) as Hok.
  destruct (reserve_scan v l (ring_fuel (lm s)) s L B []) as
    (s1 & L1 & B1 & l1 & E1 & HL1 & Hk1 & R1 & SL1 & HG1 & HC1 & HH1); [done|lia|done| | |].
  { intros j. set_solver. }
  { by apply (ring_fuel_enough _ L (free_head ly v)). }
  destruct (IH s1 L1 B1 (v - 1) HG1) as (s2 & L2 & B2 & E2 & R2 & SL2 & HG2 & HC2 & HA2); [lia|lia| |].
  { intros j w Hw Hj. destruct (decide (w = v)) as [->|].
    - destruct (fl_free _ _ _ (bi_free _ _ _ _ (proj1 HG1)) v) as (l' & HL' & Hin'); [lia|].
      simplify_eq. apply Hk1, Hin'. eauto.
    - apply Hc; [lia|]. apply HH1; [lia|done]. }
  exists s2, L2, B2. split_and!; [|by transitivity s1|by transitivity L1|done|by transitivity B1|done].
  simpl. rewrite free_list_at_ok by lia. cbn [mbind res_bind].
  unfold list_for_each.
  rewrite (get_next_ok _ L (free_head ly v) [] l Hok HL : get_next _ (free_head ly v) = _).
  cbn [mbind res_bind]. by rewrite E1.
Qed.
End reserve.

(** ** reserve_page *)

(** Exactly the free frames that meet the rounded range stop being free. *)
Record reserved (lo hi : Z) (B B' : blocks) : Prop := {
  rs_free : ∀ x, free_frame B' x ↔
    free_frame B x ∧ ¬ (lo ≤ page_addr x < hi);
  rs_busy : ∀ j w, B !! j = Some (w, Busy) → B' !! j = Some (w, Busy);
  rs_whole : lo < hi → ∀ j w, (∀ x, Buddy.hi w x j → ¬ (lo ≤ page_addr x < hi)) →
    B !! j = Some (w, Avail) → B' !! j = Some (w, Avail);
}.

Definition page_down (a : Z) : Z := 0x1000 * (a / 0x1000).
Definition page_up (a : Z) : Z := 0x1000 * ((a + 0xfff) / 0x1000).

Lemma page_down_eq a : 0 ≤ a < 2 ^ 64 → Z.land a (u64 (Z.lnot 0xfff)) = page_down a.
Proof.
  intros Ha. rewrite land_u64_r by done. apply (land_lnot_low a 12). lia.
Qed.

Lemma page_up_eq a : 0 ≤ a → a + 0x1000 ≤ 2 ^ 64 → align_up a 0x1000 = page_up a.
Proof.
  intros Ha Hb. change 0x1000 with (2 ^ 12). rewrite align_up_eq by lia.
  unfold page_up. change (2 ^ 12) with 0x1000. do 2 f_equal. lia.
Qed.

(** The blocks after [reserve_page]; the lock is taken and released once. *)
Lemma reserve_page_ok ly s L B start fin :
  layout_ok ly → lock_wf (lk s) → good ly s L B →
  0 ≤ start < 2 ^ 64 → 0 ≤ fin → fin + 0x1000 ≤ 2 ^ 64 →
  ∃ s' L' B', reserve_page ly start fin s = Ok s' ∧ good ly s' L' B' ∧
    reserved (page_down start) (page_up fin) B B' ∧ same_lists ly L L' ∧
    heap_top s' = heap_top s ∧ lk s' = unlock (lock (lk s)) ∧
    (∀ p, bin_val <$> fr s' !! p = bin_val <$> fr s !! p).
Proof.
  intros Hly Hlk HG Hs Hf Hfb. set (s0 := with_lk (lock (lk s)) s).
  assert (good ly s0 L B) as HG0.
  { destruct HG as ([] & ? & ?). split_and!; [by split|done|done]. }
  destruct (reserve_orders_ok ly Hly (page_down start) (page_up fin)
    ltac:(apply Z.divide_factor_l) ltac:(apply Z.divide_factor_l)
    (Z.to_nat (MAXORDER + 1)) s0 L B MAXORDER HG0) as
    (s1 & L1 & B1 & E1 & (R1a & R1b & R1c & R1d) & SL1 & HG1 & [C1 C2 C3 C4] & HA1);
    [by unfold MAXORDER|lia| |].
  { intros j w Hw Hj. destruct (po_range B (bi_part _ _ _ _ (proj1 HG)) _ _ _ Hj). lia. }
  exists (with_lk (unlock (lk s1)) s1), L1, B1. split_and!.
  - unfold reserve_page. fold s0. rewrite page_down_eq, page_up_eq by lia. by rewrite E1.
  - destruct HG1 as ([] & ? & ?). split_and!; [by split|done|done].
  - split; [|done|done]. intros x. split.
    + intros Hx. split; [by apply C1|]. destruct Hx as (j & w & Hj & Hx).
      destruct (po_range B1 (bi_part _ _ _ _ (proj1 HG1)) _ _ _ Hj).
      apply (HA1 j w); [lia|done|done].
    + intros [Hx Hn]. by apply C2.
  - done.
  - done.
  - simpl. by rewrite R1c.
  - done.
Qed.

(** ** init_allocator *)

(** Before any reservation: one block of the largest order every 64 frames. *)
Definition init_blocks : blocks :=
  list_to_map ((λ k, (64 * k, (MAXORDER, Avail))) <$> seqZ 0 (FRAMES_COUNT / 64)).

Lemma init_blocks_lookup i v st :
  init_blocks !! i = Some (v, st) ↔
  v = MAXORDER ∧ st = Avail ∧ 0 ≤ i < FRAMES_COUNT ∧ i mod 64 = 0.
Proof.
  unfold init_blocks. rewrite <- elem_of_list_to_map.
  - rewrite list_elem_of_fmap. setoid_rewrite elem_of_seqZ.
    change (FRAMES_COUNT / 64) with 3840. unfold FRAMES_COUNT. split.
    + intros (k & [= -> -> ->] & Hk). split_and!; [done|done|lia|lia|].
      rewrite Z.mul_comm. by apply Z_mod_mult.
    + intros (-> & -> & Hi & Hm). exists (i / 64).
      pose proof (Z.div_mod i 64 ltac:(lia)). split; [do 2 f_equal; lia|lia].
  - rewrite <- list_fmap_compose. apply NoDup_fmap_2; [|apply NoDup_seqZ].
    intros k1 k2. simpl. lia.
Qed.

#[global] Opaque init_blocks.

Lemma hi_6_mod i x : i mod 64 = 0 → hi 6 x i ↔ i = 64 * (x / 64).
Proof.
  intros Hm. rewrite hi_div by done. change (2 ^ 6) with 64.
  pose proof (Z.div_mod i 64 ltac:(lia)). lia.
Qed.

Lemma init_blocks_free x : free_frame init_blocks x ↔ 0 ≤ x < FRAMES_COUNT.
Proof.
  split.
  - intros (i & v & (-> & _ & Hi & _)%init_blocks_lookup & Hx). by apply (frames_block i).
  - intros Hx. exists (64 * (x / 64)), MAXORDER.
    assert ((64 * (x / 64)) mod 64 = 0) as Hm by (rewrite Z.mul_comm; by apply Z_mod_mult).
    split; [|by apply hi_6_mod]. apply init_blocks_lookup.
    pose proof (Z.div_mod x 64 ltac:(lia)). pose proof (Z.mod_pos_bound x 64 ltac:(lia)).
    unfold FRAMES_COUNT in *. split_and!; [done|done|lia|lia|done].
Qed.

Lemma init_blocks_part : part_ok init_blocks.
Proof.
  split.
  - intros i v st (-> & _ & Hi & _)%init_blocks_lookup. by unfold MAXORDER.
  - intros x Hx. destruct (proj2 (init_blocks_free x) Hx) as (i & v & Hi & H).
    exists i, v, Avail. split; assumption.
  - intros x i v st j w st' (-> & _ & _ & Hi)%init_blocks_lookup (-> & _ & _ & Hj)%init_blocks_lookup.
    intros H1%hi_6_mod H2%hi_6_mod; [congruence|done|done].
Qed.

Lemma init_blocks_aligned : aligned init_blocks.
Proof.
  intros i v st (-> & _ & _ & Hm)%init_blocks_lookup. apply lo_mod; [done|].
  by change (2 ^ MAXORDER) with 64.
Qed.

Lemma map_frames_lookup raw base i : 0 ≤ i < FRAMES_COUNT →
  map_frames raw base !! (base + sizeof_frame * i) = Some (raw i).
Proof.
  intros Hi. unfold map_frames. apply elem_of_list_to_map_1.
  - rewrite <- list_fmap_compose. apply NoDup_fmap_2; [|apply NoDup_seqZ].
    intros a b. simpl. unfold sizeof_frame. lia.
  - apply list_elem_of_fmap. exists i. split; [done|]. apply elem_of_seqZ. lia.
Qed.

#[global] Opaque map_frames.

(** A loop of [INIT_LIST_HEAD] over an array of list heads. *)
Lemma init_heads_ok (head : Z → Z) n s L :
  lists_ok (lm s) L →
  (∀ i j, head i = head j → i = j) →
  (∀ i, 0 ≤ i < Z.of_nat n → ¬ node L (head i)) →
  ∃ m L', for_loop n 0 (λ i s, mret (with_lm (INIT_LIST_HEAD (lm s) (head i)) s)) s
      = Ok (with_lm m s) ∧ lists_ok m L' ∧
    (∀ i, 0 ≤ i < Z.of_nat n → L' !! head i = Some []) ∧
    (∀ h l, L !! h = Some l → L' !! h = Some l) ∧
    (∀ x, node L' x → node L x ∨ ∃ i, 0 ≤ i < Z.of_nat n ∧ x = head i).
Proof.
  intros Hok Hinj Hfresh.
  destruct (for_loop_inv (λ k s', ∃ m L', s' = with_lm m s ∧ lists_ok m L' ∧
      (∀ i, 0 ≤ i < k → L' !! head i = Some []) ∧
      (∀ h l, L !! h = Some l → L' !! h = Some l) ∧
      (∀ x, node L' x → node L x ∨ ∃ i, 0 ≤ i < k ∧ x = head i))
    (λ i s, mret (with_lm (INIT_LIST_HEAD (lm s) (head i)) s)) n 0 s) as (s' & E & m & L' & -> & ?).
  - exists (lm s), L. destruct s. split_and!; [done|done|lia|done|]. intros x Hx. by left.
  - intros k s' Hk (m & L' & -> & Hok' & H1 & H2 & H3). eexists. split; [done|].
    assert (¬ node L' (head k)) as Hn.
    { intros [Hn|(i & Hi & ?%Hinj)]%H3; [by apply (Hfresh k); [lia|]|lia]. }
    exists (INIT_LIST_HEAD m (head k)), (<[head k := []]> L'). split_and!.
    + done.
    + by apply INIT_LIST_HEAD_head.
    + intros i Hi. destruct (decide (i = k)) as [->|]; [by rewrite lookup_insert_eq|].
      rewrite lookup_insert_ne; [apply H1; lia|]. intros ?%Hinj. lia.
    + intros h l Hh. rewrite lookup_insert_ne; [by apply H2|]. intros <-.
      apply Hn, (node_elem L' (head k) l); [by apply H2|set_solver].
    + intros x [Hx|Hx]%node_insert; [right; exists k; split; [lia|set_solver]|].
      destruct (H3 x Hx) as [?|(i & ? & ?)]; [by left|]. right. exists i. split; [lia|done].
  - exists m, L'. by rewrite E.
Qed.

Section init.
Context (ly : layout) (Hly : layout_ok ly) (raw : Z → frame).
(** The heap memory under the frame array is zero. *)
Context (Hraw : ∀ i, val (raw i) = 0).

(** The list nodes the allocator owns. *)
Definition alloc_node (p : Z) : Prop :=
  (∃ v, 0 ≤ v ≤ MAXORDER ∧ p = free_head ly v) ∨ (∃ k, 0 ≤ k ≤ MAXBINORDER ∧ p = bin_head ly k) ∨
  (∃ i, 0 ≤ i < FRAMES_COUNT ∧ p = faddr ly i).

(** The state of the frame loop after [j] frames. *)
Record init_loop (j : Z) (s : mstate) (L : gmap Z (list Z)) : Prop := {
  il_base : frames s = heap_start ly;
  il_lists : lists_ok (lm s) L;
  il_frame : ∀ i, 0 ≤ i < FRAMES_COUNT → ∃ f, fr s !! faddr ly i = Some f ∧
    (i < j → idx f = i ∧ bin_val f = -1 ∧ (i mod 64 = 0 → val f = MAXORDER ∧ used f = 0)) ∧
    (i mod 64 ≠ 0 ∨ j ≤ i → val f = 0);
  il_free : ∀ v, 0 ≤ v < MAXORDER → L !! free_head ly v = Some [];
  il_top : ∃ l, L !! free_head ly MAXORDER = Some l ∧
    ∀ p, p ∈ l ↔ ∃ i, p = faddr ly i ∧ 0 ≤ i < j ∧ i mod 64 = 0;
  il_bin : ∀ k, 0 ≤ k ≤ MAXBINORDER → L !! bin_head ly k = Some [];
  il_node : ∀ i, 0 ≤ i < FRAMES_COUNT → node L (faddr ly i) → i < j ∧ i mod 64 = 0;
  il_all : ∀ p, node L p → alloc_node p;
}.

(** The fields of frame [j] after its turn. *)
Definition init_frame_val (j : Z) (f : frame) : frame :=
  if j mod 64 =? 0 then Frame MAXORDER 0 (-1) j else Frame (val f) (used f) (-1) j.

Lemma init_frame_step j s L : 0 ≤ j < FRAMES_COUNT → init_loop j s L →
  ∃ s' L', init_frame ly j s = Ok s' ∧ init_loop (j + 1) s' L' ∧
    heap_top s' = heap_top s ∧ lk s' = lk s.
Proof using Hly.
  intros Hj [Hb Hl Hf Hfr (l & Ht & Htin) Hbin Hn Hall].
  assert (¬ node L (faddr ly j)) as Hnj by (intros [? _]%Hn; [lia|done]).
  assert (lists_ok (INIT_LIST_HEAD (lm s) (faddr ly j)) L) as Hl'
    by (by apply INIT_LIST_HEAD_entry).
  destruct (Hf j Hj) as (f & Ef & _ & Hval).
  set (s1 := with_lm (INIT_LIST_HEAD (lm s) (faddr ly j)) s).
  assert (∃ m L', init_frame ly j s =
      Ok (with_lm m (with_fr (<[faddr ly j := init_frame_val j f]> (fr s)) s)) ∧ lists_ok m L' ∧
      L' = (if j mod 64 =? 0 then <[free_head ly MAXORDER := faddr ly j :: l]> L else L))
    as (m & L' & E & Hok & EL).
  { unfold init_frame. rewrite (frame_at_faddr ly) by done. fold s1.
    rewrite (frame_at_faddr ly) by done. unfold upd_frame, get_frame. simpl. rewrite Ef. simpl.
    rewrite (frame_at_faddr ly) by done. rewrite lookup_insert_eq. simpl.
    rewrite insert_insert_eq. change (Z.shiftl 1 MAXORDER) with 64. unfold init_frame_val.
    destruct (j mod 64 =? 0) eqn:Em; [|by eexists _, _].
    rewrite (frame_at_faddr ly) by done. simpl. rewrite lookup_insert_eq. simpl.
    rewrite (frame_at_faddr ly) by done. rewrite insert_insert_eq, lookup_insert_eq. simpl.
    rewrite insert_insert_eq. unfold list_add_free. rewrite free_list_at_ok by done.
    cbn [mbind res_bind]. simpl.
    destruct (list_add_ok _ L (free_head ly MAXORDER) [] l (faddr ly j) Hl' Ht Hnj) as (m & E & Hok).
    simpl in E, Hok. rewrite (frame_at_faddr ly) by done. rewrite E. simpl. by eexists _, _. }
  eexists _, L'. split_and!; [exact E| |done|done].
  assert (∀ i, i ≠ j → faddr ly j ≠ faddr ly i) as Hne.
  { intros i Hij ?%faddr_inj. by apply Hij. }
  split; simpl; [done|done| | | | | |].
  - intros i Hi. destruct (decide (i = j)) as [->|Hij].
    + exists (init_frame_val j f). rewrite lookup_insert_eq. split; [done|].
      unfold init_frame_val. destruct (Z.eqb_spec (j mod 64) 0) as [Em|Em]; simpl;
        (split; [intros _|intros ?]).
      * split_and!; [done|done|done].
      * lia.
      * split_and!; [done|done|done].
      * apply Hval. right. lia.
    + destruct (Hf i Hi) as (g & Eg & H1 & H2). exists g. rewrite lookup_insert_ne by auto.
      split; [done|]. split; [intros ?; apply H1; lia|]. intros [?|?]; [apply H2; by left|apply H2; right; lia].
  - intros v Hv. rewrite EL. case_match; [|by apply Hfr].
    rewrite lookup_insert_ne; [by apply Hfr|]. intros ?%free_head_inj. lia.
  - rewrite EL. destruct (Z.eqb_spec (j mod 64) 0) as [Em|Em].
    + exists (faddr ly j :: l). rewrite lookup_insert_eq. split; [done|]. intros p.
      rewrite elem_of_cons, Htin. split.
      * intros [->|(i & -> & ? & ?)]; [exists j|exists i]; split_and!; lia || done.
      * intros (i & -> & Hi & ?). destruct (decide (i = j)) as [->|]; [by left|right].
        exists i. split_and!; [done|lia|lia|done].
    + exists l. split; [done|]. intros p. rewrite Htin.
      split; intros (i & -> & ? & ?); exists i; split_and!; try done; try lia.
      assert (i ≠ j) by (by intros ->). lia.
  - intros k Hk. rewrite EL. case_match; [|by apply Hbin].
    rewrite lookup_insert_ne; [by apply Hbin|]. apply free_bin_head; [done| |done].
    by unfold MAXORDER.
  - intros i Hi Hni. rewrite EL in Hni. destruct (Z.eqb_spec (j mod 64) 0) as [Em|Em].
    + apply node_insert in Hni as [Hx|Hx].
      * rewrite !elem_of_cons in Hx. destruct Hx as [Hx|[Hx%faddr_inj|Hx]].
        -- exfalso. revert Hx. apply faddr_free_head; [done|lia|done].
        -- subst i. split; [lia|done].
        -- apply Htin in Hx as (i' & ->%faddr_inj & ? & ?). split; [lia|done].
      * destruct (Hn i Hi Hx). split; [lia|done].
    + destruct (Hn i Hi Hni). split; [lia|done].
  - intros p Hp. rewrite EL in Hp. case_match; [|by apply Hall].
    apply node_insert in Hp as [Hx|Hx]; [|by apply Hall]. rewrite !elem_of_cons in Hx.
    destruct Hx as [->|[->|(i & -> & Hi & _)%Htin]]; [left; by exists MAXORDER|..].
    + right. right. by exists j.
    + right. right. exists i. split; [lia|done].
Qed.

Lemma init_frames_ok s L : init_loop 0 s L →
  ∃ s' L', for_loop (Z.to_nat FRAMES_COUNT) 0 (init_frame ly) s = Ok s' ∧
    init_loop FRAMES_COUNT s' L' ∧ heap_top s' = heap_top s ∧ lk s' = lk s.
Proof using Hly.
  intros H0.
  destruct (for_loop_inv (λ j s', ∃ L', init_loop j s' L' ∧ heap_top s' = heap_top s ∧ lk s' = lk s)
    (init_frame ly) (Z.to_nat FRAMES_COUNT) 0 s) as (s' & E & L' & HL & HT & HK).
  - by exists L.
  - intros j s1 Hj (L1 & HI & HT & HK).
    destruct (init_frame_step j s1 L1) as (s2 & L2 & E & HI2 & HT2 & HK2); [|done|].
    { unfold FRAMES_COUNT in *. lia. }
    exists s2. split; [done|]. exists L2. by rewrite HT2, HK2.
  - rewrite Z2Nat.id in HL by done. by exists s', L'.
Qed.

Lemma init_loop_good s L : init_loop FRAMES_COUNT s L → good ly s L init_blocks.
Proof using Hraw Hly.
  intros [Hb Hl Hf Hfr (l & Ht & Htin) Hbin Hn _]. split_and!.
  - split; [done|done|apply init_blocks_part| |].
    + split.
      * intros i Hi. destruct (Hf i Hi) as (f & Ef & H1 & _). exists f. split; [done|]. apply H1. lia.
      * intros i v st f (-> & -> & Hi & Hm)%init_blocks_lookup Ef.
        destruct (Hf i Hi) as (g & Eg & H1 & _). simplify_eq. by apply H1; [lia|].
      * intros i v st f (-> & -> & Hi & Hm)%init_blocks_lookup Ef.
        destruct (Hf i Hi) as (g & Eg & H1 & _). simplify_eq. rewrite decide_False by done.
        by apply H1; [lia|].
      * intros i v st x f (-> & -> & Hi & Hm)%init_blocks_lookup Hx Ef.
        assert (0 ≤ x < FRAMES_COUNT) as Hxr by (by apply (frames_block i)).
        destruct (Hf x Hxr) as (g & Eg & H1 & H2). simplify_eq.
        destruct (decide (x mod 64 = 0)) as [Ex|Ex].
        -- apply (hi_6_mod i x Hm) in Hx. assert (i = x) as ->.
           { pose proof (Z.div_mod x 64 ltac:(lia)). lia. }
           destruct (H1 ltac:(lia)) as (_ & _ & Hv). destruct (Hv Ex) as [-> _].
           split; [done|apply lo_refl].
        -- rewrite H2 by (by left). split; [done|]. intros n ?. by rewrite !Z.testbit_neg_r.
    + split.
      * intros v Hv. destruct (decide (v = MAXORDER)) as [->|].
        -- exists l. split; [done|]. intros p. rewrite Htin. setoid_rewrite init_blocks_lookup.
           naive_solver.
        -- exists []. split; [apply Hfr; lia|]. intros p. split; [intros Hp; destruct (not_elem_of_nil _ Hp)|].
           by intros (i & _ & (-> & _)%init_blocks_lookup).
      * intros i Hi Hni. exists MAXORDER. apply init_blocks_lookup. by destruct (Hn i Hi Hni).
  - intros i v (_ & [=] & _)%init_blocks_lookup.
  - apply init_blocks_aligned.
Qed.
End init.

Section init_allocator.
Context (ly : layout) (Hly : layout_ok ly) (raw : Z → frame) (Hraw : ∀ i, val (raw i) = 0).

Lemma init_lists_ok s : frames s = heap_start ly →
  (∀ i, 0 ≤ i < FRAMES_COUNT → fr s !! faddr ly i = Some (raw i)) →
  ∃ m L,
    (s ← for_loop (Z.to_nat (MAXORDER + 1)) 0
      (λ i s, mret (with_lm (INIT_LIST_HEAD (lm s) (free_head ly i)) s)) s;
     for_loop (Z.to_nat (MAXBINORDER + 1)) 0
      (λ i s, mret (with_lm (INIT_LIST_HEAD (lm s) (bin_head ly i)) s)) s) = Ok (with_lm m s) ∧
    init_loop ly 0 (with_lm m s) L.
Proof using Hly Hraw.
  intros Hb Hfr.
  destruct (init_heads_ok (free_head ly) (Z.to_nat (MAXORDER + 1)) s ∅) as
    (m1 & L1 & E1 & Hok1 & H1 & _ & N1).
  { split; intros ?; by rewrite ?lookup_empty. }
  { apply free_head_inj. }
  { intros i _ (h & l & H & _). by rewrite lookup_empty in H. }
  destruct (init_heads_ok (bin_head ly) (Z.to_nat (MAXBINORDER + 1)) (with_lm m1 s) L1) as
    (m2 & L2 & E2 & Hok2 & H2 & K2 & N2); [done|apply bin_head_inj| |].
  { intros i Hi [(h & l & H & _)|(v & Hv & E)]%N1; [by rewrite lookup_empty in H|].
    symmetry in E. revert E. apply free_bin_head; unfold MAXORDER, MAXBINORDER in *; [done|lia|lia]. }
  assert (∀ x, node L2 x → (∃ i, 0 ≤ i ≤ MAXORDER ∧ x = free_head ly i) ∨
      (∃ i, 0 ≤ i ≤ MAXBINORDER ∧ x = bin_head ly i)) as HN.
  { intros x [[(h & l & H & _)|(v & Hv & E)]%N1|(v & Hv & E)]%N2.
    - by rewrite lookup_empty in H.
    - left. exists v. split; [|done]. unfold MAXORDER in *. lia.
    - right. exists v. split; [|done]. unfold MAXBINORDER in *. lia. }
  exists m2, L2. split; [by rewrite E1|]. split; simpl; [done|done| | | | | |].
  - intros i Hi. exists (raw i). split; [by apply Hfr|].
    split; [lia|]. by rewrite Hraw.
  - intros v Hv. apply K2, H1. unfold MAXORDER in *. lia.
  - exists []. split; [apply K2, H1; unfold MAXORDER; lia|]. intros p.
    split; [intros Hp; destruct (not_elem_of_nil _ Hp)|]. intros (i & _ & ? & _). lia.
  - intros k Hk. apply H2. unfold MAXBINORDER in *. lia.
  - intros i Hi [(v & Hv & E)|(k & Hk & E)]%HN; exfalso; revert E.
    + apply faddr_free_head; [done|lia|lia].
    + apply faddr_bin_head; [done|lia|lia].
  - intros p [Hp|Hp]%HN; [by left|by right; left].
Qed.

(** A run of [reserve_page] calls. *)
Fixpoint reserve_all (rs : list (Z * Z)) (s : mstate) : res mstate :=
  match rs with
  | [] => mret s
  | (a, b) :: rs => s ← reserve_page ly a b s; reserve_all rs s
  end.

Definition range_ok (r : Z * Z) : Prop := 0 ≤ r.1 < 2 ^ 64 ∧ 0 ≤ r.2 ∧ r.2 + 0x1000 ≤ 2 ^ 64.
(** Page [x] is touched by the range. *)
Definition in_range (x : Z) (r : Z * Z) : Prop := page_down r.1 ≤ page_addr x < page_up r.2.

Lemma reserve_all_ok rs : ∀ s L B,
  lock_wf (lk s) → good ly s L B → Forall range_ok rs →
  ∃ s' L' B', reserve_all rs s = Ok s' ∧ good ly s' L' B' ∧ same_lists ly L L' ∧
    heap_top s' = heap_top s ∧ lk s' = match rs with [] => lk s | _ => unlock (lock (lk s)) end ∧
    (∀ p, bin_val <$> fr s' !! p = bin_val <$> fr s !! p) ∧
    (∀ x, free_frame B' x ↔ free_frame B x ∧ Forall (λ r, ¬ in_range x r) rs) ∧
    (Forall (λ r, page_down r.1 < page_up r.2) rs → ∀ j w, (∀ x, hi w x j → Forall (λ r, ¬ in_range x r) rs) →
      B !! j = Some (w, Avail) → B' !! j = Some (w, Avail)).
Proof using Hly.
  induction rs as [|[a b] rs IH]; intros s L B Hlk HG Hrs.
  { exists s, L, B. split_and!; [done..| |done]. intros x. split; [done|by intros []]. }
  apply Forall_cons in Hrs as [(Ha & Hb & Hb') Hrs].
  destruct (reserve_page_ok ly s L B a b Hly Hlk HG Ha Hb Hb') as
    (s1 & L1 & B1 & E1 & HG1 & [R1 R2 R3] & SL1 & HT1 & HK1 & HV1).
  destruct (IH s1 L1 B1) as (s2 & L2 & B2 & E2 & HG2 & SL2 & HT2 & HK2 & HV2 & HF2 & HW2);
    [rewrite HK1; by apply lock_wf_balanced|done|done|].
  exists s2, L2, B2. split_and!.
  - simpl. by rewrite E1.
  - done.
  - by transitivity L1.
  - congruence.
  - rewrite HK2, HK1. destruct rs; [done|]. by apply unlock_lock_idem.
  - intros p. by rewrite HV2.
  - intros x. rewrite HF2, Forall_cons, R1. unfold in_range at 2. simpl. tauto.
  - intros [Hne Hne']%Forall_cons j w Hc Hj. apply HW2; [done| |apply R3; [done| |done]].
    + intros x Hx. by apply Hc, Forall_cons in Hx as [_ ?].
    + intros x Hx. by apply Hc, Forall_cons in Hx as [? _].
Qed.

(** What [init_allocator] reserves, in order. *)
Definition boot_ranges (dtb cpio : Z * Z) (top : Z) : list (Z * Z) :=
  [dtb; (PHYS_TO_VIRT 0x1000, PHYS_TO_VIRT 0x4000); (kernel_start ly, kernel_end ly); cpio;
   (heap_start ly, top); (PHYS_TO_VIRT 0x2c000000, PHYS_TO_VIRT 0x3c000000)].

Lemma heap_top_bounds :
  let top := align_up (u64 (heap_start ly + FRAMES_COUNT * sizeof_frame)) 0x10 in
  heap_start ly + sizeof_frame * FRAMES_COUNT ≤ top ∧ top ≤ VIRT_BASE + 0x2c000000.
Proof using Hly.
  destruct Hly as [E1 [H1 H2] _ _ _ H3]. unfold sizeof_frame, FRAMES_COUNT, sizeof_list_head, MAXORDER, VIRT_BASE in *.
  cbv zeta. pose proof (align_up_least (heap_start ly + 0x3c000 * 32) 4) as [_ Hle]; [lia|lia|lia|].
  change (2 ^ 4) with 0x10 in Hle. rewrite u64_small by lia. lia.
Qed.

Lemma init_allocator_good s dtbr dtb cpio :
  heap_top s = heap_start ly → lock_wf (lk s) → range_ok dtb → range_ok cpio →
  (∀ s, dtbr (reserve_page ly) s = reserve_page ly dtb.1 dtb.2 s) →
  ∃ s' L B, init_allocator ly raw dtbr cpio.1 cpio.2 s = Ok s' ∧ good ly s' L B ∧
    lk s' = unlock (lock (lk s)) ∧ heap_top s' = align_up (u64 (heap_start ly + FRAMES_COUNT * sizeof_frame)) 0x10 ∧
    (∀ k, 0 ≤ k ≤ MAXBINORDER → L !! bin_head ly k = Some []) ∧
    (∀ p, node L p → alloc_node ly p) ∧
    (∀ x, free_frame B x ↔ 0 ≤ x < FRAMES_COUNT ∧
      Forall (λ r, ¬ in_range x r) (boot_ranges dtb cpio (heap_top s'))) ∧
    (Forall (λ r, page_down r.1 < page_up r.2) (boot_ranges dtb cpio (heap_top s')) →
      ∀ j, 0 ≤ j < FRAMES_COUNT → j mod 64 = 0 →
      (∀ x, j ≤ x < j + 64 → Forall (λ r, ¬ in_range x r) (boot_ranges dtb cpio (heap_top s'))) →
      B !! j = Some (MAXORDER, Avail)).
Proof using Hly Hraw.
  intros Htop Hlk Hdtb Hcpio Hcb. pose proof heap_top_bounds as Hbd. cbv zeta in Hbd.
  set (top := align_up _ _) in Hbd.
  set (s0 := with_fr (map_frames raw (heap_start ly)) (with_frames (heap_start ly) (with_heap_top top s))).
  destruct (init_lists_ok s0 eq_refl (map_frames_lookup raw (heap_start ly))) as (m1 & L1 & E1 & HI1).
  destruct (init_frames_ok ly Hly _ L1 HI1) as (s2 & L2 & E2 & HI2 & HT2 & HK2).
  pose proof (init_loop_good ly Hly raw Hraw s2 L2 HI2) as HG2.
  assert (Forall range_ok (boot_ranges dtb cpio top)) as Hr.
  { destruct Hly as [E4 [H1 H2] _ _ E5 H3]. clear - E4 E5 H1 H2 H3 Hdtb Hcpio Hbd.
    unfold boot_ranges. rewrite !PHYS_TO_VIRT_id by lia.
    unfold sizeof_frame, FRAMES_COUNT, sizeof_list_head, MAXORDER, VIRT_BASE in *.
    repeat apply Forall_cons_2; try done; unfold range_ok; simpl; lia. }
  pose (rs1 := firstn 4 (boot_ranges dtb cpio top)). pose (rs2 := skipn 4 (boot_ranges dtb cpio top)).
  assert (boot_ranges dtb cpio top = rs1 ++ rs2) as Ers by exact eq_refl.
  rewrite Ers in Hr. apply Forall_app in Hr as [Hr1 Hr2].
  destruct (reserve_all_ok rs1 s2 L2 init_blocks ltac:(by rewrite HK2) HG2 Hr1) as
    (s3 & L3 & B3 & E3 & HG3 & SL3 & HT3 & HK3 & HV3 & HF3 & HW3).
  assert (lock_wf (lk s3)) as Hlk3 by (rewrite HK3, HK2; by apply lock_wf_balanced).
  destruct (reserve_all_ok rs2 s3 L3 B3 Hlk3 HG3 Hr2) as
    (s4 & L4 & B4 & E4 & HG4 & SL4 & HT4 & HK4 & HV4 & HF4 & HW4).
  assert (heap_top s3 = top) as Ht3 by (by rewrite HT3, HT2).
  exists s4, L4, B4. split_and!.
  - unfold init_allocator, simple_malloc. rewrite Htop. fold top. cbv beta iota.
    change (with_fr _ _) with s0.
    apply bind_Ok in E1 as (s1 & E0 & E1). res_apply E0. res_apply E1. res_apply E2. rewrite Hcb.
    cbn [rs1 rs2 boot_ranges firstn skipn reserve_all] in E3, E4.
    destruct dtb as [a b], cpio as [c d]. cbn [fst snd].
    apply bind_Ok in E3 as (t1 & R1 & E3). res_apply R1.
    apply bind_Ok in E3 as (t2 & R2 & E3). res_apply R2.
    apply bind_Ok in E3 as (t3 & R3 & E3). res_apply R3.
    apply bind_Ok in E3 as (t4 & R4 & E3). res_apply R4. injection E3 as <-.
    apply bind_Ok in E4 as (t5 & R5 & E4). rewrite Ht3. res_apply R5.
    apply bind_Ok in E4 as (t6 & R6 & E4). injection E4 as <-. exact R6.
  - done.
  - rewrite HK4, HK3, HK2. by apply unlock_lock_idem.
  - by rewrite HT4, Ht3.
  - intros k Hk. rewrite SL4, SL3; [by apply HI2|..]; intros w Hw; symmetry; by apply free_bin_head.
  - assert (same_lists ly L2 L4) as SL by (by transitivity L3).
    intros p Hp. destruct (node_same_lists ly _ _ _ _ _ _ _ (proj1 HG2) (proj1 HG4) SL Hp) as [Hp'|Hp'].
    + by apply (il_all _ _ _ _ HI2).
    + by right; right.
  - intros x. rewrite HF4, HF3, init_blocks_free, HT4, Ht3, Ers, Forall_app. tauto.
  - rewrite HT4, Ht3, Ers. intros [Hn1 Hn2]%Forall_app j Hj Hm Hc.
    assert (∀ x, hi MAXORDER x j → Forall (λ r, ¬ in_range x r) rs1 ∧ Forall (λ r, ¬ in_range x r) rs2) as Hcc.
    { intros x Hx. apply Forall_app, Hc. apply hi_6_mod in Hx; [|done]. pose proof (Z.div_mod x 64). pose proof (Z.mod_pos_bound x 64). lia. }
    apply HW4; [exact Hn2|intros x Hx; apply (Hcc x Hx)|].
    apply HW3; [exact Hn1|intros x Hx; apply (Hcc x Hx)|].
    refine (proj2 (init_blocks_lookup _ _ _) _). exact (conj eq_refl (conj eq_refl (conj Hj Hm))).
Qed.
End init_allocator.
