(* ===== verification/Heap.v ===== *)
(** [kmalloc] and [kfree]: the heap invariant that covers the buddy blocks,
    the bins carved from pages, and every list node that lives in memory. *)
From S2P Require Import Prelude Util ListHead Lock Malloc Buddy Reserve.
Local Open Scope Z_scope.

(** ** Bins *)

(** Size classes: [32 << k] bytes for [k = 0 .. MAXBINORDER]. *)
Definition binsize (k : Z) : Z := Z.shiftl 0x20 k.
Definition bins_per_page (k : Z) : Z := 0x1000 / binsize k.
Definition slot (i k j : Z) : Z := page_addr i + j * binsize k.

(** Which pages have been carved, and into which size class. *)
Abbreviation carving := (gmap Z Z).

Definition is_slot (G : carving) (p k : Z) : Prop :=
  ∃ i j, G !! i = Some k ∧ 0 ≤ j < bins_per_page k ∧ p = slot i k j.

(** A bin that has been handed out. *)
Definition live_bin (ly : layout) (L : gmap Z (list Z)) (G : carving) (p k : Z) : Prop :=
  is_slot G p k ∧ ∀ l, L !! bin_head ly k = Some l → p ∉ l.

(** A block that has been handed out whole (or reserved at boot). *)
Definition live_block (B : blocks) (G : carving) (i v : Z) : Prop :=
  B !! i = Some (v, Busy) ∧ G !! i = None.

(** The memory that is in use: address and size. *)
Inductive owned (ly : layout) (L : gmap Z (list Z)) (B : blocks) (G : carving) : Z → Z → Prop :=
| owned_bin p k : live_bin ly L G p k → owned ly L B G p (binsize k)
| owned_block i v : live_block B G i v → owned ly L B G (page_addr i) (0x1000 * 2 ^ v).

Definition in_page (p x : Z) : Prop := page_addr x ≤ p < page_addr x + 0x1000.

Record heap_inv (ly : layout) (s : mstate) (L : gmap Z (list Z)) (B : blocks) (G : carving) : Prop := {
  hp_buddy : buddy_inv ly s L B;
  hp_settled : settled B;
  (* a carved page is one allocated page that carries its size class *)
  hp_carved : ∀ i k, G !! i = Some k → B !! i = Some (0, Busy) ∧ 0 ≤ k ≤ MAXBINORDER ∧
    ∃ f, fr s !! faddr ly i = Some f ∧ bin_val f = k;
  (* the bin lists hold slots of their class *)
  hp_bins : ∀ k, 0 ≤ k ≤ MAXBINORDER → ∃ l, L !! bin_head ly k = Some l ∧ ∀ p, p ∈ l → is_slot G p k;
  (* list nodes and frame structures do not lie in free memory *)
  hp_nodes : ∀ p x, node L p → 0 ≤ x < FRAMES_COUNT → in_page p x → ¬ free_frame B x;
  hp_frames : ∀ i x, 0 ≤ i < FRAMES_COUNT → 0 ≤ x < FRAMES_COUNT → in_page (faddr ly i) x →
    ¬ free_frame B x;
  hp_apart : ∀ i x, 0 ≤ i < FRAMES_COUNT → in_page (faddr ly i) x → G !! x = None;
  (* in a carved page they are slots *)
  hp_slots : ∀ p x k, node L p → in_page p x → G !! x = Some k → is_slot G p k;
}.

(** The heads that belong to the allocator. *)
Definition alloc_head (ly : layout) (h : Z) : Prop :=
  (∃ v, 0 ≤ v ≤ MAXORDER ∧ h = free_head ly v) ∨ (∃ k, 0 ≤ k ≤ MAXBINORDER ∧ h = bin_head ly k).

(** The rings of the rest of the kernel are as they were. *)
Definition client_lists_same (ly : layout) (L L' : gmap Z (list Z)) : Prop :=
  ∀ h, ¬ alloc_head ly h → L' !! h = L !! h.

#[export] Instance client_lists_preorder ly : PreOrder (client_lists_same ly).
Proof. split; [by intros L h|]. intros L1 L2 L3 H1 H2 h Hh. by rewrite H2, H1. Qed.

Lemma same_lists_client ly L L' : same_lists ly L L' → client_lists_same ly L L'.
Proof. intros H h Hh. apply H. intros v Hv ->. apply Hh. left. eauto. Qed.

Lemma client_insert_bin ly L k l : 0 ≤ k ≤ MAXBINORDER →
  client_lists_same ly L (<[bin_head ly k := l]> L).
Proof. intros Hk h Hh. rewrite lookup_insert_ne; [done|]. intros <-. apply Hh. right. eauto. Qed.

(** ** Arithmetic of slots *)

Lemma binsize_cases k : 0 ≤ k ≤ MAXBINORDER →
  (k = 0 ∧ binsize k = 32 ∧ bins_per_page k = 128) ∨ (k = 1 ∧ binsize k = 64 ∧ bins_per_page k = 64) ∨
  (k = 2 ∧ binsize k = 128 ∧ bins_per_page k = 32) ∨ (k = 3 ∧ binsize k = 256 ∧ bins_per_page k = 16) ∨
  (k = 4 ∧ binsize k = 512 ∧ bins_per_page k = 8).
Proof.
  unfold MAXBINORDER. intros Hk.
  assert (k = 0 ∨ k = 1 ∨ k = 2 ∨ k = 3 ∨ k = 4) as [->|[->|[->|[->| ->]]]] by lia;
    vm_compute; tauto.
Qed.

Lemma slot_in_page i k j : 0 ≤ k ≤ MAXBINORDER → 0 ≤ j < bins_per_page k →
  page_addr i ≤ slot i k j ∧ slot i k j + binsize k ≤ page_addr i + 0x1000.
Proof.
  intros Hk Hj. unfold slot.
  destruct (binsize_cases k Hk) as [(_ & -> & E)|[(_ & -> & E)|[(_ & -> & E)|[(_ & -> & E)|(_ & -> & E)]]]];
    rewrite E in Hj; lia.
Qed.

Lemma slot_page i k j : 0 ≤ k ≤ MAXBINORDER → 0 ≤ j < bins_per_page k → in_page (slot i k j) i.
Proof.
  intros Hk Hj. pose proof (slot_in_page i k j Hk Hj).
  destruct (binsize_cases k Hk) as [(_ & E & _)|[(_ & E & _)|[(_ & E & _)|[(_ & E & _)|(_ & E & _)]]]];
    unfold in_page; lia.
Qed.

Lemma in_page_inj p x y : in_page p x → in_page p y → x = y.
Proof. unfold in_page, page_addr. lia. Qed.

Lemma slot_inj i k j i' j' : 0 ≤ k ≤ MAXBINORDER → 0 ≤ j < bins_per_page k →
  0 ≤ j' < bins_per_page k → slot i k j = slot i' k j' → i = i' ∧ j = j'.
Proof.
  intros Hk Hj Hj' E. assert (i = i') as <-.
  { apply (in_page_inj (slot i k j)); [by apply slot_page|]. rewrite E. by apply slot_page. }
  split; [done|]. unfold slot in E.
  destruct (binsize_cases k Hk) as [(_ & Eb & _)|[(_ & Eb & _)|[(_ & Eb & _)|[(_ & Eb & _)|(_ & Eb & _)]]]];
    rewrite Eb in E; lia.
Qed.

(** Two slots are the same slot or do not overlap. *)
Lemma slots_disjoint G p k p' k' :
  (∀ i k, G !! i = Some k → 0 ≤ k ≤ MAXBINORDER) →
  is_slot G p k → is_slot G p' k' → p ≠ p' → p + binsize k ≤ p' ∨ p' + binsize k' ≤ p.
Proof.
  intros HG (i & j & Hi & Hj & ->) (i' & j' & Hi' & Hj' & ->) Hne.
  pose proof (slot_in_page i k j (HG _ _ Hi) Hj). pose proof (slot_in_page i' k' j' (HG _ _ Hi') Hj').
  destruct (decide (i = i')) as [<-|]; [|unfold page_addr in *; lia].
  simplify_eq. unfold slot in *.
  destruct (binsize_cases k (HG _ _ Hi)) as [(_ & E & _)|[(_ & E & _)|[(_ & E & _)|[(_ & E & _)|(_ & E & _)]]]];
    rewrite E in *; lia.
Qed.

Lemma bin_order_range size : 0 ≤ bin_order size ≤ MAXBINORDER.
Proof.
  destruct (first_order_spec 0x20 size (Z.to_nat (MAXBINORDER + 1)) 0) as [(A & _)|[A _]]; [lia|lia| |];
    unfold bin_order, MAXBINORDER in *; lia.
Qed.

(** The class chosen for a small size holds it, and the class below does not. *)
Lemma bin_order_fits size : size ≤ 512 →
  size ≤ binsize (bin_order size) ∧ (0 < bin_order size → binsize (bin_order size - 1) < size).
Proof.
  intros Hs. destruct (first_order_spec 0x20 size (Z.to_nat (MAXBINORDER + 1)) 0) as [(A & B & C)|[A B]];
    [lia|lia| |].
  - split; [exact B|]. intros H0. apply C. fold (bin_order size). lia.
  - specialize (B 4). change (Z.shiftl 0x20 4) with 512 in B. unfold MAXBINORDER in B. lia.
Qed.

Section heap.
Context (ly : layout) (Hly : layout_ok ly).

Lemma head_not_frame h i : alloc_head ly h → 0 ≤ i < FRAMES_COUNT → faddr ly i ≠ h.
Proof using Hly.
  intros [(v & Hv & ->)|(k & Hk & ->)] Hi; [apply faddr_free_head|apply faddr_bin_head]; done || lia.
Qed.

(** ** Changing rings that are not free lists *)

Lemma buddy_inv_other s L L' B m :
  buddy_inv ly s L B → lists_ok m L' →
  (∀ v, 0 ≤ v ≤ MAXORDER → L' !! free_head ly v = L !! free_head ly v) →
  (∀ i, 0 ≤ i < FRAMES_COUNT → node L' (faddr ly i) → node L (faddr ly i)) →
  buddy_inv ly (with_lm m s) L' B.
Proof using.
  intros [Hb Hl HP Hfr [Hf Hn]] Hok Hsame Hnode. split; simpl; [done|done|done|done|].
  split; [|eauto]. intros v Hv. rewrite Hsame by done. eauto.
Qed.

Lemma busy_not_free B i v x : part_ok B → B !! i = Some (v, Busy) → hi v x i → ¬ free_frame B x.
Proof using.
  intros HP Hi Hx (j & w & Hj & Hx').
  assert (i = j) as <- by (by apply (po_disj B HP x i v Busy j w Avail)). congruence.
Qed.

(** What a heap operation that only takes memory does to the rest. *)
Record heap_grow (L : gmap Z (list Z)) (B : blocks) (G : carving)
    (L' : gmap Z (list Z)) (B' : blocks) (G' : carving) : Prop := {
  hg_client : client_lists_same ly L L';
  hg_busy : ∀ j w, B !! j = Some (w, Busy) → B' !! j = Some (w, Busy);
  hg_free : ∀ x, free_frame B' x → free_frame B x;
  hg_carve : G ⊆ G';
  hg_carved : ∀ x k, G' !! x = Some k → G !! x = Some k ∨ free_frame B x;
  hg_avail : ∃ c, ∀ j w, j ≠ c → B !! j = Some (w, Avail) → B' !! j = Some (w, Avail);
  hg_aligned : aligned B → aligned B';
}.


Lemma slots_same_lists s L B s' L' B' (G : carving) : buddy_inv ly s L B → buddy_inv ly s' L' B' → same_lists ly L L' →
  (∀ i x, 0 ≤ i < FRAMES_COUNT → in_page (faddr ly i) x → G !! x = None) →
  (∀ p x k, node L p → in_page p x → G !! x = Some k → is_slot G p k) →
  ∀ p x k, node L' p → in_page p x → G !! x = Some k → is_slot G p k.
Proof using.
  intros HI HI' HSL HX HQ p x k Hp Hin Hx. destruct (node_same_lists ly _ _ _ _ _ _ _ HI HI' HSL Hp) as [Hp'|(j & Hj & ->)]; [by eapply HQ|].
  rewrite (HX j x Hj Hin) in Hx. done.
Qed.

(** ** alloc_page on the whole heap *)

Lemma heap_alloc_page s L B G size :
  heap_inv ly s L B G → can_alloc B (page_order size) →
  ∃ i s' L' B', alloc_page ly size s = Ok (page_addr i, s') ∧ 0 ≤ i < FRAMES_COUNT ∧
    same_rest s s' ∧ same_lists ly L L' ∧ heap_inv ly s' L' B' G ∧
    allocated B i (page_order size) B' ∧ heap_grow L B G L' B' G ∧
    (∀ p x, node L' p → 0 ≤ x < FRAMES_COUNT → in_page p x → ¬ free_frame B x).
Proof using Hly.
  intros [HI HS HC HB HN HF HX HQ] Hcan.
  destruct (alloc_page_ok ly Hly s L B size HI HS Hcan) as
    (i & s' & L' & B' & E & Hi & HR & HSL & HI' & HS' & HA & _).
  pose proof (page_order_range size) as Hv. pose proof HA as [A1 A2 A3 A4 _ _].
  assert (∀ j w, B !! j = Some (w, Busy) → B' !! j = Some (w, Busy)) as Hbusy.
  { intros j w Hj. apply A4; [|done]. intros ->.
    apply (busy_not_free B i w i (bi_part _ _ _ _ HI) Hj); [done|]. by apply A2. }
  assert (∀ p x, node L' p → 0 ≤ x < FRAMES_COUNT → in_page p x → ¬ free_frame B x) as HN'.
  { intros p x Hp Hx Hin. destruct (node_same_lists ly _ _ _ _ _ _ _ HI HI' HSL Hp) as [Hp'|(j & Hj & ->)];
      [by apply (HN p x)|by apply (HF j x)]. }
  exists i, s', L', B'. split_and!; [done|lia|lia|done|done| |done| |done].
  - split; [done|done| | | | |done|].
    + intros j k Hj. destruct (HC j k Hj) as (Hb & Hk & f & Hf & Hfb).
      split_and!; [by apply Hbusy|lia|lia|]. destruct HR as (_ & _ & _ & HR).
      specialize (HR (faddr ly j)). rewrite Hf in HR. apply fmap_Some in HR as (f' & Hf' & E').
      exists f'. split; [done|]. congruence.
    + intros k Hk. destruct (HB k Hk) as (l & Hl & Hin). exists l. split; [|done].
      rewrite HSL; [done|]. intros w Hw. symmetry. by apply free_bin_head.
    + intros p x Hp Hx Hin [Hf _]%A3. by eapply HN'.
    + intros j x Hj Hx Hin [Hf _]%A3. by apply (HF j x).
    + by apply (slots_same_lists s L B s' L' B' G HI HI' HSL HX HQ).
  - split; [by apply same_lists_client|done| |done|by left|by exists i; apply HA|apply HA]. by intros x [? _]%A3.
Qed.

(** ** Carving a page into bins *)

Lemma frames_ok_bin_val m B i b : frames_ok ly m B → frames_ok ly (upd ly m i (set_bin_val b)) B.
Proof using.
  intros [Hi Hv Hu Hs].
  assert (∀ j f, upd ly m i (set_bin_val b) !! faddr ly j = Some f →
    ∃ f0, m !! faddr ly j = Some f0 ∧ val f = val f0 ∧ used f = used f0) as Hm.
  { intros j f Hf. rewrite upd_lookup in Hf. case_decide; [|by exists f].
    apply fmap_Some in Hf as (f0 & Hf & ->). by exists f0. }
  split; [by apply frames_ok_upd_idx| | |].
  - intros j v st f Hj (f0 & Hf & -> & _)%Hm. eauto.
  - intros j v st f Hj (f0 & Hf & _ & ->)%Hm. eauto.
  - intros j v st x f Hj Hx (f0 & Hf & -> & _)%Hm. eauto.
Qed.

(** The loop of [from_page_get_bins]: all slots of page [i], in front of [l]. *)
Lemma carve_loop s L i k l : 0 ≤ k ≤ MAXBINORDER →
  lists_ok (lm s) L → L !! bin_head ly k = Some l →
  (∀ p, node L p → ¬ in_page p i) →
  ∃ m l', for_loop (Z.to_nat (bins_per_page k)) 0
      (λ j s, m ← list_add (lm s) (page_addr i + j * binsize k) (bin_head ly k); mret (with_lm m s)) s
      = Ok (with_lm m s) ∧
    lists_ok m (<[bin_head ly k := l']> L) ∧
    (∀ p, p ∈ l' ↔ p ∈ l ∨ ∃ j, 0 ≤ j < bins_per_page k ∧ p = slot i k j) ∧
    head l' = Some (slot i k (bins_per_page k - 1)).
Proof using.
  intros Hk Hok Hl Hout.
  destruct (for_loop_inv (λ j s', ∃ m l', s' = with_lm m s ∧
      lists_ok m (<[bin_head ly k := l']> L) ∧
      (∀ p, p ∈ l' ↔ p ∈ l ∨ ∃ j', 0 ≤ j' < j ∧ p = slot i k j') ∧
      (0 < j → head l' = Some (slot i k (j - 1))))
    (λ j s, m ← list_add (lm s) (page_addr i + j * binsize k) (bin_head ly k); mret (with_lm m s))
    (Z.to_nat (bins_per_page k)) 0 s) as (s' & E & m & l' & -> & H1 & H2 & H3).
  - exists (lm s), l. destruct s. rewrite insert_id by done. split_and!; [done|done| |lia].
    intros p. split; [by left|]. intros [?|(j & ? & _)]; [done|lia].
  - intros j s' Hj (m & l' & -> & H1 & H2 & _).
    assert (0 ≤ j < bins_per_page k) as Hjr.
    { destruct (binsize_cases k Hk) as [(_ & _ & E)|[(_ & _ & E)|[(_ & _ & E)|[(_ & _ & E)|(_ & _ & E)]]]];
        rewrite E in *; lia. }
    assert (¬ node (<[bin_head ly k := l']> L) (slot i k j)) as Hfresh.
    { pose proof (slot_page i k j Hk Hjr) as Hpg.
      intros [[Hx|Hx]%elem_of_cons|Hx]%node_insert; [| |by eapply Hout].
      - eapply Hout; [|exact Hpg]. rewrite Hx. apply (node_elem L _ l _ Hl). by left.
      - apply H2 in Hx as [Hx|(j' & Hj' & Hx)].
        + eapply Hout; [|exact Hpg]. apply (node_elem L _ l _ Hl). by right.
        + apply slot_inj in Hx as [_ ->]; lia. }
    destruct (list_add_ok m _ (bin_head ly k) [] l' (slot i k j) H1 (lookup_insert_eq _ _ _) Hfresh)
      as (m' & E & Hok').
    simpl in E, Hok'. rewrite insert_insert_eq in Hok'.
    eexists. split; [unfold slot in E; simpl; by rewrite E|].
    exists m', (slot i k j :: l'). split_and!; [done|done| |intros _; by replace (j + 1 - 1) with j by lia].
    intros p. rewrite elem_of_cons, H2. split.
    + intros [->|[?|(j' & ? & ->)]]; [right|by left|right].
      * exists j. split; [lia|done].
      * exists j'. split; [lia|done].
    + intros [?|(j' & ? & ->)]; [by right; left|].
      destruct (decide (j' = j)) as [->|]; [by left|]. right. right. exists j'. split; [lia|done].
  - assert (0 < bins_per_page k ∧ 0 + Z.of_nat (Z.to_nat (bins_per_page k)) = bins_per_page k) as [Hp En].
    { destruct (binsize_cases k Hk) as [(_ & _ & Eb)|[(_ & _ & Eb)|[(_ & _ & Eb)|[(_ & _ & Eb)|(_ & _ & Eb)]]]];
        rewrite Eb; done. }
    rewrite En in *. exists m, l'. split_and!; [done|done|done|by apply H3].
Qed.

Lemma page_order_page : page_order 0x1000 = 0.
Proof using. done. Qed.

Lemma is_slot_mono G G' p k : G ⊆ G' → is_slot G p k → is_slot G' p k.
Proof using. intros H (i & j & Hi & ?). exists i, j. split; [by eapply lookup_weaken|done]. Qed.

Lemma from_page_get_bins_ok s L B G k l :
  heap_inv ly s L B G → 0 ≤ k ≤ MAXBINORDER → can_alloc B 0 → L !! bin_head ly k = Some l →
  ∃ i s' L' B' l', from_page_get_bins ly k s = Ok s' ∧ lk s' = lk s ∧
    heap_inv ly s' L' B' (<[i:=k]> G) ∧ heap_grow L B G L' B' (<[i:=k]> G) ∧
    free_frame B i ∧ 0 ≤ i < FRAMES_COUNT ∧
    L' !! bin_head ly k = Some l' ∧ (∀ p, p ∈ l' ↔ p ∈ l ∨ ∃ j, 0 ≤ j < bins_per_page k ∧ p = slot i k j) ∧
    head l' = Some (slot i k (bins_per_page k - 1)) ∧
    (∀ k', 0 ≤ k' ≤ MAXBINORDER → k' ≠ k → L' !! bin_head ly k' = L !! bin_head ly k') ∧
    (∀ j w, live_block B' (<[i:=k]> G) j w ↔ live_block B G j w).
Proof using Hly.
  intros HI Hk Hcan Hl. rewrite <- page_order_page in Hcan.
  destruct (heap_alloc_page s L B G 0x1000 HI Hcan) as
    (i & s1 & L1 & B1 & E1 & Hi & HR & HSL & [I1 S1 C1 N1 P1 F1 X1 Q1] & HA & HG & Hout).
  rewrite page_order_page in HA. destruct HA as [A1 A2 A3 A4 _ A5].
  assert (free_frame B i) as Hfree by (apply A2, hi_refl).
  assert (¬ free_frame B1 i) as Hnf by (intros [_ Hx]%A3; by apply Hx, hi_refl).
  assert (∀ p, node L1 p → ¬ in_page p i) as Hout1 by (intros p Hp Hin; by apply (Hout p i)).
  assert (G !! i = None) as HGi.
  { destruct (G !! i) as [k'|] eqn:Eg; [|done]. exfalso.
    destruct (hp_carved _ _ _ _ _ HI i k' Eg) as [Hb _].
    by apply (busy_not_free B i 0 i (bi_part _ _ _ _ (hp_buddy _ _ _ _ _ HI)) Hb (hi_refl _ _)). }
  assert (L1 !! bin_head ly k = Some l) as Hl1.
  { rewrite HSL; [done|]. intros w Hw. symmetry. by apply free_bin_head. }
  destruct (get_frame_ok ly s1 L1 B1 i I1 Hi) as (f & _ & Hf & _).
  pose (s2 := with_fr (upd ly (fr s1) i (set_bin_val k)) s1).
  destruct (carve_loop s2 L1 i k l Hk (bi_lists _ _ _ _ I1) Hl1 Hout1) as (m & l' & E2 & Hok & Hl' & Hhead).
  exists i, (with_lm m s2), (<[bin_head ly k := l']> L1), B1, l'.
  assert (∀ p, node (<[bin_head ly k := l']> L1) p →
    node L1 p ∨ ∃ j, 0 ≤ j < bins_per_page k ∧ p = slot i k j) as Hnode.
  { intros p [[->|Hp]%elem_of_cons|Hp]%node_insert; [left|apply Hl' in Hp as [Hp|Hp]; [left|by right]|by left].
    - apply (node_elem L1 _ l _ Hl1). by left.
    - apply (node_elem L1 _ l _ Hl1). by right. }
  assert (G ⊆ <[i:=k]> G) as HGsub by (by apply insert_subseteq).
  split_and!.
  - unfold from_page_get_bins. res_step E1. cbv beta iota.
    assert (frame_of s1 (page_addr i) = faddr ly i) as ->.
    { rewrite <- (Z.add_0_r (page_addr i)). apply frame_of_page; [by apply (bi_base _ _ _ _ I1)|done|lia]. }
    res_step (upd_frame_ok ly s1 i (set_bin_val k) f Hf). res_step (bin_list_at_ok ly k Hk). exact E2.
  - destruct HR as (_ & _ & HR & _). by simpl.
  - split.
    + apply (buddy_inv_other s2 L1); [|exact Hok| |].
      * destruct I1. split; simpl; [done..| |done]. by apply frames_ok_bin_val.
      * intros v Hv. apply lookup_insert_ne. intros E. by apply (free_bin_head ly Hly v k).
      * intros j Hj [Hp|(j' & Hj' & Ej)]%Hnode; [done|]. exfalso.
        apply (hp_frames _ _ _ _ _ HI j i Hj Hi); [|done]. rewrite Ej. by apply slot_page.
    + done.
    + intros j w [[<- <-]|[Hne Hj]]%lookup_insert_Some.
      * split_and!; [done|lia|lia|]. exists (set_bin_val k f). split; [|done].
        simpl. rewrite upd_lookup, Hf. by rewrite decide_True.
      * destruct (C1 j w Hj) as (Hb & Hw & f' & Hf' & E). split_and!; [done|lia|lia|].
        exists f'. split; [|done]. simpl. rewrite upd_lookup, decide_False by done. done.
    + intros k' Hk'. destruct (decide (k' = k)) as [->|Hne].
      * exists l'. rewrite lookup_insert_eq. split; [done|].
        intros p [Hp|(j & Hj & ->)]%Hl'.
        -- destruct (N1 k Hk) as (l0 & E0 & H0). simplify_eq. by apply (is_slot_mono G), H0.
        -- exists i, j. by rewrite lookup_insert_eq.
      * destruct (N1 k' Hk') as (l0 & E0 & H0). exists l0. split.
        -- rewrite lookup_insert_ne; [done|]. by intros ?%bin_head_inj.
        -- intros p Hp. by apply (is_slot_mono G), H0.
    + intros p x [Hp|(j & Hj & ->)]%Hnode Hx Hin; [by apply (P1 p x)|].
      assert (x = i) as -> by (apply (in_page_inj (slot i k j)); [done|by apply slot_page]). done.
    + done.
    + intros j x Hj Hin. apply lookup_insert_None. split; [by eapply X1|]. intros <-.
      by apply (hp_frames _ _ _ _ _ HI j i Hj Hi).
    + intros p x w [Hp|(j & Hj & ->)]%Hnode Hin.
      * intros [[<- _]|[_ Hx]]%lookup_insert_Some; [by destruct (Hout1 p Hp)|]. apply (is_slot_mono G); [done|by eapply Q1].
      * assert (x = i) as -> by (apply (in_page_inj (slot i k j)); [done|by apply slot_page]).
        rewrite lookup_insert_eq. intros [= <-]. exists i, j. by rewrite lookup_insert_eq.
  - destruct HG as [HG1 HG2 HG3 _ _ HG5 HG4]. split; [|done|done|done| |done|done].
    2: { intros x k' [[<- _]|[_ ?]]%lookup_insert_Some; [by right|by left]. }
    transitivity L1; [done|]. by apply client_insert_bin.
  - done.
  - lia.
  - lia.
  - apply lookup_insert_eq.
  - done.
  - done.
  - intros k' Hk' Hne. rewrite lookup_insert_ne by (by intros ?%bin_head_inj).
    apply HSL. intros w Hw. symmetry. by apply free_bin_head.
  - intros j w. unfold live_block. destruct (decide (j = i)) as [->|Hne].
    + rewrite lookup_insert_eq. split; [by intros [_ [=]]|]. intros [Hb _]. exfalso.
      by apply (busy_not_free B i w i (bi_part _ _ _ _ (hp_buddy _ _ _ _ _ HI)) Hb (hi_refl _ _)).
    + rewrite lookup_insert_ne by done. by rewrite A4.
Qed.
(** ** Rings of bins: taking one out, putting one in *)

Lemma heap_set_bin s L B G k m l' :
  heap_inv ly s L B G → 0 ≤ k ≤ MAXBINORDER → lists_ok m (<[bin_head ly k := l']> L) →
  (∀ p, p ∈ l' → is_slot G p k) →
  heap_inv ly (with_lm m s) (<[bin_head ly k := l']> L) B G.
Proof using Hly.
  intros [HI HS HC HB HN HF HX HQ] Hk Hok Hl'. destruct (HB k Hk) as (l & Hl & _).
  assert (∀ p, node (<[bin_head ly k := l']> L) p → node L p ∨ is_slot G p k) as Hnode.
  { intros p [[->|Hp]%elem_of_cons|Hp]%node_insert; [left|right; by apply Hl'|by left].
    apply (node_elem L _ l _ Hl). by left. }
  split; simpl; [|done|done| | |done|done|].
  - apply (buddy_inv_other s L); [done|done| |].
    + intros v Hv. apply lookup_insert_ne. intros E. by apply (free_bin_head ly Hly v k).
    + intros j Hj [Hp|(i & j' & Hi & Hj' & E)]%Hnode; [done|]. exfalso.
      assert (in_page (faddr ly j) i) as Hin by (rewrite E; by apply slot_page).
      specialize (HX j i Hj Hin). congruence.
  - intros k' Hk'. destruct (decide (k' = k)) as [->|Hne]; [exists l'; by rewrite lookup_insert_eq|].
    destruct (HB k' Hk') as (l0 & E0 & H0). exists l0. split; [|done].
    rewrite lookup_insert_ne; [done|]. by intros ?%bin_head_inj.
  - intros p x [Hp|(i & j & Hi & Hj & ->)]%Hnode Hx Hin; [by apply (HN p x)|].
    assert (x = i) as -> by (apply (in_page_inj (slot i k j)); [done|by apply slot_page]).
    apply (busy_not_free B i 0 i (bi_part _ _ _ _ HI)); [by apply (HC i k)|apply hi_refl].
  - intros p x w [Hp|(i & j & Hi & Hj & ->)]%Hnode Hin Hx; [by eapply HQ|].
    assert (x = i) as -> by (apply (in_page_inj (slot i k j)); [done|by apply slot_page]).
    rewrite Hx in Hi. injection Hi as <-. by exists i, j.
Qed.

Lemma heap_grow_bin L B G L1 B1 G1 k l : 0 ≤ k ≤ MAXBINORDER →
  heap_grow L B G L1 B1 G1 → heap_grow L B G (<[bin_head ly k := l]> L1) B1 G1.
Proof using. intros Hk []. split; [|done..]. transitivity L1; [done|by apply client_insert_bin]. Qed.

Lemma live_bin_set L G k l p k' : 0 ≤ k' ≤ MAXBINORDER →
  live_bin ly (<[bin_head ly k := l]> L) G p k' ↔
  if decide (k' = k) then is_slot G p k ∧ p ∉ l else live_bin ly L G p k'.
Proof using.
  intros Hk'. case_decide as E.
  - subst. unfold live_bin. setoid_rewrite lookup_insert_eq. naive_solver.
  - unfold live_bin. rewrite lookup_insert_ne; [done|]. intros ?%bin_head_inj. congruence.
Qed.

Lemma live_bin_range s L B G p k : heap_inv ly s L B G → live_bin ly L G p k → 0 ≤ k ≤ MAXBINORDER.
Proof using. intros HI [(i & j & Hi & _) _]. by apply (hp_carved _ _ _ _ _ HI i k). Qed.

Lemma bin_take_ok s L B G k p l2 :
  heap_inv ly s L B G → 0 ≤ k ≤ MAXBINORDER → L !! bin_head ly k = Some (p :: l2) →
  ∃ m, get_next (lm s) (bin_head ly k) = Ok p ∧ del_entry s p = Ok (with_lm m s) ∧
    heap_inv ly (with_lm m s) (<[bin_head ly k := l2]> L) B G ∧
    ¬ node (<[bin_head ly k := l2]> L) p ∧ is_slot G p k ∧ p ∉ l2.
Proof using Hly.
  intros HI Hk Hl. pose proof (bi_lists _ _ _ _ (hp_buddy _ _ _ _ _ HI)) as Hok.
  destruct (list_del_entry_ok (lm s) L (bin_head ly k) [] p l2 Hok Hl) as (m & E & Hok' & Hgone & _).
  simpl in Hok', Hgone. destruct (hp_bins _ _ _ _ _ HI k Hk) as (l & E' & Hin). simplify_eq.
  exists m. unfold del_entry. rewrite E. split_and!; [|done| |done| |].
  - apply (get_next_ok (lm s) L (bin_head ly k) [] (p :: l2) Hok Hl).
  - apply heap_set_bin; [done|done|done|]. intros q Hq. apply Hin. by right.
  - apply Hin. by left.
  - pose proof (lo_nodup _ _ Hok _ _ Hl) as Hnd. by apply NoDup_cons in Hnd as [_ [? _]%NoDup_cons].
Qed.

(** Memory for a bin of class [k]: a bin in the list, or a free page. *)
Definition can_alloc_bin (L : gmap Z (list Z)) (B : blocks) (k : Z) : Prop :=
  L !! bin_head ly k ≠ Some [] ∨ can_alloc B 0.

Lemma alloc_bin_ok s L B G size :
  heap_inv ly s L B G → can_alloc_bin L B (bin_order size) →
  ∃ p s' L' B' G', alloc_bin ly size s = Ok (p, s') ∧ lk s' = lk s ∧
    heap_inv ly s' L' B' G' ∧ heap_grow L B G L' B' G' ∧ ¬ node L' p ∧
    ¬ live_bin ly L G p (bin_order size) ∧
    (L !! bin_head ly (bin_order size) = Some [] →
      ∃ i, p = slot i (bin_order size) (bins_per_page (bin_order size) - 1)) ∧
    (∀ q k, live_bin ly L' G' q k ↔ live_bin ly L G q k ∨ (q = p ∧ k = bin_order size)) ∧
    (∀ j w, live_block B' G' j w ↔ live_block B G j w) ∧
    (∀ x k, G' !! x = Some k → G !! x = Some k ∨ k = bin_order size).
Proof using Hly.
  intros HI Hcan. pose proof (bin_order_range size) as Hk. set (k := bin_order size) in *.
  destruct (hp_bins _ _ _ _ _ HI k Hk) as (l & Hl & Hslot).
  assert (∃ s1 L1 B1 G1 p l2, (if bool_decide (l = []) then from_page_get_bins ly k s else mret s) = Ok s1 ∧
    lk s1 = lk s ∧ heap_inv ly s1 L1 B1 G1 ∧ heap_grow L B G L1 B1 G1 ∧ L1 !! bin_head ly k = Some (p :: l2) ∧
    (∀ q k, 0 ≤ k ≤ MAXBINORDER → live_bin ly L1 G1 q k ↔ live_bin ly L G q k) ∧
    (∀ j w, live_block B1 G1 j w ↔ live_block B G j w) ∧
    (l = [] → ∃ i, p = slot i k (bins_per_page k - 1)) ∧ (∀ x k', G1 !! x = Some k' → G !! x = Some k' ∨ k' = k))
    as (s1 & L1 & B1 & G1 & p & l2 & E1 & K1 & HI1 & HG1 & Hl1 & Hlive1 & Hblk1 & Hlast & Hcls).
  { destruct l as [|p l2].
    - destruct Hcan as [Hcan|Hcan]; [congruence|].
      destruct (from_page_get_bins_ok s L B G k [] HI Hk Hcan Hl) as
        (i & s1 & L1 & B1 & l1 & E1 & K1 & HI1 & HG1 & Hfree & Hi & Hl1 & Hin1 & Hhead & Hoth & Hblk).
      assert (G !! i = None) as HGi.
      { destruct (G !! i) as [k'|] eqn:Eg; [|done]. exfalso.
        destruct (hp_carved _ _ _ _ _ HI i k' Eg) as [Hb _].
        by apply (busy_not_free B i 0 i (bi_part _ _ _ _ (hp_buddy _ _ _ _ _ HI)) Hb (hi_refl _ _)). }
      destruct l1 as [|p l2].
      { exfalso. apply (not_elem_of_nil (slot i k 0)), Hin1. right. exists 0. split; [|done].
        destruct (binsize_cases k Hk) as [(_ & _ & E)|[(_ & _ & E)|[(_ & _ & E)|[(_ & _ & E)|(_ & _ & E)]]]];
          rewrite E; lia. }
      exists s1, L1, B1, (<[i:=k]> G), p, l2. split_and!; [done..| |done|intros _; exists i; by simplify_eq/=|intros x k' [[_ <-]|[_ ?]]%lookup_insert_Some; auto]. intros q k' Hk'. split.
      + intros [(i' & j & Hi' & Hj & ->) Hq]. destruct (decide (i' = i)) as [->|Hne].
        * rewrite lookup_insert_eq in Hi'. simplify_eq. destruct (Hq _ Hl1). apply Hin1. right. by exists j.
        * rewrite lookup_insert_ne in Hi' by done. split; [by exists i', j|]. intros l0 Hl0 Hin.
          destruct (decide (k' = k)) as [->|Hkk].
          -- simplify_eq. by apply not_elem_of_nil in Hin.
          -- apply (Hq l0); [by rewrite Hoth|done].
      + intros [Hs Hq]. split; [eapply is_slot_mono; [|done]; apply HG1|]. intros l0 Hl0 Hin.
        destruct (decide (k' = k)) as [->|Hkk].
        * simplify_eq. apply Hin1 in Hin as [Hin|(j & Hj & ->)]; [by apply not_elem_of_nil in Hin|].
          destruct Hs as (i' & j' & Hi' & Hj' & E). apply slot_inj in E as [-> _]; [|done..]. congruence.
        * rewrite Hoth in Hl0 by done. by apply (Hq l0).
    - exists s, L, B, G, p, l2. split_and!; [done|done|done| |done|done|done|done|by left]. split; [done|done|done|done|by left|by exists 0|done]. }
  destruct (bin_take_ok s1 L1 B1 G1 k p l2 HI1 Hk Hl1) as (m & E2 & E3 & HI2 & Hgone & Hsl & Hp2).
  exists p, (with_lm m s1), (<[bin_head ly k := l2]> L1), B1, G1. split_and!; [|done|done| |done| |intros ?; apply Hlast; congruence| |done|done].
  - unfold alloc_bin. fold k. res_step (bin_list_at_ok ly k Hk).
    res_step (list_empty_ok _ _ _ _ (bi_lists _ _ _ _ (hp_buddy _ _ _ _ _ HI)) Hl).
    res_step E1. res_step E2. by res_step E3.
  - by apply heap_grow_bin.
  - intros Hlv. apply Hlive1 in Hlv as [_ Hq]; [|done]. apply (Hq _ Hl1). by left.
  - intros q k'. split.
    + intros Hq. pose proof (live_bin_range _ _ _ _ _ _ HI2 Hq) as Hk'.
      apply live_bin_set in Hq; [|done]. case_decide as Ek.
      * destruct Hq as [Hs Hq]. destruct (decide (q = p)) as [->|Hne]; [by right|]. left.
        apply Hlive1; [done|]. subst k'. split; [done|]. intros l0 Hl0. simplify_eq.
        by intros [?|?]%elem_of_cons.
      * left. by apply Hlive1.
    + intros Hq. assert (0 ≤ k' ≤ MAXBINORDER) as Hk'.
      { destruct Hq as [Hq|[_ ->]]; [by apply (live_bin_range s L B G q)|done]. }
      apply live_bin_set; [done|]. case_decide as Ek.
      * destruct Hq as [Hq|[-> _]]; [|done]. subst k'. apply Hlive1 in Hq as [Hs Hq]; [|done].
        split; [done|]. intros Hin. apply (Hq _ Hl1). by right.
      * destruct Hq as [Hq|[_ ->]]; [by apply Hlive1|done].
Qed.

(** ** kmalloc *)

Definition can_kmalloc (L : gmap Z (list Z)) (B : blocks) (size : Z) : Prop :=
  if size <=? 0x200 then can_alloc_bin L B (bin_order size) else can_alloc B (page_order size).

(** The size of what [kmalloc] hands out. *)
Definition kmalloc_size (size : Z) : Z :=
  if size <=? 0x200 then binsize (bin_order size) else 0x1000 * 2 ^ page_order size.

Lemma page_order_fits size : size ≤ 0x40000 →
  size ≤ 0x1000 * 2 ^ page_order size ∧
  (0 < page_order size → 0x1000 * 2 ^ (page_order size - 1) < size).
Proof using.
  intros Hs. pose proof (page_order_range size) as Hr.
  destruct (first_order_spec 0x1000 size (Z.to_nat (MAXORDER + 1)) 0) as [(A & F & C)|[A F]];
    [lia|lia| |]; fold (page_order size) in *.
  - rewrite Z.shiftl_mul_pow2 in F by lia. split; [exact F|]. intros H0.
    rewrite <- Z.shiftl_mul_pow2 by lia. apply C. lia.
  - specialize (F MAXORDER). change (Z.shiftl 0x1000 MAXORDER) with 0x40000 in F. unfold MAXORDER in F. lia.
Qed.

(** what [kmalloc] hands out is large enough for the request, up to the
    largest block, and no smaller bin or block would be. *)
Theorem kmalloc_size_fits size : size ≤ 0x40000 →
  size ≤ kmalloc_size size ∧
  (size ≤ 0x200 → 0 < bin_order size → binsize (bin_order size - 1) < size) ∧
  (0x200 < size → 0 < page_order size → 0x1000 * 2 ^ (page_order size - 1) < size).
Proof using.
  intros Hs. unfold kmalloc_size. destruct (Z.leb_spec size 0x200).
  - destruct (bin_order_fits size) as [H1 H2]; [lia|]. split_and!; [done|auto|lia].
  - destruct (page_order_fits size Hs) as [H1 H2]. split_and!; [done|lia|auto].
Qed.

(** A request of at most a page never asks for more than one page of bins. *)
Lemma kmalloc_size_bound size : 0 ≤ kmalloc_size size ≤ 0x40000.
Proof using.
  unfold kmalloc_size. case_match.
  - pose proof (bin_order_range size) as Hk.
    destruct (binsize_cases _ Hk) as [(_ & -> & _)|[(_ & -> & _)|[(_ & -> & _)|[(_ & -> & _)|(_ & -> & _)]]]]; lia.
  - pose proof (page_order_range size) as Hv. unfold MAXORDER in Hv.
    assert (0 < 2 ^ page_order size ≤ 2 ^ 6) by (split; [lia|apply Z.pow_le_mono_r; lia]).
    change (2 ^ 6) with 64 in *. lia.
Qed.

Lemma in_page_refl x : in_page (page_addr x) x.
Proof using. unfold in_page. lia. Qed.

Lemma live_block_alloc s L B G i v B' : heap_inv ly s L B G → allocated B i v B' →
  ∀ j w, live_block B' G j w ↔ live_block B G j w ∨ (j = i ∧ w = v).
Proof using.
  intros HI [A1 A2 A3 A4 _ _] j w.
  pose proof (bi_part _ _ _ _ (hp_buddy _ _ _ _ _ HI)) as HP.
  assert (∀ w, B !! i ≠ Some (w, Busy)) as Hni.
  { intros w' Hb. by apply (busy_not_free B i w' i HP Hb (hi_refl _ _)), A2. }
  unfold live_block. destruct (decide (j = i)) as [->|Hne].
  - rewrite A1. split; [naive_solver|]. intros [[Hb _]|[_ ->]]; [by destruct (Hni w)|].
    split; [done|]. destruct (G !! i) as [k|] eqn:Eg; [|done].
    by destruct (Hni 0), (hp_carved _ _ _ _ _ HI i k Eg).
  - rewrite A4 by done. naive_solver.
Qed.

Lemma kmalloc_run s L B G size :
  heap_inv ly s L B G → 0 ≤ size < 2 ^ 32 → can_kmalloc L B size →
  ∃ p s' L' B' G', kmalloc ly size s = Ok (p, s') ∧ lk s' = lk s ∧
    heap_inv ly s' L' B' G' ∧ heap_grow L B G L' B' G' ∧ ¬ node L' p ∧
    (if size <=? 0x200 then ¬ live_bin ly L G p (bin_order size) ∧
       (L !! bin_head ly (bin_order size) = Some [] →
         ∃ i, p = slot i (bin_order size) (bins_per_page (bin_order size) - 1))
     else ∃ i, p = page_addr i ∧ 0 ≤ i < FRAMES_COUNT ∧ G' = G ∧ allocated B i (page_order size) B' ∧
       ∀ q x, node L' q → hi (page_order size) x i → ¬ in_page q x) ∧
    (∀ q n, owned ly L' B' G' q n ↔ owned ly L B G q n ∨ (q = p ∧ n = kmalloc_size size)).
Proof using Hly.
  intros HI Hs Hcan. unfold can_kmalloc, kmalloc_size in *. unfold kmalloc.
  rewrite u32_small by done. change (Z.shiftl 0x20 MAXBINORDER) with 0x200.
  destruct (size <=? 0x200) eqn:Es.
  - destruct (alloc_bin_ok s L B G size HI Hcan) as
      (p & s' & L' & B' & G' & E & Hlk & HI' & HG & Hn & Hnl & Hlast & Hlive & Hblk & _).
    exists p, s', L', B', G'. split_and!; [done..|]. intros q n. split.
    + intros [q' k [Hq|[-> ->]]%Hlive|i v Hb%Hblk]; [left; by constructor|by right|left; by constructor].
    + intros [[q' k Hq|i v Hb]|[-> ->]]; constructor; [apply Hlive; by left|by apply Hblk|apply Hlive; by right].
  - destruct (heap_alloc_page s L B G size HI Hcan) as
      (i & s' & L' & B' & E & Hi & HR & HSL & HI' & HA & HG & Hout).
    pose proof (live_block_alloc s L B G i _ B' HI HA) as Hblk.
    assert (∀ q k, live_bin ly L' G q k ↔ live_bin ly L G q k) as Hlive.
    { intros q k. unfold live_bin. split; intros [Hsl Hq]; (split; [done|]); intros l Hl;
        (assert (0 ≤ k ≤ MAXBINORDER) by
          (destruct Hsl as (i' & j' & Hi' & _); by apply (hp_carved _ _ _ _ _ HI i' k)));
        apply Hq; revert Hl; rewrite HSL; try done; intros w Hw; symmetry; by apply free_bin_head. }
    exists (page_addr i), s', L', B', G. split_and!.
    + done.
    + by destruct HR as (_ & _ & -> & _).
    + done.
    + done.
    + intros Hn. apply (Hout (page_addr i) i Hn); [done|apply in_page_refl|].
      apply HA, hi_refl.
    + exists i. split_and!; [done|lia|lia|done|done|]. intros q x Hq Hx Hin.
      pose proof (page_order_range size) as Hv.
      apply (Hout q x Hq); [|done|by apply HA]. apply (frames_block i); [done|].
      apply (hi_mono (page_order size)); [done|apply Hv].
    + intros q n. split.
      * intros [q' k Hq%Hlive|j v [Hb|[-> ->]]%Hblk]; [left; by constructor|left; by constructor|by right].
      * intros [[q' k Hq|j v Hb]|[-> ->]]; constructor; [by apply Hlive|apply Hblk; by left|apply Hblk; by right].
Qed.

(** C25: with memory left, [kmalloc] succeeds and keeps the heap invariant. What
    it returns was not in use, is not in any ring, and is exactly what has
    been added to the memory in use; the rings of the rest of the kernel are
    untouched. A small request gets a bin (from the end of a new page when its
    list is empty), a larger one a block of the least sufficient order, all of
    whose frames were free. *)
Theorem kmalloc_ok s L B G size :
  heap_inv ly s L B G → 0 ≤ size < 2 ^ 32 → can_kmalloc L B size →
  ∃ p s' L' B' G', kmalloc ly size s = Ok (p, s') ∧ lk s' = lk s ∧
    heap_inv ly s' L' B' G' ∧ heap_grow L B G L' B' G' ∧ ¬ node L' p ∧
    (if size <=? 0x200 then ¬ live_bin ly L G p (bin_order size) ∧
       (L !! bin_head ly (bin_order size) = Some [] →
         ∃ i, p = slot i (bin_order size) (bins_per_page (bin_order size) - 1))
     else ∃ i, p = page_addr i ∧ 0 ≤ i < FRAMES_COUNT ∧ G' = G ∧ allocated B i (page_order size) B' ∧
       ∀ q x, node L' q → hi (page_order size) x i → ¬ in_page q x) ∧
    (∀ q n, owned ly L' B' G' q n ↔ owned ly L B G q n ∨ (q = p ∧ n = kmalloc_size size)).
Proof using Hly. apply kmalloc_run. Qed.

(** While every block starts at its representative two pieces of memory in use do
    not overlap. *)
Lemma owned_disjoint s L B G p n q m :
  heap_inv ly s L B G → aligned B → owned ly L B G p n → owned ly L B G q m →
  (p = q ∧ n = m) ∨ p + n ≤ q ∨ q + m ≤ p.
Proof using.
  intros HI HA. pose proof (bi_part _ _ _ _ (hp_buddy _ _ _ _ _ HI)) as HP.
  assert (∀ p k, live_bin ly L G p k → ∃ i, G !! i = Some k ∧ B !! i = Some (0, Busy) ∧
    page_addr i ≤ p ∧ p + binsize k ≤ page_addr i + 0x1000) as Hbin.
  { intros p' k [(i & j & Hi & Hj & ->) _]. exists i.
    destruct (hp_carved _ _ _ _ _ HI i k Hi) as (Hb & Hk & _).
    pose proof (slot_in_page i k j Hk Hj). split_and!; [done|done|lia|lia]. }
  assert (∀ i v j w, B !! i = Some (v, Busy) → B !! j = Some (w, Busy) → i ≠ j →
    page_addr i + 0x1000 * 2 ^ v ≤ page_addr j ∨ page_addr j + 0x1000 * 2 ^ w ≤ page_addr i) as Hblk.
  { intros i v j w Hi Hj Hne. destruct (po_range B HP _ _ _ Hi) as [_ Hv], (po_range B HP _ _ _ Hj) as [_ Hw].
    assert (¬ hi v j i) as H1 by (intros H; apply Hne; by eapply (po_disj B HP j i v Busy j w Busy); [..|apply hi_refl]).
    assert (¬ hi w i j) as H2 by (intros H; apply Hne; by eapply (po_disj B HP i i v Busy j w Busy); [..|apply hi_refl|]).
    rewrite aligned_block in H1; [|lia|by eapply HA]. rewrite aligned_block in H2; [|lia|by eapply HA].
    unfold page_addr. lia. }
  intros [p' k Hp|i v [Hi Gi]] [q' k' Hq|j w [Hj Gj]].
  - destruct (decide (p' = q')) as [->|Hne].
    + left. split; [done|]. f_equal. destruct Hp as [(i & j & Hi & Hj & ->) _], Hq as [(i' & j' & Hi' & Hj' & E) _].
      destruct (hp_carved _ _ _ _ _ HI i k Hi) as (_ & Hk & _), (hp_carved _ _ _ _ _ HI i' k' Hi') as (_ & Hk' & _).
      assert (i = i') as ->; [|congruence].
      apply (in_page_inj (slot i k j)); [by apply slot_page|]. rewrite E. by apply slot_page.
    + right. apply (slots_disjoint G p' k q' k'); [|apply Hp|apply Hq|done].
      intros i k0 Hi. by apply (hp_carved _ _ _ _ _ HI i k0).
  - right. destruct (Hbin _ _ Hp) as (i & Gi & Bi & ?). destruct (Hblk i 0 j w Bi Hj); [congruence|lia|lia].
  - right. destruct (Hbin _ _ Hq) as (j & Gj & Bj & ?). destruct (Hblk i v j 0 Hi Bj); [congruence|lia|lia].
  - destruct (decide (i = j)) as [->|Hne]; [left; by simplify_eq|right; by apply Hblk].
Qed.

(** ** kfree *)

Lemma slot_frame s L B G p k : heap_inv ly s L B G → is_slot G p k →
  ∃ i f, G !! i = Some k ∧ frame_of s p = faddr ly i ∧ fr s !! faddr ly i = Some f ∧ bin_val f = k ∧
    0 ≤ k ≤ MAXBINORDER.
Proof using.
  intros HI (i & j & Hi & Hj & ->). destruct (hp_carved _ _ _ _ _ HI i k Hi) as (Hb & Hk & f & Hf & E).
  exists i, f. split_and!; [done| |done|done|lia|lia].
  destruct (po_range B (bi_part _ _ _ _ (hp_buddy _ _ _ _ _ HI)) _ _ _ Hb) as [Hr _].
  pose proof (slot_page i k j Hk Hj). unfold in_page in *.
  replace (slot i k j) with (page_addr i + (slot i k j - page_addr i)) by lia.
  apply frame_of_page; [by apply (bi_base _ _ _ _ (hp_buddy _ _ _ _ _ HI))|done|lia].
Qed.

(** Giving a bin back: it goes to the front of its list. *)
Lemma kfree_bin_run s L B G p k :
  heap_inv ly s L B G → live_bin ly L G p k → p mod 0x1000 ≠ 0 → ¬ node L p →
  ∃ l m, kfree ly p s = Ok (with_lm m s) ∧ L !! bin_head ly k = Some l ∧
    heap_inv ly (with_lm m s) (<[bin_head ly k := p :: l]> L) B G ∧ cells_same (λ q, node L q ∨ q = p) (lm s) m.
Proof using Hly.
  intros HI Hlv Hp Hn. pose proof Hlv as [Hsl Hnl].
  destruct (slot_frame s L B G p k HI Hsl) as (i & f & Hi & Efr & Hf & Hbv & Hk).
  destruct (hp_bins _ _ _ _ _ HI k Hk) as (l & Hl & Hin).
  destruct (list_add_ok (lm s) L (bin_head ly k) [] l p (bi_lists _ _ _ _ (hp_buddy _ _ _ _ _ HI)) Hl Hn)
    as (m & E & Hok). simpl in E, Hok.
  exists l, m. split_and!; [|done| |exact (list_add_cells _ _ _ _ _ _ (bi_lists _ _ _ _ (hp_buddy _ _ _ _ _ HI)) Hl E)].
  - unfold kfree, get_frame. rewrite Efr, Hf. cbn [load mbind res_bind].
    rewrite (proj2 (Z.eqb_neq _ _)) by done. rewrite Hbv. rewrite (proj2 (Z.eqb_neq _ _)) by lia. simpl.
    unfold free_bin, get_frame. rewrite Efr, Hf. cbn [load mbind res_bind]. rewrite Hbv.
    res_step (bin_list_at_ok ly k Hk). by rewrite E.
  - apply heap_set_bin; [done|done|done|]. intros q [->|Hq]%elem_of_cons; [done|by apply Hin].
Qed.

Lemma kfree_bin_full s L B G p k :
  heap_inv ly s L B G → live_bin ly L G p k → p mod 0x1000 ≠ 0 → ¬ node L p →
  ∃ s' L', kfree ly p s = Ok s' ∧ heap_inv ly s' L' B G ∧ lk s' = lk s ∧
    client_lists_same ly L L' ∧
    (∀ q n, owned ly L' B G q n ↔ owned ly L B G q n ∧ (q, n) ≠ (p, binsize k)) ∧
    (∀ q, node L' q → node L q ∨ q = p) ∧ cells_same (λ q, node L q ∨ q = p) (lm s) (lm s').
Proof using Hly.
  intros HI Hlv Hp Hn. pose proof Hlv as [Hsl Hnl].
  pose proof (live_bin_range _ _ _ _ _ _ HI Hlv) as Hk.
  destruct (kfree_bin_run s L B G p k HI Hlv Hp Hn) as (l & m & E & Hl & HI' & HC).
  exists (with_lm m s), (<[bin_head ly k := p :: l]> L).
  split_and!; [done|done|done|by apply client_insert_bin| |intros q [Hq|Hq]%node_insert|exact HC]; [|apply elem_of_cons in Hq as [->|[->|Hq]%elem_of_cons]|by left].
  2: { left. apply (node_elem L _ _ _ Hl). by left. }
  2: { by right. }
  2: { left. apply (node_elem L _ _ _ Hl). by right. }
  intros q n. split.
  - intros [q' k' Hq|j v Hb].
    + pose proof (live_bin_range _ _ _ _ _ _ HI' Hq) as Hk'.
      apply live_bin_set in Hq; [|done]. case_decide as Ek.
      * subst k'. destruct Hq as [Hs Hq]. apply not_elem_of_cons in Hq as [Hne Hq]. split.
        -- constructor. split; [done|]. intros l0 Hl0. by simplify_eq.
        -- intros [= ?]. done.
      * split; [by constructor|]. intros [= -> Eb].
        destruct (slot_frame s L B G p k HI Hsl) as (i & f & _ & Efr & Hf & Hbv & _).
        destruct Hq as [Hs _]. destruct (slot_frame s L B G p k' HI Hs) as (i' & f' & _ & Ef' & Hf' & Hbv' & _).
        rewrite Efr in Ef'. apply faddr_inj in Ef'. congruence.
    + split; [by constructor|]. intros [= Ep _]. apply Hp. rewrite <- Ep.
      apply Z.mod_divide; [done|]. apply page_addr_divide.
  - intros [[q' k' Hq|j v Hb] Hne]; constructor; [|done].
    apply live_bin_set; [by apply (live_bin_range s L B G q')|]. case_decide as Ek; [|done]. subst k'.
    destruct Hq as [Hs Hq]. split; [done|]. rewrite not_elem_of_cons. split; [congruence|by apply Hq].
Qed.

(** [kfree] takes the first bin of a page for the page. *)
Lemma kfree_first_run s L B G p k :
  heap_inv ly s L B G → live_bin ly L G p k → p mod 0x1000 = 0 →
  ∃ i s' L' B', p = page_addr i ∧ G !! i = Some k ∧ kfree ly p s = Ok s' ∧ buddy_inv ly s' L' B' ∧ freed B i 0 B' ∧
    client_lists_same ly L L'.
Proof using Hly.
  intros HI [(i & j & Hi & Hj & ->) _] Hm. destruct (hp_carved _ _ _ _ _ HI i k Hi) as (Hb & Hk & _).
  pose proof (bi_part _ _ _ _ (hp_buddy _ _ _ _ _ HI)) as HP. destruct (po_range B HP _ _ _ Hb) as [Hr _].
  pose proof (slot_in_page i k j Hk Hj) as Hs.
  assert (slot i k j = page_addr i) as Ep.
  { assert (0 < binsize k) by (destruct (binsize_cases k Hk) as [(_ & -> & _)|[(_ & -> & _)|[(_ & -> & _)|[(_ & -> & _)|(_ & -> & _)]]]]; lia).
    pose proof (page_addr_divide i) as [c Ec]. pose proof (proj1 (Z.mod_divide (slot i k j) 0x1000 ltac:(lia)) Hm) as [d Ed]. lia. }
  destruct (free_page_ok ly Hly s L B i 0 (hp_buddy _ _ _ _ _ HI) (hp_settled _ _ _ _ _ HI) Hb) as (s' & L' & B' & E & _ & HSL & HI' & _ & HD & _).
  exists i, s', L', B'. split_and!; [done|done| |done|done|by apply same_lists_client]. rewrite Ep in Hm |- *.
  unfold kfree. pose proof (frame_of_page ly s i 0 (bi_base _ _ _ _ (hp_buddy _ _ _ _ _ HI)) Hr ltac:(lia)) as Efr.
  rewrite Z.add_0_r in Efr. rewrite Efr. destruct (get_frame_ok ly s L B i (hp_buddy _ _ _ _ _ HI) Hr) as (f & Hg & _). res_step Hg.
  by rewrite Hm.
Qed.

(** C27: [kfree] of a bin in use always returns. A bin that is not the first of its
    page is taken out of what is in use, and nothing else is; the heap
    invariant is kept. The first bin of a page is taken for the whole page: its
    frame is free afterwards, whatever other bins of that page are in use. *)
Theorem kfree_bin_ok s L B G p k :
  heap_inv ly s L B G → live_bin ly L G p k → ¬ node L p →
  (p mod 0x1000 ≠ 0 → ∃ s' L', kfree ly p s = Ok s' ∧ heap_inv ly s' L' B G ∧ lk s' = lk s ∧
    client_lists_same ly L L' ∧
    ∀ q n, owned ly L' B G q n ↔ owned ly L B G q n ∧ (q, n) ≠ (p, binsize k)) ∧
  (p mod 0x1000 = 0 → ∃ i s' L' B', kfree ly p s = Ok s' ∧ p = page_addr i ∧ buddy_inv ly s' L' B' ∧ client_lists_same ly L L' ∧
    ¬ free_frame B i ∧ ∀ x, free_frame B' x ↔ free_frame B x ∨ x = i).
Proof using Hly.
  intros HI Hlv Hn. split; intros Hp.
  - destruct (kfree_bin_full s L B G p k HI Hlv Hp Hn) as (s' & L' & E & HI' & Hk & Hc & Ho & _). by exists s', L'.
  - destruct (kfree_first_run s L B G p k HI Hlv Hp) as (i & s' & L' & B' & -> & Gi & E & HI' & [D1 _ _ _ _] & Hc).
    assert (∀ x, free_frame B' x ↔ free_frame B x ∨ x = i) as HF.
    { intros x. rewrite D1. split; intros [Hx|Hx]; [by left|right; by apply hi_0_eq|by left|right; subst x; apply hi_refl]. }
    exists i, s', L', B'. split_and!; try done.
    destruct (hp_carved _ _ _ _ _ HI i k Gi) as (Hb & _). exact (busy_not_free B i 0 i (bi_part _ _ _ _ (hp_buddy _ _ _ _ _ HI)) Hb (hi_refl _ _)).
Qed.

(** what was just freed is what the next request of its class gets, and the
    rings are as they were before. *)
Theorem kfree_kmalloc s L B G p k size :
  heap_inv ly s L B G → live_bin ly L G p k → p mod 0x1000 ≠ 0 → ¬ node L p →
  0 ≤ size ≤ 0x200 → bin_order size = k →
  ∃ s1 s2, kfree ly p s = Ok s1 ∧ kmalloc ly size s1 = Ok (p, s2) ∧ heap_inv ly s2 L B G.
Proof using Hly.
  intros HI Hlv Hp Hn Hs Hk. pose proof (live_bin_range _ _ _ _ _ _ HI Hlv) as Hkr.
  destruct (kfree_bin_run s L B G p k HI Hlv Hp Hn) as (l & m & E & Hl & HI' & _).
  destruct (bin_take_ok _ _ B G k p l HI' Hkr (lookup_insert_eq _ _ _)) as (m' & E2 & E3 & HI2 & _).
  rewrite insert_insert_eq, insert_id in HI2 by done.
  exists (with_lm m s), (with_lm m' (with_lm m s)). split_and!; [done| |done].
  unfold kmalloc. rewrite u32_small by lia. change (Z.shiftl 0x20 MAXBINORDER) with 0x200.
  rewrite (proj2 (Z.leb_le _ _)) by lia. unfold alloc_bin. rewrite Hk. res_step (bin_list_at_ok ly k Hkr).
  res_step (list_empty_ok _ _ _ _ (bi_lists _ _ _ _ (hp_buddy _ _ _ _ _ HI')) (lookup_insert_eq _ _ _)).
  rewrite bool_decide_eq_false_2 by done. cbn [mbind res_bind mret res_ret].
  res_step E2. by res_step E3.
Qed.

Lemma kfree_block_full s L B G i v :
  heap_inv ly s L B G → live_block B G i v →
  (∀ p x, node L p → hi v x i → ¬ in_page p x) →
  (∀ j x, 0 ≤ j < FRAMES_COUNT → hi v x i → ¬ in_page (faddr ly j) x) →
  ∃ s' L' B', kfree ly (page_addr i) s = Ok s' ∧ lk s' = lk s ∧ heap_inv ly s' L' B' G ∧
    freed B i v B' ∧ same_lists ly L L' ∧
    (∀ q, node L' q → page_cells ly L q) ∧ cells_same (page_cells ly L) (lm s) (lm s') ∧
    (∃ w l, B' !! i = Some (w, Avail) ∧ L' !! free_head ly w = Some (faddr ly i :: l)).
Proof using Hly.
  intros [HI HS HC HB HN HF HX HQ] [Hi Gi] Hnodes Hframes.
  destruct (free_page_ok ly Hly s L B i v HI HS Hi) as (s' & L' & B' & E & HR & HSL & HI' & HS' & HD & HCL & Hfirst).
  destruct (po_range B (bi_part _ _ _ _ HI) _ _ _ Hi) as [Hr Hv].
  pose proof HD as [D1 D2 D3 _ _]. exists s', L', B'. split_and!.
  - unfold kfree. pose proof (frame_of_page ly s i 0 (bi_base _ _ _ _ HI) Hr ltac:(lia)) as Efr.
    rewrite Z.add_0_r in Efr. rewrite Efr.
    destruct (get_frame_ok ly s L B i HI Hr) as (f & Hg & _). res_step Hg.
    assert (page_addr i mod 0x1000 = 0) as -> by (apply Z.mod_divide; [done|apply page_addr_divide]).
    done.
  - by destruct HR as (_ & _ & -> & _).
  - split; [done|done| | | | |done|].
    + intros j k Hj. destruct (HC j k Hj) as (Hb & Hk & f & Hf & Hbv).
      split_and!; [apply D2; split; [congruence|done]|lia|lia|].
      destruct HR as (_ & _ & _ & HR). specialize (HR (faddr ly j)). rewrite Hf in HR.
      apply fmap_Some in HR as (f' & Hf' & E'). exists f'. split; [done|]. congruence.
    + intros k Hk. destruct (HB k Hk) as (l & Hl & Hin). exists l. split; [|done].
      rewrite HSL; [done|]. intros w Hw. symmetry. by apply free_bin_head.
    + intros p x Hp Hx Hin [Hf|Hf]%D1.
      * destruct (node_same_lists ly _ _ _ _ _ _ _ HI HI' HSL Hp) as [Hp'|(j & Hj & ->)];
          [by apply (HN p x)|by apply (HF j x)].
      * destruct (node_same_lists ly _ _ _ _ _ _ _ HI HI' HSL Hp) as [Hp'|(j & Hj & ->)];
          [by apply (Hnodes p x)|by apply (Hframes j x)].
    + intros j x Hj Hx Hin [Hf|Hf]%D1; [by apply (HF j x)|by apply (Hframes j x)].
    + by apply (slots_same_lists s L B s' L' B' G HI HI' HSL HX HQ).
  - done.
  - done.
  - intros q Hq. by apply (page_cells_step ly s L B s' L' B' q HI HI' HSL); left.
  - exact HCL.
  - exact Hfirst.
Qed.

(** C26: [kfree] of a whole block succeeds and keeps the heap invariant; exactly
    its frames become free, and its order-[v] block is no longer in use. *)
Theorem kfree_block_ok s L B G i v :
  heap_inv ly s L B G → live_block B G i v →
  (∀ p x, node L p → hi v x i → ¬ in_page p x) →
  (∀ j x, 0 ≤ j < FRAMES_COUNT → hi v x i → ¬ in_page (faddr ly j) x) →
  ∃ s' L' B', kfree ly (page_addr i) s = Ok s' ∧ lk s' = lk s ∧ heap_inv ly s' L' B' G ∧
    freed B i v B' ∧ client_lists_same ly L L'.
Proof using Hly.
  intros HI Hb Hn Hf. destruct (kfree_block_full s L B G i v HI Hb Hn Hf) as (s' & L' & B' & E & Hk & HI' & HD & Hc & _).
  exists s', L', B'. split_and!; [done..|]. by apply same_lists_client.
Qed.
End heap.

(** ** The heap after boot *)

Section boot.
Context (ly : layout) (Hly : layout_ok ly) (raw : Z → frame) (Hraw : ∀ i, val (raw i) = 0).

Lemma in_page_in_range p x a b : a ≤ p < b → in_page p x → in_range x (a, b).
Proof using.
  unfold in_page, in_range, page_down, page_up, page_addr. change FRAME_START with 0xffff000000000000.
  simpl. intros H1 H2. split.
  - pose proof (Z.div_mod a 0x1000 ltac:(lia)). pose proof (Z.mod_pos_bound a 0x1000 ltac:(lia)). lia.
  - pose proof (Z.div_mod (b + 0xfff) 0x1000 ltac:(lia)).
    pose proof (Z.mod_pos_bound (b + 0xfff) 0x1000 ltac:(lia)). lia.
Qed.

Lemma alloc_node_reserved p x top dtb cpio :
  heap_start ly + sizeof_frame * FRAMES_COUNT ≤ top → alloc_node ly p → in_page p x →
  ¬ Forall (λ r, ¬ in_range x r) (boot_ranges ly dtb cpio top).
Proof using Hly.
  intros Htop Hp Hin HF. unfold boot_ranges in HF.
  rewrite !Forall_cons in HF. destruct Hly as [_ [F1 F2] [N1 N2] _ He _].
  assert (kernel_start ly ≤ p < kernel_end ly ∨ heap_start ly ≤ p < top) as Hr.
  { destruct Hp as [(v & Hv & ->)|[(k & Hk & ->)|(i & Hi & ->)]];
      unfold free_head, bin_head, faddr, sizeof_list_head, sizeof_frame, MAXORDER, MAXBINORDER in *; lia. }
  destruct Hr as [Hr|Hr]; apply (in_page_in_range _ _ _ _ Hr) in Hin; tauto.
Qed.

(** The state [init_allocator] leaves: nothing carved, no bin handed out. *)
Lemma init_heap_ok s dtbr dtb cpio :
  heap_top s = heap_start ly → lock_wf (lk s) → range_ok dtb → range_ok cpio →
  (∀ s, dtbr (reserve_page ly) s = reserve_page ly dtb.1 dtb.2 s) →
  ∃ s' L B, init_allocator ly raw dtbr cpio.1 cpio.2 s = Ok s' ∧ heap_inv ly s' L B ∅ ∧
    aligned B ∧ lk s' = unlock (lock (lk s)) ∧
    heap_top s' = align_up (u64 (heap_start ly + FRAMES_COUNT * sizeof_frame)) 0x10 ∧
    (∀ x, free_frame B x ↔ 0 ≤ x < FRAMES_COUNT ∧
      Forall (λ r, ¬ in_range x r) (boot_ranges ly dtb cpio (heap_top s'))) ∧
    (Forall (λ r, page_down r.1 < page_up r.2) (boot_ranges ly dtb cpio (heap_top s')) →
      ∀ j, 0 ≤ j < FRAMES_COUNT → j mod 64 = 0 →
      (∀ x, j ≤ x < j + 64 → Forall (λ r, ¬ in_range x r) (boot_ranges ly dtb cpio (heap_top s'))) →
      B !! j = Some (MAXORDER, Avail)) ∧
    (∀ p, node L p → alloc_node ly p).
Proof using Hly Hraw.
  intros H1 H2 H3 H4 H5.
  destruct (init_allocator_good ly Hly raw Hraw s dtbr dtb cpio H1 H2 H3 H4 H5) as
    (s' & L & B & E & (HI & HS & HA) & HK & HT & HB & HN & HF & HW).
  assert (heap_start ly + sizeof_frame * FRAMES_COUNT ≤ heap_top s') as HT'
    by (rewrite HT; apply (heap_top_bounds ly Hly)).
  exists s', L, B. split_and!; [exact E| |exact HA|exact HK|exact HT|exact HF|exact HW|exact HN]. split.
  - exact HI.
  - exact HS.
  - intros i k Hi. rewrite lookup_empty in Hi. discriminate Hi.
  - intros k Hk. exists []. split; [exact (HB k Hk)|]. intros p Hp. destruct (not_elem_of_nil _ Hp).
  - intros p x Hp _ Hin [_ Hf]%HF. exact (alloc_node_reserved p x _ _ _ HT' (HN p Hp) Hin Hf).
  - intros i x Hi _ Hin [_ Hf]%HF.
    refine (alloc_node_reserved (faddr ly i) x _ _ _ HT' _ Hin Hf).
    right. right. exists i. exact (conj Hi eq_refl).
  - intros i x _ _. apply lookup_empty.
  - intros p x k _ _ Hx. rewrite lookup_empty in Hx. discriminate Hx.
Qed.
End boot.

(** ** A concrete boot, for the examples *)

Definition layout_ex : layout := {|
  kernel_start := VIRT_BASE + 0x80000; kernel_end := VIRT_BASE + 0x100000;
  heap_start := VIRT_BASE + 0x100000;
  free_list := VIRT_BASE + 0xf0000; bin_list := VIRT_BASE + 0xf1000;
|}.

Lemma layout_ex_ok : layout_ok layout_ex.
Proof. split; vm_compute; try done; by (split; intros ?) || (left; intros ?). Qed.

Definition boot_ex : mstate :=
  MState (heap_start layout_ex) 0 ∅ (Lmem ∅ ∅) (LockSt 0 true).

(** After the boot of the example: a heap with free pages and nothing carved. *)
Lemma heap_ex_run dtbr : (∀ s, dtbr (reserve_page layout_ex) s = reserve_page layout_ex (PHYS_TO_VIRT 0) (PHYS_TO_VIRT 0x1000) s) →
  ∃ s L B, init_allocator layout_ex (λ _, Frame 0 0 0 0) dtbr (PHYS_TO_VIRT 0x8000000) (PHYS_TO_VIRT 0x8001000) boot_ex = Ok s ∧
  heap_inv layout_ex s L B ∅ ∧ aligned B ∧ lock_wf (lk s) ∧
  (∀ x, 0x10000 ≤ x < 0x20000 → free_frame B x) ∧
  (∀ j, 0x10000 ≤ j < 0x20000 → j mod 64 = 0 → B !! j = Some (MAXORDER, Avail)) ∧
  (∀ p x, kernel_start layout_ex ≤ p < kernel_end layout_ex → in_page p x → ¬ free_frame B x) ∧
  (∀ p, node L p → alloc_node layout_ex p).
Proof.
  intros Hdtb. destruct (init_heap_ok layout_ex layout_ex_ok (λ _, Frame 0 0 0 0) (λ _, eq_refl) boot_ex
    dtbr (PHYS_TO_VIRT 0, PHYS_TO_VIRT 0x1000)
    (PHYS_TO_VIRT 0x8000000, PHYS_TO_VIRT 0x8001000)) as (s & L & B & E & HI & HA & HK & HT & HF & HW & HN).
  - exact eq_refl.
  - unfold lock_wf, boot_ex. cbn [lk lock_counter irq_on]. split; [lia|intros; lia].
  - vm_compute. repeat split; discriminate.
  - vm_compute. repeat split; discriminate.
  - exact Hdtb.
  - assert (∀ x, 0x10000 ≤ x < 0x20000 →
      Forall (λ r, ¬ in_range x r) (boot_ranges layout_ex (PHYS_TO_VIRT 0, PHYS_TO_VIRT 0x1000)
        (PHYS_TO_VIRT 0x8000000, PHYS_TO_VIRT 0x8001000) (heap_top s))) as Hout.
    { intros x Hx. rewrite HT.
      assert (page_addr x = 0xffff000000000000 + 0x1000 * x) as Ex by exact eq_refl.
      unfold boot_ranges. repeat (apply Forall_cons_2; [unfold in_range; rewrite Ex; cbn [fst snd];
        match goal with |- ¬ (page_down ?a ≤ _ < page_up ?b) =>
          let v := eval vm_compute in (page_down a) in let w := eval vm_compute in (page_up b) in
          change (page_down a) with v; change (page_up b) with w end; lia|]).
      by apply Forall_nil_2. }
    exists s, L, B. split; [exact E|]. clear E. split; [exact HI|]. split; [exact HA|]. split; [rewrite HK; split; [done|intros H; by inversion H]|]. split; [|split; [|split; [|exact HN]]].
    + intros x Hx. apply HF. split; [unfold FRAMES_COUNT; lia|by apply Hout].
    + intros j Hj Hm. refine (HW _ j _ Hm _).
      * rewrite HT. unfold boot_ranges. repeat (apply Forall_cons_2; [vm_compute; reflexivity|]). by apply Forall_nil_2.
      * unfold FRAMES_COUNT. lia.
      * intros x Hx. apply Hout. pose proof (Z.div_mod j 64). lia.
    + intros p x Hp Hin [_ Hf]%HF. apply (in_page_in_range _ _ _ _ Hp) in Hin.
      unfold boot_ranges in Hf. rewrite !Forall_cons in Hf. tauto.
Qed.

Lemma heap_ex_boot : ∃ s L B, heap_inv layout_ex s L B ∅ ∧ aligned B ∧ lock_wf (lk s) ∧
  (∀ x, 0x10000 ≤ x < 0x20000 → free_frame B x) ∧
  (∀ j, 0x10000 ≤ j < 0x20000 → j mod 64 = 0 → B !! j = Some (MAXORDER, Avail)) ∧
  (∀ p x, kernel_start layout_ex ≤ p < kernel_end layout_ex → in_page p x → ¬ free_frame B x) ∧
  (∀ p, node L p → alloc_node layout_ex p).
Proof.
  destruct (heap_ex_run (λ cb s, cb (PHYS_TO_VIRT 0) (PHYS_TO_VIRT 0x1000) s)) as (s & L & B & _ & H); [done|]. by exists s, L, B.
Qed.

Lemma heap_ex_free : ∃ s L B, heap_inv layout_ex s L B ∅ ∧ aligned B ∧ lock_wf (lk s) ∧
  ∀ x, 0x10000 ≤ x < 0x20000 → free_frame B x.
Proof.
  destruct heap_ex_boot as (s & L & B & HI & HA & HK & HF & _). exists s, L, B.
  exact (conj HI (conj HA (conj HK HF))).
Qed.

Lemma heap_ex : ∃ s L B, heap_inv layout_ex s L B ∅ ∧ aligned B ∧ lock_wf (lk s) ∧ can_alloc B 0.
Proof.
  destruct heap_ex_free as (s & L & B & HI & HA & HK & HF). exists s, L, B. split; [exact HI|]. split; [exact HA|].
  split; [exact HK|]. destruct (HF 0x10000) as (i & v & Hi & _); [lia|]. exists i, v. split; [|exact Hi].
  by apply (po_range B (bi_part _ _ _ _ (hp_buddy _ _ _ _ _ HI)) i v Avail).
Qed.

(** ** Witnesses *)

Lemma kmalloc_size_fits_witness : 100 ≤ kmalloc_size 100.
Proof. apply (kmalloc_size_fits 100). lia. Defined.

(** No bin is listed while nothing is carved for its class. *)
Lemma no_bins_of ly s L B G k : heap_inv ly s L B G → 0 ≤ k ≤ MAXBINORDER → (∀ x, G !! x ≠ Some k) → L !! bin_head ly k = Some [].
Proof.
  intros HI Hk HG. destruct (hp_bins _ _ _ _ _ HI k Hk) as ([|p l] & Hl & Hin); [done|].
  destruct (Hin p ltac:(by left)) as (i & j & Hi & _). by destruct (HG i).
Qed.

Lemma no_bins ly s L B k : heap_inv ly s L B ∅ → 0 ≤ k ≤ MAXBINORDER → L !! bin_head ly k = Some [].
Proof. intros HI Hk. apply (no_bins_of ly s L B ∅); [done|done|]. intros x. by rewrite lookup_empty. Qed.

(** The last slot of a page is not at its start. *)
Lemma last_slot_unaligned i k : 0 ≤ k ≤ MAXBINORDER → slot i k (bins_per_page k - 1) mod 0x1000 ≠ 0.
Proof.
  intros Hk. assert (∃ d, 0 < d < 0x1000 ∧ slot i k (bins_per_page k - 1) = d + (0xffff000000000 + i) * 0x1000) as (d & Hd & ->).
  - exists ((bins_per_page k - 1) * binsize k). unfold slot, page_addr. change FRAME_START with 0xffff000000000000.
    destruct (binsize_cases k Hk) as [(_ & -> & ->)|[(_ & -> & ->)|[(_ & -> & ->)|[(_ & -> & ->)|(_ & -> & ->)]]]]; (split; [lia|lia]).
  - rewrite Z.mod_add by done. rewrite Z.mod_small by lia. lia.
Qed.

Lemma can_kmalloc_ex L B size : can_alloc B 0 → size ≤ 0x1000 → can_kmalloc layout_ex L B size.
Proof.
  intros HC Hs. unfold can_kmalloc. destruct (Z.leb_spec size 0x200); [by right|].
  assert (page_order size = 0) as ->; [|done].
  unfold page_order. simpl. change (Z.shiftl 0x1000 0) with 0x1000. by rewrite (proj2 (Z.leb_le _ _)).
Qed.

Lemma kmalloc_ok_witness : ∃ s p s', kmalloc layout_ex 100 s = Ok (p, s') ∧ lk s' = lk s.
Proof.
  destruct heap_ex as (s & L & B & HI & _ & _ & HC). exists s.
  destruct (kmalloc_ok layout_ex layout_ex_ok s L B ∅ 100 HI ltac:(lia)
    (can_kmalloc_ex L B 100 HC ltac:(lia))) as (p & s' & _ & _ & _ & E & Hk & _).
  exists p, s'. split; [exact E|exact Hk].
Defined.

(** A live bin that is not the first of its page. *)
Lemma live_bin_ex : ∃ s L B G p, heap_inv layout_ex s L B G ∧ live_bin layout_ex L G p 2 ∧
  p mod 0x1000 ≠ 0 ∧ ¬ node L p.
Proof.
  destruct heap_ex as (s & L & B & HI & _ & _ & HC).
  destruct (alloc_bin_ok layout_ex layout_ex_ok s L B ∅ 100 HI (or_intror HC)) as
    (p & s' & L' & B' & G' & E & _ & HI' & _ & Hn & _ & Hlast & Hlive & _).
  exists s', L', B', G', p. split; [exact HI'|]. split; [apply Hlive; by right|]. split; [|exact Hn].
  destruct Hlast as (i & ->); [by apply (no_bins _ s _ B)|].
  by apply last_slot_unaligned.
Qed.

Lemma kfree_bin_ok_witness : ∃ s p s', kfree layout_ex p s = Ok s' ∧ lk s' = lk s.
Proof.
  destruct live_bin_ex as (s & L & B & G & p & HI & Hl & Hp & Hn).
  destruct (kfree_bin_ok layout_ex layout_ex_ok s L B G p 2 HI Hl Hn) as [H _]. destruct (H Hp) as (s' & L' & E & _ & Hk & _).
  exists s, p, s'. split; [exact E|exact Hk].
Defined.

Lemma kfree_kmalloc_witness : ∃ s p s1 s2, kfree layout_ex p s = Ok s1 ∧ kmalloc layout_ex 100 s1 = Ok (p, s2).
Proof.
  destruct live_bin_ex as (s & L & B & G & p & HI & Hl & Hp & Hn).
  destruct (kfree_kmalloc layout_ex layout_ex_ok s L B G p 2 100 HI Hl Hp Hn ltac:(lia) eq_refl)
    as (s1 & s2 & E1 & E2 & _).
  exists s, p, s1, s2. split; [exact E1|exact E2].
Defined.

Lemma kfree_block_ok_witness : ∃ s p s', kfree layout_ex p s = Ok s' ∧ lk s' = lk s.
Proof.
  destruct heap_ex as (s0 & L0 & B0 & HI0 & _ & _ & HC).
  destruct (heap_alloc_page layout_ex layout_ex_ok s0 L0 B0 ∅ 0x1000 HI0 HC) as
    (i & s & L & B & _ & Hi & _ & _ & HI & [A1 A2 _ _ _] & _ & Hout).
  destruct (kfree_block_ok layout_ex layout_ex_ok s L B ∅ i 0 HI) as (s' & _ & _ & E & Hk & _).
  - split; [exact A1|apply lookup_empty].
  - intros p x Hp Hx%hi_0_eq Hin. subst x.
    exact (Hout p i Hp Hi Hin (A2 i (hi_refl _ _))).
  - intros j x Hj Hx%hi_0_eq Hin. subst x.
    exact (hp_frames _ _ _ _ _ HI0 j i Hj Hi Hin (A2 i (hi_refl _ _))).
  - exists s, (page_addr i), s'. split; [exact E|exact Hk].
Defined.
