(* ===== verification/HeapLimits.v ===== *)
(** What lib/malloc.c does outside the conditions of Heap.v: requests that are
    too large, an exhausted heap, and the first bin of a page. *)
From S2P Require Import Prelude Util ListHead Lock Malloc Buddy Reserve Heap.
Local Open Scope Z_scope.

(** ** Requests over the largest block *)

Definition oversized (size : Z) : Prop := 0x1000 * 2 ^ MAXORDER < size.

Lemma page_order_large size : 0x40000 < size → page_order size = 0.
Proof.
  intros Hs. destruct (first_order_spec 0x1000 size (Z.to_nat (MAXORDER + 1)) 0) as [(A & F & _)|[E _]];
    [lia|lia| |exact E]. exfalso.
  fold (page_order size) in A, F. pose proof (page_order_range size) as Hr. unfold MAXORDER in Hr.
  rewrite Z.shiftl_mul_pow2 in F by lia.
  assert (2 ^ page_order size ≤ 2 ^ 6) by (apply Z.pow_le_mono_r; lia). change (2 ^ 6) with 64 in *. lia.
Qed.

(** the test for an oversized request is never true: [val] is still 0 when the
    loop over the orders fails, so a request of more than 256 KiB is served
    like one of a single page. *)
Theorem alloc_page_oversized ly size s :
  oversized size → alloc_page ly size s = alloc_page ly 0x1000 s.
Proof. intros Hs. unfold alloc_page. by rewrite page_order_large. Qed.

Lemma alloc_page_oversized_witness :
  alloc_page layout_ex 0x80000 boot_ex = alloc_page layout_ex 0x1000 boot_ex.
Proof. apply (alloc_page_oversized layout_ex 0x80000 boot_ex). vm_compute. reflexivity. Defined.

(** ** An exhausted heap *)

(** No list from the order of the request upwards holds a block. *)
Definition exhausted (ly : layout) (size : Z) (s : mstate) : Prop :=
  ∀ w, page_order size ≤ w ≤ MAXORDER → list_empty (lm s) (free_head ly w) = Ok true.

Lemma find_free_none ly s n : ∀ v, 0 ≤ v → v + Z.of_nat n = MAXORDER + 1 →
  (∀ w, v ≤ w ≤ MAXORDER → list_empty (lm s) (free_head ly w) = Ok true) →
  find_free ly s n v = Ok (MAXORDER + 1).
Proof.
  induction n as [|n IH]; intros v Hv Hn He; simpl.
  - by replace v with (MAXORDER + 1) by lia.
  - unfold MAXORDER in *. rewrite free_list_at_ok by (unfold MAXORDER; lia). simpl.
    rewrite He by lia. simpl. apply IH; [lia|lia|]. intros w Hw. apply He. lia.
Qed.

(** when no list from the requested order upwards holds a block, [alloc_page]
    reports it and then goes on with [free_list[MAXORDER + 1]], outside the array. *)
Theorem alloc_page_exhausted ly size s :
  exhausted ly size s → alloc_page ly size s = Fault.
Proof.
  intros He. pose proof (page_order_range size) as Hv. unfold alloc_page.
  rewrite (proj2 (Z.ltb_ge _ _)) by lia. rewrite find_free_none; [done|lia|lia|done].
Qed.

(** ** A machine of four pages *)

(** Frames 0 to 3 as one free block of order 2, the block of frame 4 in use,
    and empty lists. *)
Definition four_pages : res mstate :=
  let raw := list_to_map ((λ i, (faddr layout_ex i, Frame (if i mod 4 =? 0 then 2 else 0) (if i =? 4 then 1 else 0) (-1) i)) <$> [0; 1; 2; 3; 4]) in
  let s := MState (heap_start layout_ex) (heap_start layout_ex) raw (Lmem ∅ ∅) (LockSt 0 true) in
  s ← for_loop (Z.to_nat (MAXORDER + 1)) 0
        (λ i s, mret (with_lm (INIT_LIST_HEAD (lm s) (free_head layout_ex i)) s)) s;
  s ← for_loop (Z.to_nat (MAXBINORDER + 1)) 0
        (λ i s, mret (with_lm (INIT_LIST_HEAD (lm s) (bin_head layout_ex i)) s)) s;
  list_add_free layout_ex s (faddr layout_ex 0) 2.

(** Empty free lists and nothing else. *)
Definition no_memory : mstate :=
  with_lm (foldr (λ i m, INIT_LIST_HEAD m (free_head layout_ex i)) (Lmem ∅ ∅) [0; 1; 2; 3; 4; 5; 6]) boot_ex.

Lemma alloc_page_exhausted_witness : alloc_page layout_ex 0x5000 no_memory = Fault.
Proof.
  apply (alloc_page_exhausted layout_ex 0x5000). intros w Hw.
  assert (w = 3 ∨ w = 4 ∨ w = 5 ∨ w = 6) as [->|[->|[->| ->]]]
    by (change (page_order 0x5000) with 3 in Hw; unfold MAXORDER in Hw; lia); vm_compute; reflexivity.
Defined.

(** the first bin of a page has a page-aligned address, so [kfree] takes it
    for a whole block and frees the page under the bins that are still in use:
    the next request for a page overlaps them. *)
Theorem kfree_first_bin : ∃ b q p,
  (s ← four_pages;
   '(b, s) ← kmalloc layout_ex 0x200 s;
   s ← for_loop 6 0 (λ _ s, '(_, s) ← kmalloc layout_ex 0x200 s; mret s) s;
   '(q, s) ← kmalloc layout_ex 0x200 s;
   s ← kfree layout_ex q s;
   '(p, s) ← kmalloc layout_ex 0x1000 s; mret (b, q, p)) = Ok (b, q, p) ∧
  q mod 0x1000 = 0 ∧ p = q ∧ p < b < p + 0x1000.
Proof. do 3 eexists. split; [vm_compute; reflexivity|]. vm_compute. done. Qed.
