(* ===== verification/Boot.v ===== *)
(** The allocator after boot, with the reservation the device tree asks for. *)
From S2P Require Import Prelude Util ListHead Lock Mem CString Dtb Malloc Buddy Reserve Heap.
Local Open Scope Z_scope.

(** The range that the device tree's first reservation entry gives. *)
Definition dtb_range (start size : Z) : Z * Z :=
  (PHYS_TO_VIRT start, u64 (PHYS_TO_VIRT start + size)).

(** C28: [init_allocator] returns, in a state that satisfies the heap invariant
    with every block at its representative and nothing carved into bins; the
    free pages are exactly those that no boot reservation touches: the device
    tree's first entry, the page tables, the kernel image, the initramfs, the
    frame array and the range from 0x2c000000. The memory of the frame array, which
    lies behind .bss and which nothing clears, must have zeros in the [val] fields;
    its other fields may hold anything. *)
Theorem init_allocator_boot ly raw m dtb_addr start size cpio s :
  layout_ok ly → (∀ i, val (raw i) = 0) →
  heap_top s = heap_start ly → lock_wf (lk s) →
  dtb_reserves m dtb_addr start size → range_ok (dtb_range start size) → range_ok cpio →
  ∃ s' L B,
    init_allocator ly raw (λ cb, dtb_reserve_mem m dtb_addr cb) cpio.1 cpio.2 s = Ok s' ∧
    heap_inv ly s' L B ∅ ∧ aligned B ∧ lock_wf (lk s') ∧
    heap_top s' = align_up (u64 (heap_start ly + FRAMES_COUNT * sizeof_frame)) 0x10 ∧
    ∀ x, free_frame B x ↔ 0 ≤ x < FRAMES_COUNT ∧
      Forall (λ r, ¬ in_range x r) (boot_ranges ly (dtb_range start size) cpio (heap_top s')).
Proof.
  intros Hly Hraw Htop Hlk Hd Hr Hc.
  destruct (init_heap_ok ly Hly raw Hraw s (λ cb, dtb_reserve_mem m dtb_addr cb) (dtb_range start size) cpio) as
    (s' & L & B & E & HI & HA & HK & HT & HF & _); [done..|intros s1; exact (dtb_reserve_mem_ok _ _ _ _ _ _ Hd)|].
  exists s', L, B. refine (conj E (conj HI (conj HA (conj _ (conj HT HF))))). rewrite HK. by apply lock_wf_balanced.
Qed.

(** A device tree that reserves the first page. *)
Definition dtb_ex : bmem := bytes_mem 0x1000
  ([0xd0; 0x0d; 0xfe; 0xed] ++ [0;0;0;0; 0;0;0;0; 0;0;0;0] ++ [0;0;0;20] ++
   [0;0;0;0; 0;0;0;0] ++ [0;0;0;0; 0;0;0x10;0]).

Lemma dtb_ex_ok : dtb_reserves dtb_ex 0x1000 0 0x1000.
Proof.
  assert (mem_bytes dtb_ex 0x1000 ([0xd0; 0x0d; 0xfe; 0xed] ++ [0;0;0;0; 0;0;0;0; 0;0;0;0] ++ [0;0;0;20] ++
   [0;0;0;0; 0;0;0;0] ++ [0;0;0;0; 0;0;0x10;0])) as [H1 [_ [H2 H3]%mem_bytes_app]%mem_bytes_app]%mem_bytes_app.
  { apply bytes_mem_ok; [done|done|]. simpl. repeat constructor; lia. }
  split; [done|]. exists [0;0;0;20], [0;0;0;0; 0;0;0;0], [0;0;0;0; 0;0;0x10;0].
  split_and!; done.
Qed.

Lemma init_allocator_boot_witness : ∃ s', init_allocator layout_ex (λ _, Frame 0 0 0 0)
    (λ cb, dtb_reserve_mem dtb_ex 0x1000 cb) (PHYS_TO_VIRT 0x8000000) (PHYS_TO_VIRT 0x8001000) boot_ex = Ok s'.
Proof.
  destruct (init_allocator_boot layout_ex (λ _, Frame 0 0 0 0) dtb_ex 0x1000 0 0x1000
    (PHYS_TO_VIRT 0x8000000, PHYS_TO_VIRT 0x8001000) boot_ex layout_ex_ok (λ _, eq_refl) eq_refl)
    as (s' & L & B & E & _).
  - unfold lock_wf, boot_ex. cbn [lk lock_counter irq_on]. split; [lia|intros; lia].
  - exact dtb_ex_ok.
  - vm_compute. repeat split; discriminate.
  - vm_compute. repeat split; discriminate.
  - exists s'. exact E.
Defined.
