(* ===== verification/Alloc.v ===== *)
(** What the rest of the kernel may assume of [kmalloc] when it asks for small
    objects that will be list nodes; the heap of Heap.v provides it. *)
From S2P Require Import Prelude Util ListHead Lock Malloc Buddy Reserve Heap.
Local Open Scope Z_scope.

Abbreviation rings := (gmap Z (list Z)).

(** [L] and [L'] agree on the heads that satisfy [P]. *)
Definition agree_on (P : Z → Prop) (L L' : rings) : Prop := ∀ h, P h → L' !! h = L !! h.

#[export] Instance agree_on_equiv P : Equivalence (agree_on P).
Proof.
  split; [by intros L h|intros L1 L2 H h Hh; by rewrite H|].
  intros L1 L2 L3 H1 H2 h Hh. by rewrite H2, H1.
Qed.

Class SmallAlloc (alloc : Z → mstate → res (Z * mstate)) : Type := {
  sa_ghost : Type;
  (** The invariant, over the rings of the whole kernel. *)
  sa_inv : mstate → rings → sa_ghost → Prop;
  (** There is memory for a request of that size. *)
  sa_room : rings → sa_ghost → Z → Prop;
  (** There is memory for that many requests. *)
  sa_budget : sa_ghost → nat → Prop;
  (** The list heads the allocator keeps for itself. *)
  sa_private : Z → Prop;
  (** The objects handed out. *)
  sa_live : rings → sa_ghost → Z → Prop;
  (** The memory in use, of any kind: address and size. *)
  sa_used : rings → sa_ghost → Z → Z → Prop;

  sa_lists s L g : sa_inv s L g → lists_ok (lm s) L;
  sa_lock s L g k : sa_inv s L g → sa_inv (with_lk k s) L g;
  sa_live_agree L L' g p : agree_on sa_private L L' → sa_live L g p → sa_live L' g p;
  sa_used_agree s L L' g p n : sa_inv s L g → agree_on sa_private L L' → sa_used L g p n → sa_used L' g p n;
  sa_private_node s L g h : sa_inv s L g → sa_private h → node L h;
  sa_budget_less g k : sa_budget g (S k) → sa_budget g k;
  sa_budget_room L g n k : 0 ≤ n ≤ 0x200 → sa_budget g (S k) → sa_room L g n;
  (** Clients may build rings from their objects. *)
  sa_client s L g m L' : sa_inv s L g → lists_ok m L' → agree_on sa_private L L' →
    (∀ p, node L' p → node L p ∨ sa_live L g p) → sa_inv (with_lm m s) L' g;
  (** A new object is not one of those in use, is in no ring, and nothing the
      clients own has changed. *)
  sa_alloc s L g n : sa_inv s L g → 0 ≤ n ≤ 0x200 → sa_room L g n →
    ∃ p s' L' g', alloc n s = Ok (p, s') ∧ lk s' = lk s ∧ sa_inv s' L' g' ∧
      agree_on (λ h, ¬ sa_private h) L L' ∧ ¬ node L' p ∧ ¬ sa_live L g p ∧
      (∀ q, sa_live L' g' q ↔ sa_live L g q ∨ q = p) ∧ (∀ k, sa_budget g (S k) → sa_budget g' k) ∧
      (∀ q m, sa_used L g q m → sa_used L' g' q m);
}.

(** Rings are all a client reads: what it may conclude about an allocation. *)
Section client.
Context `{SA : SmallAlloc alloc}.

Lemma sa_insert_ring s L g m h l :
  sa_inv s L g → ¬ sa_private h → lists_ok m (<[h := l]> L) →
  (∀ p, p ∈ h :: l → node L p ∨ sa_live L g p) → sa_inv (with_lm m s) (<[h := l]> L) g.
Proof.
  intros HI Hh Hok Hl. apply (sa_client s L); [done|done| |].
  - intros h' Hh'. rewrite lookup_insert_ne; [done|]. by intros ->.
  - intros p [Hp|Hp]%node_insert; [by apply Hl|by left].
Qed.

Lemma sa_insert_live L g h l p : ¬ sa_private h → sa_live L g p → sa_live (<[h := l]> L) g p.
Proof.
  intros Hh. apply sa_live_agree. intros h' Hh'. rewrite lookup_insert_ne; [done|]. by intros ->.
Qed.
End client.

(** ** Counting free blocks *)

Lemma nodup_but {A} `{EqDecision A} (P : A → Prop) (l : list A) n c : length l = S n → NoDup l → Forall P l →
  ∃ l', length l' = n ∧ NoDup l' ∧ Forall P l' ∧ (c ∉ l').
Proof.
  intros Hl Hnd Hf. destruct (decide (c ∈ l)) as [Hin|Hin].
  - apply list_elem_of_split in Hin as (l1 & l2 & ->).
    exists (l1 ++ l2). rewrite !length_app in *. simpl in Hl. split; [lia|].
    pose proof (Permutation_middle l1 l2 c) as HP. rewrite <- HP in Hnd, Hf.
    apply NoDup_cons in Hnd as [Hni Hnd]. apply Forall_cons in Hf as [_ Hf]. done.
  - destruct l as [|y l]; [done|]. exists l. apply NoDup_cons in Hnd as [_ Hnd]. apply Forall_cons in Hf as [_ Hf].
    injection Hl as Hl. split_and!; [done..|]. intros Hx. apply Hin. by right.
Qed.

(** As many free blocks of the largest order. *)
Definition big_blocks (B : blocks) (k : nat) : Prop :=
  ∃ l, length l = k ∧ NoDup l ∧ Forall (λ j, B !! j = Some (MAXORDER, Avail)) l.

Lemma big_blocks_less B k : big_blocks B (S k) → big_blocks B k.
Proof using. intros (l & Hl & Hnd & Hf). destruct (nodup_but _ l k 0 Hl Hnd Hf) as (l' & ? & ? & ? & _). by exists l'. Qed.

(** ** kmalloc is such an allocator *)

Section kmalloc_instance.
Context (ly : layout) (Hly : layout_ok ly).

Definition live_small (L : rings) (g : blocks * carving) (p : Z) : Prop :=
  ∃ k, 0 ≤ k ≤ MAXBINORDER ∧ live_bin ly L g.2 p k.

Definition small_inv (s : mstate) (L : rings) (g : blocks * carving) : Prop :=
  heap_inv ly s L g.1 g.2.

Definition small_room (L : rings) (g : blocks * carving) (n : Z) : Prop :=
  can_alloc_bin ly L g.1 (bin_order n).

Lemma live_small_agree L L' g p : agree_on (alloc_head ly) L L' → live_small L g p → live_small L' g p.
Proof using.
  intros Ha (k & Hk & Hs & Hp). exists k. split; [done|]. split; [done|]. intros l Hl. apply Hp.
  rewrite <- Ha; [done|]. right. by exists k.
Qed.

Lemma heap_lock s L B G k : heap_inv ly s L B G → heap_inv ly (with_lk k s) L B G.
Proof using. intros [[] ? ? ? ? ? ? ?]. by split; [split|..]. Qed.

Lemma heap_private_node s L B G h : heap_inv ly s L B G → alloc_head ly h → node L h.
Proof using.
  intros HI [(v & Hv & ->)|(k & Hk & ->)].
  - destruct (fl_free _ _ _ (bi_free _ _ _ _ (hp_buddy _ _ _ _ _ HI)) v Hv) as (l & Hl & _).
    apply (node_elem L _ l _ Hl). by left.
  - destruct (hp_bins _ _ _ _ _ HI k Hk) as (l & Hl & _). apply (node_elem L _ l _ Hl). by left.
Qed.

Lemma heap_client s L g m L' :
  small_inv s L g → lists_ok m L' → agree_on (alloc_head ly) L L' →
  (∀ p, node L' p → node L p ∨ live_small L g p) → small_inv (with_lm m s) L' g.
Proof using.
  destruct g as [B G]. unfold small_inv. simpl. intros [HI HS HC HB HN HF HX HQ] Hok Ha Hnode. split; simpl; [|done|done| | |done|done|].
  - apply (buddy_inv_other ly s L); [done|done| |].
    + intros v Hv. apply Ha. left. by exists v.
    + intros j Hj [Hp|(k & Hk & (i & j' & Hi & Hj' & E) & _)]%Hnode; [done|]. exfalso.
      assert (in_page (faddr ly j) i) as Hin by (rewrite E; by apply slot_page).
      specialize (HX j i Hj Hin). simpl in *. congruence.
  - intros k Hk. destruct (HB k Hk) as (l & Hl & Hin). exists l. rewrite Ha; [done|].
    right. by exists k.
  - intros p x [Hp|(k & Hk & (i & j & Hi & Hj & ->) & _)]%Hnode Hx Hin; [by apply (HN p x)|].
    assert (x = i) as -> by (apply (in_page_inj (slot i k j)); [done|by apply slot_page]).
    apply (busy_not_free B i 0 i (bi_part _ _ _ _ HI)); [by apply (HC i k)|apply hi_refl].
  - intros p x w [Hp|(k & Hk & (i & j & Hi & Hj & ->) & _)]%Hnode Hin Hx; [by eapply HQ|].
    assert (x = i) as -> by (apply (in_page_inj (slot i k j)); [done|by apply slot_page]).
    cbn [snd] in Hi. rewrite Hx in Hi. injection Hi as <-. by exists i, j.
Qed.

Lemma big_blocks_can B k v : big_blocks B (S k) → v ≤ MAXORDER → can_alloc B v.
Proof using. intros ([|j l] & Hl & _ & Hf) Hv; [done|]. apply Forall_cons in Hf as [Hj _]. by exists j, MAXORDER. Qed.

Lemma big_blocks_grow L (B : blocks) (G : carving) L' (B' : blocks) (G' : carving) k : heap_grow ly L B G L' B' G' → big_blocks B (S k) → big_blocks B' k.
Proof using.
  intros HG (l & Hl & Hnd & Hf). destruct (hg_avail _ _ _ _ _ _ _ HG) as (c & Hc).
  destruct (nodup_but _ l k c Hl Hnd Hf) as (l' & Hl' & Hnd' & Hf' & Hni). exists l'. split_and!; [done|done|].
  apply Forall_forall. intros j Hj. apply Hc; [by intros ->|]. by eapply Forall_forall in Hf'.
Qed.

Lemma owned_agree L L' B G p n : (∀ k j, G !! j = Some k → 0 ≤ k ≤ MAXBINORDER) →
  agree_on (alloc_head ly) L L' → owned ly L B G p n → owned ly L' B G p n.
Proof using.
  intros HG Ha [q k [Hs Hq]|i v Hb]; [|by constructor]. constructor. split; [done|].
  intros l Hl. apply Hq. rewrite <- Ha; [done|]. right. exists k. split; [|done].
  destruct Hs as (i & j & Hi & _). by eapply HG.
Qed.

Lemma kmalloc_small s L g n : small_inv s L g → 0 ≤ n ≤ 0x200 → small_room L g n →
  ∃ p s' L' g', kmalloc ly n s = Ok (p, s') ∧ lk s' = lk s ∧ small_inv s' L' g' ∧
    agree_on (λ h, ¬ alloc_head ly h) L L' ∧ ¬ node L' p ∧ ¬ live_small L g p ∧
    (∀ q, live_small L' g' q ↔ live_small L g q ∨ q = p) ∧ (∀ k, big_blocks g.1 (S k) → big_blocks g'.1 k) ∧
    (∀ q m, owned ly L g.1 g.2 q m → owned ly L' g'.1 g'.2 q m).
Proof using Hly.
  destruct g as [B G]. unfold small_inv. simpl. intros HI Hn Hroom. pose proof (bin_order_range n) as Hk.
  destruct (alloc_bin_ok ly Hly s L B G n HI Hroom) as
    (p & s' & L' & B' & G' & E & Hlk & HI' & HG & Hnn & Hnl & _ & Hlive & Hblk & _).
  exists p, s', L', (B', G'). split_and!; [|done|done|apply HG|done| | |intros k; by eapply big_blocks_grow|].
  - unfold kmalloc. rewrite u32_small by lia. change (Z.shiftl 0x20 MAXBINORDER) with 0x200.
    by rewrite (proj2 (Z.leb_le _ _)) by lia.
  - intros (k & Hk' & Hp). apply Hnl. replace (bin_order n) with k; [done|]. simpl in *.
    assert (live_bin ly L' G' p k) as [(i & j & Hi & Hj & ->) _] by (apply Hlive; by left).
    assert (live_bin ly L' G' (slot i k j) (bin_order n)) as [(i' & j' & Hi' & Hj' & E') _]
      by (apply Hlive; by right).
    assert (i = i') as <-; [|congruence].
    apply (in_page_inj (slot i k j)); [by apply slot_page|]. rewrite E'. by apply slot_page.
  - intros q. unfold live_small. simpl. setoid_rewrite Hlive. naive_solver.
  - intros q m [q' k Hq|i v Hb]; constructor; [apply Hlive; by left|by apply Hblk].
Qed.

#[export] Instance kmalloc_SmallAlloc : SmallAlloc (kmalloc ly) := {|
  sa_inv := small_inv; sa_room := small_room; sa_budget g := big_blocks g.1; sa_private := alloc_head ly; sa_live := live_small;
  sa_used L g := owned ly L g.1 g.2;
  sa_used_agree s L L' g p n HI := owned_agree L L' g.1 g.2 p n (λ k j Hj, proj1 (proj2 (hp_carved _ _ _ _ _ HI j k Hj)));
  sa_lists s L g HI := bi_lists _ _ _ _ (hp_buddy _ _ _ _ _ HI);
  sa_lock s L g k := heap_lock s L g.1 g.2 k;
  sa_live_agree := live_small_agree;
  sa_private_node s L g h := heap_private_node s L g.1 g.2 h;
  sa_budget_less g k := big_blocks_less g.1 k;
  sa_budget_room L g n k _ H := or_intror (big_blocks_can g.1 k 0 H ltac:(by unfold MAXORDER));
  sa_client := heap_client;
  sa_alloc := kmalloc_small;
|}.
End kmalloc_instance.

(** ** A heap for the examples *)

(** The example heap with one object handed out, memory left for more of its
    class, and no lock held. *)
Lemma small_ex n : 0 ≤ n ≤ 0x200 → ∃ s L g p,
  small_inv layout_ex s L g ∧ ¬ alloc_head layout_ex p ∧ ¬ node L p ∧ live_small layout_ex L g p ∧
  small_room layout_ex L g n ∧ lk s = LockSt 0 true.
Proof.
  intros Hn. destruct heap_ex as (s0 & L0 & B0 & HI0 & _ & _ & HC). pose proof (bin_order_range n) as Hk.
  destruct (alloc_bin_ok layout_ex layout_ex_ok s0 L0 B0 ∅ n HI0 (or_intror HC)) as
    (p & s & L & B & G & E & _ & HI & _ & Hnn & _ & Hlast & Hlive & _).
  exists (with_lk (LockSt 0 true) s), L, (B, G), p.
  assert (live_bin layout_ex L G p (bin_order n)) as Hp by (apply Hlive; by right).
  split_and!; [by apply heap_lock| |done| | |done].
  - intros Hh. by apply Hnn, (heap_private_node layout_ex s L B G).
  - by exists (bin_order n).
  - left. simpl. intros El. destruct Hlast as (i & ->); [by apply (no_bins _ s0 _ B0)|].
    set (k := bin_order n) in *. destruct Hp as [(i' & j & Hi & Hj & Es) _].
    assert (0 ≤ 0 < bins_per_page k ∧ bins_per_page k - 1 ≠ 0) as [H0 H1].
    { destruct (binsize_cases k Hk) as [(_ & _ & E')|[(_ & _ & E')|[(_ & _ & E')|[(_ & _ & E')|(_ & _ & E')]]]];
        rewrite E'; lia. }
    assert (live_bin layout_ex L G (slot i' k 0) k) as [Hx|[Hx _]]%Hlive.
    + split; [by exists i', 0|]. intros l El' Hin. simplify_eq. by apply not_elem_of_nil in Hin.
    + destruct Hx as [(x & y & Hx & _) _]. by rewrite lookup_empty in Hx.
    + assert (i = i') as <-.
      { apply (in_page_inj (slot i k (bins_per_page k - 1))); [apply slot_page; [done|lia]|].
        rewrite Es. by apply slot_page. }
      apply slot_inj in Hx as [_ Hx]; [|done|done|lia]. lia.
Qed.

#[global] Instance SmallAlloc_ex : SmallAlloc (kmalloc layout_ex) := kmalloc_SmallAlloc layout_ex layout_ex_ok.

(** The blocks that are left after the boot of the example. *)
Lemma boot_blocks B k : (k ≤ 1000)%nat → (∀ j, 0x10000 ≤ j < 0x20000 → j mod 64 = 0 → B !! j = Some (MAXORDER, Avail)) → big_blocks B k.
Proof.
  intros Hk HW. exists ((λ j, 0x10000 + 64 * j) <$> seqZ 0 (Z.of_nat k)). split; [rewrite length_fmap, length_seqZ; lia|]. split.
  - apply NoDup_fmap_2; [intros x y; lia|apply NoDup_seqZ].
  - apply Forall_forall. intros x (j & -> & Hj)%list_elem_of_fmap. apply elem_of_seqZ in Hj.
    apply HW; [lia|]. rewrite <- Z.add_mod_idemp_l by lia. rewrite Z.mul_comm, Z.mod_add by lia. done.
Qed.

(** A list head on the example heap, and room for [k] requests. *)
Lemma ring_budget_ex k : (k ≤ 999)%nat → ∃ s L g p,
  sa_inv s L g ∧ ¬ sa_private p ∧ L !! p = Some [] ∧ sa_budget g k ∧ lk s = LockSt 0 true.
Proof.
  intros Hk. destruct heap_ex_boot as (s0 & L0 & B0 & HI0 & _ & _ & _ & HW & _).
  pose proof (boot_blocks B0 (S k) ltac:(lia) HW) as HB. pose proof (bin_order_range 0) as Hb.
  destruct (alloc_bin_ok layout_ex layout_ex_ok s0 L0 B0 ∅ 0 HI0) as (p & s & L & B & G & E & _ & HI & HG & Hnn & _ & _ & Hlive & _).
  { right. eapply big_blocks_can; [exact HB|by unfold MAXORDER]. }
  set (h := with_lm (INIT_LIST_HEAD (lm s) p) s). exists (with_lk (LockSt 0 true) h), (<[p := []]> L), (B, G), p.
  assert (¬ alloc_head layout_ex p) as Hh by (intros Hh; by apply Hnn, (heap_private_node layout_ex s L B G)).
  split_and!; [|exact Hh|by rewrite lookup_insert_eq|by eapply big_blocks_grow|done].
  apply (sa_lock h), sa_insert_ring; [exact HI|exact Hh| |].
  - apply INIT_LIST_HEAD_head; [exact (bi_lists _ _ _ _ (hp_buddy _ _ _ _ _ HI))|done].
  - intros q [->|Hq]%elem_of_cons; [right|by apply not_elem_of_nil in Hq]. exists (bin_order 0). split; [done|]. apply Hlive. by right.
Qed.

(** The same with the object made a list head, as [init_irq_event] and
    [init_timer_list] do. *)
Lemma ring_ex n : 0 ≤ n ≤ 0x200 → ∃ s L g p,
  sa_inv s L g ∧ ¬ sa_private p ∧ L !! p = Some [] ∧ sa_room L g n ∧ lk s = LockSt 0 true.
Proof.
  intros Hn. destruct (small_ex n Hn) as (s & L & g & p & HI & Hp & Hnn & Hl & Hr & Hk).
  exists (with_lm (INIT_LIST_HEAD (lm s) p) s), (<[p := []]> L), g, p.
  split_and!; [|done|by rewrite lookup_insert_eq| |done].
  - apply sa_insert_ring; [done|done| |].
    + apply INIT_LIST_HEAD_head; [exact (bi_lists _ _ _ _ (hp_buddy _ _ _ _ _ HI))|done].
    + intros q [->|Hq]%elem_of_cons; [by right|by apply not_elem_of_nil in Hq].
  - destruct Hr as [Hr|Hr]; [left|by right]. simpl. rewrite lookup_insert_ne; [done|].
    intros ->. apply Hp. right. exists (bin_order n). split; [apply bin_order_range|done].
Qed.
