(* ===== verification/KAlloc.v ===== *)
(** What the scheduler and the system calls may assume of [kmalloc] for requests
    of any size; the heap of Heap.v provides it. *)
From S2P Require Import Prelude Util ListHead Lock Malloc Buddy Reserve Heap Alloc.
Local Open Scope Z_scope.

(** [n] bytes at [p] within the managed memory and apart from the addresses [static];
    whole pages for more than a bin. *)
Definition placed (static : Z → Prop) (p n : Z) : Prop :=
  VIRT_BASE ≤ p ∧ p + n ≤ VIRT_BASE + 0x1000 * FRAMES_COUNT ∧ (∀ q, static q → ¬ (p ≤ q < p + n)) ∧ (0x200 < n → p mod 0x1000 = 0).

Class KAlloc (alloc : Z → mstate → res (Z * mstate)) : Type := {
  ka_ghost : Type;
  (** The invariant, over the rings of the whole kernel. *)
  ka_inv : mstate → rings → ka_ghost → Prop;
  (** That many requests of up to 256 KiB will be served. *)
  ka_room : ka_ghost → nat → Prop;
  (** The list heads the allocator keeps for itself. *)
  ka_private : Z → Prop;
  (** The objects handed out, with their sizes. *)
  ka_live : rings → ka_ghost → Z → Z → Prop;
  (** Addresses that are neither the allocator's nor its to hand out. *)
  ka_static : ka_ghost → Z → Prop;
  (** No block has its head in the wrong place, as a release may leave it. *)
  ka_tidy : ka_ghost → Prop;

  ka_lists s L g : ka_inv s L g → lists_ok (lm s) L;
  ka_lock s L g k : ka_inv s L g → ka_inv (with_lk k s) L g;
  ka_private_node s L g h : ka_inv s L g → ka_private h → node L h;
  ka_live_agree L L' g p n : agree_on ka_private L L' → ka_live L g p n → ka_live L' g p n;
  (** Objects do not overlap. *)
  ka_disjoint s L g p n q m : ka_inv s L g → ka_tidy g → ka_live L g p n → ka_live L g q m → p ≠ q → p + n ≤ q ∨ q + m ≤ p;
  ka_room_less g k : ka_room g (S k) → ka_room g k;
  (** The allocator makes no list node of an object that is in use. *)
  ka_object_node s L g p n : ka_inv s L g → ka_live L g p n → n ≤ 0x200 → node L p →
    (∃ h l, ¬ ka_private h ∧ L !! h = Some l ∧ p ∈ h :: l) ∨ ka_private p;
  (** Clients may build rings from small objects and from the kernel's own memory. *)
  ka_client s L g m L' : ka_inv s L g → lists_ok m L' → agree_on ka_private L L' →
    (∀ p, node L' p → node L p ∨ ka_static g p ∨ ∃ n, n ≤ 0x200 ∧ ka_live L g p n) → ka_inv (with_lm m s) L' g;
  (** A new object is big enough, is not one of those in use, is in no ring, and
      nothing the clients own has changed. *)
  ka_alloc_one s L g n : ka_inv s L g → 0 ≤ n ≤ 0x40000 → ka_room g 1 →
    ∃ p c s' L' g', alloc n s = Ok (p, s') ∧ lk s' = lk s ∧ ka_inv s' L' g' ∧ (∀ k, ka_room g (S k) → ka_room g' k) ∧
      agree_on (λ h, ¬ ka_private h) L L' ∧ ¬ node L' p ∧ n ≤ c ∧ (n ≤ 0x200 → c ≤ 0x200) ∧ (∀ c', ¬ ka_live L g p c') ∧
      (∀ q m, ka_live L' g' q m ↔ ka_live L g q m ∨ (q = p ∧ m = c)) ∧
      (∀ q, ka_static g q → q ≠ p ∧ ka_static g' q ∧ (node L' q → node L q)) ∧
      (ka_tidy g → ka_tidy g' ∧ placed (ka_static g) p n);
}.

(** An allocation with room for [k] more. *)
Section client.
Context `{KA : KAlloc alloc}.

(** A node of a ring that is not the allocator's. *)
Definition client_node (L : rings) (q : Z) : Prop := ∃ h l, ¬ ka_private h ∧ L !! h = Some l ∧ q ∈ h :: l.

Lemma client_node_node L q : client_node L q → node L q.
Proof. intros (h & l & _ & Hl & Hq). by apply (node_elem L h l). Qed.

Lemma client_node_agree L L' q : agree_on (λ h, ¬ ka_private h) L L' → client_node L' q → client_node L q.
Proof. intros Ha (h & l & Hh & Hl & Hq). exists h, l. split; [done|]. by rewrite <- Ha. Qed.

(** A small object that is in no ring stays out of every ring while no client
    changes its rings. *)
Lemma ka_not_node s L L' g p n : ka_inv s L' g → ka_live L' g p n → n ≤ 0x200 → agree_on (λ h, ¬ ka_private h) L L' →
  ¬ ka_private p → ¬ node L p → ¬ node L' p.
Proof.
  intros HI Hl Hn Ha Hp Hnn Hno. apply Hnn. destruct (ka_object_node _ _ _ _ _ HI Hl Hn Hno) as [Hc|?]; [|done].
  apply client_node_node. by apply (client_node_agree L L').
Qed.

Lemma ka_room_one g k : ka_room g (S k) → ka_room g 1.
Proof. induction k as [|k IH]; [done|]. intros H%ka_room_less. by apply IH. Qed.

Lemma ka_alloc s L g n k : ka_inv s L g → 0 ≤ n ≤ 0x40000 → ka_room g (S k) →
  ∃ p c s' L' g', alloc n s = Ok (p, s') ∧ lk s' = lk s ∧ ka_inv s' L' g' ∧ ka_room g' k ∧
    agree_on (λ h, ¬ ka_private h) L L' ∧ ¬ node L' p ∧ n ≤ c ∧ (n ≤ 0x200 → c ≤ 0x200) ∧ (∀ c', ¬ ka_live L g p c') ∧
    (∀ q m, ka_live L' g' q m ↔ ka_live L g q m ∨ (q = p ∧ m = c)) ∧
    (∀ q, ka_static g q → q ≠ p ∧ ka_static g' q ∧ (node L' q → node L q)) ∧
    (ka_tidy g → ka_tidy g' ∧ placed (ka_static g) p n).
Proof.
  intros HI Hn HR. destruct (ka_alloc_one s L g n HI Hn (ka_room_one _ _ HR)) as (p & c & s' & L' & g' & E & Hk & HI' & HR' & H).
  exists p, c, s', L', g'. split; [done|]. split; [done|]. split; [done|]. split; [by apply HR'|exact H].
Qed.
End client.

Lemma page_addr_inj' i j : page_addr i = page_addr j → i = j.
Proof. unfold page_addr. lia. Qed.

(** ** What it gives to the clients of small objects *)

Definition KAlloc_small `{KA : KAlloc alloc} : SmallAlloc alloc.
Proof.
  refine {| sa_inv := ka_inv; sa_budget_less := ka_room_less; sa_room _ g _ := ka_room g 1; sa_private := ka_private;
    sa_live L g p := ∃ n, n ≤ 0x200 ∧ ka_live L g p n; sa_budget := ka_room; sa_used := ka_live;
    sa_lists := ka_lists; sa_lock := ka_lock; sa_private_node := ka_private_node |}.
  - intros L L' g p Ha (n & Hn & Hl). exists n. split; [done|]. by apply (ka_live_agree L).
  - intros s L L' g p n _. apply ka_live_agree.
  - intros L g n k _ HR. exact (ka_room_one _ _ HR).
  - intros s L g m L' HI Hok Ha Hc. apply (ka_client s L); [done..|]. intros p Hp. destruct (Hc p Hp); auto.
  - intros s L g n HI Hn HR. destruct (ka_alloc_one s L g n HI) as
      (p & c & s' & L' & g' & E & Hk & HI' & HR' & Ha & Hnn & _ & Hc & Hnl & Hl & _); [lia|done|].
    exists p, s', L', g'. split; [done|]. split; [done|]. split; [done|]. split; [done|]. split; [done|]. split; [|split; [|split; [done|intros q m Hq; apply Hl; by left]]].
    + intros (m & _ & Hm). by apply (Hnl m).
    + intros q. setoid_rewrite Hl. split.
      * intros (m & Hm & [H|[-> _]]); [left; by exists m|by right].
      * intros [(m & Hm & H)| ->]; [exists m; auto|]. exists c. split; [apply Hc; lia|by right].
Defined.

(** ** kmalloc is such an allocator *)

Section kmalloc_instance.
Context (ly : layout) (Hly : layout_ok ly).

Definition kernel_ghost : Type := blocks * carving.

Definition kernel_static (g : kernel_ghost) (p : Z) : Prop :=
  (∀ j, 0 ≤ j < FRAMES_COUNT → p ≠ faddr ly j) ∧ (∀ x, 0 ≤ x < FRAMES_COUNT → in_page p x → ¬ free_frame g.1 x ∧ g.2 !! x = None).

Lemma kernel_client s L (g : kernel_ghost) m L' :
  heap_inv ly s L g.1 g.2 → lists_ok m L' → agree_on (alloc_head ly) L L' →
  (∀ p, node L' p → node L p ∨ kernel_static g p ∨ ∃ n, n ≤ 0x200 ∧ owned ly L g.1 g.2 p n) →
  heap_inv ly (with_lm m s) L' g.1 g.2.
Proof using.
  destruct g as [B G]. simpl. intros [HI HS HC HB HN HF HX HQ] Hok Ha Hnode.
  assert (∀ p n, n ≤ 0x200 → owned ly L B G p n → ∃ k, 0 ≤ k ≤ MAXBINORDER ∧ is_slot G p k) as Hown.
  { intros p n Hn Ho. destruct Ho as [p k [Hs _]|i v [Hb _]].
    - exists k. destruct Hs as (i & j & Hi & Hs). split; [by apply (HC i k)|by exists i, j].
    - destruct (po_range B (bi_part _ _ _ _ HI) i v Busy Hb) as [_ [Hv _]].
      assert (0 < 2 ^ v) by (apply Z.pow_pos_nonneg; lia). lia. }
  split; simpl; [|done|done| | |done|done|].
  - apply (buddy_inv_other ly s L); [done|done| |].
    + intros v Hv. apply Ha. left. by exists v.
    + intros j Hj [Hp|[[Hp _]|(n & Hn & Ho)]]%Hnode; [done|by destruct (Hp j)|]. exfalso.
      destruct (Hown _ _ Hn Ho) as (k & Hk & i & j' & Hi & Hj' & E).
      assert (in_page (faddr ly j) i) as Hin by (rewrite E; by apply slot_page).
      specialize (HX j i Hj Hin). congruence.
  - intros k Hk. destruct (HB k Hk) as (l & Hl & Hin). exists l. rewrite Ha; [done|].
    right. by exists k.
  - intros p x [Hp|[[_ Hp]|(n & Hn & Ho)]]%Hnode Hx Hin; [by apply (HN p x)|by apply (Hp x)|].
    destruct (Hown _ _ Hn Ho) as (k & Hk & i & j & Hi & Hj & ->).
    assert (x = i) as -> by (apply (in_page_inj (slot i k j)); [done|by apply slot_page]).
    apply (busy_not_free B i 0 i (bi_part _ _ _ _ HI)); [by apply (HC i k)|apply hi_refl].
  - intros p x w [Hp|[[_ Hp]|(n & Hn & Ho)]]%Hnode Hin Hx; [by eapply HQ| |].
    { destruct (decide (0 ≤ x < FRAMES_COUNT)) as [Hr|Hr]; [destruct (Hp x Hr Hin) as [_ Hg]; cbn [snd] in Hg; congruence|].
      destruct (HC x w Hx) as (Hb & _). by destruct (po_range B (bi_part _ _ _ _ HI) _ _ _ Hb). }
    destruct (Hown _ _ Hn Ho) as (k & Hk & i & j & Hi & Hj & ->).
    assert (x = i) as -> by (apply (in_page_inj (slot i k j)); [done|by apply slot_page]).
    rewrite Hx in Hi. injection Hi as <-. by exists i, j.
Qed.

(** Objects of a carving whose classes exist, which every heap has. *)
Definition kernel_live (L : rings) (g : kernel_ghost) (p n : Z) : Prop :=
  (∀ k j, g.2 !! j = Some k → 0 ≤ k ≤ MAXBINORDER) ∧ owned ly L g.1 g.2 p n.

Lemma kernel_live_iff s L (g : kernel_ghost) p n : heap_inv ly s L g.1 g.2 → kernel_live L g p n ↔ owned ly L g.1 g.2 p n.
Proof using. intros HI. split; [by intros []|]. intros Ho. split; [|done]. intros k j Hj. by apply (hp_carved _ _ _ _ _ HI j k). Qed.

Lemma kmalloc_size_enough n : n ≤ 0x40000 → n ≤ kmalloc_size n.
Proof using.
  intros Hn. unfold kmalloc_size. destruct (Z.leb_spec n 0x200); [by apply bin_order_fits|by apply page_order_fits].
Qed.

Lemma owned_page s L B G p n : heap_inv ly s L B G → owned ly L B G p n → ∃ x, in_page p x ∧ 0 ≤ x < FRAMES_COUNT ∧
  match G !! x with
  | Some k => is_slot G p k ∧ n = binsize k ∧ 0 ≤ k ≤ MAXBINORDER ∧ live_bin ly L G p k ∧ B !! x = Some (0, Busy)
  | None => ∃ v, B !! x = Some (v, Busy) ∧ n = 0x1000 * 2 ^ v ∧ p = page_addr x
  end.
Proof using.
  intros HI Ho. pose proof (bi_part _ _ _ _ (hp_buddy _ _ _ _ _ HI)) as HP. destruct Ho as [p k Hl|i v [Hb Hg]].
  - pose proof Hl as [(i & j & Hi & Hj & E) _]. destruct (hp_carved _ _ _ _ _ HI i k Hi) as (Hb & Hk & _).
    destruct (po_range B HP i 0 Busy Hb). exists i. split; [subst p; by apply slot_page|]. rewrite Hi.
    split; [done|]. split; [by exists i, j|]. done.
  - destruct (po_range B HP i v Busy Hb). exists i. split; [apply in_page_refl|]. rewrite Hg. split; [done|]. by exists v.
Qed.

Lemma owned_unique s L B G p n m : heap_inv ly s L B G → owned ly L B G p n → owned ly L B G p m → n = m.
Proof using.
  intros HI (x & Hx & _ & H1)%(owned_page s) (y & Hy & _ & H2)%(owned_page s); [|done|done].
  assert (x = y) as <- by by eapply in_page_inj. destruct (G !! x).
  - destruct H1 as (_ & -> & _), H2 as (_ & -> & _). done.
  - destruct H1 as (v & H1 & -> & _), H2 as (w & H2 & -> & _). by simplify_eq.
Qed.

Lemma binsize_inj k k' : 0 ≤ k ≤ MAXBINORDER → 0 ≤ k' ≤ MAXBINORDER → binsize k = binsize k' → k = k'.
Proof using.
  unfold MAXBINORDER. intros Hk Hk' E.
  assert (k = 0 ∨ k = 1 ∨ k = 2 ∨ k = 3 ∨ k = 4) as Hc by lia.
  assert (k' = 0 ∨ k' = 1 ∨ k' = 2 ∨ k' = 3 ∨ k' = 4) as Hc' by lia.
  destruct Hc as [->|[->|[->|[->| ->]]]], Hc' as [->|[->|[->|[->| ->]]]]; done.
Qed.

Lemma owned_bin_inv s L B G p k : heap_inv ly s L B G → 0 ≤ k ≤ MAXBINORDER →
  owned ly L B G p (binsize k) → live_bin ly L G p k.
Proof using.
  intros HI Hk (x & Hx & _ & H)%(owned_page s); [|done]. destruct (G !! x).
  - destruct H as (_ & E & Hz & Hl & _). by apply binsize_inj in E as ->.
  - destruct H as (v & _ & E & _). exfalso. pose proof (Z.pow_nonneg 2 v).
    destruct (decide (0 ≤ v)) as [Hv|Hv]; [|rewrite Z.pow_neg_r in E by lia];
    destruct (binsize_cases k Hk) as [(_ & E' & _)|[(_ & E' & _)|[(_ & E' & _)|[(_ & E' & _)|(_ & E' & _)]]]]; try lia.
Qed.

Lemma owned_not_free s L B G i n : heap_inv ly s L B G → 0 ≤ i < FRAMES_COUNT →
  owned ly L B G (page_addr i) n → ¬ free_frame B i.
Proof using.
  intros HI Hi (x & Hx & _ & H)%(owned_page s); [|done].
  assert (x = i) as -> by (eapply in_page_inj; [done|apply in_page_refl]).
  pose proof (bi_part _ _ _ _ (hp_buddy _ _ _ _ _ HI)) as HP.
  destruct (G !! i); [destruct H as (_ & _ & _ & _ & Hb)|destruct H as (v & Hb & _)];
    by apply (busy_not_free B i _ i HP Hb), hi_refl.
Qed.

#[local] Instance alloc_head_dec h : Decision (alloc_head ly h).
Proof using.
  destruct (decide (Exists (λ v, h = free_head ly v) (seqZ 0 7) ∨ Exists (λ k, h = bin_head ly k) (seqZ 0 5))) as [H|H];
    [left|right]; unfold alloc_head, MAXORDER, MAXBINORDER; rewrite !Exists_exists in H; setoid_rewrite elem_of_seqZ in H.
  - destruct H as [(v & Hv & E)|(k & Hk & E)]; [left; exists v|right; exists k]; (split; [lia|done]).
  - intros [(v & Hv & E)|(k & Hk & E)]; apply H; [left; exists v|right; exists k]; (split; [lia|done]).
Defined.

(** The allocator makes no list node of the kernel's own memory. *)
Lemma static_node s s' L L' (g g' : kernel_ghost) q : heap_inv ly s L g.1 g.2 → heap_inv ly s' L' g'.1 g'.2 →
  client_lists_same ly L L' → kernel_static g' q → node L' q → node L q.
Proof using.
  intros HI HI' Hc [Hf Hp] (h & l & Hl & Hq). destruct (decide (alloc_head ly h)) as [Hh|Hh].
  - apply elem_of_cons in Hq as [->|Hq]; [by eapply heap_private_node|]. exfalso.
    pose proof (hp_buddy _ _ _ _ _ HI') as HB. destruct Hh as [(v & Hv & ->)|(k & Hk & ->)].
    + destruct (fl_free _ _ _ (bi_free _ _ _ _ HB) v Hv) as (l' & Hl' & Hin). simplify_eq.
      apply Hin in Hq as (j & -> & Hj). by apply (Hf j), eq_refl; apply (po_range _ (bi_part _ _ _ _ HB) j v Avail).
    + destruct (hp_bins _ _ _ _ _ HI' k Hk) as (l' & Hl' & Hin). simplify_eq.
      apply Hin in Hq as (i & j & Hi & Hj & ->). destruct (hp_carved _ _ _ _ _ HI' i k Hi) as (Hb & _).
      destruct (po_range _ (bi_part _ _ _ _ HB) i 0 Busy Hb) as [Hr _].
      destruct (Hp i Hr) as [_ Hn]; [by apply slot_page|]. congruence.
  - rewrite (Hc h Hh) in Hl. by exists h, l.
Qed.

Lemma free_frame_range B x : part_ok B → free_frame B x → 0 ≤ x < FRAMES_COUNT.
Proof using.
  intros HP (j & w & Hj & Hx). destruct (po_range B HP _ _ _ Hj) as [Hr Hw].
  apply hi_div in Hx; [|lia]. unfold MAXORDER, FRAMES_COUNT in *.
  assert (2 ^ 6 = 2 ^ w * 2 ^ (6 - w)) as Ew by (rewrite <- Z.pow_add_r by lia; f_equal; lia). change (2 ^ 6) with 64 in Ew.
  assert (0 < 2 ^ w) by (apply Z.pow_pos_nonneg; lia).
  pose proof (Z.div_mod x (2 ^ w) ltac:(lia)). pose proof (Z.mod_pos_bound x (2 ^ w) ltac:(lia)).
  pose proof (Z.div_mod j (2 ^ w) ltac:(lia)). pose proof (Z.mod_pos_bound j (2 ^ w) ltac:(lia)).
  set (a := 2 ^ w) in *. set (b := 2 ^ (6 - w)) in *. set (q := j / a) in *. rewrite Hx in *.
  assert (0 ≤ q) by nia. split; [nia|]. assert (q < b * (0x3c000 / 64)); [|change (0x3c000 / 64) with 3840 in *; nia].
  change (0x3c000 / 64) with 3840. nia.
Qed.

(** Where [kmalloc] puts an object. *)
Lemma alloc_placed s s' L L' B G B' G' p n : heap_inv ly s L B G → heap_inv ly s' L' B' G' → heap_grow ly L B G L' B' G' → aligned B' → n ≤ 0x40000 →
  owned ly L' B' G' p (kmalloc_size n) →
  (if n <=? 0x200 then ¬ live_bin ly L G p (bin_order n) ∧
       (L !! bin_head ly (bin_order n) = Some [] → ∃ i, p = slot i (bin_order n) (bins_per_page (bin_order n) - 1))
     else ∃ i, p = page_addr i ∧ 0 ≤ i < FRAMES_COUNT ∧ G' = G ∧ allocated B i (page_order n) B' ∧
       ∀ q x, node L' q → hi (page_order n) x i → ¬ in_page q x) →
  placed (kernel_static (B, G)) p n.
Proof using.
  intros HI HI' HG HA Hn Ho Hnew. pose proof (kmalloc_size_enough n Hn) as Hle. pose proof (bi_part _ _ _ _ (hp_buddy _ _ _ _ _ HI')) as HP.
  assert (∀ x, 0 ≤ x < FRAMES_COUNT → VIRT_BASE ≤ page_addr x ∧ page_addr x + 0x1000 ≤ VIRT_BASE + 0x1000 * FRAMES_COUNT) as Hpg.
  { intros x Hx. unfold page_addr. change FRAME_START with VIRT_BASE. lia. }
  destruct (n <=? 0x200) eqn:En.
  - assert (kmalloc_size n = binsize (bin_order n)) as Es by (unfold kmalloc_size; by rewrite En). rewrite Es in Ho, Hle.
    pose proof (bin_order_range n) as Hb. apply owned_bin_inv with (s := s') in Ho; [|done|done].
    destruct Ho as [(i & j & Hi & Hj & ->) _]. pose proof (slot_in_page i _ j Hb Hj) as Hs.
    destruct (hp_carved _ _ _ _ _ HI' i _ Hi) as (Hbusy & _). destruct (po_range _ HP _ _ _ Hbusy) as [Hr _]. specialize (Hpg i Hr).
    split; [lia|]. split; [lia|]. split; [|apply Z.leb_le in En; lia]. intros q [_ Hq] Hin.
    destruct (Hq i Hr) as [Hf Hc]; [unfold in_page; lia|]. apply HG in Hi as [Hi|Hi]; simpl in *; [congruence|done].
  - destruct Hnew as (i & -> & Hi & -> & Hal & _). assert (kmalloc_size n = 0x1000 * 2 ^ page_order n) as Es by (unfold kmalloc_size; by rewrite En).
    rewrite Es in Hle. destruct (po_range _ HP _ _ _ (al_rep _ _ _ _ Hal)) as [_ Hv].
    assert (0 ≤ page_order n) as Hv0 by lia. pose proof (aligned_block i (page_order n)) as Hblk.
    assert (∀ x, hi (page_order n) x i ↔ i ≤ x < i + 2 ^ page_order n) as Hhi by (intros x; apply Hblk; [done|by apply (HA _ _ _ (al_rep _ _ _ _ Hal))]).
    assert (0 < 2 ^ page_order n) as Hpos by (apply Z.pow_pos_nonneg; lia).
    assert (∀ x, i ≤ x < i + 2 ^ page_order n → 0 ≤ x < FRAMES_COUNT ∧ free_frame B x) as Hfree.
    { intros x Hx. assert (free_frame B x) as Hf by (by apply (al_was_free _ _ _ _ Hal), Hhi). split; [|done].
      by apply (free_frame_range B x (bi_part _ _ _ _ (hp_buddy _ _ _ _ _ HI))). }
    destruct (Hfree (i + 2 ^ page_order n - 1)) as [Hlast _]; [lia|]. split; [|split; [|split]].
    + unfold page_addr. change FRAME_START with VIRT_BASE. lia.
    + unfold page_addr. change FRAME_START with VIRT_BASE. lia.
    + intros q [_ Hq] Hin. set (x := (q - FRAME_START) / 0x1000). assert (in_page q x ∧ i ≤ x < i + 2 ^ page_order n) as [Hqx Hx].
      { unfold in_page, page_addr, x in *. pose proof (Z.div_mod (q - FRAME_START) 0x1000). pose proof (Z.mod_pos_bound (q - FRAME_START) 0x1000). lia. }
      destruct (Hfree x Hx) as [Hr Hf]. by destruct (Hq x Hr Hqx).
    + intros _. apply Z.mod_divide; [done|apply page_addr_divide].
Qed.

Lemma grow_static L L' B B' (G G' : carving) q : heap_grow ly L B G L' B' G' → kernel_static (B, G) q → kernel_static (B', G') q.
Proof using.
  intros HG [Hf Hp]. split; [done|]. intros x Hx Hin. destruct (Hp x Hx Hin) as [Hf' Hc]. cbn [fst snd] in *. split.
  - intros Hx'. by apply Hf', HG.
  - destruct (G' !! x) as [k|] eqn:E; [|done]. apply HG in E as [E|E]; [congruence|done].
Qed.

Lemma kernel_alloc_can s L (g : kernel_ghost) n : heap_inv ly s L g.1 g.2 → 0 ≤ n ≤ 0x40000 → can_kmalloc ly L g.1 n →
  ∃ p c s' L' (g' : kernel_ghost), kmalloc ly n s = Ok (p, s') ∧ lk s' = lk s ∧ heap_inv ly s' L' g'.1 g'.2 ∧ (∀ k, big_blocks g.1 (S k) → big_blocks g'.1 k) ∧
    agree_on (λ h, ¬ alloc_head ly h) L L' ∧ ¬ node L' p ∧ n ≤ c ∧ (n ≤ 0x200 → c ≤ 0x200) ∧
    (∀ c', ¬ kernel_live L g p c') ∧
    (∀ q m, kernel_live L' g' q m ↔ kernel_live L g q m ∨ (q = p ∧ m = c)) ∧
    (∀ q, kernel_static g q → q ≠ p ∧ kernel_static g' q ∧ (node L' q → node L q)) ∧
    (aligned g.1 → aligned g'.1 ∧ placed (kernel_static g) p n) ∧ c = kmalloc_size n ∧
    (0x200 < n → ∃ i, p = page_addr i ∧ allocated g.1 i (page_order n) g'.1).
Proof using Hly.
  destruct g as [B G]. simpl. intros HI Hn Hcan.
  destruct (kmalloc_run ly Hly s L B G n HI) as (p & s' & L' & B' & G' & E & Hlk & HI' & HG & Hnn & Hnew & Hown); [lia|done|].
  exists p, (kmalloc_size n), s', L', (B', G'). simpl. split_and!; [done|done|done|intros k; by eapply big_blocks_grow|apply HG|done| | | | | | |done|].
  - apply kmalloc_size_enough. lia.
  - intros Hs. unfold kmalloc_size. rewrite (proj2 (Z.leb_le _ _)) by lia. pose proof (bin_order_range n).
    destruct (binsize_cases (bin_order n)) as [(_ & -> & _)|[(_ & -> & _)|[(_ & -> & _)|[(_ & -> & _)|(_ & -> & _)]]]]; lia || done.
  - intros c' [_ Ho]. assert (owned ly L' B' G' p c') as Ho' by (apply Hown; by left).
    assert (owned ly L' B' G' p (kmalloc_size n)) as Ho2 by (apply Hown; by right).
    revert Hnew. unfold kmalloc_size in *. destruct (n <=? 0x200).
    + intros [Hnl _]. apply Hnl.
      eapply owned_bin_inv; [exact HI|by apply bin_order_range|]. by rewrite <- (owned_unique _ _ _ _ _ _ _ HI' Ho' Ho2).
    + intros (i & -> & Hi & _ & HA & _). eapply (owned_not_free s L B G); [done|done|exact Ho|]. apply HA, hi_refl.
  - intros q m. rewrite (kernel_live_iff s' L' (B', G')) by done. rewrite (kernel_live_iff s L (B, G)) by done. apply Hown.
  - intros q Hq. pose proof (grow_static _ _ _ _ _ _ q HG Hq) as Hq'.
    split; [|split; [done|]].
    { intros ->. assert (owned ly L' B' G' p (kmalloc_size n)) as Ho by (apply Hown; by right).
      destruct (owned_page _ _ _ _ _ _ HI' Ho) as (x & Hin & Hx & Hm). destruct (proj2 Hq' x Hx Hin) as [_ Hc].
      simpl in Hc. rewrite Hc in Hm. destruct Hm as (v & Hb & _ & ->). destruct (proj2 Hq x Hx Hin) as [Hnf _]. simpl in Hnf.
      revert Hnew. destruct (n <=? 0x200) eqn:En; [|intros (i & Ei & Hi & _ & HA & _); apply page_addr_inj' in Ei as ->; apply Hnf, HA, hi_refl].
      intros _. revert Ho. unfold kmalloc_size. rewrite En. intros Ho. apply owned_bin_inv with (s := s') in Ho; [|done|apply bin_order_range].
      destruct Ho as [(i & j & Hi & Hj & Es) _]. assert (in_page (page_addr x) i) as Hini by (rewrite Es; apply slot_page; [apply bin_order_range|done]).
      assert (i = x) as -> by (eapply in_page_inj; [done|apply in_page_refl]). congruence. }
    intros Hnq. exact (static_node s s' L L' (B, G) (B', G') q HI HI' (hg_client _ _ _ _ _ _ _ HG) Hq' Hnq).
  - intros HA. split; [by apply HG|]. apply (alloc_placed s s' L L' B G B' G' p n); [done|done|done|by apply HG|lia| |exact Hnew].
    apply Hown. by right.
  - intros Hl. rewrite (proj2 (Z.leb_gt _ _)) in Hnew by lia. destruct Hnew as (i & -> & _ & _ & HA & _). by exists i.
Qed.

Lemma kernel_alloc s L (g : kernel_ghost) n : heap_inv ly s L g.1 g.2 → 0 ≤ n ≤ 0x40000 → big_blocks g.1 1 →
  ∃ p c s' L' (g' : kernel_ghost), kmalloc ly n s = Ok (p, s') ∧ lk s' = lk s ∧ heap_inv ly s' L' g'.1 g'.2 ∧ (∀ k, big_blocks g.1 (S k) → big_blocks g'.1 k) ∧
    agree_on (λ h, ¬ alloc_head ly h) L L' ∧ ¬ node L' p ∧ n ≤ c ∧ (n ≤ 0x200 → c ≤ 0x200) ∧
    (∀ c', ¬ kernel_live L g p c') ∧
    (∀ q m, kernel_live L' g' q m ↔ kernel_live L g q m ∨ (q = p ∧ m = c)) ∧
    (∀ q, kernel_static g q → q ≠ p ∧ kernel_static g' q ∧ (node L' q → node L q)) ∧
    (aligned g.1 → aligned g'.1 ∧ placed (kernel_static g) p n).
Proof using Hly.
  intros HI Hn Hroom. destruct (kernel_alloc_can s L g n HI Hn) as
    (p & c & s' & L' & g' & H1 & H2 & H3 & H4 & H5 & H6 & H7 & H8 & H9 & H10 & H11 & H12 & _).
  - unfold can_kmalloc. case_match; [right|]; eapply big_blocks_can; try done. apply page_order_range.
  - by exists p, c, s', L', g'.
Qed.

Lemma kernel_disjoint s L (g : kernel_ghost) p n q m : heap_inv ly s L g.1 g.2 → aligned g.1 → kernel_live L g p n → kernel_live L g q m →
  p ≠ q → p + n ≤ q ∨ q + m ≤ p.
Proof using.
  intros HI HA [_ Hp] [_ Hq] Hne. destruct (owned_disjoint ly s L g.1 g.2 p n q m HI HA Hp Hq) as [[? _]|?]; done.
Qed.

Lemma kernel_live_agree L L' g p n : agree_on (alloc_head ly) L L' → kernel_live L g p n → kernel_live L' g p n.
Proof using. intros Ha [HG Ho]. split; [done|]. by apply (owned_agree ly L). Qed.

Lemma kernel_object_node s L (g : kernel_ghost) p n : heap_inv ly s L g.1 g.2 → kernel_live L g p n → n ≤ 0x200 → node L p →
  (∃ h l, ¬ alloc_head ly h ∧ L !! h = Some l ∧ p ∈ h :: l) ∨ alloc_head ly p.
Proof using.
  intros HI [_ Ho] Hn (h & l & El & Hp). destruct (decide (alloc_head ly h)) as [Hh|Hh]; [|left; by exists h, l].
  apply elem_of_cons in Hp as [->|Hp]; [by right|exfalso].
  destruct (owned_page _ _ _ _ _ _ HI Ho) as (x & Hin & _ & Hm). destruct (g.2 !! x) as [k|] eqn:Ex.
  - destruct Hm as (_ & _ & Hk & Hlive & _). pose proof (hp_buddy _ _ _ _ _ HI) as HB. destruct Hh as [(v & Hv & ->)|(k' & Hk' & ->)].
    + destruct (fl_free _ _ _ (bi_free _ _ _ _ HB) v Hv) as (l' & El' & Hl'). simplify_eq. apply Hl' in Hp as (j & -> & Hj).
      destruct (po_range _ (bi_part _ _ _ _ HB) _ _ _ Hj) as [Hr _]. pose proof (hp_apart _ _ _ _ _ HI j x Hr Hin). congruence.
    + destruct (hp_bins _ _ _ _ _ HI k' Hk') as (l' & El' & Hl'). simplify_eq.
      pose proof (Hl' p Hp) as (i & j & Hi & Hj & Es). assert (in_page p i) as Hpi by (rewrite Es; by apply slot_page).
      assert (i = x) as -> by (by eapply in_page_inj). simplify_eq. by apply (proj2 Hlive l).
  - destruct Hm as (v & Hb & -> & _). destruct (po_range _ (bi_part _ _ _ _ (hp_buddy _ _ _ _ _ HI)) _ _ _ Hb) as (_ & Hv & _).
    pose proof (Z.pow_pos_nonneg 2 v). lia.
Qed.

#[export] Instance kmalloc_KAlloc : KAlloc (kmalloc ly) := {|
  ka_ghost := kernel_ghost;
  ka_inv s L g := heap_inv ly s L g.1 g.2; ka_room g k := big_blocks g.1 k; ka_private := alloc_head ly;
  ka_live := kernel_live; ka_static := kernel_static; ka_tidy g := aligned g.1;
  ka_lists s L g HI := bi_lists _ _ _ _ (hp_buddy _ _ _ _ _ HI);
  ka_lock s L g k := heap_lock ly s L g.1 g.2 k;
  ka_private_node s L g h := heap_private_node ly s L g.1 g.2 h;
  ka_live_agree := kernel_live_agree;
  ka_disjoint := kernel_disjoint;
  ka_object_node s L g := kernel_object_node s L g;
  ka_room_less g k := big_blocks_less g.1 k;
  ka_client s L g m L' HI Hok Ha Hn := kernel_client s L g m L' HI Hok Ha (λ p Hp,
    match Hn p Hp with
    | or_introl H => or_introl H
    | or_intror (or_introl H) => or_intror (or_introl H)
    | or_intror (or_intror (ex_intro _ n (conj H1 H2))) => or_intror (or_intror (ex_intro _ n (conj H1 (proj2 H2))))
    end);
  ka_alloc_one := kernel_alloc;
|}.
End kmalloc_instance.

(** ** A heap for the examples *)

#[global] Instance KAlloc_ex : KAlloc (kmalloc layout_ex) := kmalloc_KAlloc layout_ex layout_ex_ok.

(** The booted heap: room, and the kernel image free for static data. *)
Lemma kalloc_ex_fresh k : (k ≤ 1000)%nat → ∃ s L (g : kernel_ghost), (ka_tidy g ∧ g.2 = ∅) ∧ ka_inv s L g ∧ ka_room g k ∧ lock_wf (lk s) ∧
  (∀ p, VIRT_BASE + 0x80000 ≤ p < VIRT_BASE + 0xf0000 → ka_static g p ∧ ¬ ka_private p ∧ ¬ node L p).
Proof.
  intros Hk. destruct heap_ex_boot as (s & L & B & HI & HA & HK & _ & HW & HS & HN).
  exists s, L, (B, ∅). split; [split; [exact HA|done]|]. split; [exact HI|]. split; [|split; [exact HK|]].
  - by apply boot_blocks.
  - intros p Hp. unfold VIRT_BASE in Hp. assert (¬ alloc_node layout_ex p) as Hna.
    { intros [(v & Hv & ->)|[(v & Hv & ->)|(v & Hv & ->)]]; revert Hp; unfold free_head, bin_head, faddr, layout_ex,
        sizeof_list_head, sizeof_frame, VIRT_BASE, MAXORDER, MAXBINORDER in *; cbn [free_list bin_list heap_start]; lia. }
    split; [split|split].
    + intros j Hj ->. apply Hna. right. right. by exists j.
    + intros x _ Hin. split; [|done]. apply (HS p x); [|done]. unfold layout_ex, VIRT_BASE. cbn [kernel_start kernel_end]. lia.
    + intros [(v & Hv & ->)|(v & Hv & ->)]; apply Hna; [left|right; left]; by exists v.
    + intros Hn. by apply Hna, HN.
Qed.

Lemma kalloc_ex_tidy k : (k ≤ 1000)%nat → ∃ s L g, ka_tidy g ∧ ka_inv s L g ∧ ka_room g k ∧ lock_wf (lk s) ∧
  (∀ p, VIRT_BASE + 0x80000 ≤ p < VIRT_BASE + 0xf0000 → ka_static g p ∧ ¬ ka_private p ∧ ¬ node L p).
Proof. intros Hk. destruct (kalloc_ex_fresh k Hk) as (s & L & g & [Ht _] & H). by exists s, L, g. Qed.

Lemma kalloc_ex k : (k ≤ 1000)%nat → ∃ s L g, ka_inv s L g ∧ ka_room g k ∧ lock_wf (lk s) ∧
  (∀ p, VIRT_BASE + 0x80000 ≤ p < VIRT_BASE + 0xf0000 → ka_static g p ∧ ¬ ka_private p ∧ ¬ node L p).
Proof. intros Hk. destruct (kalloc_ex_tidy k Hk) as (s & L & g & _ & H). by exists s, L, g. Qed.
