(* ===== verification/Ram.v ===== *)
(** The memory that the allocator hands out, byte by byte, and copies into it. *)
From S2P Require Import Prelude Util Mem CString Malloc Buddy Reserve Heap Alloc KAlloc.
Local Open Scope Z_scope.

(** The memory the allocator hands out is mapped. *)
Definition ram_mapped (m : bmem) : Prop :=
  ∀ a, VIRT_BASE ≤ a < VIRT_BASE + 0x1000 * FRAMES_COUNT → ∃ b, m !! a = Some b ∧ 0 ≤ b < 256.

Lemma ram_end : VIRT_BASE + 0x1000 * FRAMES_COUNT ≤ 2 ^ 64.
Proof. unfold VIRT_BASE, FRAMES_COUNT. lia. Qed.

Lemma ram_window m static p n : ram_mapped m → placed static p (Z.of_nat n) → ∃ bs, length bs = n ∧ window m p bs.
Proof.
  intros HM (H1 & H2 & _). pose proof ram_end as He. exists ((λ i, default 0 (m !! i)) <$> seqZ p (Z.of_nat n)).
  assert (length ((λ i, default 0 (m !! i)) <$> seqZ p (Z.of_nat n)) = n) as Hl by (rewrite length_fmap, length_seqZ; lia).
  split; [done|]. apply win_intro; [unfold VIRT_BASE in *; lia|lia| |].
  - apply Forall_fmap, Forall_forall. intros x Hx%elem_of_seqZ. destruct (HM x) as (b & E & Hb); [lia|]. cbn. by rewrite E.
  - intros i b Hi. rewrite list_lookup_fmap in Hi. apply fmap_Some in Hi as (x & Hx & ->).
    apply lookup_seqZ in Hx as [-> Hlt]. destruct (HM (p + Z.of_nat i)) as (b & E & _); [lia|]. by rewrite E.
Qed.

(** A run of static addresses is apart from memory handed out. *)
Lemma static_apart static src dst n : placed static dst n → (∀ i, 0 ≤ i < n → static (src + i)) →
  src + n ≤ dst ∨ dst + n ≤ src.
Proof.
  intros (_ & _ & Hs & _) H. destruct (decide (src + n ≤ dst)); [by left|]. right. destruct (decide (dst + n ≤ src)); [done|]. exfalso.
  destruct (decide (dst ≤ src)).
  - apply (Hs (src + 0)); [apply H|]; lia.
  - apply (Hs (src + (dst - src))); [apply H|]; lia.
Qed.

(** A copy of static bytes, such as a program, into memory handed out. *)
Lemma program_copy m static dst src bs : ram_mapped m → placed static dst (Z.of_nat (length bs)) → window m src bs →
  Z.of_nat (length bs) ≤ 0x40000 → (∀ j, 0 ≤ j < Z.of_nat (length bs) → static (src + j)) →
  ∃ m', memcpy m dst src (Z.of_nat (length bs)) = Ok m' ∧ window m' dst bs ∧ same_outside dst (Z.of_nat (length bs)) m m'.
Proof.
  intros HM Hp Hs Hlen Hst. destruct (ram_window m static dst (length bs) HM Hp) as (old & Hl & Hd).
  destruct (memcpy_ok m dst src bs old Hs Hd Hl) as (m' & E & Hw & _ & Ho); [lia|by apply (static_apart static)|].
  by exists m'.
Qed.

(** Any other static byte is still there after it. *)
Lemma program_copied m static dst src bs a : ram_mapped m → placed static dst (Z.of_nat (length bs)) → window m src bs →
  Z.of_nat (length bs) ≤ 0x40000 → (∀ j, 0 ≤ j < Z.of_nat (length bs) → static (src + j)) → static (u64 a) →
  ∃ m', memcpy m dst src (Z.of_nat (length bs)) = Ok m' ∧ window m' dst bs ∧ same_outside dst (Z.of_nat (length bs)) m m' ∧
    load8 m' a = load8 m a.
Proof.
  intros HM Hp Hs Hlen Hst Ha. destruct (program_copy m static dst src bs HM Hp Hs Hlen Hst) as (m' & E & Hw & Ho).
  exists m'. split; [done|]. split; [done|]. split; [done|]. unfold load8. rewrite Ho; [done|]. by apply Hp.
Qed.

(** The run of static addresses from [src] and the memory handed out at [dst]. *)
Lemma static_apart_from static src dst n k : placed static dst n → (∀ i, 0 ≤ i < k → static (src + i)) → 0 < n → 0 < k →
  src + k ≤ dst ∨ dst + n ≤ src.
Proof.
  intros (_ & _ & Hs & _) H Hn Hk. destruct (decide (src + k ≤ dst)); [by left|]. right. destruct (decide (dst + n ≤ src)); [done|]. exfalso.
  destruct (decide (dst ≤ src)).
  - apply (Hs (src + 0)); [apply H|]; lia.
  - apply (Hs (src + (dst - src))); [apply H|]; lia.
Qed.

(** A zero stored in the byte behind the memory of the copy, and then the copy. *)
Lemma copy_overrun m static dst src bs b : ram_mapped m → m !! (VIRT_BASE + 0x1000 * FRAMES_COUNT) = Some b → bs ≠ [] →
  placed static dst (Z.of_nat (length bs)) → window m src bs → Z.of_nat (length bs) ≤ 0x40000 →
  (∀ j, -1 ≤ j < Z.of_nat (length bs) → static (src + j)) →
  ∃ m1 m2, store8 m (dst + Z.of_nat (length bs)) 0 = Ok m1 ∧ memcpy m1 dst src (Z.of_nat (length bs)) = Ok m2 ∧
    window m2 dst bs ∧ load8 m2 (dst + Z.of_nat (length bs)) = Ok 0 ∧ same_outside dst (Z.of_nat (length bs) + 1) m m2.
Proof.
  intros HM He Hne Hp Hs Hlen Hst. set (n := Z.of_nat (length bs)) in *. pose proof Hp as (P1 & P2 & _).
  assert (0 < n) as Hn by (unfold n; destruct bs; [done|simpl; lia]).
  assert (dst + n < 2 ^ 64) as Hr by (pose proof ram_end; unfold VIRT_BASE, FRAMES_COUNT in *; lia).
  assert (0 ≤ dst) as Hd0 by (unfold VIRT_BASE in *; lia).
  assert (∃ c, m !! (dst + n) = Some c) as [c Ec].
  { destruct (decide (dst + n = VIRT_BASE + 0x1000 * FRAMES_COUNT)) as [->|]; [by exists b|]. destruct (HM (dst + n)) as (c & Ec & _); [lia|by exists c]. }
  destruct (static_apart_from static (src - 1) dst n (n + 1) Hp) as [Ha|Ha]; [|lia|lia| |].
  { intros i Hi. replace (src - 1 + i) with (src + (i - 1)) by lia. apply Hst. lia. }
  all: set (m1 := <[dst + n := 0]> m); destruct (program_copy m1 static dst src bs) as (m2 & E2 & Hw2 & Ho2);
    [intros a Ha'; unfold m1; destruct (decide (dst + n = a)) as [<-|Hna];
       [exists 0; split; [apply lookup_insert_eq|lia]|rewrite lookup_insert_ne by done; by apply HM]|done| |done|intros j Hj; apply Hst; lia|].
  1, 3: destruct Hs as [Hb Hsr]; apply win_intro; [lia|lia|apply Hb|]; intros i x Hi; pose proof (lookup_lt_Some _ _ _ Hi);
    unfold m1; rewrite lookup_insert_ne by lia; by apply (win_lookup m src bs i x).
  all: exists m1, m2; split; [unfold store8, load8; rewrite u64_small by lia; by rewrite Ec|]; split; [exact E2|]; split; [exact Hw2|]; split;
    [unfold load8; rewrite u64_small by lia; rewrite Ho2 by lia; unfold m1; by rewrite lookup_insert_eq
    |intros x Hx; rewrite Ho2 by lia; unfold m1; rewrite lookup_insert_ne by lia; done].
Qed.

(** Memory that holds [m0], and zeros in the rest of the memory handed out. *)
Lemma ram_fill m0 : map_Forall (λ _ b, 0 ≤ b < 256) m0 → ∃ m, ram_mapped m ∧ m0 ⊆ m ∧
  ∀ a, VIRT_BASE ≤ a < VIRT_BASE + 0x1000 * FRAMES_COUNT → m0 !! a = None → m !! a = Some 0.
Proof.
  intros H0. destruct (Z_of_nat_complete (0x1000 * FRAMES_COUNT)) as [n Hn]; [unfold FRAMES_COUNT; lia|].
  assert (∀ a, VIRT_BASE ≤ a < VIRT_BASE + 0x1000 * FRAMES_COUNT → bytes_mem VIRT_BASE (replicate n 0) !! a = Some 0) as Hz.
  { intros a Ha. replace a with (VIRT_BASE + Z.of_nat (Z.to_nat (a - VIRT_BASE))) by lia.
    apply bytes_mem_lookup, lookup_replicate_2. lia. }
  exists (m0 ∪ bytes_mem VIRT_BASE (replicate n 0)). split; [|split; [apply map_union_subseteq_l|]].
  - intros a Ha. destruct (m0 !! a) as [b|] eqn:Eb.
    + exists b. split; [by apply lookup_union_Some_l|]. exact (H0 a b Eb).
    + exists 0. split; [|lia]. rewrite lookup_union_r; [by apply Hz|done].
  - intros a Ha Hn0. rewrite lookup_union_r; [by apply Hz|done].
Qed.

(** What memory holds it still holds when there is more of it. *)
Lemma load8_weaken m m' a b : m ⊆ m' → load8 m a = Ok b → load8 m' a = Ok b.
Proof. unfold load8. intros Hm H%load_Ok. by rewrite (lookup_weaken _ _ _ _ H Hm). Qed.

Lemma bytes_at_weaken m m' a bs : m ⊆ m' → bytes_at (at_mem m a) bs → bytes_at (at_mem m' a) bs.
Proof. intros Hm H i b Hi. apply (load8_weaken m); [done|]. by apply H. Qed.

Lemma mem_bytes_weaken m m' a bs : m ⊆ m' → mem_bytes m a bs → mem_bytes m' a bs.
Proof. intros Hm [H1 H2]. split; [by apply (bytes_at_weaken m)|done]. Qed.

Lemma window_weaken m m' a bs : m ⊆ m' → window m a bs → window m' a bs.
Proof. intros Hm [H1 H2]. split; [by apply (mem_bytes_weaken m)|done]. Qed.

Lemma bytes_mem_inv a bs x b : bytes_mem a bs !! x = Some b → ∃ i, x = a + Z.of_nat i ∧ bs !! i = Some b.
Proof.
  intros H%elem_of_list_to_map_2. apply list_elem_of_lookup in H as [i Hi]. rewrite lookup_zip_with in Hi.
  apply bind_Some in Hi as (y & Hy & Hi). apply bind_Some in Hi as (c & Hc & [= -> ->]). apply lookup_seqZ in Hy as [-> _]. by exists i.
Qed.
