(* ===== verification/KFree.v ===== *)
(** What the rest of the kernel may assume of [kfree]; the heap of Heap.v
    provides it. *)
From S2P Require Import Prelude Util ListHead Lock Malloc Buddy Reserve Heap Alloc KAlloc.
Local Open Scope Z_scope.

(** Whole pages at [p] that, when they are the upper half of a block of twice their
    size or more, have something in use in the lower half: given back, they
    are not merged with what is below them. *)
Definition propped (live : Z → Z → Prop) (p n : Z) : Prop :=
  0x200 < n → ∀ u, 0 ≤ u < 6 → p mod (0x1000 * 2 ^ (u + 1)) = 0x1000 * 2 ^ u → ∃ q m, live q m ∧ p - 0x1000 * 2 ^ u ≤ q < p.

Class KFree (alloc : Z → mstate → res (Z * mstate)) (free : Z → mstate → res mstate) `{KA : KAlloc alloc} : Type := {
  (** The addresses in the memory of an object, given its address and size. *)
  kf_within : Z → Z → Z → Prop;
  (** The records of the allocator itself. *)
  kf_meta : Z → Prop;

  kf_static_meta g q : ka_static g q → ¬ kf_meta q;
  kf_self s L g p n : ka_inv s L g → ka_live L g p n → kf_within p n p;
  (** There is no record in a small object, and no node but itself. *)
  kf_small s L g p n q : ka_inv s L g → ka_live L g p n → n ≤ 0x200 → kf_within p n q → ¬ kf_meta q ∧ (node L q → q = p);
  (** A node in the memory of an object is a client's, a record, or one of the heads
      that the allocator keeps for itself. *)
  kf_nodes s L g p n q : ka_inv s L g → ka_live L g p n → kf_within p n q → node L q →
    client_node L q ∨ kf_meta q ∨ ka_private q ∧ is_Some (L !! q);
  (** An object lies outside of any other. *)
  kf_apart s L g p n q m : ka_inv s L g → ka_live L g p n → ka_live L g q m → p ≠ q → ¬ kf_within q m p;
  (** An object without a list node in its memory can be given back, unless it is a
      small one at the start of a page: it is no longer in use, and neither what
      else is in use nor any cell or ring of a client has changed. The blocks keep
      their heads in place if it is propped. *)
  kf_free s L g p n : ka_inv s L g → ka_live L g p n → (n ≤ 0x200 → p mod 0x1000 ≠ 0) →
    (∀ q, node L q ∨ kf_meta q → ¬ kf_within p n q) →
    ∃ s' L' g', free p s = Ok s' ∧ lk s' = lk s ∧ ka_inv s' L' g' ∧ (∀ k, ka_room g k → ka_room g' k) ∧
      agree_on (λ h, ¬ ka_private h) L L' ∧
      (∀ q m, ka_live L' g' q m ↔ ka_live L g q m ∧ q ≠ p) ∧
      (∀ q, ka_static g q → ¬ kf_within p n q → ka_static g' q) ∧
      (∀ q, node L' q → node L q ∨ kf_meta q ∨ q = p) ∧
      cells_same (λ q, node L q ∨ kf_meta q ∨ q = p) (lm s) (lm s') ∧
      (ka_tidy g → propped (ka_live L g) p n → ka_tidy g');
}.

(** ** kfree gives it *)

Section kfree_instance.
Context (ly : layout) (Hly : layout_ok ly).
#[local] Existing Instance alloc_head_dec.
#[local] Instance kfree_KAlloc : KAlloc (kmalloc ly) := kmalloc_KAlloc ly Hly.

Definition frame_record (q : Z) : Prop := ∃ j, 0 ≤ j < FRAMES_COUNT ∧ q = faddr ly j.

(** A bin is its bytes, a block the pages of the buddies that it is made of. *)
Definition heap_within (p n q : Z) : Prop :=
  if n <=? 0x200 then p ≤ q < p + n
  else ∃ i v x, 0 ≤ v ∧ p = page_addr i ∧ n = 0x1000 * 2 ^ v ∧ hi v x i ∧ in_page q x.

Lemma binsize_small k : 0 ≤ k ≤ MAXBINORDER → 0 < binsize k ≤ 0x200.
Proof using.
  intros Hk. destruct (binsize_cases k Hk) as [(_ & -> & _)|[(_ & -> & _)|[(_ & -> & _)|[(_ & -> & _)|(_ & -> & _)]]]]; lia.
Qed.

Lemma block_large v : 0 ≤ v → ¬ 0x1000 * 2 ^ v ≤ 0x200.
Proof using. intros Hv. pose proof (Z.pow_pos_nonneg 2 v). lia. Qed.

Lemma heap_within_bin p k q : 0 ≤ k ≤ MAXBINORDER → heap_within p (binsize k) q ↔ p ≤ q < p + binsize k.
Proof using. intros Hk. unfold heap_within. rewrite (proj2 (Z.leb_le _ _)); [done|]. by apply binsize_small. Qed.

Lemma heap_within_block i v q : 0 ≤ v → heap_within (page_addr i) (0x1000 * 2 ^ v) q ↔ ∃ x, hi v x i ∧ in_page q x.
Proof using.
  intros Hv. unfold heap_within. rewrite (proj2 (Z.leb_gt _ _)) by (pose proof (block_large v Hv); lia). split.
  - intros (i' & v' & x & Hv' & Ei & Ev & Hx). apply page_addr_inj' in Ei as <-.
    assert (v' = v) as -> by (apply (Z.pow_inj_r 2); lia). by exists x.
  - intros (x & Hx). by exists i, v, x.
Qed.

(** The page of an object, and what the heap knows of it. *)
Lemma live_page s L (g : kernel_ghost) p n : heap_inv ly s L g.1 g.2 → kernel_live ly L g p n → ∃ x, in_page p x ∧ 0 ≤ x < FRAMES_COUNT ∧
  ((∃ k, g.2 !! x = Some k ∧ 0 ≤ k ≤ MAXBINORDER ∧ n = binsize k ∧ is_slot g.2 p k ∧ live_bin ly L g.2 p k ∧ g.1 !! x = Some (0, Busy)) ∨
   (∃ v, g.2 !! x = None ∧ 0 ≤ v ∧ n = 0x1000 * 2 ^ v ∧ p = page_addr x ∧ g.1 !! x = Some (v, Busy))).
Proof using.
  intros HI [_ Ho]. destruct (owned_page ly s L _ _ p n HI Ho) as (x & Hin & Hx & Hm). exists x. split; [done|]. split; [done|].
  destruct (g.2 !! x) as [k|] eqn:Eg.
  - left. exists k. naive_solver.
  - right. destruct Hm as (v & Hb & -> & ->). exists v.
    destruct (po_range _ (bi_part _ _ _ _ (hp_buddy _ _ _ _ _ HI)) _ _ _ Hb) as [_ [Hv _]]. done.
Qed.

Lemma heap_apart s L (g : kernel_ghost) p n q m : heap_inv ly s L g.1 g.2 → kernel_live ly L g p n → kernel_live ly L g q m →
  p ≠ q → ¬ heap_within q m p.
Proof using.
  intros HI (x & Hpx & Hx & Hp)%(live_page s) (y & Hqy & Hy & Hq)%(live_page s) Hne Hw; [|done|done].
  pose proof (bi_part _ _ _ _ (hp_buddy _ _ _ _ _ HI)) as HP.
  destruct Hq as [(k & Gy & Hk & -> & Sq & _ & By)|(v & Gy & Hv & -> & -> & By)].
  - apply heap_within_bin in Hw; [|done]. assert (x = y) as <-.
    { apply (in_page_inj p); [done|]. destruct Sq as (i & j & Hi & Hj & ->). pose proof (slot_in_page i k j Hk Hj).
      pose proof (slot_page i k j Hk Hj). assert (y = i) as -> by (by eapply in_page_inj). unfold in_page. lia. }
    destruct Hp as [(k' & Gx & Hk' & -> & Sp & _)|(v & Gx & _)]; [|congruence]. pose proof (binsize_small k' Hk').
    destruct (slots_disjoint g.2 p k' q k) as [?|?]; [|done|done|done|lia|lia].
    intros i z Hz. by apply (hp_carved _ _ _ _ _ HI i z).
  - apply heap_within_block in Hw as (z & Hz & Hin); [|done]. assert (z = x) as -> by (by eapply in_page_inj).
    destruct Hp as [(k' & Gx & _ & _ & _ & _ & Bx)|(w & Gx & Hw & -> & -> & Bx)].
    + assert (x = y) by (eapply (po_disj _ HP x); [exact Bx|exact By|apply hi_refl|exact Hz]). congruence.
    + assert (x = y) by (eapply (po_disj _ HP x); [exact Bx|exact By|apply hi_refl|exact Hz]). congruence.
Qed.

Lemma heap_small s L (g : kernel_ghost) p n q : heap_inv ly s L g.1 g.2 → kernel_live ly L g p n → n ≤ 0x200 →
  heap_within p n q → ¬ frame_record q ∧ (node L q → q = p).
Proof using.
  intros HI (x & Hpx & Hx & Hp)%(live_page s) Hn Hw; [|done].
  destruct Hp as [(k & Gx & Hk & -> & Hs & _)|(v & _ & Hv & -> & _)]; [|by destruct (block_large v Hv)].
  pose proof Hs as (i & j' & Hi & Hj' & Ep). apply heap_within_bin in Hw; [|done]. pose proof (slot_in_page i k j' Hk Hj').
  assert (in_page q i) as Hq by (unfold in_page; lia). split.
  - intros (j & Hj & ->). pose proof (hp_apart _ _ _ _ _ HI j i Hj Hq). congruence.
  - intros Hnq. pose proof (hp_slots _ _ _ _ _ HI q i k Hnq Hq Hi) as Hs'. pose proof (binsize_small k Hk).
    destruct (decide (q = p)) as [|Hne]; [done|].
    destruct (slots_disjoint g.2 p k q k) as [?|?]; [|done|done|done|lia|lia].
    intros i' z Hz. by apply (hp_carved _ _ _ _ _ HI i' z).
Qed.

Lemma heap_nodes s L (g : kernel_ghost) p n q : heap_inv ly s L g.1 g.2 → kernel_live ly L g p n → heap_within p n q → node L q →
  client_node L q ∨ frame_record q ∨ alloc_head ly q ∧ is_Some (L !! q).
Proof using.
  intros HI Hl Hw (h & l & Hl' & Hq). destruct (decide (alloc_head ly h)) as [Hh|Hh]; [right|left; by exists h, l].
  apply elem_of_cons in Hq as [->|Hq]; [right; split; [done|by exists l]|left].
  pose proof (hp_buddy _ _ _ _ _ HI) as HB. destruct Hh as [(v & Hv & ->)|(k & Hk & ->)].
  - destruct (fl_free _ _ _ (bi_free _ _ _ _ HB) v Hv) as (l' & El & Hin). simplify_eq. apply Hin in Hq as (j & -> & Hj).
    exists j. split; [|done]. by destruct (po_range _ (bi_part _ _ _ _ HB) _ _ _ Hj).
  - exfalso. destruct (hp_bins _ _ _ _ _ HI k Hk) as (l' & El & Hin). simplify_eq. pose proof (Hin q Hq) as Hs.
    destruct Hs as (i & j & Hi & Hj & Eq). assert (in_page q i) as Hqi by (rewrite Eq; by apply slot_page).
    destruct (live_page _ _ _ _ _ HI Hl) as (x & Hpx & Hx & [(k' & Gx & Hk' & -> & Sp & Hlive & _)|(v & Gx & Hv & -> & -> & Bx)]).
    + assert (q = p) as -> by (apply (heap_small s L g p (binsize k') q HI Hl); [by apply binsize_small|done|by exists (bin_head ly k), l; split; [|right]]).
      assert (x = i) as -> by (by eapply in_page_inj). simplify_eq. by apply (proj2 Hlive l).
    + apply heap_within_block in Hw as (z & Hz & Hin'); [|done]. assert (z = i) as -> by (by eapply in_page_inj).
      destruct (hp_carved _ _ _ _ _ HI i k Hi) as (Bi & _).
      assert (i = x) as -> by (eapply (po_disj _ (bi_part _ _ _ _ HB) i); [exact Bi|exact Bx|apply hi_refl|exact Hz]). congruence.
Qed.

Lemma heap_self s L (g : kernel_ghost) p n : heap_inv ly s L g.1 g.2 → kernel_live ly L g p n → heap_within p n p.
Proof using.
  intros HI Hl. destruct (live_page _ _ _ _ _ HI Hl) as (x & _ & _ & [(k & _ & Hk & -> & _)|(v & _ & Hv & -> & -> & _)]).
  - apply heap_within_bin; [done|]. pose proof (binsize_small k Hk). lia.
  - apply heap_within_block; [done|]. exists x. split; [apply hi_refl|apply in_page_refl].
Qed.

(** The lowest bit of [x], if it is below [w]. *)
Lemma low_bit x w : 0 ≤ w → lo w x 0 ∨ ∃ u, 0 ≤ u < w ∧ lo u x 0 ∧ Z.testbit x u = true.
Proof using.
  revert w. apply natlike_ind.
  - left. intros n Hn. by rewrite !Z.testbit_neg_r by lia.
  - intros w Hw [IH|(u & Hu & H)]; [|right; exists u; split; [lia|done]]. destruct (Z.testbit x w) eqn:E.
    + right. exists w. split; [lia|done].
    + left. intros n Hn. destruct (decide (n = w)) as [->|]; [by rewrite E, Z.bits_0|]. apply IH. lia.
Qed.

Lemma low_bit_mod x u : 0 ≤ u → lo u x 0 → Z.testbit x u = true → x mod 2 ^ (u + 1) = 2 ^ u.
Proof using.
  intros Hu Hl Hb. apply Z.bits_inj'. intros n Hn. rewrite Z.pow2_bits_eqb by done. destruct (Z.lt_ge_cases n (u + 1)).
  - rewrite Z.mod_pow2_bits_low by lia. destruct (Z.eqb_spec u n) as [<-|]; [done|]. rewrite Hl by lia. apply Z.bits_0.
  - rewrite Z.mod_pow2_bits_high by lia. symmetry. apply Z.eqb_neq. lia.
Qed.

(** The lower half of the block in which [x] starts the upper half. *)
Lemma lower_half x u y : 0 ≤ u → x mod 2 ^ (u + 1) = 2 ^ u → x - 2 ^ u ≤ y < x → hi (u + 1) y x ∧ ¬ hi u y x.
Proof using.
  intros Hu Hm Hy. assert (0 < 2 ^ u) by (apply Z.pow_pos_nonneg; lia). rewrite !hi_div by lia.
  rewrite Z.pow_add_r in * by lia. change (2 ^ 1) with 2 in *. set (a := 2 ^ u) in *.
  pose proof (Z.div_mod x (a * 2) ltac:(lia)) as Ex. rewrite Hm in Ex. set (q := x / (a * 2)) in *. split.
  - symmetry. apply (Z.div_unique _ _ _ (y - (a * 2) * q)); [left|]; lia.
  - assert (x / a = 2 * q + 1) as -> by (symmetry; apply (Z.div_unique _ _ _ 0); [left|]; lia). intros E.
    pose proof (Z.div_mod y a ltac:(lia)). pose proof (Z.mod_pos_bound y a ltac:(lia)). nia.
Qed.

Lemma page_addr_mod x u : 0 ≤ u < 6 → x mod 2 ^ (u + 1) = 2 ^ u → page_addr x mod (0x1000 * 2 ^ (u + 1)) = 0x1000 * 2 ^ u.
Proof using.
  intros Hu E. assert (2 ^ 5 = 2 ^ u * 2 ^ (5 - u)) as E5 by (rewrite <- Z.pow_add_r by lia; f_equal; lia).
  assert (0 < 2 ^ u) by (apply Z.pow_pos_nonneg; lia). rewrite Z.pow_add_r in * by lia. change (2 ^ 1) with 2 in *. change (2 ^ 5) with 32 in E5.
  pose proof (Z.div_mod x (2 ^ u * 2) ltac:(lia)) as Ex. rewrite E in Ex. set (a := 2 ^ u) in *. set (b := 2 ^ (5 - u)) in *.
  symmetry. apply (Z.mod_unique_pos _ _ (b * 0x3fffc0000000 + x / (a * 2))); [lia|]. unfold page_addr. change FRAME_START with 0xffff000000000000.
  rewrite Ex at 1. transitivity (0x2000 * (a * b) * 0x3fffc0000000 + 0x1000 * (a * 2 * (x / (a * 2)) + a)); [rewrite <- E5; lia|ring].
Qed.

Lemma propped_aligned s L (g : kernel_ghost) x v B' : heap_inv ly s L g.1 g.2 → part_ok B' → g.1 !! x = Some (v, Busy) → 0 ≤ v →
  freed g.1 x v B' → aligned g.1 → propped (kernel_live ly L g) (page_addr x) (0x1000 * 2 ^ v) → aligned B'.
Proof using.
  intros HI HP' Hx Hv [D1 _ (w & Hw & _) _ D5] HA Hpr j u t Hj. destruct (decide (j = x)) as [->|Hne]; [|by eapply HA, D5].
  rewrite Hw in Hj. injection Hj as <- <-. destruct (po_range _ HP' _ _ _ Hw) as [_ Hwr].
  destruct (low_bit x w ltac:(lia)) as [?|(u & Hu & Hl & Hb)]; [done|exfalso].
  assert (v ≤ u) as Hvu.
  { destruct (Z.lt_ge_cases u v) as [Hlt|]; [|done]. rewrite (HA _ _ _ Hx u Hlt), Z.bits_0 in Hb. done. }
  pose proof (low_bit_mod x u ltac:(lia) Hl Hb) as Hm. unfold MAXORDER in Hwr.
  destruct (Hpr ltac:(pose proof (block_large v Hv); lia) u ltac:(lia) (page_addr_mod x u ltac:(lia) Hm)) as (q & m & Hq & Hqr).
  destruct (live_page _ _ _ _ _ HI Hq) as (y & Hqy & _ & Hlive).
  assert (x - 2 ^ u ≤ y < x) as Hy by (unfold in_page, page_addr in *; lia).
  destruct (lower_half x u y ltac:(lia) Hm Hy) as [H1 H2].
  assert (∃ o, g.1 !! y = Some (o, Busy)) as [o Ho] by (destruct Hlive as [(? & _ & _ & _ & _ & _ & ?)|(? & _ & _ & _ & _ & ?)]; by eexists).
  assert (free_frame B' y) as [Hf|Hf]%D1.
  - exists x, w. split; [done|]. apply (hi_mono (u + 1)); [done|lia].
  - by apply (busy_not_free g.1 y o y (bi_part _ _ _ _ (hp_buddy _ _ _ _ _ HI)) Ho (hi_refl _ _)).
  - apply H2. by apply (hi_mono v).
Qed.

Lemma kernel_free s L (g : kernel_ghost) p n : heap_inv ly s L g.1 g.2 → kernel_live ly L g p n → (n ≤ 0x200 → p mod 0x1000 ≠ 0) →
  (∀ q, node L q ∨ frame_record q → ¬ heap_within p n q) →
  ∃ s' L' (g' : kernel_ghost), kfree ly p s = Ok s' ∧ lk s' = lk s ∧ heap_inv ly s' L' g'.1 g'.2 ∧ (∀ k, big_blocks g.1 k → big_blocks g'.1 k) ∧
    agree_on (λ h, ¬ alloc_head ly h) L L' ∧
    (∀ q m, kernel_live ly L' g' q m ↔ kernel_live ly L g q m ∧ q ≠ p) ∧
    (∀ q, kernel_static ly g q → ¬ heap_within p n q → kernel_static ly g' q) ∧
    (∀ q, node L' q → node L q ∨ frame_record q ∨ q = p) ∧
    cells_same (λ q, node L q ∨ frame_record q ∨ q = p) (lm s) (lm s') ∧
    (aligned g.1 → propped (kernel_live ly L g) p n → aligned g'.1).
Proof using Hly.
  intros HI Hl Hal Hcl. pose proof Hl as [HG Ho]. destruct g as [B G]. cbn [fst snd] in *.
  destruct (live_page _ _ (B, G) _ _ HI Hl) as (x & Hin & Hx & [(k & Gx & Hk & -> & Hs & Hb & Bx)|(v & Gx & Hv & -> & -> & Bx)]); cbn [fst snd] in *.
  - assert (¬ node L p) as Hnn.
    { intros Hn. apply (Hcl p (or_introl Hn)), heap_within_bin; [done|]. pose proof (binsize_small k Hk). lia. }
    destruct (kfree_bin_full ly Hly s L B G p k HI Hb) as (s' & L' & E & HI' & Ek & Hc & How & Hn & HC); [apply Hal, binsize_small, Hk|done|].
    exists s', L', (B, G). split_and!; [done|done|done|done|done| |done| | |].
    + intros q m. rewrite (kernel_live_iff ly s' L' (B, G)), (kernel_live_iff ly s L (B, G)), How by done. cbn [fst snd]. split.
      * intros [H1 H2]. split; [done|]. intros ->. apply H2. f_equal. by apply (owned_unique ly s L B G p).
      * intros [H1 H2]. split; [done|]. intros [= ? _]. done.
    + intros q Hq. destruct (Hn q Hq); [by left|by right; right].
    + eapply cells_same_weaken; [|exact HC]. intros q [?| ->]; [by left|by right; right].
    + done.
  - assert (∀ q, node L q ∨ frame_record q → ∀ y, hi v y x → ¬ in_page q y) as Hcl'.
    { intros q Hq y Hy Hin'. apply (Hcl q Hq), heap_within_block; [done|]. by exists y. }
    destruct (kfree_block_full ly Hly s L B G x v HI (conj Bx Gx)) as (s' & L' & B' & E & Ek & HI' & HD & Hc & Hn & HC & _).
    { intros q y Hq. by apply Hcl'; left. }
    { intros j y Hj. apply Hcl'. right. by exists j. }
    pose proof HD as [D1 D2 _ D4 _]. exists s', L', (B', G). split_and!; [done|done|done| |by apply same_lists_client| | | | |].
    + intros j (l & Hlen & Hnd & Hf). exists l. split; [done|]. split; [done|]. eapply Forall_impl; [exact Hf|done].
    + assert (∀ q k', live_bin ly L' G q k' ↔ live_bin ly L G q k') as Hbin.
      { intros q k'. unfold live_bin. split; intros [S1 S2]; (split; [done|]; intros l; specialize (S2 l); revert S2);
          rewrite Hc; try done; intros w Hw E'; symmetry in E'; revert E'; apply free_bin_head; try done;
          destruct S1 as (i & j & Hi & _); by eapply HG. }
      intros q m. rewrite (kernel_live_iff ly s' L' (B', G)), (kernel_live_iff ly s L (B, G)) by done. cbn [fst snd]. split.
      * intros [q' k' Hq|j w [Hj Gj]].
        -- split; [by constructor; apply Hbin|]. intros ->. destruct Hq as [(i & j & Hi & Hj & Es) _].
           destruct (hp_carved _ _ _ _ _ HI i k' Hi) as (_ & Hk' & _).
           assert (i = x) as ->; [|congruence]. eapply in_page_inj; [|apply in_page_refl]. rewrite Es. by apply slot_page.
        -- apply D2 in Hj as [Hne Hj]. split; [by constructor|]. by intros ->%page_addr_inj'.
      * intros [[q' k' Hq|j w [Hj Gj]] Hne]; constructor; [by apply Hbin|]. split; [|done]. apply D2. split; [congruence|done].
    + intros q [Hs1 Hs2] Hw. split; [done|]. intros y Hy Hiny. destruct (Hs2 y Hy Hiny) as [Hf Hg]. split; [|done].
      intros [Hf'|Hhi]%D1; [done|]. apply Hw, heap_within_block; [done|]. by exists y.
    + intros q [Hq|Hq]%Hn; [by left|by right; left].
    + eapply cells_same_weaken; [|exact HC]. intros q [?|?]; [by left|by right; left].
    + intros HA Hpr. apply (propped_aligned s L (B, G) x v B' HI); [exact (bi_part _ _ _ _ (hp_buddy _ _ _ _ _ HI'))|done..].
Qed.

#[export] Instance kfree_KFree : KFree (kmalloc ly) (kfree ly) := {|
  kf_within := heap_within; kf_meta := frame_record;
  kf_static_meta g q Hq := λ Hm, match Hm with ex_intro _ j (conj Hj E) => proj1 Hq j Hj E end;
  kf_self s L g := heap_self s L g; kf_small s L g := heap_small s L g; kf_nodes s L g := heap_nodes s L g;
  kf_apart s L g := heap_apart s L g; kf_free s L g := kernel_free s L g;
|}.

(** None of the kernel's own memory is in a small object. *)
Lemma small_static s L (g : kernel_ghost) p n q : heap_inv ly s L g.1 g.2 → kernel_live ly L g p n → n ≤ 0x200 →
  kernel_static ly g q → ¬ heap_within p n q.
Proof using.
  intros HI (x & Hpx & Hx & Hp)%(live_page s) Hn [_ Hq] Hw; [|done].
  destruct Hp as [(k & Gx & Hk & -> & (i & j & Hi & Hj & Ep) & _)|(v & _ & Hv & -> & _)]; [|by destruct (block_large v Hv)].
  apply heap_within_bin in Hw; [|done]. pose proof (slot_in_page i k j Hk Hj). assert (in_page p i) as Hpi by (rewrite Ep; by apply slot_page).
  assert (x = i) as -> by (by eapply in_page_inj). destruct (Hq i Hx) as [_ HG]; [unfold in_page; lia|congruence].
Qed.

(** The largest blocks are propped: nothing is merged with them from below. *)
Lemma max_propped s L (g : kernel_ghost) live p : heap_inv ly s L g.1 g.2 → aligned g.1 → kernel_live ly L g p 0x40000 → propped live p 0x40000.
Proof using.
  intros HI HA (x & _ & Hx & Hp)%(live_page s) _ u Hu E; [|done]. exfalso.
  destruct Hp as [(k & _ & Hk & En & _)|(v & _ & Hv & En & -> & Hb)]; [pose proof (binsize_small k Hk); lia|].
  assert (v = 6) as -> by (apply (Z.pow_inj_r 2); lia). pose proof (proj1 (lo_mod 6 x 0 ltac:(lia)) (HA _ _ _ Hb)) as Em.
  change (0 mod 2 ^ 6) with 0 in Em.
  pose proof (Z.div_mod x (2 ^ 6) ltac:(lia)) as Ex. rewrite Em in Ex. change (2 ^ 6) with 64 in Ex.
  assert (page_addr x = (0x3fffc0000000 + x / 64) * 0x40000) as Ea by (unfold page_addr; change FRAME_START with 0xffff000000000000; lia).
  assert (2 ^ 6 = 2 ^ (u + 1) * 2 ^ (5 - u)) as E6 by (rewrite <- Z.pow_add_r by lia; f_equal; lia). change (2 ^ 6) with 64 in E6.
  replace (page_addr x) with ((0x3fffc0000000 + x / 64) * 2 ^ (5 - u) * (0x1000 * 2 ^ (u + 1))) in E
    by (rewrite Ea; transitivity ((0x3fffc0000000 + x / 64) * (0x1000 * (2 ^ (u + 1) * 2 ^ (5 - u)))); [ring|rewrite <- E6; lia]).
  assert (0 < 2 ^ u ∧ 0 < 2 ^ (u + 1)) as [? ?] by (split; apply Z.pow_pos_nonneg; lia). rewrite Z.mod_mul in E by lia. lia.
Qed.

(** A small request of a class for which nothing is carved yet. *)
Lemma kmalloc_first_bin s L B G n : heap_inv ly s L B G → can_alloc B 0 → 0 ≤ n ≤ 0x200 → (∀ x, G !! x ≠ Some (bin_order n)) →
  ∃ p s' L' B' G', kmalloc ly n s = Ok (p, s') ∧ p mod 0x1000 ≠ 0 ∧ lk s' = lk s ∧ heap_inv ly s' L' B' G' ∧ heap_grow ly L B G L' B' G' ∧
    ¬ node L' p ∧ (∀ q m, owned ly L' B' G' q m ↔ owned ly L B G q m ∨ (q = p ∧ m = binsize (bin_order n))) ∧
    (∀ x k, G' !! x = Some k → G !! x = Some k ∨ k = bin_order n).
Proof using Hly.
  intros HI HC Hn HG. pose proof (bin_order_range n) as Hk. pose proof (no_bins_of ly s L B G _ HI Hk HG) as El.
  destruct (alloc_bin_ok ly Hly s L B G n HI (or_intror HC)) as
    (p & s' & L' & B' & G' & E & Hlk & HI' & HGr & Hnn & _ & Hlast & Hlive & Hblk & Hcls).
  exists p, s', L', B', G'. split.
  { unfold kmalloc. rewrite u32_small by lia. change (Z.shiftl 0x20 MAXBINORDER) with 0x200. by rewrite (proj2 (Z.leb_le _ _)) by lia. }
  split; [destruct (Hlast El) as (i & ->); by apply last_slot_unaligned|]. split; [done|]. split; [done|]. split; [done|]. split; [done|].
  split; [|done]. intros q m. split.
  - intros [q' k [Hq|[-> ->]]%Hlive|i v Hb%Hblk]; [left; by constructor|by right|left; by constructor].
  - intros [[q' k Hq|i v Hb]|[-> ->]]; constructor; [apply Hlive; by left|by apply Hblk|apply Hlive; by right].
Qed.

(** A fresh block holds no list node, no record and none of the kernel's own memory. *)
Lemma kmalloc_clear s L (g : kernel_ghost) n : ka_inv s L g → 0x200 < n ≤ 0x40000 → ka_room g 1 →
  ∃ p c s' L' (g' : kernel_ghost), kmalloc ly n s = Ok (p, s') ∧ lk s' = lk s ∧ ka_inv s' L' g' ∧ ka_live L' g' p c ∧ 0x200 < c ∧
    (c = kmalloc_size n ∧ g'.2 = g.2 ∧ (ka_tidy g → ka_tidy g') ∧ ∀ k, ka_room g (S k) → ka_room g' k) ∧
    (∀ q, node L' q ∨ kf_meta q → ¬ kf_within p c q) ∧
    ∀ q, ka_static g q → ka_static g' q ∧ ¬ kf_within p c q ∧ (node L' q → node L q).
Proof using.
  destruct g as [B G]. cbn. intros HI Hn HR. assert (can_kmalloc ly L B n) as Hcan.
  { unfold can_kmalloc. rewrite (proj2 (Z.leb_gt _ _)) by lia. eapply big_blocks_can; [done|apply page_order_range]. }
  destruct (kmalloc_run ly Hly s L B G n HI) as (p & s' & L' & B' & G' & E & Hlk & HI' & HG & Hnn & Hnew & Hown); [lia|done|].
  rewrite (proj2 (Z.leb_gt _ _)) in Hnew by lia. destruct Hnew as (i & -> & Hi & -> & HA & Hout).
  assert (kmalloc_size n = 0x1000 * 2 ^ page_order n) as Es by (unfold kmalloc_size; by rewrite (proj2 (Z.leb_gt _ _)) by lia).
  destruct (po_range _ (bi_part _ _ _ _ (hp_buddy _ _ _ _ _ HI')) _ _ _ (al_rep _ _ _ _ HA)) as [_ Hv].
  assert (∀ q, kernel_static ly (B, G) q → kernel_static ly (B', G) q) as Hst.
  { intros q [Hf Hp]. split; [done|]. intros x Hx Hin. destruct (Hp x Hx Hin) as [Hf' Hc]. split; [|done]. cbn in *. rewrite (al_free _ _ _ _ HA). tauto. }
  assert (∀ x, hi (page_order n) x i → 0 ≤ x < FRAMES_COUNT ∧ free_frame B x) as Hfree.
  { intros x Hx. pose proof (al_was_free _ _ _ _ HA x Hx) as Hf. split; [|done]. exact (free_frame_range B x (bi_part _ _ _ _ (hp_buddy _ _ _ _ _ HI)) Hf). }
  exists (page_addr i), (kmalloc_size n), s', L', (B', G). split_and!; [done|done|done| |rewrite Es; pose proof (block_large (page_order n)); lia|done|done|apply HG|intros k; by eapply big_blocks_grow| |].
  - apply (kernel_live_iff ly s'); [done|]. apply Hown. by right.
  - intros q Hq. rewrite Es, heap_within_block by lia. intros (x & Hx & Hin). destruct Hq as [Hq|(j & Hj & ->)]; [by apply (Hout q x)|].
    destruct (Hfree x Hx) as [Hr Hf]. by apply (hp_frames _ _ _ _ _ HI j x).
  - intros q Hq. split; [by apply Hst|]. split.
    + rewrite Es, heap_within_block by lia. intros (x & Hx & Hin). destruct (Hfree x Hx) as [Hr Hf]. by destruct (proj2 Hq x Hr Hin).
    + intros Hnq. exact (static_node ly s s' L L' (B, G) (B', G) q HI HI' (hg_client _ _ _ _ _ _ _ HG) (Hst q Hq) Hnq).
Qed.
End kfree_instance.
