(* ===== verification/HeapSafety.v ===== *)
(** Every sequence of requests and releases from the boot on: what [kmalloc] has
    handed out does not overlap, as long as two kinds of release are left out; and
    what the second of them does. *)
From S2P Require Import Prelude Util ListHead Lock Mem Dtb Malloc Buddy Reserve Heap HeapLimits Boot Alloc KAlloc KFree.
Local Open Scope Z_scope.

(** ** When kmalloc serves a request *)

Section served.
Context (ly : layout) (Hly : layout_ok ly).

Lemma alloc_page_can s L B size r : buddy_inv ly s L B → alloc_page ly size s = Ok r → can_alloc B (page_order size).
Proof using Hly.
  intros HI E. pose proof (page_order_range size) as Hv.
  destruct (decide (Exists (λ w, L !! free_head ly w ≠ Some []) (seqZ (page_order size) (MAXORDER + 1 - page_order size)))) as [H|H].
  - apply Exists_exists in H as (w & Hw%elem_of_seqZ & HL). destruct (fl_free _ _ _ (bi_free _ _ _ _ HI) w) as (l & El & Hl); [lia|].
    destruct l as [|p l]; [done|]. destruct (proj1 (Hl p)) as (i & _ & Hi); [by left|]. exists i, w. split; [lia|done].
  - exfalso. rewrite (alloc_page_exhausted ly size s) in E; [done|]. intros w Hw.
    apply not_Exists_Forall in H; [|tc_solve]. rewrite Forall_forall in H.
    assert (L !! free_head ly w = Some []) as El by (apply dec_stable, H, elem_of_seqZ; lia).
    by rewrite (list_empty_ok _ _ _ _ (bi_lists _ _ _ _ HI) El).
Qed.

Lemma kmalloc_can s L B G n r : heap_inv ly s L B G → 0 ≤ n < 2 ^ 32 → kmalloc ly n s = Ok r → can_kmalloc ly L B n.
Proof using Hly.
  intros HI Hn E. unfold can_kmalloc. unfold kmalloc in E. rewrite u32_small in E by done.
  change (Z.shiftl 0x20 MAXBINORDER) with 0x200 in E. destruct (n <=? 0x200); [|by eapply alloc_page_can; [apply HI|]].
  pose proof (bin_order_range n) as Hk. destruct (hp_bins _ _ _ _ _ HI _ Hk) as (l & El & _).
  destruct l as [|p l]; [right|by left; rewrite El].
  unfold alloc_bin in E. rewrite (bin_list_at_ok ly _ Hk) in E. cbn [mbind res_bind] in E.
  rewrite (list_empty_ok _ _ _ _ (bi_lists _ _ _ _ (hp_buddy _ _ _ _ _ HI)) El) in E. cbn [mbind res_bind bool_decide] in E.
  unfold from_page_get_bins in E. destruct (alloc_page ly 0x1000 s) as [r'| |] eqn:Ea; [|done..].
  rewrite <- page_order_page. by eapply alloc_page_can; [apply HI|].
Qed.
End served.

(** ** Traces *)

(** The release of the object [p] of [n] bytes leaves the other objects of [l] alone: a
    small one does not start a page; and where a large one is the upper half of a
    block of twice its size or more, an object of the lower half is in use. *)
Definition may_free (l : list (Z * Z)) (p n : Z) : Prop :=
  (n ≤ 0x200 → p mod 0x1000 ≠ 0) ∧ propped (λ q m, (q, m) ∈ l) p n.

(** The states of the heap, with what has been handed out and not given back since
    the boot: address and size of the request. *)
Inductive heap_trace (ly : layout) : mstate → list (Z * Z) → Prop :=
| trace_boot raw m dtb_addr start size cpio s0 s :
    (∀ i, val (raw i) = 0) → heap_top s0 = heap_start ly → lock_wf (lk s0) →
    dtb_reserves m dtb_addr start size → range_ok (dtb_range start size) → range_ok cpio →
    init_allocator ly raw (λ cb, dtb_reserve_mem m dtb_addr cb) cpio.1 cpio.2 s0 = Ok s →
    heap_trace ly s []
| trace_alloc s l n p s' :
    heap_trace ly s l → 0 ≤ n ≤ 0x40000 → kmalloc ly n s = Ok (p, s') → heap_trace ly s' ((p, n) :: l)
| trace_free s l1 p n l2 s' :
    heap_trace ly s (l1 ++ (p, n) :: l2) → may_free (l1 ++ l2) p n → kfree ly p s = Ok s' → heap_trace ly s' (l1 ++ l2).

Section trace.
Context (ly : layout) (Hly : layout_ok ly).
#[local] Instance trace_KAlloc : KAlloc (kmalloc ly) := kmalloc_KAlloc ly Hly.
#[local] Instance trace_KFree : KFree (kmalloc ly) (kfree ly) := kfree_KFree ly Hly.

(** The allocator's own data at [q]. *)
Definition own_data (q : Z) : Prop := alloc_head ly q ∨ frame_record ly q.

(** The heap of a trace: the objects are in use, with no data of the allocator
    in them, and there are no rings but the allocator's. *)
Record trace_inv (s : mstate) (l : list (Z * Z)) (L : rings) (g : kernel_ghost) : Prop := {
  ti_heap : heap_inv ly s L g.1 g.2;
  ti_aligned : aligned g.1;
  ti_distinct : NoDup l.*1;
  ti_live : ∀ p n, (p, n) ∈ l → n ≤ 0x40000 ∧ kernel_live ly L g p (kmalloc_size n);
  ti_clear : ∀ p n q, (p, n) ∈ l → own_data q → ¬ heap_within p (kmalloc_size n) q;
  ti_nodes : ∀ q, client_node L q → own_data q;
}.

Lemma alloc_node_own q : alloc_node ly q → own_data q.
Proof using. intros [H|[H|H]]; [left; by left|left; by right|by right]. Qed.

Lemma kmalloc_size_small n : n ≤ 0x40000 → kmalloc_size n ≤ 0x200 ↔ n ≤ 0x200.
Proof using.
  intros Hn. unfold kmalloc_size. destruct (Z.leb_spec n 0x200) as [Hs|Hs].
  - pose proof (binsize_small (bin_order n) (bin_order_range n)). lia.
  - pose proof (block_large (page_order n)). pose proof (page_order_range n). lia.
Qed.

Lemma trace_inv_boot s L B : heap_inv ly s L B ∅ → aligned B → (∀ p, node L p → alloc_node ly p) → trace_inv s [] L (B, ∅).
Proof using.
  intros HI HA HN. split; [done|done|by apply NoDup_nil_2| | |].
  { intros p n Hp. by apply not_elem_of_nil in Hp. }
  { intros p n q Hp. by apply not_elem_of_nil in Hp. }
  intros q Hq. by apply alloc_node_own, HN, client_node_node.
Qed.

Lemma client_node_same L L' : agree_on (λ h, ¬ ka_private h) L L' → (∀ q, client_node L q → own_data q) → ∀ q, client_node L' q → own_data q.
Proof using. intros Ha H q Hq. apply H. by apply (client_node_agree L L'). Qed.

Lemma trace_inv_alloc s l L g n p s' : trace_inv s l L g → 0 ≤ n ≤ 0x40000 → kmalloc ly n s = Ok (p, s') →
  ∃ L' g', trace_inv s' ((p, n) :: l) L' g'.
Proof using.
  intros [HI HA Hd Hl Hc Hn] Hr E.
  destruct (kernel_alloc_can ly Hly s L g n HI Hr) as
    (p' & c & s1 & L' & g' & E' & _ & HI' & _ & Ha & Hnn & _ & _ & Hfresh & Hlive & _ & Hal & -> & Hblk).
  { apply (kmalloc_can ly Hly s L g.1 g.2 n (p, s')); [done|lia|done]. }
  rewrite E in E'. injection E' as <- <-. exists L', g'. split; [done|by apply Hal| | | |by apply (client_node_same L)].
  - rewrite fmap_cons. apply NoDup_cons. split; [|done]. intros ([q m] & Eq & Hq)%list_elem_of_fmap. cbn in Eq. subst q.
    apply Hl in Hq as [_ Hq]. by apply Hfresh in Hq.
  - intros q m [[= -> ->]|Hq]%elem_of_cons; [split; [lia|apply Hlive; by right]|].
    destruct (Hl q m Hq). split; [done|]. apply Hlive. by left.
  - intros q m x [[= -> ->]|Hq]%elem_of_cons Hx Hw; [|by apply (Hc q m x)].
    assert (kernel_live ly L' g' p (kmalloc_size n)) as Hp by (apply Hlive; by right). destruct (Z.le_gt_cases n 0x200) as [Hs|Hs].
    + destruct (heap_small ly s' L' g' p _ x HI' Hp) as [H1 H2]; [by apply kmalloc_size_small; [lia|]|done|].
      destruct Hx as [Hx|Hx]; [|done]. pose proof (heap_private_node ly s' L' g'.1 g'.2 x HI' Hx) as Hnx. by rewrite (H2 Hnx) in Hnx.
    + destruct (Hblk Hs) as (i & -> & HB). revert Hw. unfold kmalloc_size. rewrite (proj2 (Z.leb_gt _ _)) by lia.
      rewrite heap_within_block by (apply page_order_range). intros (y & Hy & Hin).
      pose proof (al_was_free _ _ _ _ HB y Hy) as Hf. pose proof (free_frame_range _ _ (bi_part _ _ _ _ (hp_buddy _ _ _ _ _ HI)) Hf) as Hyr.
      destruct Hx as [Hx|(j & Hj & ->)].
      * by apply (hp_nodes _ _ _ _ _ HI x y (heap_private_node ly s L g.1 g.2 x HI Hx)).
      * by apply (hp_frames _ _ _ _ _ HI j y).
Qed.

(** Nothing lies in an object of a trace, so that [kfree] succeeds. *)
Lemma trace_inv_free s l1 p n l2 L g : trace_inv s (l1 ++ (p, n) :: l2) L g → may_free (l1 ++ l2) p n →
  ∃ s' L' g', kfree ly p s = Ok s' ∧ trace_inv s' (l1 ++ l2) L' g'.
Proof using.
  intros [HI HA Hd Hl Hc Hn] [Hs Hp].
  assert ((p, n) ∈ l1 ++ (p, n) :: l2) as Hin by (apply elem_of_app; right; by left).
  assert (∀ x, x ∈ l1 ++ l2 → x ∈ l1 ++ (p, n) :: l2) as Hsub by (intros x; rewrite !elem_of_app, elem_of_cons; tauto).
  destruct (Hl p n Hin) as [Hle Hlive].
  destruct (kernel_free ly Hly s L g p (kmalloc_size n) HI Hlive) as
    (s' & L' & g' & E & _ & HI' & _ & Ha & Hlive' & _ & _ & _ & Hal).
  { intros H. by apply Hs, kmalloc_size_small. }
  { intros q [Hq|Hq] Hw; [|by apply (Hc p n q Hin); [right|]].
    destruct (heap_nodes ly Hly s L g p _ q HI Hlive Hw Hq) as [Hq'|[Hq'|[Hq' _]]]; apply (Hc p n q Hin); try done; [by apply Hn|by right|by left]. }
  exists s', L', g'. split; [done|]. rewrite fmap_app in Hd. cbn in Hd. apply NoDup_app in Hd as (Hd1 & Hd2 & Hd3). apply NoDup_cons in Hd3 as [Hd3 Hd4].
  assert (∀ q m, (q, m) ∈ l1 ++ l2 → q ≠ p) as Hne.
  { intros q m [Hq|Hq]%elem_of_app ->; apply (list_elem_of_fmap_2 fst) in Hq; cbn in Hq; [|done]. by apply (Hd2 p Hq); left. }
  split; [done| | | | |by apply (client_node_same L)].
  - apply Hal; [done|]. intros Hbig u Hu Hm. destruct (Hp ltac:(pose proof (proj2 (kmalloc_size_small n Hle)); lia) u Hu Hm) as (q & m & Hq & Hqr).
    exists q, (kmalloc_size m). split; [by apply Hl, Hsub|done].
  - rewrite fmap_app. apply NoDup_app. split; [done|]. split; [|done]. intros x Hx Hx2. by apply (Hd2 x Hx); right.
  - intros q m Hq. destruct (Hl q m (Hsub _ Hq)). split; [done|]. apply Hlive'. split; [done|by eapply Hne].
  - intros q m x Hq. by apply Hc, Hsub.
Qed.

Lemma trace_has_inv s l : heap_trace ly s l → ∃ L g, trace_inv s l L g.
Proof using Hly.
  induction 1 as [raw m dtb_addr start size cpio s0 s Hr H1 H2 H3 H4 H5 E|s l n p s' _ (L & g & IH) Hn E|s l1 p n l2 s' _ (L & g & IH) Hf E].
  - destruct (init_heap_ok ly Hly raw Hr s0 (λ cb, dtb_reserve_mem m dtb_addr cb) (dtb_range start size) cpio) as
      (s' & L & B & E' & HI & HA & _ & _ & _ & _ & HN); [done..|intros s1; exact (dtb_reserve_mem_ok _ _ _ _ _ _ H3)|].
    rewrite E in E'. injection E' as <-. exists L, (B, ∅). by apply trace_inv_boot.
  - by apply (trace_inv_alloc s l L g n p s').
  - destruct (trace_inv_free s l1 p n l2 L g IH Hf) as (s1 & L1 & g1 & E' & HI). rewrite E in E'. injection E' as <-. by exists L1, g1.
Qed.
End trace.

(** The bytes of an object lie in it. *)
Lemma within_bytes ly s L (g : kernel_ghost) p n q : heap_inv ly s L g.1 g.2 → aligned g.1 → kernel_live ly L g p n →
  p ≤ q < p + n → heap_within p n q.
Proof.
  intros HI HA Hl Hq. destruct (live_page ly s L g p n HI Hl) as (x & _ & _ & [(k & _ & Hk & -> & _)|(v & _ & Hv & -> & -> & Hb)]).
  - by apply heap_within_bin.
  - apply heap_within_block; [done|]. set (y := (q - FRAME_START) / 0x1000).
    pose proof (Z.div_mod (q - FRAME_START) 0x1000 ltac:(lia)). pose proof (Z.mod_pos_bound (q - FRAME_START) 0x1000 ltac:(lia)).
    exists y. split; [|unfold in_page, page_addr; lia].
    apply aligned_block; [done|by eapply HA|]. unfold page_addr in Hq. subst y. lia.
Qed.

(** C29: after the boot and any sequence of calls of [kmalloc] and [kfree], in any
    order and for any sizes up to 256 KiB, the objects handed out and not given
    back are pairwise disjoint; no list head and no frame record of the allocator
    starts in one; and [kfree] of any of them returns. The sequence may not give
    back a small object at the start of a page ([kfree_bin_ok] says what happens
    then), nor a large one that can be merged with a free lower half
    ([merged_block_overlaps]). *)
Theorem heap_trace_safe ly s l : layout_ok ly → heap_trace ly s l →
  (∀ i j p n q m, l !! i = Some (p, n) → l !! j = Some (q, m) → i ≠ j → p + n ≤ q ∨ q + m ≤ p) ∧
  (∀ p n q, (p, n) ∈ l → own_data ly q → ¬ (p ≤ q < p + n)) ∧
  ∀ l1 p n l2, l = l1 ++ (p, n) :: l2 → may_free (l1 ++ l2) p n → ∃ s', kfree ly p s = Ok s'.
Proof.
  intros Hly HT. destruct (trace_has_inv ly Hly s l HT) as (L & g & HI). pose proof HI as [HH HA Hd Hl Hc _]. split; [|split].
  - intros i j p n q m Hi Hj Hne. destruct (Hl p n) as [Hn Hp]; [by eapply list_elem_of_lookup_2|].
    destruct (Hl q m) as [Hm Hq]; [by eapply list_elem_of_lookup_2|].
    assert (p ≠ q) as Hpq.
    { intros ->. apply Hne. eapply (NoDup_lookup l.*1); [done| |]; rewrite list_lookup_fmap; [rewrite Hi|rewrite Hj]; done. }
    pose proof (kernel_disjoint ly s L g p _ q _ HH HA Hp Hq Hpq). pose proof (kmalloc_size_enough n Hn). pose proof (kmalloc_size_enough m Hm). lia.
  - intros p n q Hin Hq Hr. destruct (Hl p n Hin) as [Hn Hp]. apply (Hc p n q Hin Hq).
    apply (within_bytes ly s L g); [done..|]. pose proof (kmalloc_size_enough n Hn). lia.
  - intros l1 p n l2 -> Hf. destruct (trace_inv_free ly Hly s l1 p n l2 L g HI Hf) as (s' & _ & _ & E & _). by exists s'.
Qed.

(** A boot, three requests, and the release of the first object. *)
Lemma heap_trace_ex : ∃ s p q, heap_trace layout_ex s [(q, 0x1000); (p, 100)].
Proof.
  destruct (heap_ex_run (λ cb, dtb_reserve_mem dtb_ex 0x1000 cb)) as (s & L & B & E & HI & _ & HK & HF & HW & _).
  { intros s. exact (dtb_reserve_mem_ok _ _ _ _ _ _ dtb_ex_ok). }
  assert (heap_trace layout_ex s []) as T0.
  { apply (trace_boot layout_ex (λ _, Frame 0 0 0 0) dtb_ex 0x1000 0 0x1000 (PHYS_TO_VIRT 0x8000000, PHYS_TO_VIRT 0x8001000) boot_ex); [done|done| |exact dtb_ex_ok| | |exact E].
    - unfold lock_wf, boot_ex. cbn [lk lock_counter irq_on]. split; [lia|intros; lia].
    - vm_compute. repeat split; discriminate.
    - vm_compute. repeat split; discriminate. }
  clear E. pose proof (boot_blocks B 3 ltac:(lia) HW) as HB.
  destruct (kernel_alloc layout_ex layout_ex_ok s L (B, ∅) 0x40) as (r & c & s1 & L1 & g1 & E1 & _ & HI1 & HB1 & _); [done|lia|by apply big_blocks_less, big_blocks_less|].
  destruct (kmalloc_first_bin layout_ex layout_ex_ok s L B ∅ 0x40 HI) as (r' & s1' & L1' & B1' & G1' & E1' & Hr & _).
  { eapply big_blocks_can; [exact HB|by unfold MAXORDER]. } { lia. } { intros x. by rewrite lookup_empty. }
  rewrite E1 in E1'. injection E1' as <- <-.
  destruct (kernel_alloc layout_ex layout_ex_ok s1 L1 g1 100) as (p & cp & s2 & L2 & g2 & E2 & _ & HI2 & HB2 & _); [done|lia|by apply big_blocks_less, HB1|].
  destruct (kernel_alloc layout_ex layout_ex_ok s2 L2 g2 0x1000) as (q & cq & s3 & L3 & g3 & E3 & _); [done|lia|by apply HB2, HB1|].
  assert (heap_trace layout_ex s3 [(q, 0x1000); (p, 100); (r, 0x40)]) as T3.
  { eapply trace_alloc; [|lia|exact E3]. eapply trace_alloc; [|lia|exact E2]. by eapply trace_alloc; [|lia|exact E1]. }
  destruct (trace_has_inv layout_ex layout_ex_ok s3 _ T3) as (L' & g' & HI').
  assert (may_free ([(q, 0x1000); (p, 100)] ++ []) r 0x40) as Hf by (split; [done|intros ?; lia]).
  destruct (trace_inv_free layout_ex layout_ex_ok s3 [(q, 0x1000); (p, 100)] r 0x40 [] L' g' HI' Hf) as (s4 & _ & _ & E4 & _).
  exists s4, p, q. exact (trace_free layout_ex s3 [(q, 0x1000); (p, 100)] r 0x40 [] s4 T3 Hf E4).
Qed.

Lemma heap_trace_safe_witness : ∃ s p q, heap_trace layout_ex s [(q, 0x1000); (p, 100)] ∧ (q + 0x1000 ≤ p ∨ p + 100 ≤ q).
Proof.
  destruct heap_trace_ex as (s & p & q & HT). exists s, p, q. split; [exact HT|].
  destruct (heap_trace_safe layout_ex s _ layout_ex_ok HT) as (H & _).
  exact (H 0%nat 1%nat q 0x1000 p 100 eq_refl eq_refl ltac:(lia)).
Defined.

(** ** A merge with the lower half *)

(** The end of the block of order [w] that frame [i] is in. *)
Definition block_end (i w : Z) : Z := page_addr ((i / 2 ^ w + 1) * 2 ^ w).

Lemma page_order_exact w : 0 < w ≤ MAXORDER → page_order (0x1000 * 2 ^ w) = w.
Proof.
  unfold MAXORDER. intros Hw. assert (w = 1 ∨ w = 2 ∨ w = 3 ∨ w = 4 ∨ w = 5 ∨ w = 6) as Hc by lia.
  destruct Hc as [->|[->|[->|[->|[->| ->]]]]]; reflexivity.
Qed.

Lemma block_end_inside i v w : 0 ≤ v < w → Z.testbit i v = true → page_addr i < block_end i w < page_addr i + 0x1000 * 2 ^ w.
Proof.
  intros Hv Hb. unfold block_end, page_addr. assert (0 < 2 ^ w) by (apply Z.pow_pos_nonneg; lia).
  pose proof (Z.div_mod i (2 ^ w) ltac:(lia)) as Ei. pose proof (Z.mod_pos_bound i (2 ^ w) ltac:(lia)).
  assert (i mod 2 ^ w ≠ 0) as Hne.
  { intros E. assert (Z.testbit (i mod 2 ^ w) v = true) as Hb' by (by rewrite Z.mod_pow2_bits_low by lia). by rewrite E, Z.bits_0 in Hb'. }
  set (a := i mod 2 ^ w) in *. set (d := i / 2 ^ w) in *. lia.
Qed.

Section merge.
Context (ly : layout) (Hly : layout_ok ly).

(** A block that is given back next to a free block of its order is merged. *)
Lemma freed_merged s' L' B G i v B' : heap_inv ly s' L' B' G → part_ok B → freed B i v B' → B !! i = Some (v, Busy) →
  v < MAXORDER → B !! flip i v = Some (v, Avail) → ∃ w, v < w ≤ MAXORDER ∧ B' !! i = Some (w, Avail).
Proof using.
  intros HI HP [D1 _ (w & Hw & Hm) _ D5] Hi Hv Hf. pose proof (bi_part _ _ _ _ (hp_buddy _ _ _ _ _ HI)) as HP'.
  destruct (po_range _ HP' _ _ _ Hw) as [_ Hwr]. destruct (po_range _ HP _ _ _ Hi) as [_ Hvr]. exists w. split; [|done]. split; [|lia].
  destruct (Z.lt_ge_cases v w) as [|Hle]; [done|exfalso].
  assert (free_frame B' (flip i v)) as (j & u & Hj & Hx) by (apply D1; left; exists (flip i v), v; split; [done|apply hi_refl]).
  destruct (decide (j = i)) as [->|Hne].
  - assert (u = w) as -> by congruence. apply (hi_flip_not i v); [lia|]. apply hi_sym, (hi_mono w); [done|lia].
  - pose proof (D5 _ _ _ Hne Hj) as Hj'. assert (j = flip i v) as -> by (eapply (po_disj _ HP (flip i v)); [exact Hj'|exact Hf|done|apply hi_refl]).
    assert (u = v) as -> by congruence.
    assert (free_frame B' i) as (j2 & u2 & Hj2 & Hx2) by (apply D1; right; apply hi_refl).
    destruct Hm as [->|Hm]; [unfold MAXORDER in *; lia|]. destruct (decide (w = v)) as [->|Hwv]; [done|].
    (* a smaller block of [i]: its other half has no block *)
    assert (free_frame B' (flip i w)) as (j3 & u3 & Hj3 & Hx3).
    { apply D1. right. apply (hi_mono (w + 1)); [apply hi_flip; lia|lia]. }
    destruct (decide (j3 = i)) as [->|Hne3].
    + assert (u3 = w) as -> by congruence. by apply (hi_flip_not i w); [lia|apply hi_sym].
    + pose proof (D5 _ _ _ Hne3 Hj3) as Hj3'. assert (i = j3); [|done]. destruct (po_range _ HP _ _ _ Hj3') as [_ Hu3].
      apply (po_disj _ HP (flip i w) i v Busy j3 u3 Avail); [done|done| |done]. apply (hi_mono (w + 1)); [apply hi_flip; lia|lia].
Qed.

(** What is in use stays in use when a block is freed. *)
Lemma freed_owned L L' B B' G i v q n : (∀ x k, G !! x = Some k → 0 ≤ k ≤ MAXBINORDER) → freed B i v B' → same_lists ly L L' →
  owned ly L B G q n → q ≠ page_addr i → owned ly L' B' G q n.
Proof using Hly.
  intros HG [_ D2 _ _ _] Hs [q' k [Hq Hl]|j w [Hj Gj]] Hne; constructor.
  - split; [done|]. intros l El. apply Hl. rewrite <- Hs; [done|]. intros w Hw E. symmetry in E. revert E. apply free_bin_head; [done|done|].
    destruct Hq as (x & y & Hx & _). by apply (HG x).
  - split; [|done]. apply D2. split; [congruence|done].
Qed.

(** C36: [kfree] of a block whose buddy is the lower half of their union, and free,
    merges them, but keeps the frame it was called with as the head of the result.
    The next request for a block of the merged order [w] is then given an address
    inside of that block, although the memory handed out is as long as the whole
    block: it goes on for the length of the lower part behind the end of the block,
    over whatever is there, which is still in use if it was. *)
Theorem merged_block_overlaps s L B G i v : heap_inv ly s L B G → live_block B G i v →
  (∀ p x, node L p → hi v x i → ¬ in_page p x) → (∀ j x, 0 ≤ j < FRAMES_COUNT → hi v x i → ¬ in_page (faddr ly j) x) →
  v < MAXORDER → B !! flip i v = Some (v, Avail) → Z.testbit i v = true →
  ∃ w s1 s2 L2 B2, v < w ≤ MAXORDER ∧ kfree ly (page_addr i) s = Ok s1 ∧
    kmalloc ly (0x1000 * 2 ^ w) s1 = Ok (page_addr i, s2) ∧ heap_inv ly s2 L2 B2 G ∧
    owned ly L2 B2 G (page_addr i) (0x1000 * 2 ^ w) ∧
    page_addr i < block_end i w < page_addr i + 0x1000 * 2 ^ w ∧
    (∀ q n, owned ly L B G q n → q ≠ page_addr i → owned ly L2 B2 G q n).
Proof using Hly.
  intros HI Hb Hn Hf Hv Hbud Hbit. pose proof (bi_part _ _ _ _ (hp_buddy _ _ _ _ _ HI)) as HP.
  destruct (kfree_block_full ly Hly s L B G i v HI Hb Hn Hf) as (s1 & L1 & B1 & E1 & _ & HI1 & HD & Hs & _ & _ & (w & l & Hw & Hhead)).
  destruct (freed_merged s1 L1 B G i v B1 HI1 HP HD (proj1 Hb) Hv Hbud) as (w' & Hlt & Hw'). rewrite Hw in Hw'. injection Hw' as <-.
  destruct (po_range _ HP _ _ _ (proj1 Hb)) as [_ Hv0]. pose proof (Z.pow_pos_nonneg 2 w ltac:(lia) ltac:(lia)) as Hpos.
  assert (2 ^ w ≤ 64) as H64 by (change 64 with (2 ^ 6); apply Z.pow_le_mono_r; unfold MAXORDER in *; lia).
  assert (2 ≤ 2 ^ w) as H2 by (change 2 with (2 ^ 1) at 1; apply Z.pow_le_mono_r; lia).
  pose proof (page_order_exact w ltac:(lia)) as Ep.
  assert (can_alloc B1 (page_order (0x1000 * 2 ^ w))) as Hcan by (exists i, w; split; [lia|done]).
  destruct (alloc_page_ok ly Hly s1 L1 B1 _ (hp_buddy _ _ _ _ _ HI1) (hp_settled _ _ _ _ _ HI1) Hcan) as (i' & sx & _ & _ & Ea & _ & _ & _ & _ & _ & _ & Hfirst).
  rewrite Ep in Hfirst. rewrite (Hfirst i l Hhead) in Ea.
  assert ((0x1000 * 2 ^ w <=? 0x200) = false) as Hbig by (apply Z.leb_gt; lia).
  destruct (kmalloc_run ly Hly s1 L1 B1 G (0x1000 * 2 ^ w) HI1) as (p & s2 & L2 & B2 & G2 & E2 & _ & HI2 & _ & _ & Hnew & Hown); [lia|by unfold can_kmalloc; rewrite Hbig|].
  rewrite Hbig in Hnew. destruct Hnew as (j & -> & _ & -> & _).
  assert (kmalloc ly (0x1000 * 2 ^ w) s1 = alloc_page ly (0x1000 * 2 ^ w) s1) as Ek.
  { unfold kmalloc. rewrite u32_small by lia. change (Z.shiftl 0x20 MAXBINORDER) with 0x200. by rewrite Hbig. }
  rewrite Ek, Ea in E2. injection E2 as Ej <-. rewrite <- Ej in *.
  assert (kmalloc_size (0x1000 * 2 ^ w) = 0x1000 * 2 ^ w) as Es by (unfold kmalloc_size; by rewrite Hbig, Ep).
  exists w, s1, sx, L2, B2. split; [done|]. split; [done|]. split; [by rewrite Ek|]. split; [done|]. split; [apply Hown; right; by rewrite Es|].
  split; [by apply (block_end_inside i v); [lia|]|]. intros q n Hq Hne. apply Hown. left. apply (freed_owned L L1 B B1 G i v); [|done..].
  intros x k Hx. by apply (hp_carved _ _ _ _ _ HI x k).
Qed.
End merge.

(** *** A heap with such a block *)

(** Other blocks of the same frames: nothing is carved, and nothing more is free. *)
Lemma heap_inv_blocks ly s L B s' L' B' : layout_ok ly → heap_inv ly s L B ∅ → buddy_inv ly s' L' B' → settled B' → same_lists ly L L' →
  (∀ x, free_frame B' x → free_frame B x) → heap_inv ly s' L' B' ∅.
Proof.
  intros Hly [HI HS HC HB HN HF HX HQ] HI' HS' Hsl Hff. split; [done|done| | | | |intros; by rewrite lookup_empty|].
  - intros i k Hi. by rewrite lookup_empty in Hi.
  - intros k Hk. destruct (HB k Hk) as (l & Hl & Hin). exists l. split; [|done]. rewrite Hsl; [done|]. intros w Hw E. symmetry in E. revert E. by apply free_bin_head.
  - intros p x Hp Hx Hin Hf%Hff. destruct (node_same_lists ly _ _ _ _ _ _ _ HI HI' Hsl Hp) as [Hp'|(j & Hj & ->)];
      [by apply (HN p x)|by apply (HF j x)].
  - intros j x Hj Hx Hin Hf%Hff. by apply (HF j x).
  - intros p x k _ _ Hx. by rewrite lookup_empty in Hx.
Qed.

(** An order-6 block of the boot split in two halves: the upper one in use. *)
Lemma merge_ex : ∃ s L B, heap_inv layout_ex s L B ∅ ∧ B !! 0x10020 = Some (5, Busy) ∧ B !! 0x10000 = Some (5, Avail) ∧
  ∀ p x, page_cells layout_ex L p → hi 5 x 0x10020 → ¬ in_page p x.
Proof.
  pose proof layout_ex_ok as Hly. destruct heap_ex_boot as (s & L & B & HI & _ & _ & _ & HW & _). pose proof (hp_buddy _ _ _ _ _ HI) as HB.
  set (a := 0x10000). set (b := 0x10020). set (h6 := free_head layout_ex 6). set (h5 := free_head layout_ex 5).
  assert (flip a 5 = b) as Eab by done. assert (a ≠ b ∧ h5 ≠ h6) as [Hab Hh] by (split; [done|by intros ?%free_head_inj]).
  assert (B !! a = Some (6, Avail)) as Ha by (apply (HW a); done).
  destruct (fl_free _ _ _ (bi_free _ _ _ _ HB) 6) as (l & El & Hl); [by unfold MAXORDER|].
  destruct (list_elem_of_split l (faddr layout_ex a)) as (l1 & l2 & ->); [apply Hl; by exists a|].
  destruct (take_ok layout_ex Hly s L B a 6 l1 l2 HB Ha El) as (m1 & _ & HB1 & _).
  destruct (fl_free _ _ _ (bi_free _ _ _ _ HB1) 5) as (l5 & El5 & _); [by unfold MAXORDER|].
  destruct (split_frame_ok layout_ex Hly _ _ _ a 5 l5 HB1) as (s2 & _ & _ & HB2); [by rewrite lookup_insert_eq|done|done|].
  rewrite Eab in HB2. destruct (put_ok layout_ex Hly _ _ _ a 5 (faddr layout_ex b :: l5) HB2) as (m3 & _ & HB3).
  { by rewrite lookup_insert_ne, lookup_insert_eq. } { by rewrite lookup_insert_eq. }
  destruct (take_ok layout_ex Hly _ _ _ b 5 [faddr layout_ex a] l5 HB3) as (m4 & _ & HB4 & _).
  { by rewrite lookup_insert_ne, lookup_insert_eq. } { by rewrite lookup_insert_eq. }
  set (L4 := <[_ := [faddr layout_ex a] ++ l5]> _) in HB4. set (B4 := <[b := (5, Held)]> _) in HB4. set (s4 := with_lm m4 _) in HB4.
  set (s5 := with_fr (upd layout_ex (fr s4) b (set_used 1)) s4). set (B5 := <[b := (5, Busy)]> B4).
  assert (B4 !! b = Some (5, Held)) as H4 by apply lookup_insert_eq.
  assert (B5 !! b = Some (5, Busy)) as Hb5 by apply lookup_insert_eq.
  assert (B5 !! a = Some (5, Avail)) as Ha5 by (unfold B5, B4; rewrite !lookup_insert_ne by done; apply lookup_insert_eq).
  assert (∀ j, j ≠ a → j ≠ b → B5 !! j = B !! j) as Ho5 by (intros j H1 H2; unfold B5, B4; by rewrite !lookup_insert_ne).
  assert (buddy_inv layout_ex s5 L4 B5) as HB5.
  { pose proof HB4 as [Hb Hl4 HP Hfr Hfl]. split; [done|done|by apply (part_ok_status B4 b 5 Held)|by apply (frames_ok_status layout_ex _ _ b 5 Held)|].
    apply (free_ok_same layout_ex L4 B4); [done|]. intros j w. unfold B5. split.
    - intros [[? [=]]|[? ?]]%lookup_insert_Some; done.
    - intros Hj. rewrite lookup_insert_ne; [done|]. intros <-. congruence. }
  assert (same_lists layout_ex L L4) as Hsl.
  { unfold L4. repeat (etransitivity; [|apply same_lists_insert; by unfold MAXORDER]). done. }
  assert (∀ x, hi 5 x a ∨ hi 5 x b → free_frame B x) as Hab5.
  { intros x Hx. exists a, 6. split; [done|]. destruct Hx as [Hx|Hx]; [by apply (hi_mono 5)|].
    apply (hi_trans _ _ b); [by apply (hi_mono 5)|]. rewrite <- Eab. by apply hi_flip. }
  exists s5, L4, B5. split; [|split; [done|split; [done|]]].
  - apply (heap_inv_blocks layout_ex s L B s5 L4 B5 Hly HI HB5); [|done|].
    + intros j w Hj. destruct (decide (j = a)) as [->|]; [congruence|]. destruct (decide (j = b)) as [->|]; [congruence|].
      rewrite Ho5 in Hj by done. by apply (hp_settled _ _ _ _ _ HI j w).
    + intros x (j & w & Hj & Hx). destruct (decide (j = a)) as [->|]; [apply Hab5; left; by simplify_eq|].
      destruct (decide (j = b)) as [->|]; [congruence|]. exists j, w. by rewrite <- Ho5.
  - intros p x Hp Hx Hin. pose proof (Hab5 x (or_intror Hx)) as Hf. pose proof (free_frame_range B x (bi_part _ _ _ _ HB) Hf) as Hr.
    assert (node L p ∨ ∃ j, 0 ≤ j < FRAMES_COUNT ∧ p = faddr layout_ex j) as [Hn|(j & Hj & ->)].
    { destruct Hp as [Hp|Hp]; [by apply (node_same_lists layout_ex s L B s5 L4 B5)|by right]. }
    + by apply (hp_nodes _ _ _ _ _ HI p x).
    + by apply (hp_frames _ _ _ _ _ HI j x).
Qed.

Lemma merged_block_overlaps_witness : ∃ s w s1 s2, kfree layout_ex (page_addr 0x10020) s = Ok s1 ∧
  kmalloc layout_ex (0x1000 * 2 ^ w) s1 = Ok (page_addr 0x10020, s2) ∧ block_end 0x10020 w < page_addr 0x10020 + 0x1000 * 2 ^ w.
Proof.
  destruct merge_ex as (s & L & B & HI & Hb & Ha & Hc).
  destruct (merged_block_overlaps layout_ex layout_ex_ok s L B ∅ 0x10020 5 HI) as (w & s1 & s2 & L2 & B2 & _ & E1 & E2 & _ & _ & He & _).
  - split; [exact Hb|apply lookup_empty].
  - intros p x Hp. apply Hc. left. exact Hp.
  - intros j x Hj. apply Hc. right. exists j. split; [exact Hj|reflexivity].
  - reflexivity.
  - exact Ha.
  - reflexivity.
  - exists s, w, s1, s2. split; [exact E1|]. split; [exact E2|apply He].
Defined.
