(* ===== verification/PageAlloc.v ===== *)
(** What the page-table code may assume of [kmalloc] when it asks for a page;
    the heap of Heap.v provides it. *)
From S2P Require Import Prelude Util ListHead Lock Malloc Buddy Reserve Heap Alloc KAlloc.
Local Open Scope Z_scope.

Class PageAlloc (alloc : Z → mstate → res (Z * mstate)) : Type := {
  pa_ghost : Type;
  pa_inv : mstate → pa_ghost → Prop;
  (** The frames in use. *)
  pa_used : pa_ghost → Z → Prop;
  (** There is room for that many pages. *)
  pa_room : pa_ghost → nat → Prop;
  pa_room_less g n : pa_room g (S n) → pa_room g n;
  (** A page that was not in use is handed out, and no other page is affected. *)
  pa_alloc s g n : pa_inv s g → pa_room g (S n) →
    ∃ i s' g', alloc 0x1000 s = Ok (page_addr i, s') ∧ lk s' = lk s ∧ 0 ≤ i < FRAMES_COUNT ∧
      pa_inv s' g' ∧ pa_room g' n ∧ ¬ pa_used g i ∧ (∀ x, pa_used g' x ↔ pa_used g x ∨ x = i);
}.

Lemma page_addr_inj i j : page_addr i = page_addr j → i = j.
Proof. unfold page_addr. lia. Qed.

(** The physical address of a frame, and back. *)
Lemma page_phys i : 0 ≤ i < FRAMES_COUNT → VIRT_TO_PHYS (page_addr i) = 0x1000 * i ∧ PHYS_TO_VIRT (0x1000 * i) = page_addr i.
Proof.
  unfold FRAMES_COUNT, page_addr, VIRT_TO_PHYS, PHYS_TO_VIRT. change FRAME_START with VIRT_BASE. intros Hi.
  rewrite !u64_small by (unfold VIRT_BASE; lia). split; lia.
Qed.

Section kmalloc_instance.
Context (ly : layout) (Hly : layout_ok ly).

(** The rings, the blocks and the carved pages of Heap.v. *)
Definition heap_ghost : Type := gmap Z (list Z) * blocks * carving.

(** As many distinct free frames. *)
Definition room_for (B : blocks) (n : nat) : Prop :=
  ∃ l, length l = n ∧ NoDup l ∧ Forall (free_frame B) l.

Lemma room_can_alloc s L B n : buddy_inv ly s L B → room_for B (S n) → can_alloc B 0.
Proof using.
  intros HI ([|x l] & Hl & _ & Hf); [done|]. apply Forall_cons in Hf as [(i & v & Hi & _) _].
  exists i, v. split; [|done]. apply (po_range B (bi_part _ _ _ _ HI) i v Avail Hi).
Qed.

Lemma room_allocated B i B' n : room_for B (S n) → allocated B i 0 B' → room_for B' n.
Proof using.
  intros (l & Hl & Hnd & Hf) [_ _ Hfree _ _ _].
  assert (∃ l', length l' = n ∧ NoDup l' ∧ Forall (free_frame B) l' ∧ i ∉ l') as (l' & Hl' & Hnd' & Hf' & Hi).
  { destruct (decide (i ∈ l)) as [Hin|Hin].
    - apply list_elem_of_split in Hin as (l1 & l2 & ->).
      exists (l1 ++ l2). rewrite !length_app in *. simpl in Hl. split; [lia|].
      pose proof (Permutation_middle l1 l2 i) as HP. rewrite <- HP in Hnd, Hf.
      apply NoDup_cons in Hnd as [Hni Hnd]. apply Forall_cons in Hf as [_ Hf]. done.
    - destruct l as [|y l]; [done|]. exists l. apply NoDup_cons in Hnd as [_ Hnd]. apply Forall_cons in Hf as [_ Hf].
      injection Hl as Hl. split; [done|]. split; [done|]. split; [done|]. intros Hx. apply Hin. by right. }
  exists l'. split; [done|]. split; [done|]. apply Forall_forall. intros x Hx. apply Hfree. split.
  - by eapply Forall_forall in Hf'.
  - intros ->%hi_0_eq. done.
Qed.

Lemma room_less B n : room_for B (S n) → room_for B n.
Proof using.
  intros ([|x l] & Hl & Hnd & Hf); [done|]. exists l. injection Hl as Hl. apply NoDup_cons in Hnd as [_ Hnd].
  by apply Forall_cons in Hf as [_ Hf].
Qed.

Lemma kmalloc_page s (g : heap_ghost) n : heap_inv ly s g.1.1 g.1.2 g.2 → room_for g.1.2 (S n) →
  ∃ i s' (g' : heap_ghost), kmalloc ly 0x1000 s = Ok (page_addr i, s') ∧ lk s' = lk s ∧ 0 ≤ i < FRAMES_COUNT ∧
    heap_inv ly s' g'.1.1 g'.1.2 g'.2 ∧ room_for g'.1.2 n ∧ ¬ ¬ free_frame g.1.2 i ∧
    (∀ x, ¬ free_frame g'.1.2 x ↔ ¬ free_frame g.1.2 x ∨ x = i).
Proof using Hly.
  destruct g as [[L B] G]. cbn [fst snd]. intros HI Hroom.
  pose proof (room_can_alloc s L B n (hp_buddy _ _ _ _ _ HI) Hroom) as HC.
  destruct (heap_alloc_page ly Hly s L B G 0x1000 HI HC) as (i & s' & L' & B' & E & Hi & HR & _ & HI' & HA & _).
  exists i, s', (L', B', G). cbn [fst snd]. change (page_order 0x1000) with 0 in HA.
  pose proof HA as [_ A2 A3 _ _ _]. split_and!; try done; try lia.
  - by destruct HR as (_ & _ & -> & _).
  - by eapply room_allocated.
  - intros Hn. apply Hn, A2. apply hi_refl.
  - intros x. rewrite A3. split.
    + intros Hx. destruct (decide (x = i)) as [->|Hne]; [by right|]. left. intros Hf. apply Hx. split; [done|].
      by intros ->%hi_0_eq.
    + intros [Hx| ->] [Hf Hh]; [done|]. apply Hh, hi_refl.
Qed.

#[export] Instance kmalloc_PageAlloc : PageAlloc (kmalloc ly) := {|
  pa_ghost := heap_ghost;
  pa_inv s g := heap_inv ly s g.1.1 g.1.2 g.2;
  pa_used g x := ¬ free_frame g.1.2 x;
  pa_room g n := room_for g.1.2 n;
  pa_room_less g n := room_less g.1.2 n;
  pa_alloc := kmalloc_page;
|}.
End kmalloc_instance.

(** A free block of 64 pages is room for 64 pages. *)
Lemma big_blocks_room (B : blocks) n : part_ok B → big_blocks B 1 → (n ≤ 64)%nat → room_for B n.
Proof.
  intros HP ([|j [|j' l]] & Hl & _ & Hf) Hn; [done| |done]. apply Forall_cons in Hf as [Hj _].
  exists ((λ x, 64 * (j / 64) + x) <$> seqZ 0 (Z.of_nat n)). split; [rewrite length_fmap, length_seqZ; lia|]. split.
  - apply NoDup_fmap_2; [intros x y; lia|apply NoDup_seqZ].
  - apply Forall_forall. intros x (y & -> & Hy)%list_elem_of_fmap. apply elem_of_seqZ in Hy.
    exists j, MAXORDER. split; [done|]. apply hi_div; [done|]. change (2 ^ MAXORDER) with 64.
    rewrite Z.mul_comm, Z.div_add_l by lia. rewrite (Z.div_small y) by lia. lia.
Qed.

(** ** A heap for the examples *)

#[global] Instance PageAlloc_ex : PageAlloc (kmalloc layout_ex) := kmalloc_PageAlloc layout_ex layout_ex_ok.

Lemma page_ex n : (n ≤ 1000)%nat → ∃ s g, pa_inv s g ∧ pa_room g n.
Proof.
  intros Hn. destruct heap_ex_free as (s & L & B & HI & _ & _ & HF). exists s, (L, B, ∅). split; [exact HI|].
  exists (seqZ 0x10000 (Z.of_nat n)). split; [rewrite length_seqZ; lia|]. split; [apply NoDup_seqZ|].
  apply Forall_forall. intros x Hx. apply HF. apply elem_of_seqZ in Hx. lia.
Qed.
