(* ===== verification/Mmu.v ===== *)
(** lib/mmu.c and include/mmu.h: translation tables. The tables are words of
    64 bits at kernel virtual addresses; the walk the hardware makes through
    them is the specification. *)
From S2P Require Import Prelude Util ListHead Lock Malloc Buddy PageAlloc.
Local Open Scope Z_scope.

Definition ENTRY_ADDR_MASK : Z := 0xfffffffff000.
Definition MAIR_IDX_DEVICE_nGnRnE : Z := 0.
Definition MAIR_IDX_NORMAL_NOCACHE : Z := 1.
Definition BOOT_PGD : Z := 0x1000.
Definition BOOT_PUD : Z := 0x2000.
Definition BOOT_PMD : Z := 0x3000.
Definition PD_TABLE : Z := 3.
Definition PD_BLOCK : Z := 1.
Definition PD_UNX : Z := Z.shiftl 1 54.
Definition PD_KNX : Z := Z.shiftl 1 53.
Definition PD_ACCESS : Z := Z.shiftl 1 10.
Definition PD_UK_ACCESS : Z := Z.shiftl 1 6.
Definition PD_RDONLY : Z := Z.shiftl 1 7.
Definition PD_BE : Z := Z.lor PD_BLOCK PD_ACCESS.
Definition PROT_X : Z := 4.
Definition PROT_W : Z := 2.
Definition PROT_R : Z := 1.

(** The allocator and the memory of the tables; reading a word that was never
    written is undefined. *)
Record mm := Mm { mm_heap : mstate; words : gmap Z Z }.
Definition with_mm_heap (h : mstate) (s : mm) : mm := Mm h (words s).
Definition get_word (a : Z) (s : mm) : res Z := load (words s !! a).
Definition set_word (a v : Z) (s : mm) : mm := Mm (mm_heap s) (<[a := u64 v]> (words s)).

(** [&table[idx]] *)
Definition entry (table idx : Z) : Z := table + 8 * idx.

(** [memset(table, 0, 0x1000)], by words. *)
Definition clear_table (table : Z) (s : mm) : res mm :=
  for_loop 512 0 (λ i s, mret (set_word (entry table i) 0 s)) s.

(** [(virt_addr >> (39 - level * 9)) & 0x1ff] *)
Definition index (virt_addr level : Z) : Z := Z.land (Z.shiftr virt_addr (39 - level * 9)) 0x1ff.

Section mmu.
(** [kmalloc] and [kfree]. *)
Context (alloc : Z → mstate → res (Z * mstate)) (free : Z → mstate → res mstate).

(** The loop of [mapping] from [level], [n] levels before its end. *)
Fixpoint mapping_from (n : nat) (level table virt_addr phys_addr protected : Z) (s : mm) : res mm :=
  match n with
  | O => mret s
  | S n =>
      let a := entry table (index virt_addr level) in
      if level =? 3 then
        let s := set_word a phys_addr s in
        e ← get_word a s;
        mret (set_word a (Z.lor e (Z.lor (Z.lor (Z.lor (Z.lor PD_ACCESS PD_TABLE) (Z.shiftl MAIR_IDX_NORMAL_NOCACHE 2)) PD_KNX) protected)) s)
      else
        e ← get_word a s;
        s ← (if Z.land e 1 =? 0 then
               '(newtable, h) ← alloc 0x1000 (mm_heap s);
               s ← clear_table newtable (with_mm_heap h s);
               let s := set_word a (VIRT_TO_PHYS newtable) s in
               e ← get_word a s;
               mret (set_word a (Z.lor e (Z.lor (Z.lor PD_ACCESS PD_TABLE) (Z.shiftl MAIR_IDX_NORMAL_NOCACHE 2))) s)
             else mret s);
        e ← get_word a s;
        mapping_from n (level + 1) (PHYS_TO_VIRT (Z.land e ENTRY_ADDR_MASK)) virt_addr phys_addr protected s
  end.
Definition mapping (pgd virt_addr phys_addr protected : Z) (s : mm) : res mm :=
  mapping_from 4 0 pgd virt_addr phys_addr protected s.

Definition prot_flags (protected : Z) : Z :=
  let flag := 0 in
  let flag := if Z.land protected PROT_X =? 0 then Z.lor flag PD_UNX else flag in
  let flag := if Z.land protected PROT_W =? 0 then Z.lor flag PD_RDONLY else flag in
  if Z.land protected PROT_R =? 0 then flag else Z.lor flag PD_UK_ACCESS.
Definition mapping_set_prot (pgd_p virt_addr phys_addr protected : Z) (s : mm) : res mm :=
  mapping pgd_p virt_addr phys_addr (prot_flags protected) s.

(** [for (size_t s = 0; s < size; s += 0x1000)] *)
Definition map_pages (virt_pgd_p va size pa flag : Z) (s : mm) : res mm :=
  let pa := u64 (pa - pa mod 0x1000) in
  for_loop (Z.to_nat ((size + 0xfff) / 0x1000)) 0
    (λ i s, mapping virt_pgd_p (u64 (va + 0x1000 * i)) (u64 (pa + 0x1000 * i)) flag s) s.

(** [free_pages]; the recursion is bounded by [n] levels. *)
Fixpoint free_pages_from (n : nat) (page_table level : Z) (s : mm) : res mm :=
  match n with
  | O => Fuel
  | S n =>
      let table := PHYS_TO_VIRT page_table in
      for_loop 512 0 (λ i s,
        e ← get_word (entry table i) s;
        if Z.land e 1 =? 0 then
          let next_table := Z.land e ENTRY_ADDR_MASK in
          if negb (Z.land e PD_TABLE =? 0) then
            s ← (if negb (level =? 2) then free_pages_from n next_table (level + 1) s else mret s);
            let s := set_word (entry table i) 0 s in
            h ← free (PHYS_TO_VIRT next_table) (mm_heap s);
            mret (with_mm_heap h s)
          else mret s
        else mret s) s
  end.
Definition free_pages (page_table level : Z) (s : mm) : res mm := free_pages_from 3 page_table level s.
End mmu.

(** [kernel_mmu_init] runs before translation is on: its addresses are physical. *)
Definition kernel_mmu_init (s : mm) : res mm :=
  let s := set_word (entry BOOT_PGD 0) (Z.lor BOOT_PUD PD_TABLE) s in
  let s := set_word (entry BOOT_PUD 0) (Z.lor BOOT_PMD PD_TABLE) s in
  let s := set_word (entry BOOT_PUD 1) (Z.lor (Z.lor 0x40000000 (Z.shiftl MAIR_IDX_DEVICE_nGnRnE 2)) PD_BE) s in
  s ← for_loop 504 0 (λ i s,
        mret (set_word (entry BOOT_PMD i) (Z.lor (Z.lor (i * Z.shiftl 1 21) (Z.shiftl MAIR_IDX_NORMAL_NOCACHE 2)) PD_BE) s)) s;
  for_loop 8 504 (λ i s,
        mret (set_word (entry BOOT_PMD i) (Z.lor (Z.lor (i * Z.shiftl 1 21) (Z.shiftl MAIR_IDX_DEVICE_nGnRnE 2)) PD_BE) s)) s.

(** ** What the hardware does with the tables *)

(** A walk with 4 KiB granule from [level]: the descriptor that maps the
    address, and its level. [acc] is where a physical word is in [w]. *)
Fixpoint hw_walk (acc : Z → Z) (w : gmap Z Z) (n : nat) (level table va : Z) : option (Z * Z) :=
  match n with
  | O => None
  | S n =>
      d ← w !! entry (acc table) (index va level);
      if negb (Z.testbit d 0) then None
      else if level =? 3 then if Z.testbit d 1 then Some (d, 3) else None
      else if Z.testbit d 1 then hw_walk acc w n (level + 1) (Z.land d ENTRY_ADDR_MASK) va
      else if level =? 0 then None else Some (d, level)
  end.

(** The physical address: the descriptor's address bits above the page or block. *)
Definition translate (acc : Z → Z) (w : gmap Z Z) (root va : Z) : option Z :=
  '(d, level) ← hw_walk acc w 4 0 root va;
  let k := 39 - level * 9 in
  Some (Z.lor (Z.shiftl (Z.shiftr (Z.land d ENTRY_ADDR_MASK) k) k) (va mod 2 ^ k)).

(** ** Bits of a descriptor *)

Lemma mask_bit n : 0 ≤ n → Z.testbit ENTRY_ADDR_MASK n = (12 <=? n) && (n <? 48).
Proof.
  intros Hn. change ENTRY_ADDR_MASK with (Z.shiftl (Z.ones 36) 12). destruct (Z.leb_spec 12 n).
  - rewrite Z.shiftl_spec, Z.testbit_ones by lia. rewrite (proj2 (Z.leb_le _ _)) by lia.
    destruct (Z.ltb_spec n 48), (Z.ltb_spec (n - 12) 36); done || lia.
  - by rewrite Z.shiftl_spec_low.
Qed.

(** A page-aligned address of 48 bits. *)
Definition page_bits (a : Z) : Prop := 0 ≤ a < 2 ^ 48 ∧ a mod 0x1000 = 0.

Lemma page_bits_low a n : page_bits a → 0 ≤ n → n < 12 ∨ 48 ≤ n → Z.testbit a n = false.
Proof.
  intros [Ha Hm] Hn [Hlt|Hge].
  - apply Z.mod_divide in Hm as [k ->]; [|lia]. change 0x1000 with (2 ^ 12). by rewrite Z.mul_pow2_bits_low.
  - rewrite <- (Z.mod_small a (2 ^ 48)) by done. by apply Z.mod_pow2_bits_high.
Qed.

(** Flags outside the address bits do not disturb the address. *)
Definition flag_bits (f : Z) : Prop := 0 ≤ f < 2 ^ 64 ∧ Z.land f ENTRY_ADDR_MASK = 0.

Lemma desc_addr a f : page_bits a → flag_bits f → Z.land (Z.lor a f) ENTRY_ADDR_MASK = a.
Proof.
  intros Ha [_ Hf]. rewrite Z.land_lor_distr_l, Hf, Z.lor_0_r. apply Z.bits_inj'. intros n Hn.
  rewrite Z.land_spec, mask_bit by done. destruct (Z.leb_spec 12 n), (Z.ltb_spec n 48); cbn [andb];
    rewrite ?andb_true_r, ?andb_false_r; try done; symmetry; apply page_bits_low; done || lia.
Qed.

Lemma desc_range a f : page_bits a → flag_bits f → 0 ≤ Z.lor a f < 2 ^ 64.
Proof.
  intros Ha [Hf _]. assert (u64 (Z.lor a f) = Z.lor a f) as <-; [|apply u64_range].
  apply Z.bits_inj'. intros n Hn. rewrite u64_testbit, Z.lor_spec. destruct (Z.ltb_spec n 64); [done|]. cbn [andb].
  rewrite page_bits_low by (done || lia). rewrite <- (Z.mod_small f (2 ^ 64)) by done.
  by rewrite Z.mod_pow2_bits_high by lia.
Qed.

Lemma desc_bit a f n : page_bits a → 0 ≤ n < 12 → Z.testbit (Z.lor a f) n = Z.testbit f n.
Proof. intros Ha Hn. rewrite Z.lor_spec, page_bits_low by (done || lia). done. Qed.

Lemma frame_bits i : 0 ≤ i < FRAMES_COUNT → page_bits (0x1000 * i).
Proof. unfold FRAMES_COUNT. intros Hi. split; [lia|]. rewrite Z.mul_comm. by apply Z.mod_mul. Qed.

Lemma index_range va l : 0 ≤ index va l < 512.
Proof. unfold index. change 0x1ff with (Z.ones 9). rewrite Z.land_ones by lia. by apply Z.mod_pos_bound. Qed.
