(* ===== verification/PageTable.v ===== *)
(** The tables of a process as a tree, and what lib/mmu.c does to it: [mapping]
    refines the update of one page of an address space. *)
From S2P Require Import Prelude Util ListHead Lock Malloc Buddy Heap PageAlloc Mmu.
Local Open Scope Z_scope.

(** ** The tree *)

(** The tables of a process by the path of indices that leads to them: the frame
    each one is in. *)
Abbreviation tables := (gmap (list Z) Z).

Definition table_flags : Z := Z.lor (Z.lor PD_ACCESS PD_TABLE) (Z.shiftl MAIR_IDX_NORMAL_NOCACHE 2).
Definition page_flags (protected : Z) : Z :=
  Z.lor (Z.lor (Z.lor (Z.lor PD_ACCESS PD_TABLE) (Z.shiftl MAIR_IDX_NORMAL_NOCACHE 2)) PD_KNX) protected.
Definition table_desc (i : Z) : Z := Z.lor (0x1000 * i) table_flags.

Record tree_ok (used : Z → Prop) (w : gmap Z Z) (root : Z) (T : tables) : Prop := {
  tr_root : T !! [] = Some root;
  tr_frame : ∀ q i, T !! q = Some i → 0 ≤ i < FRAMES_COUNT ∧ used i ∧ (length q ≤ 3)%nat;
  tr_inj : ∀ q1 q2 i, T !! q1 = Some i → T !! q2 = Some i → q1 = q2;
  tr_up : ∀ q x i, T !! (q ++ [x]) = Some i → is_Some (T !! q);
  (* every entry of an inner table leads to the table below it or is 0 *)
  tr_entry : ∀ q i x, T !! q = Some i → 0 ≤ x < 512 → ∃ d, w !! entry (page_addr i) x = Some d ∧
    ((length q < 3)%nat → match T !! (q ++ [x]) with
       | Some j => d = table_desc j
       | None => d = 0
       end);
}.

(** The address space: the descriptor of each page, by the path of its last table
    and its index there. *)
Definition leaf (w : gmap Z Z) (T : tables) (q : list Z) (x : Z) : Z :=
  match T !! q with Some i => default 0 (w !! entry (page_addr i) x) | None => 0 end.

Definition path (n : nat) (va : Z) : list Z := index va <$> seqZ 0 (Z.of_nat n).

Lemma path_S n va : path (S n) va = path n va ++ [index va (Z.of_nat n)].
Proof.
  unfold path. replace (Z.of_nat (S n)) with (Z.of_nat n + 1) by lia.
  rewrite (seqZ_app 0 (Z.of_nat n) 1), fmap_app by lia. done.
Qed.
Lemma path_length n va : length (path n va) = n.
Proof. unfold path. rewrite length_fmap, length_seqZ. lia. Qed.

Lemma entry_inj i j x y : 0 ≤ x < 512 → 0 ≤ y < 512 → entry (page_addr i) x = entry (page_addr j) y → i = j ∧ x = y.
Proof. unfold entry, page_addr. lia. Qed.

Lemma table_flags_ok : flag_bits table_flags.
Proof. split; [|reflexivity]. change table_flags with 0x407. lia. Qed.

Lemma table_desc_ok i : 0 ≤ i < FRAMES_COUNT →
  Z.testbit (table_desc i) 0 = true ∧ Z.testbit (table_desc i) 1 = true ∧
  Z.land (table_desc i) ENTRY_ADDR_MASK = 0x1000 * i ∧ 0 ≤ table_desc i < 2 ^ 64.
Proof.
  intros Hi. pose proof (frame_bits i Hi) as Hb. unfold table_desc. rewrite !desc_bit by (done || lia).
  split; [done|]. split; [done|]. split; [by apply desc_addr, table_flags_ok|by apply desc_range, table_flags_ok].
Qed.

Lemma land_1_testbit d : Z.land d 1 = 0 ↔ Z.testbit d 0 = false.
Proof.
  split; intros H.
  - apply (f_equal (λ z, Z.testbit z 0)) in H. rewrite Z.land_spec in H. by rewrite andb_true_r in H.
  - apply Z.bits_inj'. intros n Hn. rewrite Z.land_spec, Z.bits_0. destruct (decide (n = 0)) as [->|Hne]; [by rewrite H|].
    replace (Z.testbit 1 n) with false; [apply andb_false_r|]. symmetry.
    change 1 with (2 ^ 0). rewrite Z.pow2_bits_false; [done|lia].
Qed.

Section tree.
Context (used : Z → Prop).

Lemma path_up w root T n va : tree_ok used w root T → T !! path n va = None → T !! path (S n) va = None.
Proof using.
  intros HT Hn. destruct (T !! path (S n) va) as [i|] eqn:E; [|done].
  rewrite path_S in E. destruct (tr_up _ _ _ _ HT _ _ _ E) as [j Hj]. congruence.
Qed.

(** One level of the walk. *)
Lemma walk_step w root T n i va : tree_ok used w root T → T !! path n va = Some i → (n < 3)%nat →
  hw_walk PHYS_TO_VIRT w (4 - n) (Z.of_nat n) (0x1000 * i) va =
    match T !! path (S n) va with
    | Some j => hw_walk PHYS_TO_VIRT w (4 - S n) (Z.of_nat (S n)) (0x1000 * j) va
    | None => None
    end.
Proof using.
  intros HT Hi Hn. destruct (tr_frame _ _ _ _ HT _ _ Hi) as (Hr & _).
  destruct (tr_entry _ _ _ _ HT _ i (index va (Z.of_nat n)) Hi (index_range _ _)) as (d & Ed & Hd).
  rewrite path_length in Hd. specialize (Hd Hn). rewrite <- path_S in Hd.
  replace (4 - n)%nat with (S (4 - S n)) by lia. cbn [hw_walk].
  rewrite (proj2 (page_phys i Hr)), Ed. cbn [mbind option_bind].
  destruct (T !! path (S n) va) as [j|] eqn:Ej; [|by rewrite Hd].
  subst d. destruct (tr_frame _ _ _ _ HT _ _ Ej) as (Hj & _). destruct (table_desc_ok j Hj) as (B0 & B1 & A & _).
  rewrite B0. cbn [negb]. rewrite (proj2 (Z.eqb_neq (Z.of_nat n) 3)) by lia. rewrite B1, A.
  by replace (Z.of_nat n + 1) with (Z.of_nat (S n)) by lia.
Qed.

(** The walk only depends on the address space. *)
Lemma walk_leaf w root T va : tree_ok used w root T →
  hw_walk PHYS_TO_VIRT w 4 0 (0x1000 * root) va =
    let d := leaf w T (path 3 va) (index va 3) in if Z.testbit d 0 && Z.testbit d 1 then Some (d, 3) else None.
Proof using.
  intros HT. unfold leaf. pose proof (λ n, path_up w root T n va HT) as U.
  etransitivity; [exact (walk_step w root T 0 root va HT (tr_root _ _ _ _ HT) ltac:(lia))|].
  destruct (T !! path 1 va) as [i1|] eqn:E1; [|by rewrite (U 2%nat (U 1%nat E1))].
  etransitivity; [exact (walk_step w root T 1 i1 va HT E1 ltac:(lia))|].
  destruct (T !! path 2 va) as [i2|] eqn:E2; [|by rewrite (U 2%nat E2)].
  etransitivity; [exact (walk_step w root T 2 i2 va HT E2 ltac:(lia))|].
  destruct (T !! path 3 va) as [i3|] eqn:E3; [|done].
  destruct (tr_frame _ _ _ _ HT _ _ E3) as (Hr & _).
  destruct (tr_entry _ _ _ _ HT _ i3 (index va 3) E3 (index_range _ _)) as (d & Ed & _).
  cbn [Nat.sub hw_walk]. change (Z.of_nat 3) with 3. rewrite (proj2 (page_phys i3 Hr)), Ed.
  cbn [mbind option_bind default from_option id Z.eqb Pos.eqb].
  destruct (Z.testbit d 0), (Z.testbit d 1); done.
Qed.
End tree.

(** ** A page of cleared memory *)

Lemma clear_table_ok t s : ∃ s', clear_table t s = Ok s' ∧ mm_heap s' = mm_heap s ∧
  (∀ x, 0 ≤ x < 512 → words s' !! entry t x = Some 0) ∧
  (∀ a, (∀ x, 0 ≤ x < 512 → a ≠ entry t x) → words s' !! a = words s !! a).
Proof.
  unfold clear_table.
  destruct (for_loop_inv (λ i s', mm_heap s' = mm_heap s ∧ (∀ x, 0 ≤ x < i → words s' !! entry t x = Some 0) ∧
    (∀ a, (∀ x, 0 ≤ x < 512 → a ≠ entry t x) → words s' !! a = words s !! a))
    (λ i s, mret (set_word (entry t i) 0 s)) 512 0 s) as (s' & E & H1 & H2 & H3).
  - split; [done|]. split; [lia|done].
  - intros j s1 Hj (H1 & H2 & H3). eexists. split; [done|]. cbn [set_word mm_heap words]. split; [done|]. split.
    + intros x Hx. destruct (decide (x = j)) as [->|Hne]; [apply lookup_insert_eq|].
      rewrite lookup_insert_ne by (unfold entry; lia). apply H2. lia.
    + intros a Ha. rewrite lookup_insert_ne by (intros E; by apply (Ha j); [lia|]). by apply H3.
  - exists s'. split; [exact E|]. split; [done|]. split; [|done]. intros x Hx. apply H2. lia.
Qed.

(** ** Changes to the tree *)

Section change.
Context (used : Z → Prop) (w : gmap Z Z) (root : Z) (T : tables) (HT : tree_ok used w root T).

Lemma tree_leaf_write q i x v : T !! q = Some i → length q = 3%nat → 0 ≤ x < 512 →
  tree_ok used (<[entry (page_addr i) x := v]> w) root T.
Proof using HT.
  intros Hq Hl Hx. pose proof HT as [H1 H2 H3 H4 H5]. split; try done. intros q' i' x' Hq' Hx'.
  destruct (decide (i' = i ∧ x' = x)) as [[-> ->]|Hne].
  - exists v. split; [by rewrite lookup_insert_eq|]. rewrite (H3 q' q i) by done. lia.
  - rewrite lookup_insert_ne; [by apply H5|]. intros E. apply Hne. by apply entry_inj in E as [-> ->].
Qed.

Lemma leaf_write q i x v q' x' : T !! q = Some i → 0 ≤ x < 512 → 0 ≤ x' < 512 →
  leaf (<[entry (page_addr i) x := v]> w) T q' x' = if decide (q' = q ∧ x' = x) then v else leaf w T q' x'.
Proof using HT.
  intros Hq Hx Hx'. unfold leaf. case_decide as E.
  - destruct E as [-> ->]. by rewrite Hq, lookup_insert_eq.
  - destruct (T !! q') as [i'|] eqn:Hq'; [|done]. rewrite lookup_insert_ne; [done|].
    intros [<- <-]%entry_inj; [|done..]. apply E. split; [|done]. by apply (tr_inj _ _ _ _ HT q' q i).
Qed.

Context (q : list Z) (i x j : Z) (Hq : T !! q = Some i) (Hlen : (length q < 3)%nat) (Hx : 0 ≤ x < 512)
  (Hnew : T !! (q ++ [x]) = None) (Hj : 0 ≤ j < FRAMES_COUNT) (Hfresh : ¬ used j).
Context (used' : Z → Prop) (Hused : ∀ y, used' y ↔ used y ∨ y = j).
Context (w' : gmap Z Z) (Hdesc : w' !! entry (page_addr i) x = Some (table_desc j))
  (Hclear : ∀ y, 0 ≤ y < 512 → w' !! entry (page_addr j) y = Some 0)
  (Hsame : ∀ k y, 0 ≤ y < 512 → k ≠ j → ¬ (k = i ∧ y = x) → w' !! entry (page_addr k) y = w !! entry (page_addr k) y).

(** Paths are not below the new table. *)
Lemma nothing_below y : T !! ((q ++ [x]) ++ [y]) = None.
Proof using HT Hnew.
  destruct (T !! ((q ++ [x]) ++ [y])) as [k|] eqn:E; [|done].
  destruct (tr_up _ _ _ _ HT _ _ _ E) as [k' Hk]. congruence.
Qed.

Lemma tree_extend : tree_ok used' w' root (<[q ++ [x] := j]> T).
Proof using HT Hq Hlen Hx Hnew Hj Hfresh Hused Hdesc Hclear Hsame.
  pose proof HT as [H1 H2 H3 H4 H5].
  assert (∀ q' k, T !! q' = Some k → k ≠ j) as Hold.
  { intros q' k Hk ->. apply Hfresh. by apply (H2 q' j). }
  split.
  - rewrite lookup_insert_ne; [done|]. intros E. by apply app_nil in E as [_ E].
  - intros q' k [[<- <-]|[_ Hk]]%lookup_insert_Some.
    + split; [done|]. split; [apply Hused; by right|]. rewrite length_app. simpl. lia.
    + destruct (H2 q' k Hk) as (A & B & C). split; [done|]. split; [apply Hused; by left|done].
  - intros q1 q2 k [[<- <-]|[Hn1 Hk1]]%lookup_insert_Some [[<- E]|[Hn2 Hk2]]%lookup_insert_Some; try done.
    + by apply Hold in Hk2.
    + subst k. by apply Hold in Hk1.
    + by apply (H3 q1 q2 k).
  - intros q' y k [[E <-]|[Hn Hk]]%lookup_insert_Some.
    + apply app_inj_tail in E as [<- <-]. exists i. rewrite lookup_insert_ne; [done|]. intros E.
      apply (f_equal length) in E. rewrite length_app in E. simpl in E. lia.
    + destruct (H4 q' y k Hk) as [k' Hk']. destruct (decide (q ++ [x] = q')) as [<-|Hne].
      * exists j. apply lookup_insert_eq.
      * exists k'. by rewrite lookup_insert_ne.
  - intros q' k y [[<- <-]|[Hn Hk]]%lookup_insert_Some Hy.
    + exists 0. split; [by apply Hclear|]. intros _. rewrite lookup_insert_ne.
      * by rewrite nothing_below.
      * intros E. apply (f_equal length) in E. rewrite !length_app in E. simpl in E. lia.
    + destruct (H5 q' k y Hk Hy) as (d & Ed & Hd). destruct (decide (k = i ∧ y = x)) as [[-> ->]|Hne].
      * assert (q' = q) as -> by (by apply (H3 q' q i)). exists (table_desc j). split; [done|]. intros _.
        by rewrite lookup_insert_eq.
      * exists d. rewrite Hsame; [|done|by eapply Hold|done]. split; [done|]. intros Hl.
        rewrite lookup_insert_ne; [by apply Hd|]. intros E. apply app_inj_tail in E as [-> ->].
        apply Hne. split; [|done]. congruence.
Qed.

Lemma leaf_extend q' x' : length q' = 3%nat → 0 ≤ x' < 512 → leaf w' (<[q ++ [x] := j]> T) q' x' = leaf w T q' x'.
Proof using HT Hq Hlen Hnew Hfresh Hclear Hsame.
  intros Hl Hx'. unfold leaf. destruct (decide (q ++ [x] = q')) as [<-|Hne].
  - rewrite lookup_insert_eq, Hnew. by rewrite Hclear.
  - rewrite lookup_insert_ne by done. destruct (T !! q') as [k|] eqn:Hk; [|done].
    rewrite Hsame; [done|done| |].
    + intros ->. apply Hfresh. by apply (tr_frame _ _ _ _ HT q').
    + intros [-> ->]. rewrite (tr_inj _ _ _ _ HT q' q i) in Hl by done. lia.
Qed.
End change.

(** ** mapping *)

Section mapping.
Context `{PA : PageAlloc alloc}.

(** A process's tables over an allocator with room for [n] more pages. *)
Record space_ok (s : mm) (g : pa_ghost) (n : nat) (root : Z) (T : tables) : Prop := {
  sp_alloc : pa_inv (mm_heap s) g;
  sp_room : pa_room g n;
  sp_tree : tree_ok (pa_used g) (words s) root T;
}.

(** A missing table is made: what [mapping] does at an invalid entry. *)
Lemma make_table s g n root T q i x : space_ok s g (S n) root T → T !! q = Some i → (length q < 3)%nat → 0 ≤ x < 512 →
  T !! (q ++ [x]) = None →
  ∃ j h s1 g', alloc 0x1000 (mm_heap s) = Ok (page_addr j, h) ∧ lk h = lk (mm_heap s) ∧
    clear_table (page_addr j) (with_mm_heap h s) = Ok s1 ∧ 0 ≤ j < FRAMES_COUNT ∧
    let s2 := set_word (entry (page_addr i) x) (VIRT_TO_PHYS (page_addr j)) s1 in
    let s3 := set_word (entry (page_addr i) x) (table_desc j) s2 in
    get_word (entry (page_addr i) x) s2 = Ok (0x1000 * j) ∧ mm_heap s3 = h ∧
    space_ok s3 g' n root (<[q ++ [x] := j]> T) ∧
    (∀ q' x', length q' = 3%nat → 0 ≤ x' < 512 → leaf (words s3) (<[q ++ [x] := j]> T) q' x' = leaf (words s) T q' x').
Proof using.
  intros [HI HR HT] Hq Hl Hx Hn.
  destruct (pa_alloc _ _ _ HI HR) as (j & h & g' & E & Hlk & Hj & HI' & HR' & Hfr & Hu).
  destruct (clear_table_ok (page_addr j) (with_mm_heap h s)) as (s1 & E1 & Hh & Hz & Hs).
  destruct (page_phys j Hj) as [Hp _]. destruct (table_desc_ok j Hj) as (_ & _ & _ & Hr).
  assert (i ≠ j) as Hij. { intros ->. apply Hfr. by apply (tr_frame _ _ _ _ HT q). }
  exists j, h, s1, g'. split; [done|]. split; [done|]. split; [done|]. split; [done|]. cbv zeta.
  set (s2 := set_word _ _ _). set (s3 := set_word _ _ s2).
  assert (words s3 = <[entry (page_addr i) x := table_desc j]> (words s1)) as Ew.
  { unfold s3, s2. cbn [set_word words]. rewrite insert_insert_eq, u64_small by done. done. }
  assert (words s3 !! entry (page_addr i) x = Some (table_desc j)) as A1 by (by rewrite Ew, lookup_insert_eq).
  assert (∀ y, 0 ≤ y < 512 → words s3 !! entry (page_addr j) y = Some 0) as A2.
  { intros y Hy. rewrite Ew, lookup_insert_ne; [by apply Hz|]. intros F. by apply entry_inj in F as [-> _]. }
  assert (∀ k y, 0 ≤ y < 512 → k ≠ j → ¬ (k = i ∧ y = x) → words s3 !! entry (page_addr k) y = words s !! entry (page_addr k) y) as A3.
  { intros k y Hy Hk Hne. rewrite Ew, lookup_insert_ne.
    - rewrite Hs; [done|]. intros z Hz' F. by apply entry_inj in F as [-> _].
    - intros F. apply entry_inj in F as [-> ->]; [|done..]. by apply Hne. }
  split_and!.
  - unfold get_word, s2. cbn [set_word words]. rewrite lookup_insert_eq. cbn [load]. rewrite Hp, u64_small; [done|].
    unfold FRAMES_COUNT in Hj. lia.
  - unfold s3, s2. cbn [set_word mm_heap]. by rewrite Hh.
  - split; [unfold s3, s2; cbn [set_word mm_heap]; by rewrite Hh|done|].
    by apply (tree_extend (pa_used g) (words s) root T HT q i x j Hq Hl Hx Hn Hj Hfr (pa_used g') Hu (words s3)).
  - intros q' x' Hq' Hx'. by apply (leaf_extend (pa_used g) (words s) root T HT q i x j Hq Hl Hn Hfr (words s3)).
Qed.

(** The new descriptor of the page, and the address space after the update. *)
Definition page_desc (pa prot : Z) : Z := u64 (Z.lor (u64 pa) (page_flags prot)).
Definition updated (s s' : mm) (T T' : tables) (va d : Z) : Prop := ∀ q x, length q = 3%nat → 0 ≤ x < 512 →
  leaf (words s') T' q x = if decide (q = path 3 va ∧ x = index va 3) then d else leaf (words s) T q x.

Lemma set_word_twice a v1 v2 s : set_word a v2 (set_word a v1 s) = set_word a v2 s.
Proof using. unfold set_word. cbn [words mm_heap]. by rewrite insert_insert_eq. Qed.

Lemma mapping_from_ok root va pa prot m n : ∀ s g T i, (n ≤ 3)%nat → space_ok s g (n + m) root T →
  T !! path (3 - n) va = Some i →
  ∃ s' g' T', mapping_from alloc (S n) (Z.of_nat (3 - n)) (page_addr i) va pa prot s = Ok s' ∧
    lk (mm_heap s') = lk (mm_heap s) ∧ space_ok s' g' m root T' ∧ updated s s' T T' va (page_desc pa prot).
Proof using.
  induction n as [|n IH]; intros s g T i Hn HS Hi.
  - pose proof HS as [HI HR HT]. cbn [Nat.sub] in *. cbn [mapping_from]. rewrite (proj2 (Z.eqb_eq _ _)) by done.
    change (Z.of_nat 3) with 3. set (a := entry _ _).
    unfold get_word. cbn [set_word words]. rewrite lookup_insert_eq. cbn [load mbind res_bind mret res_ret].
    rewrite set_word_twice. eexists _, g, T. split; [done|]. split; [done|]. split.
    + split; [done..|]. apply tree_leaf_write with (q := path 3 va); [done|done|apply path_length|apply index_range].
    + intros q x Hq Hx. by apply (leaf_write (pa_used g) (words s) root T HT (path 3 va) i); [|apply index_range|].
  - pose proof HS as [HI HR HT]. cbn [mapping_from]. rewrite (proj2 (Z.eqb_neq _ 3)) by lia.
    set (l := (3 - S n)%nat) in *. set (x := index va (Z.of_nat l)). assert (3 - n = S l)%nat as El by lia.
    assert (length (path l va) < 3)%nat as Hl by (rewrite path_length; lia).
    destruct (tr_entry _ _ _ _ HT _ i x Hi (index_range _ _)) as (d & Ed & Hd). specialize (Hd Hl).
    assert (get_word (entry (page_addr i) x) s = Ok d) as Eg by (unfold get_word; by rewrite Ed).
    fold x. rewrite Eg. cbn [mbind res_bind].
    replace (Z.of_nat l + 1) with (Z.of_nat (3 - n)) by lia.
    destruct (T !! (path l va ++ [x])) as [j|] eqn:Ej.
    + subst d. destruct (tr_frame _ _ _ _ HT _ _ Ej) as (Hj & _). destruct (table_desc_ok j Hj) as (B0 & B1 & A & _).
      rewrite (proj2 (Z.eqb_neq (Z.land _ 1) 0)) by (intros F%land_1_testbit; congruence). cbn [mbind res_bind mret res_ret].
      rewrite Eg. cbn [mbind res_bind]. rewrite A, (proj2 (page_phys j Hj)).
      apply (IH s g T j); [lia|split; [done|by apply pa_room_less|done]|]. by rewrite El, path_S.
    + subst d. change (Z.land 0 1 =? 0) with true. cbv iota.
      destruct (make_table s g (n + m) root T (path l va) i x HS Hi Hl (index_range _ _) Ej)
        as (j & h & s1 & g' & E & Hlk & E1 & Hj & E2 & Hh & HS' & Hleaf). cbv zeta in *.
      rewrite E. cbn [mbind res_bind]. rewrite E1. cbn [mbind res_bind]. rewrite E2. cbn [mbind res_bind mret res_ret].
      change (Z.lor (0x1000 * j) _) with (table_desc j).
      assert (∀ a v t, get_word a (set_word a v t) = Ok (u64 v)) as Ew.
      { intros a v t. unfold get_word. cbn [set_word words]. by rewrite lookup_insert_eq. }
      rewrite Ew. cbn [mbind res_bind]. destruct (table_desc_ok j Hj) as (B0 & B1 & A & Hr).
      rewrite (u64_small (table_desc j)), A, (proj2 (page_phys j Hj)) by done.
      destruct (IH _ g' _ j ltac:(lia) HS') as (s' & g2 & T' & E3 & Hk & HS2 & Hup).
      { rewrite El, path_S. fold x. apply lookup_insert_eq. }
      exists s', g2, T'. split; [exact E3|]. split; [by rewrite Hk, Hh|]. split; [done|].
      intros q y Hq Hy. rewrite Hup by done. case_decide; [done|]. by apply Hleaf.
Qed.
End mapping.

(** ** Pages *)

(** The same page of a 48-bit address space. *)
Definition same_page (va va' : Z) : Prop := (va / 0x1000) mod 2 ^ 36 = (va' / 0x1000) mod 2 ^ 36.
#[export] Instance same_page_dec va va' : Decision (same_page va va') := ltac:(unfold same_page; apply _).

Lemma page_number_bit va n : 0 ≤ n → Z.testbit ((va / 0x1000) mod 2 ^ 36) n = (n <? 36) && Z.testbit va (n + 12).
Proof.
  intros Hn. destruct (Z.ltb_spec n 36).
  - rewrite Z.mod_pow2_bits_low by lia. change 0x1000 with (2 ^ 12). by rewrite <- Z.shiftr_div_pow2, Z.shiftr_spec by lia.
  - by rewrite Z.mod_pow2_bits_high by lia.
Qed.

Lemma index_bit va l n : 0 ≤ n → Z.testbit (index va l) n = (n <? 9) && Z.testbit va (n + (39 - l * 9)).
Proof.
  intros Hn. unfold index. change 0x1ff with (Z.ones 9). rewrite Z.land_ones by lia. destruct (Z.ltb_spec n 9).
  - by rewrite Z.mod_pow2_bits_low, Z.shiftr_spec by lia.
  - by rewrite Z.mod_pow2_bits_high by lia.
Qed.

Lemma same_page_index va va' : same_page va va' ↔ path 3 va' = path 3 va ∧ index va' 3 = index va 3.
Proof.
  transitivity (∀ l, 0 ≤ l < 4 → index va' l = index va l).
  - split.
    + intros H l Hl. apply Z.bits_inj'. intros n Hn. rewrite !index_bit by done. destruct (Z.ltb_spec n 9); [|done].
      apply (f_equal (λ z, Z.testbit z (n + (27 - l * 9)))) in H. rewrite !page_number_bit in H by lia.
      rewrite (proj2 (Z.ltb_lt _ _)) in H by lia. by replace (n + (27 - l * 9) + 12) with (n + (39 - l * 9)) in H by lia.
    + intros H. unfold same_page. apply Z.bits_inj'. intros n Hn. rewrite !page_number_bit by done.
      destruct (Z.ltb_spec n 36); [|done]. cbn [andb].
      pose proof (Z.div_mod n 9 ltac:(lia)). pose proof (Z.mod_pos_bound n 9 ltac:(lia)).
      assert (0 ≤ n / 9 < 4) by (split; [apply Z.div_pos; lia|apply Z.div_lt_upper_bound; lia]).
      specialize (H (3 - n / 9) ltac:(lia)). apply (f_equal (λ z, Z.testbit z (n mod 9))) in H.
      rewrite !index_bit, (proj2 (Z.ltb_lt (n mod 9) 9)) in H by lia. cbn [andb] in H.
      by replace (n mod 9 + (39 - (3 - n / 9) * 9)) with (n + 12) in H by lia.
  - unfold path. change (seqZ 0 (Z.of_nat 3)) with [0; 1; 2]. cbn [fmap list_fmap]. split.
    + intros H. split; [|apply (H 3); lia]. by rewrite !H by lia.
    + intros [[= H0 H1 H2] H3] l Hl. assert (l = 0 ∨ l = 1 ∨ l = 2 ∨ l = 3) as [->|[->|[->| ->]]] by lia; done.
Qed.

Lemma page_desc_valid pa prot : Z.testbit (page_desc pa prot) 0 = true ∧ Z.testbit (page_desc pa prot) 1 = true.
Proof.
  unfold page_desc, page_flags. rewrite !u64_testbit, !Z.lor_spec. change (Z.testbit PD_TABLE 0) with true.
  change (Z.testbit PD_TABLE 1) with true.
  by repeat (rewrite orb_true_r || rewrite orb_true_l).
Qed.

Lemma page_flags_ok prot : flag_bits prot → flag_bits (page_flags prot).
Proof.
  intros [Hr Hm]. unfold page_flags. set (f := Z.lor _ PD_KNX). assert (flag_bits f) as [Hr' Hm'].
  { split; [|reflexivity]. change f with 0x20000000000407. lia. }
  split.
  - assert (u64 (Z.lor f prot) = Z.lor f prot) as <-; [|apply u64_range].
    apply Z.bits_inj'. intros n Hn. rewrite u64_testbit, Z.lor_spec. destruct (Z.ltb_spec n 64); [done|]. cbn [andb].
    rewrite <- (Z.mod_small f (2 ^ 64)), <- (Z.mod_small prot (2 ^ 64)) by done. by rewrite !Z.mod_pow2_bits_high by lia.
  - by rewrite Z.land_lor_distr_l, Hm, Hm'.
Qed.

Lemma page_desc_eq pa prot : page_bits pa → flag_bits prot → page_desc pa prot = Z.lor pa (page_flags prot).
Proof.
  intros Hp Hf%page_flags_ok. unfold page_desc. rewrite (u64_small pa) by (destruct Hp; lia).
  apply u64_small. by apply desc_range.
Qed.

(** An address of 48 bits is its page and the offset in the page. *)
Lemma page_split pa : 0 ≤ pa < 2 ^ 48 →
  page_bits (pa - pa mod 0x1000) ∧ pa = Z.lor (pa - pa mod 0x1000) (pa mod 0x1000) ∧
  0 ≤ pa mod 0x1000 < 2 ^ 12 ∧ Z.land (pa mod 0x1000) ENTRY_ADDR_MASK = 0.
Proof.
  intros Hp. pose proof (Z.div_mod pa 0x1000 ltac:(lia)). pose proof (Z.mod_pos_bound pa 0x1000 ltac:(lia)) as Hb.
  assert (0 ≤ pa / 0x1000) by (apply Z.div_pos; lia).
  assert (pa - pa mod 0x1000 = pa / 0x1000 * 2 ^ 12) as E by (change (2 ^ 12) with 0x1000; lia).
  split_and!; [split; [lia|]| |lia..|].
  - rewrite E. by apply Z.mod_mul.
  - rewrite E, lor_low by (done || lia). change (2 ^ 12) with 0x1000. lia.
  - apply Z.bits_inj'. intros n Hn. rewrite Z.land_spec, mask_bit, Z.bits_0 by done. destruct (Z.leb_spec 12 n); [|by rewrite andb_false_r].
    change 0x1000 with (2 ^ 12). by rewrite Z.mod_pow2_bits_high by lia.
Qed.

(** The address bits of a descriptor are those of the page of the address:
    the offset in the page is lost among the flags. *)
Lemma page_desc_mask pa prot : 0 ≤ pa < 2 ^ 48 → flag_bits prot →
  Z.land (page_desc pa prot) ENTRY_ADDR_MASK = pa - pa mod 0x1000.
Proof.
  intros Hp Hf%page_flags_ok. destruct (page_split pa Hp) as (Hb & Ep & Hl & Hm). unfold page_desc. rewrite (u64_small pa) by lia.
  set (f := Z.lor (pa mod 0x1000) (page_flags prot)).
  assert (flag_bits f) as Hf'.
  { destruct Hf as [Hr Hf]. split; [|unfold f; by rewrite Z.land_lor_distr_l, Hm, Hf].
    assert (u64 f = f) as <-; [|apply u64_range]. apply Z.bits_inj'. intros n Hn. unfold f. rewrite u64_testbit, Z.lor_spec.
    destruct (Z.ltb_spec n 64); [done|]. cbn [andb]. rewrite <- (Z.mod_small (pa mod 0x1000) (2 ^ 64)), <- (Z.mod_small (page_flags prot) (2 ^ 64)) by lia.
    by rewrite !Z.mod_pow2_bits_high by lia. }
  rewrite Ep at 1. rewrite <- Z.lor_assoc. fold f. rewrite u64_small by (by apply desc_range). by apply desc_addr.
Qed.

(** The page a descriptor leads to. *)
Lemma page_desc_addr pa prot va : 0 ≤ pa < 2 ^ 48 → flag_bits prot →
  Z.lor (Z.shiftl (Z.shiftr (Z.land (page_desc pa prot) ENTRY_ADDR_MASK) 12) 12) (va mod 2 ^ 12) = pa - pa mod 0x1000 + va mod 0x1000.
Proof.
  intros Hp Hf. rewrite page_desc_mask by done. destruct (page_split pa Hp) as ([Hr Hm] & _).
  apply Z.mod_divide in Hm as [k ->]; [|lia]. change 0x1000 with (2 ^ 12).
  rewrite Z.shiftr_div_pow2, Z.shiftl_mul_pow2, Z.div_mul by lia.
  by rewrite lor_low by (lia || by apply Z.mod_pos_bound).
Qed.

Section mapping_correct.
Context `{PA : PageAlloc alloc}.

Lemma mapping_run s g m root T va pa prot : space_ok s g (3 + m) root T →
  ∃ s' g' T', mapping alloc (page_addr root) va pa prot s = Ok s' ∧ lk (mm_heap s') = lk (mm_heap s) ∧
    space_ok s' g' m root T' ∧
    ∀ va', hw_walk PHYS_TO_VIRT (words s') 4 0 (0x1000 * root) va' =
      if decide (same_page va va') then Some (page_desc pa prot, 3) else hw_walk PHYS_TO_VIRT (words s) 4 0 (0x1000 * root) va'.
Proof using.
  intros HS. destruct (mapping_from_ok root va pa prot m 3 s g T root ltac:(lia) HS) as (s' & g' & T' & E & Hk & HS' & Hup).
  { cbn [Nat.sub]. exact (tr_root _ _ _ _ (sp_tree _ _ _ _ _ HS)). }
  exists s', g', T'. split; [exact E|]. split; [done|]. split; [done|]. intros va'.
  rewrite (walk_leaf _ _ _ _ _ (sp_tree _ _ _ _ _ HS')), (walk_leaf _ _ _ _ _ (sp_tree _ _ _ _ _ HS)).
  rewrite Hup by (apply path_length || apply index_range). destruct (page_desc_valid pa prot) as [B0 B1].
  destruct (decide (same_page va va')) as [Hs|Hs]; rewrite same_page_index in Hs.
  - rewrite decide_True by done. cbv zeta. by rewrite B0, B1.
  - by rewrite decide_False by done.
Qed.

Lemma translate_mapped w w' root va pa prot : 0 ≤ pa < 2 ^ 48 → flag_bits prot →
  (∀ va', hw_walk PHYS_TO_VIRT w' 4 0 root va' =
    if decide (same_page va va') then Some (page_desc pa prot, 3) else hw_walk PHYS_TO_VIRT w 4 0 root va') →
  ∀ va', translate PHYS_TO_VIRT w' root va' =
    if decide (same_page va va') then Some (pa - pa mod 0x1000 + va' mod 0x1000) else translate PHYS_TO_VIRT w root va'.
Proof using.
  intros Hp Hf H va'. unfold translate. rewrite H. case_decide; [|done]. cbn [mbind option_bind].
  change (39 - 3 * 9) with 12. by rewrite page_desc_addr.
Qed.
End mapping_correct.

Section claims.
Context `{PA : PageAlloc alloc}.

(** C8: [mapping] succeeds with room for three pages and refines the update of one
    page of an address space: afterwards the descriptor that the walk finds for
    every address of the page is the physical page with the flags of [mapping]
    (access, page, no kernel execution, no cache) and the caller's protection,
    so the address translates to the page; for every other address the walk
    finds what it found before, and the tables are again a tree of pages of
    their own. *)
Theorem mapping_ok s g m root T va pa prot : space_ok s g (3 + m) root T → page_bits pa → flag_bits prot →
  ∃ s' g' T', mapping alloc (page_addr root) va pa prot s = Ok s' ∧ lk (mm_heap s') = lk (mm_heap s) ∧
    space_ok s' g' m root T' ∧
    (∀ va', hw_walk PHYS_TO_VIRT (words s') 4 0 (0x1000 * root) va' =
      if decide (same_page va va')
      then Some (Z.lor pa (Z.lor (Z.lor (Z.lor (Z.lor PD_ACCESS PD_TABLE) (Z.shiftl MAIR_IDX_NORMAL_NOCACHE 2)) PD_KNX) prot), 3)
      else hw_walk PHYS_TO_VIRT (words s) 4 0 (0x1000 * root) va') ∧
    ∀ va', translate PHYS_TO_VIRT (words s') (0x1000 * root) va' =
      if decide (same_page va va') then Some (pa + va' mod 0x1000)
      else translate PHYS_TO_VIRT (words s) (0x1000 * root) va'.
Proof using.
  intros HS Hp Hf. destruct (mapping_run s g m root T va pa prot HS) as (s' & g' & T' & E & Hk & HS' & Hw).
  exists s', g', T'. split; [done|]. split; [done|]. split; [done|]. split.
  - intros va'. rewrite Hw, page_desc_eq by done. done.
  - intros va'. rewrite (translate_mapped _ _ _ _ pa prot (proj1 Hp) Hf Hw). by rewrite (proj2 Hp), Z.sub_0_r.
Qed.

Lemma prot_flags_cases prot :
  prot_flags prot = (if Z.testbit prot 2 then 0 else PD_UNX) + (if Z.testbit prot 1 then 0 else PD_RDONLY) +
    (if Z.testbit prot 0 then PD_UK_ACCESS else 0).
Proof using.
  assert (∀ n, 0 ≤ n → (Z.land prot (2 ^ n) =? 0) = negb (Z.testbit prot n)) as H.
  { intros n Hn. destruct (Z.eqb_spec (Z.land prot (2 ^ n)) 0) as [E|E].
    - apply (f_equal (λ z, Z.testbit z n)) in E. rewrite Z.land_spec, Z.pow2_bits_true, andb_true_r in E by done. by rewrite E, Z.bits_0.
    - destruct (Z.testbit prot n) eqn:Eb; [done|]. exfalso. apply E. apply Z.bits_inj'. intros k Hk.
      rewrite Z.land_spec, Z.bits_0. destruct (decide (k = n)) as [->|Hne]; [by rewrite Eb|].
      by rewrite Z.pow2_bits_false, andb_false_r. }
  unfold prot_flags. change PROT_X with (2 ^ 2). change PROT_W with (2 ^ 1). change PROT_R with (2 ^ 0).
  rewrite !H by lia. by destruct (Z.testbit prot 2), (Z.testbit prot 1), (Z.testbit prot 0).
Qed.

Lemma prot_flags_ok prot : flag_bits (prot_flags prot).
Proof using.
  rewrite prot_flags_cases. by destruct (Z.testbit prot 2), (Z.testbit prot 1), (Z.testbit prot 0).
Qed.

(** The rights of a user page in its descriptor. *)
Definition rights (d prot : Z) : Prop :=
  Z.testbit d 54 = negb (Z.testbit prot 2) ∧ Z.testbit d 7 = negb (Z.testbit prot 1) ∧
  Z.testbit d 6 = Z.testbit prot 0 ∧ Z.testbit d 53 = true.

Lemma prot_desc_bits pa prot : page_bits pa →
  page_desc pa (prot_flags prot) = Z.lor pa (page_flags (prot_flags prot)) ∧ rights (Z.lor pa (page_flags (prot_flags prot))) prot.
Proof using.
  intros Hp. split; [by apply page_desc_eq, prot_flags_ok|]. unfold rights.
  rewrite !Z.lor_spec, !(page_bits_low pa) by (done || lia). cbn [orb].
  rewrite prot_flags_cases. by destruct (Z.testbit prot 2), (Z.testbit prot 1), (Z.testbit prot 0).
Qed.

(** the descriptor that [mapping_set_prot] installs forbids user execution,
    user writes and user access exactly without PROT_X, PROT_W and PROT_R, and
    never lets the kernel execute the page. *)
Theorem mapping_set_prot_ok s g m root T va pa prot : space_ok s g (3 + m) root T → page_bits pa →
  ∃ s' g' T' d, mapping_set_prot alloc (page_addr root) va pa prot s = Ok s' ∧ space_ok s' g' m root T' ∧
    hw_walk PHYS_TO_VIRT (words s') 4 0 (0x1000 * root) va = Some (d, 3) ∧ Z.land d ENTRY_ADDR_MASK = pa ∧
    rights d prot.
Proof using.
  intros HS Hp. pose proof (prot_flags_ok prot) as Hf.
  destruct (mapping_run s g m root T va pa (prot_flags prot) HS) as (s' & g' & T' & E & _ & HS' & Hw).
  exists s', g', T', (page_desc pa (prot_flags prot)). split; [done|]. split; [done|].
  split; [by rewrite Hw, decide_True|]. destruct (prot_desc_bits pa prot Hp) as [-> H]. split; [|exact H].
  apply desc_addr; [done|]. by apply page_flags_ok.
Qed.

Lemma same_page_region va k va' : va mod 0x1000 = 0 → 0 ≤ k → 0 ≤ va → va + 0x1000 * (k + 1) ≤ 2 ^ 48 → 0 ≤ va' < 2 ^ 48 →
  same_page (va + 0x1000 * k) va' ↔ va + 0x1000 * k ≤ va' < va + 0x1000 * (k + 1).
Proof using.
  intros Hm Hk Hva Hend Hva'. apply Z.mod_divide in Hm as [c ->]; [|lia]. unfold same_page.
  replace (c * 0x1000 + 0x1000 * k) with ((c + k) * 0x1000) by lia. rewrite Z.div_mul by lia.
  pose proof (Z.div_mod va' 0x1000 ltac:(lia)). pose proof (Z.mod_pos_bound va' 0x1000 ltac:(lia)).
  assert (0 ≤ va' / 0x1000 < 2 ^ 36) by (split; [apply Z.div_pos; lia|apply Z.div_lt_upper_bound; lia]).
  rewrite !Z.mod_small by lia. lia.
Qed.

Lemma map_pages_loop root va pa flag m k : ∀ i s g T, 0 ≤ i → 0 ≤ va → va mod 0x1000 = 0 → va + 0x1000 * (i + Z.of_nat k) ≤ 2 ^ 48 →
  page_bits pa → pa + 0x1000 * (i + Z.of_nat k) ≤ 2 ^ 48 → flag_bits flag → space_ok s g (3 * k + m) root T →
  ∃ s' g' T', for_loop k i (λ i s, mapping alloc (page_addr root) (u64 (va + 0x1000 * i)) (u64 (pa + 0x1000 * i)) flag s) s = Ok s' ∧
    space_ok s' g' m root T' ∧
    ∀ va', 0 ≤ va' < 2 ^ 48 → translate PHYS_TO_VIRT (words s') (0x1000 * root) va' =
      if decide (va + 0x1000 * i ≤ va' < va + 0x1000 * (i + Z.of_nat k)) then Some (pa + (va' - va))
      else translate PHYS_TO_VIRT (words s) (0x1000 * root) va'.
Proof using.
  induction k as [|k IH]; intros i s g T Hi Hva Hvm Hve Hpa Hpe Hf HS.
  - exists s, g, T. split; [done|]. split; [done|]. intros va' _. rewrite decide_False by lia. done.
  - cbn [for_loop]. rewrite !u64_small by (destruct Hpa; lia).
    assert (page_bits (pa + 0x1000 * i)) as Hpi.
    { destruct Hpa as [Hr Hm]. split; [lia|]. by rewrite Z.mul_comm, Z.mod_add by lia. }
    replace (3 * S k + m)%nat with (3 + (3 * k + m))%nat in HS by lia.
    destruct (mapping_run s g _ root T (va + 0x1000 * i) (pa + 0x1000 * i) flag HS) as (s1 & g1 & T1 & E1 & _ & HS1 & Hw1).
    pose proof (translate_mapped _ _ _ _ _ flag (proj1 Hpi) Hf Hw1) as Ht1. rewrite (proj2 Hpi), Z.sub_0_r in Ht1. rewrite E1. cbn [mbind res_bind].
    destruct (IH (i + 1) s1 g1 T1) as (s2 & g2 & T2 & E2 & HS2 & Ht2); try done; try lia.
    exists s2, g2, T2. split; [done|]. split; [done|]. intros va' Hva'. rewrite Ht2 by done.
    pose proof (same_page_region va i va' Hvm Hi Hva ltac:(lia) Hva') as Hsp.
    destruct (decide (va + 0x1000 * (i + 1) ≤ va' < va + 0x1000 * (i + 1 + Z.of_nat k))).
    + by rewrite decide_True by lia.
    + rewrite Ht1. destruct (decide (same_page (va + 0x1000 * i) va')) as [Hs|Hs]; rewrite Hsp in Hs.
      * rewrite decide_True by lia. f_equal. apply Z.mod_divide in Hvm as [c ->]; [|lia].
        replace va' with ((va' - (c * 0x1000 + 0x1000 * i)) + (c + i) * 0x1000) at 1 by lia.
        rewrite Z.mod_add, Z.mod_small by lia. lia.
      * by rewrite decide_False by lia.
Qed.

(** [map_pages] terminates and maps every address of the region, to its last
    page, to the address at the same offset of the physical region, and leaves
    the rest of the address space alone. *)
Theorem map_pages_ok s g m root T va size pa flag :
  let n := (size + 0xfff) / 0x1000 in let pa' := pa - pa mod 0x1000 in
  0 ≤ va → va mod 0x1000 = 0 → 0 ≤ size → va + 0x1000 * n ≤ 2 ^ 48 → 0 ≤ pa → pa' + 0x1000 * n ≤ 2 ^ 48 - 1 → flag_bits flag →
  space_ok s g (3 * Z.to_nat n + m) root T →
  ∃ s' g' T', map_pages alloc (page_addr root) va size pa flag s = Ok s' ∧ space_ok s' g' m root T' ∧
    size ≤ 0x1000 * n < size + 0x1000 ∧
    ∀ va', 0 ≤ va' < 2 ^ 48 → translate PHYS_TO_VIRT (words s') (0x1000 * root) va' =
      if decide (va ≤ va' < va + 0x1000 * n) then Some (pa' + (va' - va))
      else translate PHYS_TO_VIRT (words s) (0x1000 * root) va'.
Proof using.
  intros n pa' Hva Hvm Hs Hve Hpa Hpe Hf HS. unfold map_pages. fold n pa'.
  pose proof (Z.div_mod (size + 0xfff) 0x1000 ltac:(lia)). pose proof (Z.mod_pos_bound (size + 0xfff) 0x1000 ltac:(lia)).
  fold n in H. assert (0 ≤ n) by (apply Z.div_pos; lia).
  assert (pa' = 0x1000 * (pa / 0x1000)) as Ep by (unfold pa'; pose proof (Z.div_mod pa 0x1000 ltac:(lia)); lia).
  assert (0 ≤ pa') by (rewrite Ep; assert (0 ≤ pa / 0x1000) by (apply Z.div_pos; lia); lia).
  rewrite (u64_small pa') by lia.
  destruct (map_pages_loop root va pa' flag m (Z.to_nat n) 0 s g T) as (s' & g' & T' & E & HS' & Ht); try done; try lia.
  { split; [lia|]. rewrite Ep, Z.mul_comm. by apply Z.mod_mul. }
  exists s', g', T'. split; [exact E|]. split; [done|]. split; [lia|]. intros va' Hva'. rewrite Ht by done.
  rewrite Z.add_0_l, Z2Nat.id, Z.mul_0_r, Z.add_0_r by lia. done.
Qed.
End claims.

(** ** A new address space, as [thread_create] makes it *)

Lemma fresh_tree (used : Z → Prop) w i : 0 ≤ i < FRAMES_COUNT → used i →
  (∀ x, 0 ≤ x < 512 → w !! entry (page_addr i) x = Some 0) → tree_ok used w i {[ [] := i ]}.
Proof.
  intros Hi Hu Hz. split.
  - apply lookup_insert_eq.
  - intros q j [<- <-]%lookup_singleton_Some. split; [done|]. split; [done|simpl; lia].
  - by intros q1 q2 j [<- _]%lookup_singleton_Some [<- _]%lookup_singleton_Some.
  - intros q x j [E2 _]%lookup_singleton_Some. by destruct q.
  - intros q j x [<- <-]%lookup_singleton_Some Hx. exists 0. split; [by apply Hz|]. intros _.
    by rewrite lookup_singleton_ne by done.
Qed.

Section fresh.
Context `{PA : PageAlloc alloc}.

Lemma fresh_space h g n w : pa_inv h g → pa_room g (S n) →
  ∃ root h' g' s, alloc 0x1000 h = Ok (page_addr root, h') ∧ lk h' = lk h ∧
    clear_table (page_addr root) (Mm h' w) = Ok s ∧ mm_heap s = h' ∧ space_ok s g' n root {[ [] := root ]} ∧
    ∀ va, translate PHYS_TO_VIRT (words s) (0x1000 * root) va = None.
Proof using.
  intros HI HR. destruct (pa_alloc _ _ _ HI HR) as (i & h' & g' & E & Hlk & Hi & HI' & HR' & Hfr & Hu).
  destruct (clear_table_ok (page_addr i) (Mm h' w)) as (s & E1 & Hh & Hz & _).
  exists i, h', g', s.
  pose proof (fresh_tree (pa_used g') (words s) i Hi ltac:(apply Hu; by right) Hz) as HT.
  split; [done|]. split; [done|]. split; [done|]. split; [done|]. split; [split; [by rewrite Hh|done|done]|].
  intros va. unfold translate. rewrite (walk_leaf _ _ _ _ _ HT). unfold leaf. by rewrite lookup_singleton_ne by done.
Qed.

Lemma free_pages_run free used s root T : tree_ok used (words s) root T → 0 ≤ root < FRAMES_COUNT →
  free_pages free (0x1000 * root) 0 s = Ok s.
Proof using.
  intros HT Hr. unfold free_pages. cbn [free_pages_from]. rewrite (proj2 (page_phys root Hr)).
  match goal with |- for_loop 512 0 ?f s = _ => destruct (for_loop_inv (λ _ s', s' = s) f 512 0 s) as (s' & E & Hs) end;
    [done| |by rewrite E, Hs].
  intros j s1 Hj ->. exists s. split; [|done].
  destruct (tr_entry _ _ _ _ HT [] root j (tr_root _ _ _ _ HT)) as (d & Ed & Hd); [lia|].
  assert (get_word (entry (page_addr root) j) s = Ok d) as Eg by (unfold get_word; by rewrite Ed).
  rewrite Eg. cbn [mbind res_bind]. specialize (Hd ltac:(simpl; lia)). destruct (T !! ([] ++ [j])) as [k|] eqn:Ek.
  - subst d. destruct (tr_frame _ _ _ _ HT _ _ Ek) as (Hk & _). destruct (table_desc_ok k Hk) as (B0 & _).
    rewrite (proj2 (Z.eqb_neq (Z.land _ 1) 0)) by (intros F%land_1_testbit; congruence). done.
  - by subst d.
Qed.

(** C9: [free_pages] is called to give back the tables of a dead process but leaves
    all of them in place: its test for valid entries is the wrong way round. *)
Theorem free_pages_noop free used s root T : tree_ok used (words s) root T → 0 ≤ root < FRAMES_COUNT →
  free_pages free (0x1000 * root) 0 s = Ok s.
Proof using. apply free_pages_run. Qed.
End fresh.

(** An address space over the example heap. *)
Lemma space_ex n : (n < 1000)%nat → ∃ s g root T, space_ok s g n root T ∧ T = {[ [] := root ]} ∧ 0 ≤ root < FRAMES_COUNT ∧
  ∀ va, translate PHYS_TO_VIRT (words s) (0x1000 * root) va = None.
Proof.
  intros Hn. destruct (page_ex (S n)) as (h & g & HI & HR); [lia|].
  destruct (fresh_space h g n ∅ HI HR) as (root & h' & g' & s & _ & _ & _ & _ & HS & Ht).
  exists s, g', root, {[ [] := root ]}. split; [exact HS|]. split; [done|]. split; [|exact Ht].
  apply (tr_frame _ _ _ _ (sp_tree _ _ _ _ _ HS) [] root). apply lookup_insert_eq.
Qed.

Lemma flag_bits_0 : flag_bits 0.
Proof. split; [lia|done]. Qed.

Lemma mapping_ok_witness : ∃ s root s', mapping (kmalloc layout_ex) (page_addr root) 0x400000 0x80000 0 s = Ok s' ∧
  hw_walk PHYS_TO_VIRT (words s') 4 0 (0x1000 * root) 0x400123 = Some (0x20000000080407, 3) ∧
  translate PHYS_TO_VIRT (words s') (0x1000 * root) 0x400123 = Some 0x80123.
Proof.
  destruct (space_ex 3) as (s & g & root & T & HS & _); [lia|].
  destruct (mapping_ok s g 0 root T 0x400000 0x80000 0 HS) as (s' & g' & T' & E & _ & _ & Hw & Ht);
    [split; [lia|reflexivity]|apply flag_bits_0|].
  exists s, root, s'. split; [exact E|]. split; [rewrite Hw, decide_True by reflexivity; reflexivity|]. rewrite (Ht 0x400123). rewrite decide_True by reflexivity. reflexivity.
Defined.

Lemma mapping_set_prot_ok_witness : ∃ s root s' d, mapping_set_prot (kmalloc layout_ex) (page_addr root) 0 0x80000 5 s = Ok s' ∧
  hw_walk PHYS_TO_VIRT (words s') 4 0 (0x1000 * root) 0 = Some (d, 3) ∧ Z.testbit d 54 = false ∧ Z.testbit d 7 = true.
Proof.
  destruct (space_ex 3) as (s & g & root & T & HS & _); [lia|].
  destruct (mapping_set_prot_ok s g 0 root T 0 0x80000 5 HS) as (s' & g' & T' & d & E & _ & Hw & _ & H1 & H2 & _);
    [split; [lia|reflexivity]|].
  exists s, root, s', d. split; [exact E|]. split; [exact Hw|]. split; [exact H1|exact H2].
Defined.

Lemma map_pages_ok_witness : ∃ s root s', map_pages (kmalloc layout_ex) (page_addr root) 0x3C000000 0x1800 0x3C000000 0 s = Ok s' ∧
  translate PHYS_TO_VIRT (words s') (0x1000 * root) 0x3C001234 = Some 0x3C001234.
Proof.
  destruct (space_ex 6) as (s & g & root & T & HS & _); [lia|].
  destruct (map_pages_ok s g 0 root T 0x3C000000 0x1800 0x3C000000 0) as (s' & g' & T' & E & _ & _ & Ht);
    [lia|reflexivity|lia|vm_compute; discriminate|lia|vm_compute; discriminate|apply flag_bits_0|exact HS|].
  exists s, root, s'. split; [exact E|]. rewrite (Ht 0x3C001234) by lia.
  rewrite decide_True by (change ((0x1800 + 0xfff) / 0x1000) with 2; lia). reflexivity.
Defined.

Lemma free_pages_noop_witness : ∃ s root, free_pages (kfree layout_ex) (0x1000 * root) 0 s = Ok s.
Proof.
  destruct (space_ex 3) as (s & g & root & T & HS & _ & Hr & _); [lia|]. exists s, root.
  exact (free_pages_noop (kfree layout_ex) (pa_used g) s root T (sp_tree _ _ _ _ _ HS) Hr).
Defined.
