(* ===== verification/BootMmu.v ===== *)
(** The translation tables the kernel starts with: [kernel_mmu_init] of
    lib/mmu.c maps the first two gigabytes onto themselves. *)
From S2P Require Import Prelude Util ListHead Lock Malloc Buddy PageAlloc Mmu.
Local Open Scope Z_scope.

(** The attribute index (bits 2 to 4) of a descriptor. *)
Definition attr_index (d : Z) : Z := Z.land (Z.shiftr d 2) 7.

(** A two-megabyte block of [kernel_mmu_init]. *)
Definition block_desc (i attr : Z) : Z := Z.lor (Z.lor (i * Z.shiftl 1 21) (Z.shiftl attr 2)) PD_BE.

Lemma block_bits i : 0 ≤ i < 512 → page_bits (i * Z.shiftl 1 21).
Proof.
  intros Hi. change (Z.shiftl 1 21) with (512 * 0x1000). split; [lia|]. rewrite Z.mul_assoc. by apply Z.mod_mul.
Qed.

Lemma block_desc_ok i attr : 0 ≤ i < 512 → attr = 0 ∨ attr = 1 →
  Z.testbit (block_desc i attr) 0 = true ∧ Z.testbit (block_desc i attr) 1 = false ∧
  Z.land (block_desc i attr) ENTRY_ADDR_MASK = i * 2 ^ 21 ∧ attr_index (block_desc i attr) = attr ∧
  0 ≤ block_desc i attr < 2 ^ 64.
Proof.
  intros Hi Ha. pose proof (block_bits i Hi) as Hb. unfold block_desc. rewrite <- Z.lor_assoc.
  set (f := Z.lor (Z.shiftl attr 2) PD_BE).
  assert (flag_bits f ∧ Z.testbit f 0 = true ∧ Z.testbit f 1 = false ∧ Z.land (Z.shiftr f 2) 7 = attr) as (Hf & F0 & F1 & Fa).
  { unfold f. destruct Ha as [->| ->]; (split; [split; [vm_compute; split; congruence|reflexivity]|done]). }
  rewrite !desc_bit by (done || lia). split; [done|]. split; [done|]. split; [by apply desc_addr|].
  split; [|by apply desc_range]. unfold attr_index. rewrite Z.shiftr_lor, Z.land_lor_distr_l, Fa.
  assert (Z.land (Z.shiftr (i * Z.shiftl 1 21) 2) 7 = 0) as ->; [|done].
  apply Z.bits_inj'. intros n Hn. rewrite Z.land_spec, Z.shiftr_spec, Z.bits_0 by done.
  destruct (decide (n < 3)) as [H3|H3].
  - by rewrite page_bits_low by (done || lia).
  - change 7 with (Z.ones 3). rewrite Z.testbit_ones by lia. rewrite (proj2 (Z.ltb_ge n 3)) by lia.
    by rewrite !andb_false_r.
Qed.

(** One of the two loops. *)
Lemma fill_blocks attr n lo s : 0 ≤ lo → lo + Z.of_nat n ≤ 512 → attr = 0 ∨ attr = 1 →
  ∃ s', for_loop n lo (λ i s, mret (set_word (entry BOOT_PMD i) (block_desc i attr) s)) s = Ok s' ∧ mm_heap s' = mm_heap s ∧
    (∀ x, lo ≤ x < lo + Z.of_nat n → words s' !! entry BOOT_PMD x = Some (block_desc x attr)) ∧
    (∀ a, (∀ x, lo ≤ x < lo + Z.of_nat n → a ≠ entry BOOT_PMD x) → words s' !! a = words s !! a).
Proof.
  intros Hlo Hn Ha.
  destruct (for_loop_inv (λ i s', mm_heap s' = mm_heap s ∧
      (∀ x, lo ≤ x < i → words s' !! entry BOOT_PMD x = Some (block_desc x attr)) ∧
      (∀ a, (∀ x, lo ≤ x < lo + Z.of_nat n → a ≠ entry BOOT_PMD x) → words s' !! a = words s !! a))
    (λ i s, mret (set_word (entry BOOT_PMD i) (block_desc i attr) s)) n lo s) as (s' & E & H1 & H2 & H3).
  - split; [done|]. split; [lia|done].
  - intros j t Hj (H1 & H2 & H3). eexists. split; [done|]. cbn [set_word mm_heap words].
    rewrite u64_small by (apply block_desc_ok; [lia|done]). split; [done|]. split.
    + intros x Hx. destruct (decide (x = j)) as [->|Hne]; [apply lookup_insert_eq|].
      rewrite lookup_insert_ne by (unfold entry; lia). apply H2. lia.
    + intros a Hx. rewrite lookup_insert_ne by (intros E; by apply (Hx j); [lia|]). by apply H3.
  - exists s'. split; [exact E|]. split; [done|]. split; [exact H2|done].
Qed.

Definition boot_attr (va : Z) : Z := if va <? 0x3f000000 then MAIR_IDX_NORMAL_NOCACHE else MAIR_IDX_DEVICE_nGnRnE.

Lemma index_eq va l : index va l = (va / 2 ^ (39 - l * 9)) mod 512 ∨ 39 - l * 9 < 0.
Proof.
  destruct (decide (39 - l * 9 < 0)); [by right|left]. unfold index. change 0x1ff with (Z.ones 9).
  by rewrite Z.land_ones, Z.shiftr_div_pow2 by lia.
Qed.

(** The tables of [kernel_mmu_init]. *)
Record boot_tables (w : gmap Z Z) : Prop := {
  bt_pgd : w !! entry BOOT_PGD 0 = Some (Z.lor BOOT_PUD PD_TABLE);
  bt_pud0 : w !! entry BOOT_PUD 0 = Some (Z.lor BOOT_PMD PD_TABLE);
  bt_pud1 : w !! entry BOOT_PUD 1 = Some 0x40000401;
  bt_pmd : ∀ x, 0 ≤ x < 512 → w !! entry BOOT_PMD x = Some (block_desc x (boot_attr (x * 2 ^ 21)));
}.

Lemma boot_tables_ok s : ∃ s', kernel_mmu_init s = Ok s' ∧ mm_heap s' = mm_heap s ∧ boot_tables (words s').
Proof.
  unfold kernel_mmu_init. set (s0 := set_word (entry BOOT_PUD 1) _ _).
  destruct (fill_blocks MAIR_IDX_NORMAL_NOCACHE 504 0 s0) as (s1 & E1 & H1 & N1 & O1); [lia|lia|by right|].
  destruct (fill_blocks MAIR_IDX_DEVICE_nGnRnE 8 504 s1) as (s2 & E2 & H2 & N2 & O2); [lia|lia|by left|].
  exists s2. split; [res_apply E1; exact E2|]. split; [by rewrite H2, H1|].
  assert (∀ a, (∀ x, 0 ≤ x < 512 → a ≠ entry BOOT_PMD x) → words s2 !! a = words s0 !! a) as Ho.
  { intros a Ha. rewrite O2 by (intros; apply Ha; lia). apply O1. intros. apply Ha. lia. }
  split.
  - rewrite Ho by (unfold entry, BOOT_PGD, BOOT_PMD; lia). unfold s0. cbn [set_word words].
    rewrite !lookup_insert_ne by done. by rewrite lookup_insert_eq.
  - rewrite Ho by (unfold entry, BOOT_PUD, BOOT_PMD; lia). unfold s0. cbn [set_word words].
    rewrite !lookup_insert_ne by done. by rewrite lookup_insert_eq.
  - rewrite Ho by (unfold entry, BOOT_PUD, BOOT_PMD; lia). unfold s0. cbn [set_word words].
    by rewrite lookup_insert_eq.
  - intros x Hx. unfold boot_attr. destruct (Z.ltb_spec (x * 2 ^ 21) 0x3f000000).
    + rewrite O2 by (unfold entry; lia). apply N1. lia.
    + apply N2. lia.
Qed.

(** the tables [kernel_mmu_init] builds map every address of the first two
    gigabytes to itself, as normal memory below the peripherals and as device
    memory from 0x3f000000 on. *)
Theorem kernel_mmu_init_ok s : ∃ s', kernel_mmu_init s = Ok s' ∧ mm_heap s' = mm_heap s ∧
  ∀ va, 0 ≤ va < 0x80000000 → translate id (words s') BOOT_PGD va = Some va ∧
    ∃ d l, hw_walk id (words s') 4 0 BOOT_PGD va = Some (d, l) ∧ attr_index d = boot_attr va.
Proof.
  destruct (boot_tables_ok s) as (s' & E & Hh & [T0 T1 T2 T3]). exists s'. split; [done|]. split; [done|]. intros va Hva.
  assert (index va 0 = 0 ∧ index va 1 = va / 2 ^ 30 ∧ index va 2 = (va / 2 ^ 21) mod 512) as (I0 & I1 & I2).
  { destruct (index_eq va 0) as [->|?]; [|lia]. destruct (index_eq va 1) as [->|?]; [|lia].
    destruct (index_eq va 2) as [->|?]; [|lia]. change (39 - 0 * 9) with 39. change (39 - 1 * 9) with 30.
    change (39 - 2 * 9) with 21. split; [|split; [|done]].
    - by rewrite Z.div_small by lia.
    - apply Z.mod_small. split; [apply Z.div_pos; lia|apply Z.div_lt_upper_bound; lia]. }
  pose proof (Z.div_mod va (2 ^ 30) ltac:(lia)) as D30. pose proof (Z.mod_pos_bound va (2 ^ 30) ltac:(lia)) as M30.
  assert (0 ≤ va / 2 ^ 30 < 2) as R30 by (split; [apply Z.div_pos; lia|apply Z.div_lt_upper_bound; lia]).
  assert (hw_walk id (words s') 4 0 BOOT_PGD va = hw_walk id (words s') 3 1 BOOT_PUD va) as W1.
  { cbn [hw_walk id]. rewrite I0, T0. reflexivity. }
  assert (∃ d l, hw_walk id (words s') 3 1 BOOT_PUD va = Some (d, l) ∧ attr_index d = boot_attr va ∧ (l = 1 ∨ l = 2) ∧
    Z.land d ENTRY_ADDR_MASK = 2 ^ (39 - l * 9) * (va / 2 ^ (39 - l * 9))) as (d & l & W2 & Hattr & Hl & Hd).
  { assert (va / 2 ^ 30 = 0 ∨ va / 2 ^ 30 = 1) as [E30|E30] by lia.
    - pose proof (Z.div_mod va (2 ^ 21) ltac:(lia)). pose proof (Z.mod_pos_bound va (2 ^ 21) ltac:(lia)).
      assert (0 ≤ va / 2 ^ 21 < 512) as R21 by (split; [apply Z.div_pos; lia|apply Z.div_lt_upper_bound; lia]).
      rewrite (Z.mod_small (va / 2 ^ 21)) in I2 by done.
      assert (boot_attr (va / 2 ^ 21 * 2 ^ 21) = boot_attr va) as Eb.
      { unfold boot_attr. destruct (Z.ltb_spec (va / 2 ^ 21 * 2 ^ 21) 0x3f000000), (Z.ltb_spec va 0x3f000000); done || lia. }
      destruct (block_desc_ok (va / 2 ^ 21) (boot_attr va) R21) as (B0 & B1 & A & Ha & _).
      { unfold boot_attr. destruct (va <? 0x3f000000); [by right|by left]. }
      exists (block_desc (va / 2 ^ 21) (boot_attr va)), 2. split; [|split; [done|split; [by right|]]].
      + assert (hw_walk id (words s') 3 1 BOOT_PUD va = hw_walk id (words s') 2 2 BOOT_PMD va) as ->.
        { cbn [hw_walk id]. rewrite I1, E30, T1. reflexivity. }
        cbn [hw_walk id]. rewrite I2, T3, Eb by done. cbn [mbind option_bind]. by rewrite B0, B1.
      + rewrite A. apply Z.mul_comm.
    - exists 0x40000401, 1. split; [|split; [|split; [by left|]]].
      + cbn [hw_walk id]. rewrite I1, E30, T2. reflexivity.
      + unfold boot_attr. by rewrite (proj2 (Z.ltb_ge _ _)) by lia.
      + change (39 - 1 * 9) with 30. rewrite E30. reflexivity. }
  split; [|exists d, l; split; [by rewrite W1|done]].
  unfold translate. rewrite W1, W2. cbn [mbind option_bind]. f_equal. set (k := 39 - l * 9) in *.
  assert (0 ≤ k) by (unfold k; lia). assert (0 < 2 ^ k) by (apply Z.pow_pos_nonneg; lia).
  rewrite Hd, Z.shiftr_div_pow2, Z.shiftl_mul_pow2, (Z.mul_comm (2 ^ k)), Z.div_mul by lia.
  rewrite (Z.div_mod va (2 ^ k)) at 3 by lia. pose proof (Z.mod_pos_bound va (2 ^ k) ltac:(lia)).
  rewrite lor_low by done. lia.
Qed.

Lemma kernel_mmu_init_ok_witness : ∃ s', kernel_mmu_init (Mm (MState 0 0 ∅ (Lmem ∅ ∅) (LockSt 0 true)) ∅) = Ok s' ∧
  translate id (words s') BOOT_PGD 0x3f215040 = Some 0x3f215040.
Proof.
  destruct (kernel_mmu_init_ok (Mm (MState 0 0 ∅ (Lmem ∅ ∅) (LockSt 0 true)) ∅)) as (s' & E & _ & H).
  exists s'. split; [exact E|]. exact (proj1 (H 0x3f215040 ltac:(lia))).
Defined.
