(* ===== verification/Ordered.v ===== *)
(** Lists kept in order, as lib/event.c and lib/timer.c build them: the loop
    both files contain, and the ordered insertion it implements. *)
From S2P Require Import Prelude ListHead.
From stdpp Require Import sorting.
Local Open Scope Z_scope.

(** The loop
      [list_for_each(curr, head) if (later(curr)) { list_add(new, curr->prev); break; }
       if (list_is_head(curr, head)) list_add_tail(new, head);] *)
Definition insert_ordered (later : Z → res bool) (new head : Z) (m : lmem) : res lmem :=
  '(curr, m) ← list_for_each id (ring_fuel m) head
    (λ curr m,
      b ← later curr;
      if (b : bool) then
        p ← get_prev m curr; m ← list_add m new p; mret (Break curr m)
      else mret (Next curr m)) m;
  if list_is_head curr head then list_add_tail m new head else mret m.

Lemma insert_ordered_ok later new h m L l1 l2 :
  lists_ok m L → L !! h = Some (l1 ++ l2) → ¬ node L new →
  (∀ x, x ∈ l1 → later x = Ok false) → (∀ y, head l2 = Some y → later y = Ok true) →
  ∃ m', insert_ordered later new h m = Ok m' ∧ lists_ok m' (<[h := l1 ++ new :: l2]> L).
Proof.
  intros Hok Hh Hnew H1 H2. pose proof (ring_fuel_enough m L h _ Hok Hh) as Hf.
  set (body := λ curr m, b ← later curr; if (b : bool) then
    p ← get_prev m curr; m ← list_add m new p; mret (Break curr m) else mret (Next curr m)).
  destruct l2 as [|y l2].
  - rewrite app_nil_r in Hh, Hf.
    destruct (list_add_tail_ok m L h l1 [] new) as (m' & E & Hok'); [done|by rewrite app_nil_r|done|].
    exists m'. split; [|done]. unfold insert_ordered. fold body.
    rewrite (list_for_each_none id L h l1); [|done|done|done|].
    + simpl. unfold list_is_head. by rewrite bool_decide_eq_true_2.
    + intros x Hx. unfold body. by rewrite H1.
  - destruct (list_add_ok m L h l1 (y :: l2) new) as (m' & E & Hok'); [done|done|done|].
    exists m'. split; [|done]. unfold insert_ordered. fold body.
    rewrite (list_for_each_found id L h l1 y l2 body m m'); [|done|done|done| |].
    + simpl. unfold list_is_head. rewrite bool_decide_eq_false_2; [done|]. intros ->.
      pose proof (lo_nodup _ L Hok _ _ Hh) as Hnd. apply NoDup_cons in Hnd. set_solver.
    + intros x Hx. unfold body. by rewrite H1.
    + unfold body. rewrite H2 by done. simpl.
      pose proof (get_prev_ok m L h l1 (y :: l2) Hok Hh) as Ep. simpl in Ep. rewrite Ep. simpl.
      by rewrite E.
Qed.

(** ** The abstract queue *)

Section queue.
Context {A : Type} (key : A → Z).

(** Behind every element that is not later: first come, first served. *)
Fixpoint enqueue (x : A) (q : list A) : list A :=
  match q with
  | [] => [x]
  | y :: q' => if key x <? key y then x :: q else y :: enqueue x q'
  end.

Definition in_order : list A → Prop := StronglySorted (λ x y, key x ≤ key y).

Lemma enqueue_split x q : ∃ q1 q2, q = q1 ++ q2 ∧ enqueue x q = q1 ++ x :: q2 ∧
  Forall (λ y, key y ≤ key x) q1 ∧ (∀ y, head q2 = Some y → key x < key y).
Proof using.
  induction q as [|y q (q1 & q2 & -> & E & H1 & H2)].
  - by exists [], [].
  - simpl. destruct (Z.ltb_spec (key x) (key y)).
    + exists [], (y :: q1 ++ q2). split_and!; [done|done|done|]. intros z [= <-]. done.
    + exists (y :: q1), q2. rewrite E. split_and!; [done|done|by constructor|done].
Qed.

Lemma enqueue_perm x q : enqueue x q ≡ₚ x :: q.
Proof using.
  destruct (enqueue_split x q) as (q1 & q2 & -> & -> & _). by rewrite Permutation_middle.
Qed.

Lemma enqueue_in_order x q : in_order q → in_order (enqueue x q).
Proof using.
  induction q as [|y q IH]; intros H; simpl.
  - repeat constructor.
  - apply StronglySorted_inv in H as [Hq Hy]. destruct (Z.ltb_spec (key x) (key y)).
    + constructor; [by constructor|]. constructor; [lia|]. eapply Forall_impl; [done|]. simpl. lia.
    + constructor; [by apply IH|]. rewrite enqueue_perm. by constructor.
Qed.

(** Elements of equal key leave in the order in which they came. *)
Lemma enqueue_stable x q k : in_order q →
  filter (λ y, key y = k) (enqueue x q) =
  filter (λ y, key y = k) q ++ (if decide (key x = k) then [x] else []).
Proof using.
  induction q as [|y q IH]; intros H; simpl.
  - rewrite filter_cons. by case_decide.
  - apply StronglySorted_inv in H as [Hq Hy]. destruct (Z.ltb_spec (key x) (key y)).
    + rewrite filter_cons. case_decide as E; [|by rewrite app_nil_r].
      rewrite (filter_cons _ y q), decide_False by lia.
      assert (filter (λ y, key y = k) q = []) as ->; [|done].
      clear IH Hq. induction q as [|z q IHq]; [done|]. apply Forall_cons in Hy as [Hz Hy].
      rewrite filter_cons, decide_False by lia. by apply IHq.
    + rewrite !(filter_cons _ y), IH by done. by destruct (decide (key y = k)).
Qed.

(** What is due before [c] is a prefix. *)
Lemma in_order_split c q : in_order q → ∃ q1 q2, q = q1 ++ q2 ∧
  Forall (λ y, key y < c) q1 ∧ Forall (λ y, c ≤ key y) q2.
Proof using.
  induction q as [|y q IH]; intros H; [by exists [], []|].
  apply StronglySorted_inv in H as [Hq Hy]. destruct (Z.lt_ge_cases (key y) c).
  - destruct (IH Hq) as (q1 & q2 & -> & H1 & H2). exists (y :: q1), q2.
    split_and!; [done|by constructor|done].
  - exists [], (y :: q). split_and!; [done|done|]. constructor; [done|].
    eapply Forall_impl; [done|]. simpl. lia.
Qed.
End queue.
