(* ===== verification/Cpio.v ===== *)
(** lib/cpio.c and include/cpio.h: the initial root file system, a "newc" cpio
    archive in memory. *)
From S2P Require Import Prelude Util Mem CString.
Local Open Scope Z_scope.

Definition CPIO_HEADER_MAGIC : string := "070701".
Definition CPIO_FOOTER_MAGIC : string := "TRAILER!!!".
Definition CPIO_ALIGNMENT : Z := 4.

(** Offsets in [struct cpio_header] and its size. *)
Definition c_magic : Z := 0.
Definition c_filesize : Z := 54.
Definition c_namesize : Z := 94.
Definition sizeof_cpio_header : Z := 110.

(** The value of a hexadecimal digit. *)
Definition hex_digit (c : Z) : option Z :=
  if (0x30 <=? c) && (c <=? 0x39) then Some (c - 0x30)
  else if (0x61 <=? c) && (c <=? 0x66) then Some (c - 0x61 + 10)
  else if (0x41 <=? c) && (c <=? 0x46) then Some (c - 0x41 + 10)
  else None.

Fixpoint parse_hex_from (n : nat) (s : cptr) (i r : Z) : res Z :=
  match n with
  | O => mret r
  | S n =>
      let r := u64 (Z.shiftl r 4) in
      c ← s i;
      match hex_digit c with
      | Some d => parse_hex_from n s (i + 1) (u64 (r + d))
      | None => mret r
      end
  end.

Definition parse_hex_str (s : cptr) (max_len : Z) : res Z := parse_hex_from (Z.to_nat max_len) s 0 0.

(** What [cpio_parse_header] returns: -1, 1, or 0 with its outputs. *)
Inductive header : Type :=
| Bad
| Trailer
| Entry (filename filesize data next : Z).

Definition cpio_parse_header (m : bmem) (now : Z) : res header :=
  c ← strncmp (at_mem m (now + c_magic)) (lit CPIO_HEADER_MAGIC) 6;
  if negb (c =? 0) then mret Bad
  else
    filesize ← parse_hex_str (at_mem m (now + c_filesize)) 8;
    let filename := u64 (now + sizeof_cpio_header) in
    t ← strncmp (at_mem m filename) (lit CPIO_FOOTER_MAGIC) 11;
    if t =? 0 then mret Trailer
    else
      filename_length ← parse_hex_str (at_mem m (now + c_namesize)) 8;
      let data := align_up (u64 (u64 (now + sizeof_cpio_header) + filename_length)) CPIO_ALIGNMENT in
      let next := align_up (u64 (data + filesize)) CPIO_ALIGNMENT in
      mret (Entry filename filesize data next).

(** [cpio_traverse]: -1, the [NULL] after the callback ran, or the new record. *)
Inductive found : Type :=
| NotFound
| Called
| Info (cfi : Z).

Section traverse.
Context {St : Type}.
(** [kmalloc], the store of a [cpio_file_info], and the callback. *)
Context (alloc : Z → St → res (Z * St)) (store_info : Z → Z → Z → St → St).

Definition sizeof_cpio_file_info : Z := 16.

Fixpoint cpio_traverse_from (fuel : nat) (m : bmem) (name : cptr) (input_len : Z)
    (func : option (Z → Z → St → res St)) (now : Z) (s : St) : res (found * St) :=
  match fuel with
  | O => Fuel
  | S fuel =>
      h ← cpio_parse_header m now;
      match h with
      | Bad | Trailer => mret (NotFound, s)
      | Entry filename size result next =>
          len ← strlen (mem_fuel m) (at_mem m filename);
          same ← (if input_len =? len then c ← strncmp (at_mem m filename) name len; mret (c =? 0)
                  else mret false);
          if (same : bool) then
            match func with
            | Some f => s ← f result size s; mret (Called, s)
            | None =>
                '(cfi, s) ← alloc sizeof_cpio_file_info s;
                mret (Info cfi, store_info cfi result size s)
            end
          else cpio_traverse_from fuel m name input_len func next s
      end
  end.

Definition cpio_traverse (fuel : nat) (m : bmem) (cpio_ramfs : Z) (name : cptr)
    (func : option (Z → Z → St → res St)) (s : St) : res (found * St) :=
  input_len ← strlen fuel name;
  cpio_traverse_from fuel m name input_len func cpio_ramfs s.
End traverse.

(** ** Hexadecimal fields *)

Definition hex_value (ds : list Z) : option Z :=
  foldl (λ r c, r ← r; d ← hex_digit c; Some (r * 16 + d)) (Some 0) ds.

Lemma hex_digit_range c d : hex_digit c = Some d → 0 ≤ d < 16.
Proof.
  unfold hex_digit. repeat case_match; intros [= <-];
    repeat match goal with H : _ && _ = true |- _ => apply andb_true_iff in H as [?%Z.leb_le ?%Z.leb_le] end; lia.
Qed.

Lemma hex_fold_None ds : foldl (λ r c, r ← r; d ← hex_digit c; Some (r * 16 + d)) None ds = None.
Proof. by induction ds. Qed.

Lemma parse_hex_from_ok ds : ∀ s i r v,
  (∀ j c, ds !! j = Some c → s (i + Z.of_nat j) = Ok c) →
  foldl (λ r c, r ← r; d ← hex_digit c; Some (r * 16 + d)) (Some r) ds = Some v →
  0 ≤ r → (r + 1) * 16 ^ Z.of_nat (length ds) ≤ 2 ^ 64 →
  parse_hex_from (length ds) s i r = Ok v.
Proof.
  induction ds as [|c ds IH]; intros s i r v Hs Hv Hr Hb; simpl in *; [by injection Hv as ->|].
  pose proof (Hs 0%nat c eq_refl) as E. rewrite Z.add_0_r in E. rewrite E. simpl.
  destruct (hex_digit c) as [d|] eqn:Ed; simpl in Hv; [|by rewrite hex_fold_None in Hv].
  pose proof (hex_digit_range c d Ed) as Hd.
  replace (Z.of_nat (S (length ds))) with (Z.of_nat (length ds) + 1) in Hb by lia.
  rewrite Z.pow_add_r in Hb by lia. change (16 ^ 1) with 16 in Hb.
  assert (0 < 16 ^ Z.of_nat (length ds)) by (apply Z.pow_pos_nonneg; lia).
  assert (r * 16 + d < 2 ^ 64) by nia.
  assert (u64 (u64 (Z.shiftl r 4) + d) = r * 16 + d) as ->.
  { rewrite Z.shiftl_mul_pow2 by lia. change (2 ^ 4) with 16. rewrite (u64_small (r * 16)) by lia.
    apply u64_small. lia. }
  apply IH; [|done|lia|nia]. intros j x Hj. replace (i + 1 + Z.of_nat j) with (i + Z.of_nat (S j)) by lia.
  by apply Hs.
Qed.

(** ** Archives *)

(** One file as an archiver writes it; the numeric fields are any eight hex
    digits with the right value. *)
Record file := File {
  f_meta : list Z; f_filesize : list Z; f_devs : list Z; f_namesize : list Z; f_check : list Z;
  f_name : list Z; f_data : list Z;
}.

Definition chars (s : string) : list Z := removelast (lit_bytes s).
Definition header_bytes (f : file) : list Z :=
  chars CPIO_HEADER_MAGIC ++ f_meta f ++ f_filesize f ++ f_devs f ++ f_namesize f ++ f_check f.
Definition data_offset (f : file) : nat :=
  110 + length (f_name f ++ [0]) + length (pad4 (110 + length (f_name f ++ [0]))).
Definition entry_bytes (f : file) : list Z :=
  header_bytes f ++ (f_name f ++ [0]) ++ pad4 (110 + length (f_name f ++ [0])) ++ f_data f ++ pad4 (length (f_data f)).

Record file_ok (f : file) : Prop := {
  fk_meta : length (f_meta f) = 48%nat;
  fk_filesize : length (f_filesize f) = 8%nat ∧ hex_value (f_filesize f) = Some (Z.of_nat (length (f_data f)));
  fk_devs : length (f_devs f) = 32%nat;
  fk_namesize : length (f_namesize f) = 8%nat ∧ hex_value (f_namesize f) = Some (Z.of_nat (length (f_name f)) + 1);
  fk_check : length (f_check f) = 8%nat;
  fk_name : Forall (λ c, 0 < c < 256) (f_name f);
}.

(** The files, and the entry named TRAILER!!! that ends the archive. *)
Definition archive (fs : list file) (tr : file) : list Z := concat (entry_bytes <$> fs) ++ entry_bytes tr.

Record archive_ok (fs : list file) (tr : file) : Prop := {
  ar_files : Forall (λ f, file_ok f ∧ f_name f ≠ chars CPIO_FOOTER_MAGIC) fs;
  ar_trailer : file_ok tr ∧ f_name tr = chars CPIO_FOOTER_MAGIC;
}.

(** Where the first file with that name has its data, and how much. *)
Fixpoint file_at (base : Z) (fs : list file) (name : list Z) : option (Z * Z) :=
  match fs with
  | [] => None
  | f :: fs =>
      if decide (f_name f = name) then Some (base + Z.of_nat (data_offset f), Z.of_nat (length (f_data f)))
      else file_at (base + Z.of_nat (length (entry_bytes f))) fs name
  end.

Lemma header_bytes_length f : file_ok f → length (header_bytes f) = 110%nat.
Proof.
  intros [H1 [H2 _] H3 [H4 _] H5 _]. unfold header_bytes. rewrite !length_app, H1, H2, H3, H4, H5. done.
Qed.

Lemma header_field f (pre fld post : list Z) m now rest :
  header_bytes f = pre ++ fld ++ post → mem_bytes m now (header_bytes f ++ rest) →
  ∀ j c, fld !! j = Some c → at_mem m (now + Z.of_nat (length pre)) (Z.of_nat j) = Ok c.
Proof.
  intros E [Hm _] j c Hj. unfold at_mem. rewrite <- Z.add_assoc, <- Nat2Z.inj_add. apply Hm.
  rewrite E, <- !app_assoc. rewrite lookup_app_r by lia.
  replace (length pre + j - length pre)%nat with j by lia. by apply lookup_app_l_Some.
Qed.

Lemma magic_matches m now f rest : file_ok f → mem_bytes m now (header_bytes f ++ rest) →
  strncmp (at_mem m (now + c_magic)) (lit CPIO_HEADER_MAGIC) 6 = Ok 0.
Proof.
  intros Hf Hm. unfold strncmp. change (Z.to_nat 6) with (length (chars CPIO_HEADER_MAGIC)).
  destruct (strncmp_from_ok (chars CPIO_HEADER_MAGIC) (chars CPIO_HEADER_MAGIC)
    (at_mem m (now + c_magic)) (lit CPIO_HEADER_MAGIC) 0) as (r & E & Hr).
  - done.
  - intros j b Hj. change c_magic with (Z.of_nat (length (@nil Z))).
    apply (header_field f [] (chars CPIO_HEADER_MAGIC) (f_meta f ++ f_filesize f ++ f_devs f ++ f_namesize f ++ f_check f) m now rest);
      done.
  - intros j b Hj. apply (lit_bytes_at CPIO_HEADER_MAGIC). by apply (lookup_app_l_Some (chars CPIO_HEADER_MAGIC) [0]).
  - by rewrite E, (proj2 Hr eq_refl).
Qed.

Lemma hex_field m a ds v : length ds = 8%nat → hex_value ds = Some v →
  (∀ j c, ds !! j = Some c → at_mem m a (Z.of_nat j) = Ok c) → parse_hex_str (at_mem m a) 8 = Ok v.
Proof.
  intros Hl Hv Hd. unfold parse_hex_str. change (Z.to_nat 8) with 8%nat. rewrite <- Hl.
  apply parse_hex_from_ok; [done|done|lia|]. rewrite Hl. vm_compute. discriminate.
Qed.

Lemma filename_cstring m now f rest : file_ok f → mem_bytes m now (entry_bytes f ++ rest) →
  cstring (at_mem m (now + 110)) (f_name f).
Proof.
  intros Hf Hm. unfold entry_bytes in Hm. rewrite <- !(app_assoc _ _ rest) in Hm.
  apply mem_bytes_app in Hm as [_ Hm]. rewrite header_bytes_length in Hm by done.
  split; [|apply Hf]. apply mem_bytes_app in Hm as [[H _] _]. exact H.
Qed.

Lemma lit_chars s : Forall (λ c, 0 < c < 256) (chars s) → cstring (lit s) (chars s).
Proof. apply lit_cstring. Qed.

Lemma footer_cstring : cstring (lit CPIO_FOOTER_MAGIC) (chars CPIO_FOOTER_MAGIC).
Proof. apply lit_chars. repeat constructor; lia. Qed.

(** The room an archive at [now] needs: no address in it wraps. *)
Definition in_memory (now : Z) (n : nat) : Prop := 0 ≤ now ∧ now mod 4 = 0 ∧ now + Z.of_nat n + 16 ≤ 2 ^ 64.

Lemma entry_length f : file_ok f →
  length (entry_bytes f) = (data_offset f + (length (f_data f) + length (pad4 (length (f_data f)))))%nat.
Proof.
  intros Hf. unfold entry_bytes, data_offset. rewrite !length_app, header_bytes_length by done.
  lia.
Qed.

Lemma data_aligned f now : now mod 4 = 0 → (now + Z.of_nat (data_offset f)) mod 4 = 0.
Proof.
  intros Hm. unfold data_offset. destruct (pad4_length (110 + length (f_name f ++ [0]))) as [Hp _].
  rewrite Nat2Z.inj_add, Z.add_mod, Hm, Hp by lia. done.
Qed.

Lemma parse_header_ok m now f rest : file_ok f → mem_bytes m now (entry_bytes f ++ rest) →
  in_memory now (length (entry_bytes f)) →
  cpio_parse_header m now =
    Ok (if decide (f_name f = chars CPIO_FOOTER_MAGIC) then Trailer
        else Entry (now + 110) (Z.of_nat (length (f_data f))) (now + Z.of_nat (data_offset f))
               (now + Z.of_nat (length (entry_bytes f)))).
Proof.
  intros Hf Hm (Hnow & H4 & Hroom). pose proof (filename_cstring _ _ _ _ Hf Hm) as Hname.
  pose proof Hm as Hm'. unfold entry_bytes in Hm'. rewrite <- !(app_assoc _ _ rest) in Hm'.
  pose proof Hf as [K1 [K2 K2'] K3 [K4 K4'] K5 K6]. pose proof (entry_length f Hf) as Hlen.
  assert (Z.of_nat (data_offset f) = 110 + Z.of_nat (length (f_name f)) + 1 +
    Z.of_nat (length (pad4 (110 + length (f_name f ++ [0]))))) as Hoff.
  { unfold data_offset. rewrite length_app. simpl (length [0]). lia. }
  unfold cpio_parse_header. rewrite (magic_matches m now f _ Hf Hm'). cbn [mbind res_bind].
  rewrite (hex_field m (now + c_filesize) (f_filesize f) _ K2 K2').
  2:{ replace (now + c_filesize) with (now + Z.of_nat (length (chars CPIO_HEADER_MAGIC ++ f_meta f)))
        by (rewrite length_app, K1; reflexivity).
      refine (header_field f _ _ (f_devs f ++ f_namesize f ++ f_check f) m now _ _ Hm').
      unfold header_bytes. by rewrite <- app_assoc. }
  cbn [mbind res_bind]. unfold sizeof_cpio_header. rewrite (u64_small (now + 110)) by lia.
  destruct (strncmp_lit _ _ _ _ Hname footer_cstring) as (t & Et & Ht).
  change (Z.of_nat (length (chars CPIO_FOOTER_MAGIC)) + 1) with 11 in Et. rewrite Et. cbn [mbind res_bind negb].
  simpl (negb _). cbv iota. destruct (Z.eqb_spec t 0) as [Et0|Et0]; [by rewrite decide_True by (by apply Ht)|].
  rewrite decide_False by (intros E; by apply Et0, Ht).
  rewrite (hex_field m (now + c_namesize) (f_namesize f) _ K4 K4').
  2:{ replace (now + c_namesize) with
        (now + Z.of_nat (length (chars CPIO_HEADER_MAGIC ++ f_meta f ++ f_filesize f ++ f_devs f)))
        by (rewrite !length_app, K1, K2, K3; reflexivity).
      refine (header_field f _ _ (f_check f) m now _ _ Hm').
      unfold header_bytes. by rewrite <- !app_assoc. }
  cbn [mbind res_bind]. unfold CPIO_ALIGNMENT.
  assert (align_up (u64 (now + 110 + (Z.of_nat (length (f_name f)) + 1))) 4 = now + Z.of_nat (data_offset f)) as ->.
  { rewrite u64_small by lia.
    replace (now + 110 + (Z.of_nat (length (f_name f)) + 1)) with (now + Z.of_nat (110 + length (f_name f ++ [0])))
      by (rewrite length_app; simpl (length [0]); lia).
    rewrite align_up_pad; [done|done|done|]. rewrite length_app. simpl (length [0]). lia. }
  rewrite u64_small by lia. rewrite align_up_pad; [|lia|by apply data_aligned|lia].
  rewrite Hlen, (Nat2Z.inj_add (data_offset f)), Z.add_assoc. done.
Qed.

Lemma in_memory_app now n k : in_memory now (n + k) → in_memory now n.
Proof. unfold in_memory. lia. Qed.

Lemma entry_aligned f now : file_ok f → now mod 4 = 0 → (now + Z.of_nat (length (entry_bytes f))) mod 4 = 0.
Proof.
  intros Hf Hm. rewrite entry_length by done. rewrite Nat2Z.inj_add, Z.add_assoc, Nat2Z.inj_add.
  destruct (pad4_length (length (f_data f))) as [Hp _]. rewrite Z.add_mod, data_aligned, Hp by (done || lia). done.
Qed.

Lemma in_memory_next f now k : file_ok f → in_memory now (length (entry_bytes f) + k) →
  in_memory (now + Z.of_nat (length (entry_bytes f))) k.
Proof.
  intros Hf (H1 & H2 & H3). split; [lia|]. split; [by apply entry_aligned|]. lia.
Qed.

(** What is done with the file that is found. *)
Definition deliver {St} (alloc : Z → St → res (Z * St)) (store_info : Z → Z → Z → St → St)
    (func : option (Z → Z → St → res St)) (data size : Z) (s : St) : res (found * St) :=
  match func with
  | Some f => s ← f data size s; mret (Called, s)
  | None => '(cfi, s) ← alloc sizeof_cpio_file_info s; mret (Info cfi, store_info cfi data size s)
  end.

Lemma cpio_traverse_from_ok {St} alloc store_info (func : option (Z → Z → St → res St)) m p cs tr s fs :
  ∀ now fuel, archive_ok fs tr → mem_bytes m now (archive fs tr) → in_memory now (length (archive fs tr)) →
  cstring p cs → Z.of_nat (length cs) < 2 ^ 32 → (length fs < fuel)%nat →
  Forall (λ f, Z.of_nat (length (f_name f)) < 2 ^ 32) fs →
  cpio_traverse_from alloc store_info fuel m p (Z.of_nat (length cs)) func now s =
  match file_at now fs cs with
  | Some (data, size) => deliver alloc store_info func data size s
  | None => Ok (NotFound, s)
  end.
Proof.
  induction fs as [|f fs IH]; intros now [|fuel] Har Hm Hin Hp Hlen Hf Hnames; simpl in Hf; try lia; cbn [cpio_traverse_from file_at].
  - destruct Har as [_ [Htr Hname]]. unfold archive in Hm, Hin. rewrite fmap_nil in Hm, Hin.
    cbn [concat] in Hm, Hin. rewrite app_nil_l in Hm, Hin.
    rewrite <- (app_nil_r (entry_bytes tr)) in Hm.
    rewrite (parse_header_ok m now tr [] Htr Hm Hin). rewrite decide_True by done. done.
  - destruct Har as [[[Hfok Hfn] Hfs]%Forall_cons Htr]. apply Forall_cons in Hnames as [Hn Hnames].
    unfold archive in Hm, Hin. rewrite fmap_cons in Hm, Hin. cbn [concat] in Hm, Hin.
    rewrite <- app_assoc in Hm, Hin. rewrite length_app in Hin.
    rewrite (parse_header_ok m now f _ Hfok Hm (in_memory_app _ _ _ Hin)). rewrite decide_False by done.
    cbn [mbind res_bind]. pose proof (filename_cstring m now f _ Hfok Hm) as Hname.
    rewrite (strlen_ok m (now + 110) (f_name f) Hname Hn). cbn [mbind res_bind].
    assert (∃ b, (if Z.of_nat (length cs) =? Z.of_nat (length (f_name f))
        then c ← strncmp (at_mem m (now + 110)) p (Z.of_nat (length (f_name f))); mret (c =? 0)
        else mret false) = Ok b ∧ (b = true ↔ f_name f = cs)) as (b & Eb & Hb).
    { destruct (Z.eqb_spec (Z.of_nat (length cs)) (Z.of_nat (length (f_name f)))) as [El|El].
      - destruct (strncmp_same_length _ _ _ _ Hname Hp) as (r & Er & Hr); [lia|].
        exists (r =? 0). rewrite Er. split; [done|]. by rewrite Z.eqb_eq.
      - exists false. split; [done|]. split; [done|]. intros E. subst cs. done. }
    rewrite Eb. cbn [mbind res_bind]. destruct b.
    + rewrite decide_True by (by apply Hb). by destruct func.
    + rewrite decide_False by (intros E; by apply Hb in E).
      apply IH; [by split|..]; try done; try lia.
      * apply mem_bytes_app in Hm as [_ Hm]. exact Hm.
      * by apply in_memory_next.
Qed.

Lemma file_at_data m fs tr : ∀ now cs data size, archive_ok fs tr → mem_bytes m now (archive fs tr) →
  file_at now fs cs = Some (data, size) →
  ∃ f, f ∈ fs ∧ f_name f = cs ∧ size = Z.of_nat (length (f_data f)) ∧ mem_bytes m data (f_data f).
Proof.
  induction fs as [|f fs IH]; intros now cs data size Har Hm Hfa; [done|].
  destruct Har as [[[Hfok _] Hfs]%Forall_cons Htr].
  unfold archive in Hm. rewrite fmap_cons in Hm. cbn [concat] in Hm. rewrite <- app_assoc in Hm.
  cbn [file_at] in Hfa. case_decide as Ed.
  - injection Hfa as <- <-. exists f. split_and!; [by left|done|done|].
    apply mem_bytes_app in Hm as [Hm _]. unfold entry_bytes in Hm. rewrite !app_assoc in Hm.
    apply mem_bytes_app in Hm as [Hm _]. apply mem_bytes_app in Hm as [_ Hm].
    unfold data_offset. rewrite !length_app, header_bytes_length in Hm by done.
    rewrite length_app. exact Hm.
  - apply mem_bytes_app in Hm as [_ Hm].
    destruct (IH (now + Z.of_nat (length (entry_bytes f))) cs data size) as (f' & Hin & H); [by split|exact Hm|done|].
    exists f'. split; [by right|done].
Qed.

(** Where the contents of a file are. *)
Lemma file_at_range fs tr : ∀ now cs data size, Forall (λ f, file_ok f) fs → file_at now fs cs = Some (data, size) →
  now ≤ data ∧ 0 ≤ size ∧ data + size ≤ now + Z.of_nat (length (archive fs tr)).
Proof.
  induction fs as [|f fs IH]; intros now cs data size Hok Hf; [done|]. apply Forall_cons in Hok as [Hfok Hok].
  pose proof (entry_length f Hfok) as El. cbn [file_at] in Hf. unfold archive in *. rewrite fmap_cons. cbn [concat].
  rewrite <- app_assoc, length_app. case_decide.
  - injection Hf as <- <-. lia.
  - apply IH in Hf; [lia|done].
Qed.

(** The memory an archive is in is fuel enough to go through it. *)
Lemma archive_length fs : Forall (λ f, file_ok f ∧ f_name f ≠ chars CPIO_FOOTER_MAGIC) fs → (length fs ≤ length (concat (entry_bytes <$> fs)))%nat.
Proof.
  intros Hfs. induction Hfs as [|f fs [Hf _] _ IH]; [done|].
  rewrite fmap_cons. cbn [concat length]. rewrite length_app, (entry_length f Hf). unfold data_offset. lia.
Qed.

Lemma archive_fuel m base fs tr : archive_ok fs tr → window m base (archive fs tr) → (length fs < mem_fuel m)%nat.
Proof.
  intros [Hfs _] Hw. pose proof (win_size _ _ _ Hw) as Hsz. unfold mem_fuel. unfold archive in Hsz. rewrite length_app in Hsz.
  pose proof (archive_length fs Hfs). lia.
Qed.

Lemma file_at_name fs : ∀ now cs data size, Forall (λ f, file_ok f ∧ f_name f ≠ chars CPIO_FOOTER_MAGIC) fs → file_at now fs cs = Some (data, size) →
  (length cs ≤ length (concat (entry_bytes <$> fs)))%nat ∧ ∃ f, f ∈ fs ∧ f_name f = cs.
Proof.
  induction fs as [|f fs IH]; intros now cs data size Hok Hf; [done|]. apply Forall_cons in Hok as [[Hfok _] Hok].
  cbn [file_at] in Hf. rewrite fmap_cons. cbn [concat]. rewrite length_app, (entry_length f Hfok). case_decide as Ec.
  - split; [|exists f; split; [by left|done]]. unfold data_offset. rewrite length_app, Ec. lia.
  - destruct (IH _ _ _ _ Hok Hf) as (H1 & f' & H2 & H3). split; [lia|]. exists f'. split; [by right|done].
Qed.

(** [cpio_traverse] of an archive in memory that has the file. *)
Lemma cpio_traverse_found {St} alloc store_info (func : option (Z → Z → St → res St)) m base fs tr p cs s data size :
  archive_ok fs tr → window m base (archive fs tr) → in_memory base (length (archive fs tr)) →
  cstring p cs → Forall (λ f, Z.of_nat (length (f_name f)) < 2 ^ 32) fs → file_at base fs cs = Some (data, size) →
  cpio_traverse alloc store_info (mem_fuel m) m base p func s = deliver alloc store_info func data size s.
Proof.
  intros Har Hw Hin Hp Hn Hf. pose proof Har as [Hfs _]. destruct (file_at_name fs base cs data size Hfs Hf) as [Hlen (f & Hfin & <-)].
  rewrite Forall_forall in Hn. pose proof (Hn f Hfin) as Hf32. unfold cpio_traverse, strlen.
  pose proof (win_size _ _ _ Hw) as Hsz. unfold archive in Hsz. rewrite length_app in Hsz.
  rewrite (strlen_from_ok (f_name f)); [|done|unfold mem_fuel; lia|lia|lia].
  rewrite Z.add_0_l. cbn [mbind res_bind]. rewrite (cpio_traverse_from_ok _ _ _ _ p (f_name f) tr s fs base);
    [by rewrite Hf|done|apply Hw|done|done|done|by eapply archive_fuel|by apply Forall_forall].
Qed.

(** C30: in a well-formed archive, [cpio_traverse] terminates and finds exactly the
    first file with the name asked for: it hands the callback (or the record it
    returns) the address and the size of that file's contents, and reports that
    there is none only when no file has the name. *)
Theorem cpio_traverse_ok {St} alloc store_info (func : option (Z → Z → St → res St)) m base fs tr p cs s fuel :
  archive_ok fs tr → mem_bytes m base (archive fs tr) → in_memory base (length (archive fs tr)) →
  cstring p cs → Z.of_nat (length cs) < 2 ^ 32 → Forall (λ f, Z.of_nat (length (f_name f)) < 2 ^ 32) fs →
  (length fs < fuel)%nat → (length cs < fuel)%nat →
  cpio_traverse alloc store_info fuel m base p func s =
    match file_at base fs cs with
    | Some (data, size) => deliver alloc store_info func data size s
    | None => Ok (NotFound, s)
    end ∧
  (file_at base fs cs = None → Forall (λ f, f_name f ≠ cs) fs) ∧
  ∀ data size, file_at base fs cs = Some (data, size) →
    ∃ f, f ∈ fs ∧ f_name f = cs ∧ size = Z.of_nat (length (f_data f)) ∧ mem_bytes m data (f_data f).
Proof.
  intros Har Hm Hin Hp Hcs Hn Hf Hf2. split_and!.
  - unfold cpio_traverse. unfold strlen. rewrite (strlen_from_ok cs) by (done || lia). rewrite Z.add_0_l.
    cbn [mbind res_bind]. by apply cpio_traverse_from_ok with (tr := tr).
  - clear. revert base. induction fs as [|f fs IH]; intros base; cbn [file_at]; [constructor|].
    case_decide; [done|]. intros H2. constructor; [done|by eapply IH].
  - intros data size. by apply file_at_data with (tr := tr).
Qed.

(** An archive of one file, "a" with contents "hi". *)
Definition file_ex : file := File (repeat 0x30 48) (repeat 0x30 7 ++ [0x32]) (repeat 0x30 32)
  (repeat 0x30 7 ++ [0x32]) (repeat 0x30 8) [97] [104; 105].
Definition trailer_ex : file := File (repeat 0x30 48) (repeat 0x30 8) (repeat 0x30 32)
  (repeat 0x30 7 ++ [0x42]) (repeat 0x30 8) (chars CPIO_FOOTER_MAGIC) [].

Lemma archive_ex_ok : archive_ok [file_ex] trailer_ex.
Proof.
  split.
  - constructor; [|constructor]. split; [|done]. split; try done. repeat constructor; lia.
  - split; [|done]. split; try done. repeat constructor; lia.
Qed.

Lemma cpio_traverse_ok_witness :
  cpio_traverse (St := list (Z * Z)) (λ _ s, Ok (0, s)) (λ _ _ _ s, s) 9
    (bytes_mem 0x8000000 (archive [file_ex] trailer_ex)) 0x8000000 (lit "a")
    (Some (λ d n s, Ok ((d, n) :: s))) [] = Ok (Called, [(0x8000070, 2)]).
Proof.
  destruct (cpio_traverse_ok (St := list (Z * Z)) (λ _ s, Ok (0, s)) (λ _ _ _ s, s)
    (Some (λ d n s, Ok ((d, n) :: s))) (bytes_mem 0x8000000 (archive [file_ex] trailer_ex)) 0x8000000
    [file_ex] trailer_ex (lit "a") [97] [] 9 archive_ex_ok) as [E _].
  - apply bytes_mem_ok; [lia|vm_compute; discriminate|]. repeat constructor; lia.
  - split; [lia|]. split; [reflexivity|vm_compute; discriminate].
  - apply (lit_cstring "a"). repeat constructor; lia.
  - simpl. lia.
  - repeat constructor.
  - simpl. lia.
  - simpl. lia.
  - exact E.
Defined.
