(* ===== verification/Uart.v ===== *)
(** lib/uart.c: the mini UART. Formatted output, and the two interrupt-driven
    rings between the kernel and the device. *)
From S2P Require Import Prelude Util Lock Mem CString Cpio.
Local Open Scope Z_scope.

Definition UINT_HEX_LEN : Z := 8.
Definition UART_BUFFER_SIZE : Z := 0x100.

(** ** Formatted output: the bytes that are sent *)

Definition uart_puts_byte (c : Z) : list Z := if c =? 0x0a then [0x0d; c] else [c].

Fixpoint uart_puts_from (fuel : nat) (data : cptr) (i : Z) : res (list Z) :=
  match fuel with
  | O => Fuel
  | S fuel =>
      c ← data i;
      if c =? 0 then mret [] else l ← uart_puts_from fuel data (i + 1); mret (uart_puts_byte c ++ l)
  end.
Definition uart_puts (fuel : nat) (data : cptr) : res (list Z) := uart_puts_from fuel data 0.

Definition uart_putn (buf : cptr) (n : Z) : res (list Z) :=
  for_loop (Z.to_nat n) 0 (λ i l, c ← buf i; mret (l ++ [c])) [].

(** The digit loop of [uart_puti]: [s[i] = in % 10; in /= 10] with C's division,
    for [i] from 0 while [i < 11]; the digits, last one first. *)
Fixpoint puti_digits (n : nat) (in_ : Z) : list Z :=
  match n with
  | O => []
  | S n =>
      let d := u8 (Z.rem in_ 10) in
      let in_ := Z.quot in_ 10 in
      if in_ =? 0 then [d] else d :: puti_digits n in_
  end.
(** The second loop sends them backwards. *)
Definition uart_puti (in_ : Z) : list Z := (λ d, u8 (d + 0x30)) <$> reverse (puti_digits 11 in_).

(** [while (in) { s[i--] = in % 16; in /= 16; }], [i] an [unsigned char]. *)
Fixpoint hex_fill (fuel : nat) (s : list Z) (i in_ : Z) : res (list Z) :=
  match fuel with
  | O => Fuel
  | S fuel =>
      if in_ =? 0 then mret s
      else
        _ ← require (i <? Z.of_nat (length s));
        hex_fill fuel (<[Z.to_nat i := in_ mod 16]> s) (u8 (i - 1)) (in_ / 16)
  end.

Definition hex_char (d : Z) : Z := if 10 <=? d then 0x37 + d else 0x30 + d.

Definition put_hex (len : nat) (in_ : Z) : res (list Z) :=
  s ← hex_fill (S len) (repeat 0 len) (Z.of_nat len - 1) in_;
  mret ([0x30; 0x78] ++ (hex_char <$> s)).
Definition uart_putx (in_ : Z) : res (list Z) := put_hex (Z.to_nat UINT_HEX_LEN) in_.
Definition uart_putX (in_ : Z) : res (list Z) := put_hex 16 in_.

(** The variable arguments of [uart_printf]; taking one that is not there, or
    that has another type, is undefined. *)
Inductive vararg : Type :=
| VInt (i : Z)
| VLong (l : Z)
| VStr (s : cptr).

Fixpoint uart_printf_from (fuel : nat) (format : cptr) (i : Z) (l : list vararg) : res (list Z) :=
  match fuel with
  | O => Fuel
  | S fuel =>
      c ← format i;
      if c =? 0 then mret []
      else if c =? 0x25 then
        c ← format (i + 1);
        '(out, l) ← (
          if c =? 0x64 then
            match l with VInt v :: l => mret (uart_puti v, l) | _ => Fault end
          else if c =? 0x78 then
            match l with VInt v :: l => o ← uart_putx (u32 v); mret (o, l) | _ => Fault end
          else if c =? 0x58 then
            match l with VLong v :: l => o ← uart_putX v; mret (o, l) | _ => Fault end
          else if c =? 0x73 then
            match l with VStr s :: l => o ← uart_puts fuel s; mret (o, l) | _ => Fault end
          else if c =? 0x25 then mret ([0x25], l)
          else mret ([], l));
        rest ← uart_printf_from fuel format (i + 2) l; mret (out ++ rest)
      else
        rest ← uart_printf_from fuel format (i + 1) l; mret (uart_puts_byte c ++ rest)
  end.
Definition uart_printf (fuel : nat) (format : cptr) (l : list vararg) : res (list Z) :=
  uart_printf_from fuel format 0 l.

(** ** The rings *)

(** The cursors, the rings, the interrupt enable register, the bytes the device
    has received and sent, and the interrupt lock. *)
Record ustate := UState {
  sended_cursor : Z; send_insert_cursor : Z; unread_cursor : Z; read_push_cursor : Z;
  send_buffer : list Z; read_buffer : list Z;
  ier : Z; rx : list Z; tx : list Z; ulk : lockst;
}.

Definition with_sended (c : Z) (s : ustate) : ustate :=
  UState c (send_insert_cursor s) (unread_cursor s) (read_push_cursor s) (send_buffer s) (read_buffer s) (ier s) (rx s) (tx s) (ulk s).
Definition with_send (c : Z) (b : list Z) (s : ustate) : ustate :=
  UState (sended_cursor s) c (unread_cursor s) (read_push_cursor s) b (read_buffer s) (ier s) (rx s) (tx s) (ulk s).
Definition with_unread (c : Z) (s : ustate) : ustate :=
  UState (sended_cursor s) (send_insert_cursor s) c (read_push_cursor s) (send_buffer s) (read_buffer s) (ier s) (rx s) (tx s) (ulk s).
Definition with_read (c : Z) (b : list Z) (s : ustate) : ustate :=
  UState (sended_cursor s) (send_insert_cursor s) (unread_cursor s) c (send_buffer s) b (ier s) (rx s) (tx s) (ulk s).
Definition with_ier (r : Z) (s : ustate) : ustate :=
  UState (sended_cursor s) (send_insert_cursor s) (unread_cursor s) (read_push_cursor s) (send_buffer s) (read_buffer s) r (rx s) (tx s) (ulk s).
Definition with_rx (l : list Z) (s : ustate) : ustate :=
  UState (sended_cursor s) (send_insert_cursor s) (unread_cursor s) (read_push_cursor s) (send_buffer s) (read_buffer s) (ier s) l (tx s) (ulk s).
Definition with_tx (l : list Z) (s : ustate) : ustate :=
  UState (sended_cursor s) (send_insert_cursor s) (unread_cursor s) (read_push_cursor s) (send_buffer s) (read_buffer s) (ier s) (rx s) l (ulk s).
Definition with_ulk (k : lockst) (s : ustate) : ustate :=
  UState (sended_cursor s) (send_insert_cursor s) (unread_cursor s) (read_push_cursor s) (send_buffer s) (read_buffer s) (ier s) (rx s) (tx s) k.

Definition uart_reset : ustate :=
  UState 0 0 0 0 (repeat 0 256) (repeat 0 256) 0 [] [] (LockSt 0 true).

Definition enable_uart_r_interrupt (s : ustate) : ustate := with_ier (Z.lor (ier s) 1) s.
Definition enable_uart_w_interrupt (s : ustate) : ustate := with_ier (Z.lor (ier s) 2) s.
Definition disable_uart_r_interrupt (s : ustate) : ustate := with_ier (u32 (Z.land (ier s) (Z.lnot 1))) s.
Definition disable_uart_w_interrupt (s : ustate) : ustate := with_ier (u32 (Z.land (ier s) (Z.lnot 2))) s.
Definition disable_uart_interrupt (s : ustate) : ustate := disable_uart_w_interrupt (disable_uart_r_interrupt s).
Definition uart_r_interrupt_is_enable (s : ustate) : Z := Z.land (ier s) 1.
Definition uart_w_interrupt_is_enable (s : ustate) : Z := Z.land (ier s) 2.

(** The device: a write of AUX_MU_IO sends a byte, a read takes the oldest one
    received; reading with none there is undefined. *)
Definition aux_mu_io_write (b : Z) (s : ustate) : ustate := with_tx (tx s ++ [u8 b]) s.
Definition aux_mu_io_read (s : ustate) : res (Z * ustate) :=
  match rx s with [] => Fault | b :: l => mret (b, with_rx l s) end.

Definition uart_send (data : Z) (s : ustate) : ustate := aux_mu_io_write data s.
(** [WAITING(!( *AUX_MU_LSR & 0x01))]: with nothing received and nothing left to
    come, the loop does not end. *)
Definition wait_data_ready (s : ustate) : res () := match rx s with [] => Fuel | _ => Ok tt end.
Definition uart_getc (s : ustate) : res (Z * ustate) :=
  _ ← wait_data_ready s; '(c, s) ← aux_mu_io_read s; mret (if c =? 0x0d then 0x0a else c, s).

Definition uart_read (s : ustate) : res (Z * ustate) := _ ← wait_data_ready s; aux_mu_io_read s.
Definition uart_getn (buf n : Z) (m : bmem) (s : ustate) : res (bmem * ustate) :=
  for_loop (Z.to_nat n) 0 (λ i '(m, s), '(c, s) ← uart_getc s; m ← store8 m (u64 (buf + i)) c; mret (m, s)) (m, s).

Definition next_cursor (c : Z) : Z := let c := u32 (c + 1) in if UART_BUFFER_SIZE <=? c then 0 else c.

Definition send_full (s : ustate) : bool :=
  u32 (send_insert_cursor s + 1) mod UART_BUFFER_SIZE =? sended_cursor s.
Definition read_full (s : ustate) : bool :=
  u32 (read_push_cursor s + 1) mod UART_BUFFER_SIZE =? unread_cursor s.

Definition uart_interrupt_w_handler (s : ustate) : res ustate :=
  if send_insert_cursor s =? sended_cursor s then mret (disable_uart_w_interrupt s)
  else
    b ← load (send_buffer s !! Z.to_nat (sended_cursor s));
    let s := aux_mu_io_write b s in
    mret (enable_uart_w_interrupt (with_sended (next_cursor (sended_cursor s)) s)).

Definition uart_interrupt_r_handler (s : ustate) : res ustate :=
  if read_full s then mret (disable_uart_r_interrupt s)
  else
    '(b, s) ← aux_mu_io_read s;
    _ ← require (read_push_cursor s <? Z.of_nat (length (read_buffer s)));
    let buf := <[Z.to_nat (read_push_cursor s) := u8 b]> (read_buffer s) in
    mret (enable_uart_r_interrupt (with_read (next_cursor (read_push_cursor s)) buf s)).

(** The busy-waiting loops. [irq] is what the interrupts that come at one point
    of the code do: in each turn of the loop, and between the loop and the
    critical section. *)
Fixpoint send_wait (irq : ustate → res ustate) (fuel : nat) (s : ustate) : res ustate :=
  match fuel with
  | O => Fuel
  | S fuel =>
      if send_full s then s ← irq (enable_uart_w_interrupt s); send_wait irq fuel s else mret s
  end.

(** The rest of [uart_async_send], after the wait. *)
Definition send_put (data : Z) (s : ustate) : res ustate :=
  let s := with_ulk (lock (ulk s)) s in
  _ ← require (send_insert_cursor s <? Z.of_nat (length (send_buffer s)));
  let buf := <[Z.to_nat (send_insert_cursor s) := u8 data]> (send_buffer s) in
  let s := with_send (next_cursor (send_insert_cursor s)) buf s in
  let s := with_ulk (unlock (ulk s)) s in
  mret (enable_uart_w_interrupt s).

Definition uart_async_send (irq : ustate → res ustate) (fuel : nat) (data : Z) (s : ustate) : res ustate :=
  s ← send_wait irq fuel (disable_uart_w_interrupt s); s ← irq s; send_put data s.

Fixpoint uart_async_puts_from (irq : ustate → res ustate) (fuel : nat) (str : cptr) (i : Z) (s : ustate) : res ustate :=
  match fuel with
  | O => Fuel
  | S fuel =>
      c ← str i;
      if c =? 0 then mret s
      else
        s ← (if c =? 0x0a then uart_async_send irq (S fuel) 0x0d s else mret s);
        s ← uart_async_send irq (S fuel) c s;
        uart_async_puts_from irq fuel str (i + 1) s
  end.
Definition uart_async_puts (irq : ustate → res ustate) (fuel : nat) (str : cptr) (s : ustate) : res ustate :=
  uart_async_puts_from irq fuel str 0 s.

Fixpoint read_wait (irq : ustate → res ustate) (fuel : nat) (s : ustate) : res ustate :=
  match fuel with
  | O => Fuel
  | S fuel =>
      if read_push_cursor s =? unread_cursor s
      then s ← irq (enable_uart_r_interrupt s); read_wait irq fuel s else mret s
  end.

Definition uart_async_read (irq : ustate → res ustate) (fuel : nat) (s : ustate) : res (Z * ustate) :=
  s ← read_wait irq fuel (enable_uart_r_interrupt s);
  s ← irq s;
  let s := with_ulk (lock (ulk s)) s in
  b ← load (read_buffer s !! Z.to_nat (unread_cursor s));
  let c := u32 (unread_cursor s + 1) in
  let s := with_unread (if c =? UART_BUFFER_SIZE then 0 else c) s in
  mret (b, with_ulk (unlock (ulk s)) s).

Definition uart_async_getc (irq : ustate → res ustate) (fuel : nat) (s : ustate) : res (Z * ustate) :=
  '(c, s) ← uart_async_read irq fuel s; mret (if c =? 0x0d then 0x0a else c, s).

(** ** Correctness of the rings *)

(** The bytes waiting in a ring, oldest first. *)
Definition pending (buf : list Z) (rd wr : Z) : list Z :=
  (λ i, buf !!! Z.to_nat ((rd + i) mod 256)) <$> seqZ 0 ((wr - rd) mod 256).
Definition ring_ok (buf : list Z) (rd wr : Z) : Prop :=
  0 ≤ rd < 256 ∧ 0 ≤ wr < 256 ∧ length buf = 256%nat ∧ Forall (λ b, 0 ≤ b < 256) buf.

Lemma next_cursor_eq c : 0 ≤ c < 256 → next_cursor c = (c + 1) mod 256 ∧ 0 ≤ next_cursor c < 256.
Proof.
  intros H. unfold next_cursor, UART_BUFFER_SIZE. rewrite u32_small by lia.
  destruct (Z.leb_spec 256 (c + 1)).
  - by replace (c + 1) with 256 by lia.
  - rewrite Z.mod_small by lia. lia.
Qed.

Lemma seqZ_snoc m n : 0 ≤ n → seqZ m (n + 1) = seqZ m n ++ [m + n].
Proof. intros H. rewrite (seqZ_app m n 1) by lia. done. Qed.

Lemma ring_full rd wr : 0 ≤ rd < 256 → 0 ≤ wr < 256 →
  (u32 (wr + 1) mod UART_BUFFER_SIZE =? rd) = bool_decide ((wr - rd) mod 256 = 255).
Proof.
  intros Hr Hw. rewrite u32_small by lia. unfold UART_BUFFER_SIZE. apply eq_bool_prop_intro.
  rewrite bool_decide_spec. unfold Is_true. 
  assert ((wr + 1) mod 256 = if decide (wr = 255) then 0 else wr + 1) as ->.
  { case_decide; [by subst|]. apply Z.mod_small. lia. }
  assert ((wr - rd) mod 256 = if decide (rd ≤ wr) then wr - rd else wr - rd + 256) as ->.
  { case_decide; [apply Z.mod_small; lia|]. rewrite <- (Z.mod_add _ 1) by lia. apply Z.mod_small. lia. }
  destruct (Z.eqb_spec (if decide (wr = 255) then 0 else wr + 1) rd); repeat case_decide; split; intros; try done; lia.
Qed.

Lemma pending_push buf rd wr b : ring_ok buf rd wr → (wr - rd) mod 256 ≠ 255 → 0 ≤ b < 256 →
  ring_ok (<[Z.to_nat wr := b]> buf) rd (next_cursor wr) ∧
  pending (<[Z.to_nat wr := b]> buf) rd (next_cursor wr) = pending buf rd wr ++ [b].
Proof.
  intros (Hr & Hw & Hl & Hb) Hf Hbb. destruct (next_cursor_eq wr Hw) as [En Hn]. split.
  { split_and!; try lia; [by rewrite length_insert|]. by apply Forall_insert. }
  pose proof (Z.mod_pos_bound (wr - rd) 256).
  assert ((next_cursor wr - rd) mod 256 = (wr - rd) mod 256 + 1) as E.
  { rewrite En, Zminus_mod_idemp_l. replace (wr + 1 - rd) with ((wr - rd) + 1) by lia.
    rewrite <- Zplus_mod_idemp_l. apply Z.mod_small. lia. }
  unfold pending. rewrite E, seqZ_snoc, fmap_app by lia. cbn [fmap list_fmap]. f_equal.
  - apply list_fmap_ext. intros i j Hj. apply lookup_seqZ in Hj as [-> Hi].
    rewrite list_lookup_total_insert_ne; [done|]. intros E2.
    pose proof (Z.mod_pos_bound (rd + (0 + Z.of_nat i)) 256).
    assert (wr = (rd + (0 + Z.of_nat i)) mod 256) as E3 by lia.
    assert (Z.of_nat i < 256) by lia. rewrite E3 in Hi. rewrite Zminus_mod_idemp_l in Hi.
    replace (rd + (0 + Z.of_nat i) - rd) with (Z.of_nat i) in Hi by lia. rewrite Z.mod_small in Hi; lia.
  - rewrite Z.add_0_l, Zplus_mod_idemp_r. replace (rd + (wr - rd)) with wr by lia. rewrite Z.mod_small by lia.
    rewrite list_lookup_total_insert_eq by lia. done.
Qed.

Lemma pending_pop buf rd wr : ring_ok buf rd wr → rd ≠ wr → ∃ b, buf !! Z.to_nat rd = Some b ∧ 0 ≤ b < 256 ∧
  ring_ok buf (next_cursor rd) wr ∧ pending buf rd wr = b :: pending buf (next_cursor rd) wr.
Proof.
  intros (Hr & Hw & Hl & Hb) Hne. destruct (next_cursor_eq rd Hr) as [En Hn].
  destruct (lookup_lt_is_Some_2 buf (Z.to_nat rd)) as [b Eb]; [lia|]. exists b.
  split; [done|]. split; [by apply (Forall_lookup_1 _ _ _ _ Hb Eb)|]. split; [by split|].
  pose proof (Z.mod_pos_bound (wr - rd) 256).
  assert ((wr - rd) mod 256 ≠ 0) as H0.
  { intros E. apply Z.mod_divide in E as [k E]; [|lia]. assert (k = 0) by lia. lia. }
  assert ((wr - next_cursor rd) mod 256 = (wr - rd) mod 256 - 1) as E.
  { rewrite En, Zminus_mod_idemp_r. replace (wr - (rd + 1)) with ((wr - rd) - 1) by lia.
    rewrite <- Zminus_mod_idemp_l. apply Z.mod_small. lia. }
  unfold pending. rewrite E. rewrite (seqZ_cons 0 ((wr - rd) mod 256)) by lia. cbn [fmap list_fmap]. f_equal.
  - rewrite Z.add_0_r, Z.mod_small by lia. by apply list_lookup_total_correct.
  - rewrite <- Z.sub_1_r. apply list_eq. intros i. rewrite !list_lookup_fmap.
    destruct (decide (Z.of_nat i < (wr - rd) mod 256 - 1)).
    + rewrite !lookup_seqZ_lt by lia. cbn [fmap option_fmap option_map]. f_equal. f_equal. f_equal.
      rewrite En, Zplus_mod_idemp_l. f_equal. lia.
    + by rewrite !lookup_seqZ_ge by lia.
Qed.

(** *** The device and its interrupts *)

(** A byte arrives, or an interrupt is taken: [irq_handler] masks its source and
    runs the handler, if the source is enabled and has a reason. *)
Inductive uart_event : Type := WIrq | RIrq | Arrive (b : Z).

Definition uart_irq (e : uart_event) (s : ustate) : res ustate :=
  match e with
  | WIrq => if uart_w_interrupt_is_enable s =? 0 then mret s
            else uart_interrupt_w_handler (disable_uart_w_interrupt s)
  | RIrq => if (uart_r_interrupt_is_enable s =? 0) || bool_decide (rx s = []) then mret s
            else uart_interrupt_r_handler (disable_uart_r_interrupt s)
  | Arrive b => mret (with_rx (rx s ++ [u8 b]) s)
  end.
Fixpoint uart_irqs (l : list uart_event) (s : ustate) : res ustate :=
  match l with [] => mret s | e :: l => s ← uart_irq e s; uart_irqs l s end.

Record uart_inv (s : ustate) : Prop := {
  ui_send : ring_ok (send_buffer s) (sended_cursor s) (send_insert_cursor s);
  ui_read : ring_ok (read_buffer s) (unread_cursor s) (read_push_cursor s);
  ui_rx : Forall (λ b, 0 ≤ b < 256) (rx s);
}.
(** What has been sent and what is waiting; what is waiting to be read. *)
Definition to_send (s : ustate) : list Z := pending (send_buffer s) (sended_cursor s) (send_insert_cursor s).
Definition to_read (s : ustate) : list Z := pending (read_buffer s) (unread_cursor s) (read_push_cursor s).
Definition out_stream (s : ustate) : list Z := tx s ++ to_send s.
Definition in_stream (s : ustate) : list Z := to_read s ++ rx s.
Definition arrivals (l : list uart_event) : list Z :=
  flat_map (λ e, match e with Arrive b => [u8 b] | _ => [] end) l.

Lemma send_full_eq s : uart_inv s → send_full s = bool_decide (length (to_send s) = 255%nat).
Proof.
  intros [(Hr & Hw & _) _ _]. unfold send_full. rewrite ring_full by done. apply bool_decide_ext.
  unfold to_send, pending. rewrite length_fmap, length_seqZ.
  pose proof (Z.mod_pos_bound (send_insert_cursor s - sended_cursor s) 256). lia.
Qed.

Lemma pending_nil buf rd wr : 0 ≤ rd < 256 → 0 ≤ wr < 256 → rd = wr ↔ pending buf rd wr = [].
Proof.
  intros Hr Hw. split.
  - intros ->. unfold pending. by rewrite Z.sub_diag.
  - intros E. apply (f_equal length) in E. unfold pending in E. rewrite length_fmap, length_seqZ in E. simpl in E.
    pose proof (Z.mod_pos_bound (wr - rd) 256). assert ((wr - rd) mod 256 = 0) as E0 by lia.
    apply Z.mod_divide in E0 as [k E0]; [|lia]. assert (k = 0) by lia. lia.
Qed.

(** What one interrupt does to both streams: bytes move from the ring to the
    device and from the device to the ring, none is lost. *)
Record moved (s s' : ustate) (l : list Z) : Prop := {
  mv_inv : uart_inv s';
  mv_out : out_stream s' = out_stream s;
  mv_in : in_stream s' = in_stream s ++ l;
  mv_send : (length (to_send s') ≤ length (to_send s))%nat;
  mv_read : (length (to_read s) ≤ length (to_read s'))%nat;
}.

Lemma moved_refl s s' : uart_inv s → send_buffer s' = send_buffer s → sended_cursor s' = sended_cursor s →
  send_insert_cursor s' = send_insert_cursor s → read_buffer s' = read_buffer s → unread_cursor s' = unread_cursor s →
  read_push_cursor s' = read_push_cursor s → rx s' = rx s → tx s' = tx s → moved s s' [].
Proof.
  destruct s, s'; simpl. intros [H1 H2 H3]. intros; subst. split; [by split|done| |done|done].
  by rewrite app_nil_r.
Qed.

Lemma moved_trans s1 s2 s3 l1 l2 : moved s1 s2 l1 → moved s2 s3 l2 → moved s1 s3 (l1 ++ l2).
Proof.
  intros [] []. split; [done|congruence| |lia|lia].
  rewrite mv_in1, mv_in0. by rewrite app_assoc.
Qed.

Lemma w_handler_ok s : uart_inv s → ∃ s', uart_interrupt_w_handler s = Ok s' ∧ moved s s' [] ∧
  length (to_send s') = (length (to_send s) - 1)%nat.
Proof.
  intros Hi. pose proof Hi as [Hs Hr Hx]. unfold uart_interrupt_w_handler.
  destruct (Z.eqb_spec (send_insert_cursor s) (sended_cursor s)) as [E|E].
  - eexists. split; [done|]. split; [by apply moved_refl|].
    assert (to_send s = []) as E0.
    { unfold to_send. apply pending_nil; [apply Hs|apply Hs|done]. }
    change (to_send (disable_uart_w_interrupt s)) with (to_send s). by rewrite E0.
  - destruct (pending_pop _ _ _ Hs) as (b & Eb & Hb & Hs' & Ep); [congruence|]. rewrite Eb. cbn.
    eexists. split; [done|]. unfold enable_uart_w_interrupt, with_ier, with_sended, aux_mu_io_write, with_tx. cbn.
    split; [split|]; cbn.
    + by split.
    + unfold out_stream, to_send. cbn. rewrite Ep, u8_small by lia. by rewrite <- app_assoc.
    + by rewrite app_nil_r.
    + unfold to_send at 2. rewrite Ep. cbn. unfold to_send. cbn. lia.
    + done.
    + unfold to_send at 2. rewrite Ep. cbn. unfold to_send. cbn. lia.
Qed.

Lemma read_full_eq s : uart_inv s → read_full s = bool_decide (length (to_read s) = 255%nat).
Proof.
  intros [_ (Hr & Hw & _) _]. unfold read_full. rewrite ring_full by done. apply bool_decide_ext.
  unfold to_read, pending. rewrite length_fmap, length_seqZ.
  pose proof (Z.mod_pos_bound (read_push_cursor s - unread_cursor s) 256). lia.
Qed.

Lemma r_handler_ok s : uart_inv s → rx s ≠ [] → ∃ s', uart_interrupt_r_handler s = Ok s' ∧ moved s s' [] ∧
  to_read s' ≠ [].
Proof.
  intros Hi Hne. pose proof Hi as [Hs Hr Hx]. unfold uart_interrupt_r_handler. rewrite read_full_eq by done.
  case_bool_decide as E.
  - eexists. split; [done|]. split; [by apply moved_refl|].
    change (to_read (disable_uart_r_interrupt s)) with (to_read s). by destruct (to_read s).
  - unfold aux_mu_io_read. destruct (rx s) as [|b l] eqn:El; [done|]. cbn.
    apply Forall_cons in Hx as [Hb Hl]. pose proof Hr as (H1 & H2 & H3 & H4).
    rewrite H3, (proj2 (Z.ltb_lt _ _)) by lia. cbn. rewrite u8_small by lia.
    destruct (pending_push _ _ _ b Hr) as [Hr' Ep]; [|lia|].
    { unfold to_read, pending in E. rewrite length_fmap, length_seqZ in E. intros E2. apply E. by rewrite E2. }
    eexists. split; [done|]. unfold enable_uart_r_interrupt, with_ier, with_read, with_rx. cbn.
    split; [split|]; cbn.
    + by split.
    + done.
    + unfold in_stream, to_read. cbn. rewrite Ep, El, app_nil_r. by rewrite <- app_assoc.
    + done.
    + unfold to_read. cbn. rewrite Ep, length_app. lia.
    + unfold to_read. cbn. rewrite Ep. intros E3. by apply app_nil in E3 as [_ E3].
Qed.

(** What serving the transmitter amounts to: the oldest byte of the ring is sent, and
    the interrupt stays on as long as there was one. *)
Definition w_served (s s' : ustate) : Prop :=
  uart_inv s' ∧ tx s' = tx s ++ take 1 (to_send s) ∧ to_send s' = drop 1 (to_send s) ∧
  (to_read s', rx s') = (to_read s, rx s) ∧ Z.testbit (ier s') 1 = bool_decide (to_send s ≠ []) ∧ Z.testbit (ier s') 0 = Z.testbit (ier s) 0.

(** What serving the receiver amounts to: the oldest byte received goes to the end of
    the ring, unless that is full; then it stays where it is, and the interrupt is
    turned off. *)
Definition r_served (s s' : ustate) : Prop :=
  uart_inv s' ∧ (tx s', to_send s') = (tx s, to_send s) ∧ Z.testbit (ier s') 1 = Z.testbit (ier s) 1 ∧
  if decide (length (to_read s) = 255%nat) then (to_read s', rx s') = (to_read s, rx s) ∧ Z.testbit (ier s') 0 = false
  else ∃ b, rx s = b :: rx s' ∧ to_read s' = to_read s ++ [b] ∧ Z.testbit (ier s') 0 = true.

Lemma mask_bits r k n : 0 ≤ n < 32 → 0 ≤ k → Z.testbit (u32 (Z.land r (Z.lnot (2 ^ k)))) n = Z.testbit r n && negb (k =? n).
Proof.
  intros Hn Hk. unfold u32. rewrite Z.mod_pow2_bits_low by lia. rewrite Z.land_spec, Z.lnot_spec by lia.
  destruct (Z.eqb_spec k n) as [->|Hne]; [by rewrite Z.pow2_bits_true by lia|by rewrite Z.pow2_bits_false by lia].
Qed.

Lemma w_handler_served s : uart_inv s → ∃ s', uart_interrupt_w_handler (disable_uart_w_interrupt s) = Ok s' ∧ w_served s s'.
Proof.
  intros Hi. pose proof Hi as [Hs Hr Hx]. unfold uart_interrupt_w_handler.
  assert (∀ r, Z.testbit (u32 (Z.land r (Z.lnot 2))) 1 = false ∧ Z.testbit (u32 (Z.land r (Z.lnot 2))) 0 = Z.testbit r 0) as Hb2.
  { intros r. change 2 with (2 ^ 1). rewrite !mask_bits by lia. by rewrite andb_false_r, andb_true_r. }
  cbn [disable_uart_w_interrupt with_ier send_insert_cursor sended_cursor send_buffer].
  destruct (Z.eqb_spec (send_insert_cursor s) (sended_cursor s)) as [E|E].
  - eexists. split; [done|]. assert (to_send s = []) as E0 by (unfold to_send; apply pending_nil; [apply Hs|apply Hs|done]).
    unfold w_served. rewrite E0. split; [done|]. split; [cbn; by rewrite app_nil_r|]. split; [exact E0|]. split; [done|]. cbn [ier disable_uart_w_interrupt with_ier].
    rewrite (proj1 (Hb2 _)), !(proj2 (Hb2 _)). done.
  - destruct (pending_pop _ _ _ Hs) as (b & Eb & Hb & Hs' & Ep); [congruence|]. rewrite Eb. cbn.
    eexists. split; [done|]. unfold w_served. assert (to_send s = b :: pending (send_buffer s) (next_cursor (sended_cursor s)) (send_insert_cursor s)) as E0 by exact Ep.
    rewrite E0. split; [by split|]. split; [cbn; by rewrite u8_small by lia|]. split; [done|]. split; [done|].
    cbn [enable_uart_w_interrupt with_ier ier with_sended aux_mu_io_write with_tx disable_uart_w_interrupt].
    rewrite !Z.lor_spec, (proj1 (Hb2 _)), (proj2 (Hb2 _)). by rewrite orb_false_r.
Qed.

Lemma r_handler_served s : uart_inv s → rx s ≠ [] → ∃ s', uart_interrupt_r_handler (disable_uart_r_interrupt s) = Ok s' ∧ r_served s s'.
Proof.
  intros Hi Hne. pose proof Hi as [Hs Hr Hx]. unfold uart_interrupt_r_handler.
  change (read_full (disable_uart_r_interrupt s)) with (read_full s). rewrite read_full_eq by done.
  assert (∀ r, Z.testbit (u32 (Z.land r (Z.lnot 1))) 0 = false ∧ Z.testbit (u32 (Z.land r (Z.lnot 1))) 1 = Z.testbit r 1) as Hb2.
  { intros r. pose proof (mask_bits r 0 0 ltac:(lia) ltac:(lia)) as E0. pose proof (mask_bits r 0 1 ltac:(lia) ltac:(lia)) as E1.
    change (2 ^ 0) with 1 in E0, E1. rewrite E0, E1. by rewrite andb_false_r, andb_true_r. }
  unfold r_served. case_bool_decide as E.
  - eexists. split; [done|]. rewrite decide_True by done. split; [done|]. split; [done|]. cbn [ier disable_uart_r_interrupt with_ier].
    rewrite (proj1 (Hb2 _)), !(proj2 (Hb2 _)). done.
  - unfold aux_mu_io_read. cbn [disable_uart_r_interrupt with_ier rx]. destruct (rx s) as [|b l] eqn:El; [done|].
    cbn [mbind res_bind mret res_ret with_rx read_push_cursor read_buffer disable_uart_r_interrupt with_ier].
    apply Forall_cons in Hx as [Hb Hl]. pose proof Hr as (H1 & H2 & H3 & H4).
    rewrite H3, (proj2 (Z.ltb_lt _ _)) by lia. cbn [require mbind res_bind mret res_ret]. rewrite u8_small by lia.
    destruct (pending_push _ _ _ b Hr) as [Hr' Ep]; [|lia|].
    { unfold to_read, pending in E. rewrite length_fmap, length_seqZ in E. intros E2. apply E. by rewrite E2. }
    eexists. split; [done|]. rewrite decide_False by done. split; [by split|]. split; [done|].
    cbn [enable_uart_r_interrupt with_ier ier with_read with_rx disable_uart_r_interrupt].
    rewrite !Z.lor_spec, (proj1 (Hb2 _)), (proj2 (Hb2 _)). split; [by rewrite orb_false_r|].
    exists b. split; [done|]. split; [exact Ep|done].
Qed.

Lemma with_ier_moved s r : uart_inv s → moved s (with_ier r s) [].
Proof. intros H. by apply moved_refl. Qed.
Lemma with_ulk_moved s k : uart_inv s → moved s (with_ulk k s) [].
Proof. intros H. by apply moved_refl. Qed.

Lemma uart_irq_ok e s : uart_inv s → ∃ s', uart_irq e s = Ok s' ∧ moved s s' (arrivals [e]).
Proof.
  intros Hi. destruct e as [| |b]; cbn [uart_irq].
  - case_match; [eexists; split; [done|by apply moved_refl]|].
    pose proof (with_ier_moved s (u32 (Z.land (ier s) (Z.lnot 2))) Hi) as Hm.
    destruct (w_handler_ok (disable_uart_w_interrupt s) (mv_inv _ _ _ Hm)) as (s' & E & Hm' & _).
    exists s'. split; [done|]. exact (moved_trans _ _ _ _ _ Hm Hm').
  - destruct ((_ =? 0) || _) eqn:Ec; [eexists; split; [done|by apply moved_refl]|].
    apply orb_false_iff in Ec as [_ Ec%bool_decide_eq_false].
    pose proof (with_ier_moved s (u32 (Z.land (ier s) (Z.lnot 1))) Hi) as Hm.
    destruct (r_handler_ok (disable_uart_r_interrupt s) (mv_inv _ _ _ Hm)) as (s' & E & Hm' & _); [done|].
    exists s'. split; [done|]. exact (moved_trans _ _ _ _ _ Hm Hm').
  - eexists. split; [done|]. destruct Hi as [H1 H2 H3]. split; cbn; try done.
    + split; [done..|]. cbn. apply Forall_app. split; [done|]. constructor; [apply u8_range|done].
    + unfold in_stream. cbn. unfold to_read. cbn. by rewrite app_assoc.
Qed.

Lemma uart_irqs_ok l : ∀ s, uart_inv s → ∃ s', uart_irqs l s = Ok s' ∧ moved s s' (arrivals l).
Proof.
  induction l as [|e l IH]; intros s Hi; cbn [uart_irqs].
  - exists s. split; [done|]. by apply moved_refl.
  - destruct (uart_irq_ok e s Hi) as (s1 & E1 & M1). rewrite E1. cbn [mbind res_bind].
    destruct (IH s1 (mv_inv _ _ _ M1)) as (s2 & E2 & M2). exists s2. split; [done|].
    replace (arrivals (e :: l)) with (arrivals [e] ++ arrivals l); [by eapply moved_trans|].
    destruct e; done.
Qed.

(** *** The two ends the kernel uses *)

Lemma send_put_ok s d : uart_inv s → length (to_send s) ≠ 255%nat → ∃ s', send_put d s = Ok s' ∧ uart_inv s' ∧
  out_stream s' = out_stream s ++ [u8 d] ∧ in_stream s' = in_stream s ∧ to_send s' = to_send s ++ [u8 d].
Proof.
  intros [Hs Hr Hx] Hf. unfold send_put. pose proof Hs as (_ & H2 & H3 & _).
  cbn [send_insert_cursor send_buffer with_ulk]. rewrite H3, (proj2 (Z.ltb_lt _ _)) by lia. cbn [mbind res_bind require].
  destruct (pending_push _ _ _ (u8 d) Hs) as [Hs' Ep]; [|apply u8_range|].
  { unfold to_send, pending in Hf. rewrite length_fmap, length_seqZ in Hf. intros E2. apply Hf. by rewrite E2. }
  eexists. split; [done|]. cbn. split_and!; [by split| |done|].
  - unfold out_stream, to_send. cbn. rewrite Ep. by rewrite app_assoc.
  - unfold to_send. cbn. by rewrite Ep.
Qed.

(** An interrupt list in which the transmitter is served: one that leaves room
    in the ring. *)
Lemma w_irq_progress s : uart_inv s → uart_w_interrupt_is_enable s ≠ 0 → ∃ s', uart_irq WIrq s = Ok s' ∧
  moved s s' [] ∧ length (to_send s') = (length (to_send s) - 1)%nat.
Proof.
  intros Hi Hw. cbn [uart_irq]. rewrite (proj2 (Z.eqb_neq _ _) Hw).
  pose proof (with_ier_moved s (u32 (Z.land (ier s) (Z.lnot 2))) Hi) as Hm.
  destruct (w_handler_ok (disable_uart_w_interrupt s) (mv_inv _ _ _ Hm)) as (s' & E & Hm' & Hl).
  exists s'. split; [done|]. split; [exact (moved_trans _ _ _ _ _ Hm Hm')|done].
Qed.

Lemma w_enabled s : uart_w_interrupt_is_enable (enable_uart_w_interrupt s) ≠ 0.
Proof.
  unfold uart_w_interrupt_is_enable, enable_uart_w_interrupt, with_ier. cbn [ier]. intros E.
  apply (f_equal (λ x, Z.testbit x 1)) in E. by rewrite Z.land_spec, Z.lor_spec, orb_true_r in E.
Qed.
Lemma r_enabled s : uart_r_interrupt_is_enable (enable_uart_r_interrupt s) ≠ 0.
Proof.
  unfold uart_r_interrupt_is_enable, enable_uart_r_interrupt, with_ier. cbn [ier]. intros E.
  apply (f_equal (λ x, Z.testbit x 0)) in E. by rewrite Z.land_spec, Z.lor_spec, orb_true_r in E.
Qed.

(** What [n] turns with the interrupts [l] bring. *)
Definition turns (n : nat) (l : list uart_event) : list Z := concat (repeat (arrivals l) n).

Lemma to_send_bound s : uart_inv s → (length (to_send s) ≤ 255)%nat.
Proof.
  intros _. unfold to_send, pending. rewrite length_fmap, length_seqZ.
  pose proof (Z.mod_pos_bound (send_insert_cursor s - sended_cursor s) 256). lia.
Qed.

Lemma w_irqs_progress l s : uart_inv s → uart_w_interrupt_is_enable s ≠ 0 →
  ∃ s', uart_irqs (WIrq :: l) s = Ok s' ∧ moved s s' (arrivals l) ∧ (length (to_send s') < 255)%nat.
Proof.
  intros Hi Hw. destruct (w_irq_progress s Hi Hw) as (s1 & E1 & M1 & L1). cbn [uart_irqs]. rewrite E1.
  destruct (uart_irqs_ok l s1 (mv_inv _ _ _ M1)) as (s2 & E2 & M2). exists s2. split; [done|].
  split; [exact (moved_trans _ _ _ _ _ M1 M2)|].
  pose proof (mv_send _ _ _ M2). pose proof (to_send_bound s Hi). lia.
Qed.

Lemma send_wait_ok l fuel s : uart_inv s → (2 ≤ fuel)%nat →
  ∃ s' n, send_wait (uart_irqs (WIrq :: l)) fuel s = Ok s' ∧ moved s s' (turns n l) ∧ length (to_send s') ≠ 255%nat.
Proof.
  intros Hi Hf. destruct fuel as [|[|fuel]]; try lia. cbn [send_wait]. rewrite send_full_eq by done.
  case_bool_decide as E.
  - pose proof (with_ier_moved s (Z.lor (ier s) 2) Hi) as M0.
    destruct (w_irqs_progress l (enable_uart_w_interrupt s) (mv_inv _ _ _ M0) (w_enabled s)) as (s1 & E1 & M1 & L1).
    rewrite E1. cbn [mbind res_bind]. rewrite send_full_eq, bool_decide_eq_false_2 by (lia || apply M1).
    exists s1, 1%nat. split; [done|]. split; [|lia]. unfold turns. cbn [repeat concat]. rewrite app_nil_r.
    exact (moved_trans _ _ _ _ _ M0 M1).
  - exists s, 0%nat. split; [done|]. split; [by apply moved_refl|done].
Qed.

Lemma send_ok l fuel d s : uart_inv s → (2 ≤ fuel)%nat →
  ∃ s' n, uart_async_send (uart_irqs (WIrq :: l)) fuel d s = Ok s' ∧ uart_inv s' ∧
    out_stream s' = out_stream s ++ [u8 d] ∧ in_stream s' = in_stream s ++ turns n l.
Proof.
  intros Hi Hf. unfold uart_async_send.
  pose proof (with_ier_moved s (u32 (Z.land (ier s) (Z.lnot 2))) Hi) as M0.
  destruct (send_wait_ok l fuel (disable_uart_w_interrupt s) (mv_inv _ _ _ M0) Hf) as (s1 & n & E1 & M1 & L1).
  rewrite E1. cbn [mbind res_bind].
  destruct (uart_irqs_ok (WIrq :: l) s1 (mv_inv _ _ _ M1)) as (s2 & E2 & M2). rewrite E2. cbn [mbind res_bind].
  destruct (send_put_ok s2 d (mv_inv _ _ _ M2)) as (s3 & E3 & I3 & O3 & N3 & _).
  { pose proof (mv_send _ _ _ M2). pose proof (to_send_bound s1 (mv_inv _ _ _ M1)). lia. }
  pose proof (moved_trans _ _ _ _ _ M0 (moved_trans _ _ _ _ _ M1 M2)) as M.
  exists s3, (n + 1)%nat. split; [done|]. split; [done|]. split.
  - rewrite O3. by rewrite (mv_out _ _ _ M).
  - rewrite N3, (mv_in _ _ _ M). unfold turns. rewrite repeat_app, concat_app. cbn. by rewrite app_nil_r.
Qed.

Lemma turns_add n k l : turns (n + k) l = turns n l ++ turns k l.
Proof. unfold turns. by rewrite repeat_app, concat_app. Qed.

(** C32: [uart_async_send] terminates as soon as the transmitter interrupt is
    served while it waits, whatever other interrupts come then, and adds exactly
    its byte at the end of the output: nothing sent before it is lost, repeated
    or overtaken, and nothing received is lost. *)
Theorem uart_async_send_ok l fuel d s : uart_inv s → (2 ≤ fuel)%nat →
  ∃ s' n, uart_async_send (uart_irqs (WIrq :: l)) fuel d s = Ok s' ∧ uart_inv s' ∧
    out_stream s' = out_stream s ++ [u8 d] ∧ in_stream s' = in_stream s ++ turns n l.
Proof. apply send_ok. Qed.

Lemma uart_reset_inv : uart_inv uart_reset.
Proof.
  assert (ring_ok (repeat 0 256) 0 0) as H; [|by split; [..|constructor]].
  split; [lia|]. split; [lia|]. split; [done|]. apply Forall_forall. intros b Hb%list_elem_of_In%repeat_spec. lia.
Qed.

Lemma uart_async_send_ok_witness : ∃ s' n, uart_async_send (uart_irqs [WIrq; Arrive 65]) 2 0x68 uart_reset = Ok s' ∧
  uart_inv s' ∧ out_stream s' = [0x68] ∧ in_stream s' = turns n [Arrive 65].
Proof. exact (uart_async_send_ok [Arrive 65] 2 0x68 uart_reset uart_reset_inv (le_n 2)). Defined.

Lemma r_irqs_progress b l s : uart_inv s → uart_r_interrupt_is_enable s ≠ 0 →
  ∃ s', uart_irqs (Arrive b :: RIrq :: l) s = Ok s' ∧ moved s s' (arrivals (Arrive b :: l)) ∧ to_read s' ≠ [].
Proof.
  intros Hi Hr. destruct (uart_irq_ok (Arrive b) s Hi) as (s1 & E1 & M1). cbn [uart_irqs]. rewrite E1. cbn [mbind res_bind].
  injection E1 as E1. cbn [uart_irq].
  replace (uart_r_interrupt_is_enable s1) with (uart_r_interrupt_is_enable s) by (by rewrite <- E1).
  assert (rx s1 ≠ []) as Hx by (rewrite <- E1; cbn; intros E; by apply app_nil in E as [_ E]).
  rewrite (proj2 (Z.eqb_neq _ _) Hr), bool_decide_eq_false_2 by done. cbn [orb].
  pose proof (with_ier_moved s1 (u32 (Z.land (ier s1) (Z.lnot 1))) (mv_inv _ _ _ M1)) as M2.
  destruct (r_handler_ok (disable_uart_r_interrupt s1) (mv_inv _ _ _ M2)) as (s3 & E3 & M3 & H3); [done|].
  rewrite E3. cbn [mbind res_bind].
  destruct (uart_irqs_ok l s3 (mv_inv _ _ _ M3)) as (s4 & E4 & M4). exists s4. split; [done|]. split.
  - exact (moved_trans _ _ _ _ _ M1 (moved_trans _ _ _ _ _ M2 (moved_trans _ _ _ _ _ M3 M4))).
  - pose proof (mv_read _ _ _ M4). destruct (to_read s3), (to_read s4); simpl in *; try done; lia.
Qed.

Lemma read_empty s : uart_inv s → (read_push_cursor s =? unread_cursor s) = bool_decide (to_read s = []).
Proof.
  intros [_ (H1 & H2 & _) _]. apply eq_bool_prop_intro. rewrite bool_decide_spec. unfold to_read.
  rewrite <- pending_nil by done. unfold Is_true. destruct (Z.eqb_spec (read_push_cursor s) (unread_cursor s)); split; intros; done || congruence.
Qed.

(** [uart_async_read] terminates as soon as a byte arrives and the receiver
    interrupt is served while it waits, and returns the oldest byte not yet read:
    received bytes are read once each, in the order of arrival, and the output
    is untouched. *)
Theorem uart_async_read_ok b l fuel s : uart_inv s → (2 ≤ fuel)%nat →
  ∃ c s' n, uart_async_read (uart_irqs (Arrive b :: RIrq :: l)) fuel s = Ok (c, s') ∧ uart_inv s' ∧
    in_stream s ++ turns n (Arrive b :: l) = c :: in_stream s' ∧ out_stream s' = out_stream s.
Proof.
  intros Hi Hf. unfold uart_async_read. set (irq := uart_irqs _).
  pose proof (with_ier_moved s (Z.lor (ier s) 1) Hi) as M0.
  assert (∃ s1 n, read_wait irq fuel (enable_uart_r_interrupt s) = Ok s1 ∧ moved s s1 (turns n (Arrive b :: l)) ∧ to_read s1 ≠ [])
    as (s1 & n & E1 & M1 & H1).
  { destruct fuel as [|[|fuel]]; try lia. cbn [read_wait]. rewrite read_empty by apply M0. case_bool_decide as E.
    - pose proof (with_ier_moved _ (Z.lor (ier (enable_uart_r_interrupt s)) 1) (mv_inv _ _ _ M0)) as M1.
      destruct (r_irqs_progress b l (enable_uart_r_interrupt (enable_uart_r_interrupt s)) (mv_inv _ _ _ M1) (r_enabled _)) as (s2 & E2 & M2 & H2).
      unfold irq. rewrite E2. cbn [mbind res_bind]. rewrite read_empty, bool_decide_eq_false_2 by (done || apply M2).
      exists s2, 1%nat. split; [done|]. split; [|done]. unfold turns. cbn [repeat concat]. rewrite app_nil_r.
      exact (moved_trans _ _ _ _ _ M0 (moved_trans _ _ _ _ _ M1 M2)).
    - exists (enable_uart_r_interrupt s), 0%nat. split; [done|]. split; [exact M0|done]. }
  rewrite E1. cbn [mbind res_bind].
  destruct (uart_irqs_ok (Arrive b :: RIrq :: l) s1 (mv_inv _ _ _ M1)) as (s2 & E2 & M2). unfold irq. rewrite E2. cbn [mbind res_bind].
  pose proof (moved_trans _ _ _ _ _ M1 M2) as M. pose proof (mv_inv _ _ _ M) as [Hs Hr Hx].
  destruct (pending_pop _ _ _ Hr) as (c & Ec & Hc & Hr' & Ep).
  { intros E. pose proof (mv_read _ _ _ M2) as Hl. apply H1. apply (pending_nil (read_buffer s2)) in E; [|apply Hr..].
    unfold to_read in Hl at 2. rewrite E in Hl. destruct (to_read s1); [done|simpl in Hl; lia]. }
  cbn [read_buffer unread_cursor with_ulk]. rewrite Ec. cbn [load mbind res_bind].
  replace (if u32 (unread_cursor s2 + 1) =? UART_BUFFER_SIZE then 0 else u32 (unread_cursor s2 + 1))
    with (next_cursor (unread_cursor s2)).
  2: { unfold next_cursor, UART_BUFFER_SIZE. destruct Hr as (H & _). rewrite u32_small by lia.
    destruct (Z.leb_spec 256 (unread_cursor s2 + 1)), (Z.eqb_spec (unread_cursor s2 + 1) 256); lia. }
  eexists _, _, (n + 1)%nat. split; [done|]. split; [by split|]. split; [|apply M].
  assert (turns (n + 1) (Arrive b :: l) = turns n (Arrive b :: l) ++ arrivals (Arrive b :: RIrq :: l)) as Et.
  { unfold turns. rewrite repeat_app, concat_app. cbn. by rewrite app_nil_r. }
  rewrite Et, <- (mv_in _ _ _ M). unfold in_stream, to_read. rewrite Ep. done.
Qed.

Lemma uart_async_read_ok_witness : ∃ c s' n, uart_async_read (uart_irqs [Arrive 65; RIrq; WIrq]) 2 uart_reset = Ok (c, s') ∧
  uart_inv s' ∧ turns n [Arrive 65; WIrq] = c :: in_stream s' ∧ out_stream s' = [].
Proof. exact (uart_async_read_ok 65 [WIrq] 2 uart_reset uart_reset_inv (le_n 2)). Defined.

(** once nothing more is written, as many transmitter interrupts as there are
    bytes waiting empty the ring: every byte handed to [uart_async_send] reaches
    the device, in order. *)
Theorem uart_drain : ∀ s, uart_inv s → uart_w_interrupt_is_enable s ≠ 0 →
  ∃ s', uart_irqs (repeat WIrq (length (to_send s))) s = Ok s' ∧ to_send s' = [] ∧ tx s' = out_stream s.
Proof.
  intros s. remember (length (to_send s)) as n eqn:En. revert s En.
  induction n as [|n IH]; intros s En Hi Hw; cbn [repeat uart_irqs].
  - exists s. unfold out_stream. destruct (to_send s); [|done]. by rewrite app_nil_r.
  - destruct (w_irq_progress s Hi Hw) as (s1 & E1 & M1 & L1). rewrite E1. cbn [mbind res_bind].
    assert (uart_w_interrupt_is_enable s1 ≠ 0) as Hw1.
    { cbn [uart_irq] in E1. rewrite (proj2 (Z.eqb_neq _ _) Hw) in E1. unfold uart_interrupt_w_handler in E1.
      destruct (Z.eqb_spec (send_insert_cursor (disable_uart_w_interrupt s)) (sended_cursor (disable_uart_w_interrupt s))) as [E|E].
      - assert (to_send s = []) as E0; [|by rewrite E0 in En].
        destruct Hi as [(H1 & H2 & _) _ _]. by apply pending_nil.
      - apply bind_Ok in E1 as (b & _ & E1). injection E1 as <-. apply w_enabled. }
    destruct (IH s1) as (s2 & E2 & T2 & X2); [lia|apply M1|done|]. exists s2. split; [done|]. split; [done|].
    by rewrite X2, (mv_out _ _ _ M1).
Qed.

Lemma uart_drain_witness : ∃ s s', uart_async_send (uart_irqs [WIrq]) 2 0x68 uart_reset = Ok s ∧
  uart_irqs [WIrq] s = Ok s' ∧ tx s' = [0x68].
Proof.
  assert (∃ s, uart_async_send (uart_irqs [WIrq]) 2 0x68 uart_reset = Ok s ∧ uart_inv s ∧ out_stream s = [0x68] ∧
    uart_w_interrupt_is_enable s ≠ 0 ∧ length (to_send s) = 1%nat) as (s & E & I & O & W & L).
  { destruct (send_put_ok (disable_uart_w_interrupt (disable_uart_w_interrupt uart_reset)) 0x68) as (s & E & I & O & _ & T).
    - apply (with_ier_moved _ _ (mv_inv _ _ _ (with_ier_moved _ _ uart_reset_inv))).
    - vm_compute. discriminate.
    - exists s. split; [exact E|]. split; [exact I|]. split; [rewrite O; reflexivity|]. split.
      + injection E as <-. apply w_enabled.
      + rewrite T. reflexivity. }
  destruct (uart_drain s I W) as (s' & E' & _ & X). exists s, s'. rewrite L in E'. rewrite O in X. done.
Defined.

(** *** Strings *)

Lemma uart_puts_from_shift fuel : ∀ p i, uart_puts_from fuel p (i + 1) = uart_puts_from fuel (shift_ptr p 1) i.
Proof.
  induction fuel as [|fuel IH]; intros p i; [done|]. cbn [uart_puts_from]. change (shift_ptr p 1 i) with (p (1 + i)).
  rewrite (Z.add_comm 1 i). destruct (p (i + 1)); [|done..]. cbn [mbind res_bind]. by rewrite IH.
Qed.

Lemma uart_puts_ok cs : ∀ fuel p, cstring p cs → (length cs < fuel)%nat →
  uart_puts fuel p = Ok (flat_map uart_puts_byte cs).
Proof.
  unfold uart_puts. induction cs as [|c cs IH]; intros [|fuel] p Hp Hf; simpl in Hf; try lia; cbn [uart_puts_from flat_map].
  - by rewrite (cstring_nil _ Hp).
  - destruct (cstring_cons _ _ _ Hp) as (E & Hc & Hs). rewrite E. cbn [mbind res_bind].
    rewrite (proj2 (Z.eqb_neq _ _)) by lia. change 1 with (0 + 1). rewrite uart_puts_from_shift, IH by (done || lia).
    done.
Qed.

(** [uart_async_puts] adds to the output exactly the bytes [uart_puts] sends,
    a carriage return before each newline included, and terminates under the
    same interrupts as [uart_async_send]. *)
Theorem uart_async_puts_ok cs l fuel p s : uart_inv s → cstring p cs → (S (length cs) < fuel)%nat →
  ∃ s' n, uart_async_puts (uart_irqs (WIrq :: l)) fuel p s = Ok s' ∧ uart_inv s' ∧
    uart_puts fuel p = Ok (flat_map uart_puts_byte cs) ∧
    out_stream s' = out_stream s ++ (u8 <$> flat_map uart_puts_byte cs) ∧
    in_stream s' = in_stream s ++ turns n l.
Proof.
  intros Hi Hp Hf.
  enough (∀ fuel cs p i s, uart_inv s → cstring (shift_ptr p i) cs → (S (length cs) < fuel)%nat →
    ∃ s' n, uart_async_puts_from (uart_irqs (WIrq :: l)) fuel p i s = Ok s' ∧ uart_inv s' ∧
      out_stream s' = out_stream s ++ (u8 <$> flat_map uart_puts_byte cs) ∧ in_stream s' = in_stream s ++ turns n l) as H.
  { destruct (H fuel cs p 0 s Hi Hp Hf) as (s' & n & E & I & O & N). exists s', n. split; [done|]. split; [done|].
    split; [|done]. apply uart_puts_ok; [done|lia]. }
  clear. intros fuel cs. revert fuel. induction cs as [|c cs IH]; intros [|fuel] p i s Hi Hp Hf; simpl in Hf; try lia;
    cbn [uart_async_puts_from flat_map].
  - pose proof (cstring_nil _ Hp) as E. unfold shift_ptr in E. rewrite Z.add_0_r in E. rewrite E. cbn [mbind res_bind].
    exists s, 0%nat. split; [done|]. split; [done|]. split; symmetry; apply app_nil_r.
  - destruct (cstring_cons _ _ _ Hp) as (E & Hc & Hs). unfold shift_ptr in E. rewrite Z.add_0_r in E. rewrite E.
    cbn [mbind res_bind]. rewrite (proj2 (Z.eqb_neq c 0)) by lia.
    assert (∃ s1 n, (if c =? 0x0a then uart_async_send (uart_irqs (WIrq :: l)) (S fuel) 0x0d s else mret s) = Ok s1 ∧
      uart_inv s1 ∧ out_stream s1 = out_stream s ++ (if c =? 0x0a then [u8 0x0d] else []) ∧
      in_stream s1 = in_stream s ++ turns n l) as (s1 & n1 & E1 & I1 & O1 & N1).
    { destruct (c =? 0x0a).
      - apply send_ok; [done|lia].
      - exists s, 0%nat. split; [done|]. split; [done|]. split; symmetry; apply app_nil_r. }
    rewrite E1. cbn [mbind res_bind].
    destruct (send_ok l (S fuel) c s1) as (s2 & n2 & E2 & I2 & O2 & N2); [done|lia|]. rewrite E2. cbn [mbind res_bind].
    destruct (IH fuel p (i + 1) s2) as (s3 & n3 & E3 & I3 & O3 & N3); [done| |lia|].
    { destruct Hs as [Hs Hcs]. split; [|done]. intros j b Hj. unfold shift_ptr. rewrite <- Z.add_assoc. by apply Hs. }
    exists s3, (n1 + n2 + n3)%nat. split; [done|]. split; [done|]. split.
    + rewrite O3, O2, O1. unfold uart_puts_byte at 2. rewrite fmap_app, <- !app_assoc. by destruct (c =? 0x0a).
    + rewrite N3, N2, N1, !turns_add. by rewrite <- !app_assoc.
Qed.

Lemma uart_async_puts_ok_witness : ∃ s' n, uart_async_puts (uart_irqs [WIrq]) 5 (lit "ok") uart_reset = Ok s' ∧ uart_inv s' ∧
  uart_puts 5 (lit "ok") = Ok [111; 107] ∧ out_stream s' = [111; 107] ∧ in_stream s' = turns n [].
Proof.
  apply (uart_async_puts_ok [111; 107] [] 5 (lit "ok") uart_reset uart_reset_inv).
  - apply (lit_cstring "ok"). repeat constructor; lia.
  - simpl. lia.
Defined.

(** *** Numbers *)

(** The [len] least significant hexadecimal digits of [n], most significant first. *)
Fixpoint hex_digits (len : nat) (n : Z) : list Z :=
  match len with O => [] | S len => hex_digits len (n / 16) ++ [n mod 16] end.
Definition hex_text (len : nat) (n : Z) : list Z := [0x30; 0x78] ++ (hex_char <$> hex_digits len n).

Lemma hex_digits_length len : ∀ n, length (hex_digits len n) = len.
Proof. induction len as [|len IH]; intros n; [done|]. cbn. rewrite length_app, IH. simpl. lia. Qed.

Lemma hex_digits_0 len : hex_digits len 0 = repeat 0 len.
Proof.
  induction len as [|len IH]; [done|]. change (hex_digits len 0 ++ [0] = repeat 0 (S len)).
  rewrite IH. symmetry. apply repeat_cons.
Qed.

Lemma hex_fill_ok len : ∀ fuel n rest, (len < fuel)%nat → Z.of_nat len ≤ 256 → 0 ≤ n < 16 ^ Z.of_nat len →
  hex_fill fuel (repeat 0 len ++ rest) (u8 (Z.of_nat len - 1)) n = Ok (hex_digits len n ++ rest).
Proof.
  induction len as [|len IH]; intros [|fuel] n rest Hf Hl Hn; try lia; cbn [hex_fill].
  - by replace n with 0 by lia.
  - destruct (Z.eqb_spec n 0) as [->|Hne]; [by rewrite hex_digits_0|].
    replace (Z.of_nat (S len) - 1) with (Z.of_nat len) by lia. rewrite (u8_small (Z.of_nat len)) by lia.
    rewrite length_app, repeat_length, (proj2 (Z.ltb_lt _ _)) by lia. cbn [require mbind res_bind].
    assert (<[Z.to_nat (Z.of_nat len):=n mod 16]> (repeat 0 (S len) ++ rest) = repeat 0 len ++ (n mod 16 :: rest)) as ->.
    { rewrite Nat2Z.id. replace (S len) with (len + 1)%nat by lia. rewrite repeat_app, <- app_assoc.
      rewrite insert_app_r_alt by (rewrite repeat_length; lia). rewrite repeat_length, Nat.sub_diag. done. }
    rewrite IH; [|lia|lia|].
    + cbn. by rewrite <- app_assoc.
    + rewrite Nat2Z.inj_succ, Z.pow_succ_r in Hn by lia. split; [apply Z.div_pos; lia|].
      apply Z.div_lt_upper_bound; lia.
Qed.

Lemma put_hex_ok len n : (0 < len ≤ 256)%nat → 0 ≤ n < 16 ^ Z.of_nat len → put_hex len n = Ok (hex_text len n).
Proof.
  intros Hl Hn. unfold put_hex. rewrite <- (u8_small (Z.of_nat len - 1)) by lia.
  rewrite <- (app_nil_r (repeat 0 len)). rewrite hex_fill_ok by lia. cbn [mbind res_bind]. by rewrite app_nil_r.
Qed.

Lemma hex_char_digit d : 0 ≤ d < 16 → hex_digit (hex_char d) = Some d.
Proof.
  intros H. unfold hex_char, hex_digit. destruct (Z.leb_spec 10 d).
  - rewrite (proj2 (Z.leb_gt (0x37 + d) 0x39)), andb_false_r, (proj2 (Z.leb_gt 0x61 (0x37 + d))) by lia. cbn [andb].
    rewrite (proj2 (Z.leb_le _ _)), (proj2 (Z.leb_le _ _)) by lia. cbn [andb]. f_equal. lia.
  - rewrite (proj2 (Z.leb_le _ _)), (proj2 (Z.leb_le _ _)) by lia. cbn [andb]. f_equal. lia.
Qed.

Lemma hex_text_value len : ∀ n, 0 ≤ n < 16 ^ Z.of_nat len → hex_value (hex_char <$> hex_digits len n) = Some n.
Proof.
  unfold hex_value. induction len as [|len IH]; intros n Hn; cbn [hex_digits].
  - simpl in *. f_equal. lia.
  - rewrite fmap_app, foldl_app, IH.
    + cbn. rewrite hex_char_digit by (apply Z.mod_pos_bound; lia). cbn. f_equal.
      pose proof (Z.div_mod n 16). lia.
    + rewrite Nat2Z.inj_succ, Z.pow_succ_r in Hn by lia. split; [apply Z.div_pos; lia|].
      apply Z.div_lt_upper_bound; lia.
Qed.

(** C34: [uart_putX] prints "0x" and sixteen digits that [parse_hex_str] reads back
    as the value, for every 64-bit value; [uart_putx] likewise with eight digits
    for every 32-bit value. *)
Theorem uart_putX_roundtrip n : 0 ≤ n < 2 ^ 64 →
  (∃ ds, uart_putX n = Ok (0x30 :: 0x78 :: ds) ∧ ∀ p, bytes_at p ds → parse_hex_str p 16 = Ok n) ∧
  (n < 2 ^ 32 → ∃ ds, uart_putx n = Ok (0x30 :: 0x78 :: ds) ∧ ∀ p, bytes_at p ds → parse_hex_str p 8 = Ok n).
Proof.
  intros Hn. assert (∀ len : nat, (0 < len ≤ 16)%nat → n < 16 ^ Z.of_nat len →
    ∃ ds, put_hex len n = Ok (0x30 :: 0x78 :: ds) ∧ ∀ p, bytes_at p ds → parse_hex_str p (Z.of_nat len) = Ok n) as H.
  { intros len Hl Hb. exists (hex_char <$> hex_digits len n). split; [apply put_hex_ok; lia|]. intros p Hp.
    unfold parse_hex_str. rewrite Nat2Z.id.
    assert (length (hex_char <$> hex_digits len n) = len) as El by (by rewrite length_fmap, hex_digits_length).
    rewrite <- El at 1. apply parse_hex_from_ok; [intros j c Hj; by apply Hp|by apply hex_text_value; lia|lia|].
    rewrite El. assert (16 ^ Z.of_nat len ≤ 16 ^ 16) by (apply Z.pow_le_mono_r; lia). lia. }
  split; [apply (H 16%nat); lia|]. intros Hs. apply (H 8%nat); lia.
Qed.

Lemma uart_putX_roundtrip_witness : (∃ ds, uart_putX 0x3F201000 = Ok (0x30 :: 0x78 :: ds) ∧
    ∀ p, bytes_at p ds → parse_hex_str p 16 = Ok 0x3F201000) ∧
  (∃ ds, uart_putx 0x3F201000 = Ok (0x30 :: 0x78 :: ds) ∧ ∀ p, bytes_at p ds → parse_hex_str p 8 = Ok 0x3F201000).
Proof. destruct (uart_putX_roundtrip 0x3F201000) as [H1 H2]; [lia|]. split; [exact H1|apply H2; lia]. Defined.

(** The decimal digits, least significant first, have the value of the number. *)
Lemma puti_digits_ok k : ∀ n, 0 ≤ n < 10 ^ Z.of_nat (S k) →
  Forall (λ d, 0 ≤ d < 10) (puti_digits (S k) n) ∧ (length (puti_digits (S k) n) ≤ S k)%nat ∧
  foldr (λ d r, r * 10 + d) 0 (puti_digits (S k) n) = n.
Proof.
  induction k as [|k IH]; intros n Hn; cbn [puti_digits];
    rewrite Z.rem_mod_nonneg, Z.quot_div_nonneg by lia;
    pose proof (Z.mod_pos_bound n 10); pose proof (Z.div_mod n 10); rewrite u8_small by lia.
  - change (10 ^ Z.of_nat 1) with 10 in Hn. rewrite Z.div_small by lia. cbn [Z.eqb].
    rewrite Z.mod_small by lia. split; [repeat constructor; lia|]. cbn. lia.
  - assert (0 ≤ n / 10 < 10 ^ Z.of_nat (S k)) as Hd.
    { rewrite (Nat2Z.inj_succ (S k)), Z.pow_succ_r in Hn by lia. split; [apply Z.div_pos; lia|].
      apply Z.div_lt_upper_bound; lia. }
    destruct (Z.eqb_spec (n / 10) 0) as [E|E]; [split; [repeat constructor; lia|]; cbn; lia|].
    destruct (IH (n / 10) Hd) as (H1 & H2 & H3).
    split; [constructor; [lia|done]|]. split; [cbn in *; lia|].
    cbn [foldr]. change (foldr (λ d r, r * 10 + d) 0 (puti_digits (S k) (n / 10)) * 10 + n mod 10 = n).
    rewrite H3. lia.
Qed.

Lemma dec_value_text ds : Forall (λ d, 0 ≤ d < 10) ds →
  dec_value 0 ((λ d, u8 (d + 0x30)) <$> reverse ds) = foldr (λ d r, r * 10 + d) 0 ds.
Proof.
  intros H. unfold dec_value. induction H as [|d ds Hd Hds IH]; [done|].
  rewrite reverse_cons, fmap_app, foldl_app, IH. cbn. rewrite u8_small by lia. lia.
Qed.

(** what [uart_puti] prints for a number that is not negative is a decimal
    numeral that [atoi] reads back as that number, of at most ten digits; for
    -1 it prints "/". *)
Theorem uart_puti_roundtrip n : 0 ≤ n → n + 0x30 < 2 ^ 31 →
  (∀ p x, bytes_at p (uart_puti n ++ [x]) → is_digit x = false → atoi 11 p = Ok n) ∧
  (length (uart_puti n) ≤ 10)%nat ∧ uart_puti (-1) = [0x2f].
Proof.
  intros H0 Hn. unfold uart_puti.
  assert (puti_digits 11 n = puti_digits 10 n) as E.
  { assert (∀ k m, 0 ≤ m < 10 ^ Z.of_nat (S k) → puti_digits (S (S k)) m = puti_digits (S k) m) as H; [|apply H; lia].
    induction k as [|k IH]; intros m Hm.
    - cbn. rewrite Z.quot_small by lia. done.
    - change (puti_digits (S (S (S k))) m) with (let d := u8 (Z.rem m 10) in let q := Z.quot m 10 in
        if q =? 0 then [d] else d :: puti_digits (S (S k)) q).
      cbv zeta. rewrite IH; [done|]. rewrite Z.quot_div_nonneg by lia.
      rewrite (Nat2Z.inj_succ (S k)), Z.pow_succ_r in Hm by lia. split; [apply Z.div_pos; lia|].
      apply Z.div_lt_upper_bound; lia. }
  rewrite E. destruct (puti_digits_ok 9 n) as (H1 & H2 & H3); [lia|]. split; [|split; [|reflexivity]].
  - intros p x Hp Hx. pose proof (dec_value_text _ H1) as Hv. rewrite H3 in Hv.
    rewrite <- Hv. apply (atoi_from_ok _ 11 p 0 0 x); [|..|lia| |].
    + intros j c Hj. by apply Hp.
    + apply Forall_fmap, Forall_reverse. eapply Forall_impl; [exact H1|]. intros d Hd. cbv beta in Hd. unfold compose.
      unfold is_digit. rewrite u8_small by lia. apply andb_true_iff. split; apply Z.leb_le; lia.
    + done.
    + rewrite Hv. lia.
    + rewrite length_fmap, length_reverse. lia.
  - rewrite length_fmap, length_reverse. lia.
Qed.

Lemma uart_puti_roundtrip_witness : atoi 11 (lit "2022") = Ok 2022.
Proof.
  destruct (uart_puti_roundtrip 2022) as [H _]; [lia|lia|]. apply (H (lit "2022") 0); [|reflexivity].
  exact (lit_bytes_at "2022").
Defined.

(** *** [uart_printf] *)

(** A format, as the pieces it is made of: a plain character, a conversion with
    its argument, "%%", or a percent sign with a character that is no conversion. *)
Inductive fmt_item : Type :=
| FChar (c : Z)
| FInt (i : Z)
| FHex (i : Z)
| FHex64 (l : Z)
| FStr (p : cptr) (cs : list Z)
| FPercent
| FOther (c : Z).

Definition fmt_ok (fuel : nat) (it : fmt_item) : Prop :=
  match it with
  | FChar c => 0 < c < 256 ∧ c ≠ 0x25
  | FHex64 l => 0 ≤ l < 2 ^ 64
  | FStr p cs => cstring p cs ∧ (length cs < fuel)%nat
  | FOther c => 0 < c < 256 ∧ c ∉ [0x64; 0x78; 0x58; 0x73; 0x25]
  | _ => True
  end.
Definition fmt_bytes (it : fmt_item) : list Z :=
  match it with
  | FChar c => [c]
  | FInt _ => [0x25; 0x64]
  | FHex _ => [0x25; 0x78]
  | FHex64 _ => [0x25; 0x58]
  | FStr _ _ => [0x25; 0x73]
  | FPercent => [0x25; 0x25]
  | FOther c => [0x25; c]
  end.
Definition fmt_args (it : fmt_item) : list vararg :=
  match it with
  | FInt i | FHex i => [VInt i]
  | FHex64 l => [VLong l]
  | FStr p _ => [VStr p]
  | _ => []
  end.
Definition fmt_out (it : fmt_item) : list Z :=
  match it with
  | FChar c => uart_puts_byte c
  | FInt i => uart_puti i
  | FHex i => hex_text 8 (u32 i)
  | FHex64 l => hex_text 16 l
  | FStr _ cs => flat_map uart_puts_byte cs
  | FPercent => [0x25]
  | FOther _ => []
  end.

Lemma printf_conversion fuel format i c l : format i = Ok 0x25 → format (i + 1) = Ok c →
  uart_printf_from (S fuel) format i l =
    ('(out, l) ← (
      if c =? 0x64 then match l with VInt v :: l => mret (uart_puti v, l) | _ => Fault end
      else if c =? 0x78 then match l with VInt v :: l => o ← uart_putx (u32 v); mret (o, l) | _ => Fault end
      else if c =? 0x58 then match l with VLong v :: l => o ← uart_putX v; mret (o, l) | _ => Fault end
      else if c =? 0x73 then match l with VStr s :: l => o ← uart_puts fuel s; mret (o, l) | _ => Fault end
      else if c =? 0x25 then mret ([0x25], l)
      else mret ([], l));
    rest ← uart_printf_from fuel format (i + 2) l; mret (out ++ rest)).
Proof. intros H1 H2. cbn [uart_printf_from]. rewrite H1. cbn [mbind res_bind]. by rewrite H2. Qed.

Lemma printf_item it fuel format i l rest : fmt_ok fuel it →
  (∀ j c, fmt_bytes it !! j = Some c → format (i + Z.of_nat j) = Ok c) →
  uart_printf_from fuel format (i + Z.of_nat (length (fmt_bytes it))) l = Ok rest →
  uart_printf_from (S fuel) format i (fmt_args it ++ l) = Ok (fmt_out it ++ rest).
Proof.
  intros Hok Hb Hr. pose proof (Hb 0%nat) as H0. pose proof (Hb 1%nat) as H1.
  change (i + Z.of_nat 1) with (i + 1) in H1. rewrite Z.add_0_r in H0.
  destruct it; cbn in Hr, H0, H1; cbn [fmt_args fmt_out app];
    change (Z.of_nat 1) with 1 in Hr; change (Z.of_nat 2) with 2 in Hr.
  - cbn [uart_printf_from]. rewrite (H0 _ eq_refl). cbn [mbind res_bind]. destruct Hok as [Hc Hp].
    rewrite (proj2 (Z.eqb_neq c 0)), (proj2 (Z.eqb_neq c 0x25)) by lia. by rewrite Hr.
  - rewrite (printf_conversion _ _ _ _ _ (H0 _ eq_refl) (H1 _ eq_refl)). cbn. by rewrite Hr.
  - rewrite (printf_conversion _ _ _ _ _ (H0 _ eq_refl) (H1 _ eq_refl)). cbn [Z.eqb Pos.eqb].
    change (uart_putx (u32 i0)) with (put_hex 8 (u32 i0)). rewrite put_hex_ok; [|lia|apply u32_range]. cbn [mret res_ret mbind res_bind]. by rewrite Hr.
  - rewrite (printf_conversion _ _ _ _ _ (H0 _ eq_refl) (H1 _ eq_refl)). cbn [Z.eqb Pos.eqb].
    unfold uart_putX. rewrite put_hex_ok; [|lia|exact Hok]. cbn [mret res_ret mbind res_bind]. by rewrite Hr.
  - rewrite (printf_conversion _ _ _ _ _ (H0 _ eq_refl) (H1 _ eq_refl)). cbn [Z.eqb Pos.eqb].
    destruct Hok as [Hs Hl]. rewrite (uart_puts_ok cs) by done. cbn [mret res_ret mbind res_bind]. by rewrite Hr.
  - rewrite (printf_conversion _ _ _ _ _ (H0 _ eq_refl) (H1 _ eq_refl)). cbn. by rewrite Hr.
  - rewrite (printf_conversion _ _ _ _ _ (H0 _ eq_refl) (H1 _ eq_refl)). destruct Hok as [Hc Hn].
    rewrite !not_elem_of_cons in Hn. destruct Hn as (N1 & N2 & N3 & N4 & N5 & _).
    rewrite !(proj2 (Z.eqb_neq _ _)) by done. cbn [mret res_ret mbind res_bind]. by rewrite Hr.
Qed.

Lemma printf_ok items fuel format l : cstring format (flat_map fmt_bytes items) →
  Forall (fmt_ok fuel) items →
  uart_printf (S (length items) + fuel) format (flat_map fmt_args items ++ l) = Ok (flat_map fmt_out items).
Proof.
  intros [Hf _] Hok. unfold uart_printf.
  enough (∀ i k, (fuel ≤ k)%nat → (∀ j c, (flat_map fmt_bytes items ++ [0]) !! j = Some c → format (i + Z.of_nat j) = Ok c) →
    uart_printf_from (S (length items) + k) format i (flat_map fmt_args items ++ l) = Ok (flat_map fmt_out items)) as H
    by (apply H; [done|exact Hf]).
  clear Hf. induction Hok as [|it items Hit Hits IH]; intros i k Hk Hf.
  - cbn. specialize (Hf 0%nat 0 eq_refl). rewrite Z.add_0_r in Hf. by rewrite Hf.
  - cbn [flat_map length plus] in *. rewrite <- app_assoc. apply printf_item.
    + destruct it; cbn in *; try done. split; [apply Hit|lia].
    + intros j c Hj. apply Hf. rewrite <- app_assoc. by apply lookup_app_l_Some.
    + apply IH; [done|]. intros j c Hj. rewrite <- Z.add_assoc, <- Nat2Z.inj_add. apply Hf.
      rewrite <- app_assoc. rewrite lookup_app_r by lia. by rewrite Nat.add_comm, Nat.add_sub.
Qed.

(** C33: [uart_printf] prints each plain character (a newline after a carriage
    return), each argument in the format its conversion asks for and nothing for
    an unknown conversion, takes the arguments in order, and terminates. The format
    of [%d] is the one of [uart_puti] (see [uart_puti_roundtrip]). *)
Theorem uart_printf_ok items fuel format l : cstring format (flat_map fmt_bytes items) →
  Forall (fmt_ok fuel) items →
  uart_printf (S (length items) + fuel) format (flat_map fmt_args items ++ l) = Ok (flat_map fmt_out items).
Proof. apply printf_ok. Qed.

Lemma uart_printf_ok_witness : uart_printf 6 (lit "%d%%") [VInt 42] = Ok [0x34; 0x32; 0x25].
Proof.
  apply (uart_printf_ok [FInt 42; FPercent] 3 (lit "%d%%") []).
  - apply (lit_cstring "%d%%"). repeat constructor; lia.
  - repeat constructor.
Defined.

(** A format that ends in a percent sign makes [uart_printf] read past its end. *)
Lemma uart_printf_past_end : uart_printf 9 (lit "100%") [] = Fault.
Proof. reflexivity. Qed.

(** ** The lock does not cover the test of [uart_async_send] *)

(** Two callers that both pass the test while one place is free: the second one
    makes the ring look empty, and every byte in it is lost. *)
Lemma send_race a b s : uart_inv s → length (to_send s) = 254%nat → ∃ s1 s2, send_put a s = Ok s1 ∧ send_put b s1 = Ok s2 ∧
  to_send s2 = [] ∧ tx s2 = tx s.
Proof.
  intros Hi Hl. destruct (send_put_ok s a Hi) as (s1 & E1 & I1 & O1 & N1 & T1); [lia|].
  exists s1. unfold send_put in *. pose proof (ui_send _ I1) as (Hr & Hw & Hlen & _).
  cbn [send_insert_cursor send_buffer with_ulk] in *. 
  rewrite Hlen, (proj2 (Z.ltb_lt (send_insert_cursor s1) _)) by lia. cbn [mbind res_bind require].
  eexists. split; [done|]. split; [done|]. cbn. split.
  - unfold to_send. cbn.
    assert (length (to_send s1) = 255%nat) as L1 by (rewrite T1, length_app, Hl; done).
    unfold to_send, pending in L1. rewrite length_fmap, length_seqZ in L1.
    pose proof (Z.mod_pos_bound (send_insert_cursor s1 - sended_cursor s1) 256).
    assert ((send_insert_cursor s1 - sended_cursor s1) mod 256 = 255) as Em by lia.
    apply pending_nil; [done|by apply next_cursor_eq|].
    destruct (next_cursor_eq (send_insert_cursor s1) Hw) as [En _]. rewrite En.
    replace (send_insert_cursor s1 + 1) with (sended_cursor s1 + ((send_insert_cursor s1 - sended_cursor s1) + 1)) by lia.
    rewrite <- Zplus_mod_idemp_r, <- (Zplus_mod_idemp_l (send_insert_cursor s1 - sended_cursor s1)), Em.
    change ((255 + 1) mod 256) with 0. rewrite Z.add_0_r, Z.mod_small by lia. done.
  - pose proof O1 as H. unfold out_stream in H. rewrite T1 in H. rewrite app_assoc in H. apply app_inv_tail in H.
    by apply app_inv_tail in H.
Qed.
