(* ===== verification/Ramfs.v ===== *)
(** lib/cpio.c: the commands on the archive that print, cpio_ls, cpio_get_data
    and cpio_catfile, on top of the parser (Cpio) and the UART (Uart). *)
From S2P Require Import Prelude Util Mem CString Cpio Uart.
Local Open Scope Z_scope.

(** The format "%s\n". *)
Definition name_format : string := String.append "%s" (String (Ascii.ascii_of_nat 10) EmptyString).

(** What [cpio_ls] prints; [cpio_get_data] is the same function again. *)
Fixpoint cpio_ls (fuel : nat) (m : bmem) (now : Z) : res (list Z) :=
  match fuel with
  | O => Fuel
  | S fuel =>
      h ← cpio_parse_header m now;
      match h with
      | Bad | Trailer => mret []
      | Entry filename size result next =>
          out ← uart_printf (3 + mem_fuel m) (lit name_format) [VStr (at_mem m filename)];
          l ← cpio_ls fuel m next; mret (out ++ l)
      end
  end.
Definition cpio_get_data (fuel : nat) (m : bmem) (now : Z) : res (list Z) := cpio_ls fuel m now.

(** [cpio_catfile], with the bytes printed so far as its state. *)
Definition cpio_catfile (m : bmem) (data size : Z) (out : list Z) : res (list Z) :=
  o ← uart_putn (at_mem m data) size; mret (out ++ o).

Lemma putn_ok p bs : bytes_at p bs → uart_putn p (Z.of_nat (length bs)) = Ok bs.
Proof.
  intros H. unfold uart_putn. rewrite Nat2Z.id.
  enough (∀ bs2 bs1, bs = bs1 ++ bs2 → for_loop (length bs2) (Z.of_nat (length bs1))
    (λ i l, c ← p i; mret (l ++ [c])) bs1 = Ok bs) as E by (by apply (E bs [])).
  induction bs2 as [|b bs2 IH]; intros bs1 E; cbn [for_loop length]; [by rewrite E, app_nil_r|].
  rewrite (H (length bs1) b) by (rewrite E; by apply list_lookup_middle). cbn [mbind res_bind].
  replace (Z.of_nat (length bs1) + 1) with (Z.of_nat (length (bs1 ++ [b]))) by (rewrite length_app; simpl; lia).
  apply IH. by rewrite <- app_assoc.
Qed.

(** One line of the listing. *)
Definition ls_line (f : file) : list Z := flat_map uart_puts_byte (f_name f) ++ [0x0d; 0x0a].

Lemma name_printed m a cs : cstring (at_mem m a) cs → Z.of_nat (length cs) < 2 ^ 64 - 1 →
  uart_printf (3 + mem_fuel m) (lit name_format) [VStr (at_mem m a)] =
    Ok (flat_map uart_puts_byte cs ++ [0x0d; 0x0a]).
Proof.
  intros Hc Hl. pose proof (printf_ok [FStr (at_mem m a) cs; FChar 0x0a] (mem_fuel m) (lit name_format) []) as H.
  cbn [flat_map fmt_args fmt_out app length plus] in H. rewrite app_nil_r in H. apply H.
  - apply (lit_cstring name_format). repeat constructor; lia.
  - assert (length cs < mem_fuel m)%nat as Hsz.
    { destruct Hc as [Hb _]. pose proof (bytes_at_size m a _ Hb) as Hs. rewrite length_app in Hs. unfold mem_fuel.
      simpl in Hs. specialize (Hs ltac:(lia)). lia. }
    constructor; [by split|]. constructor; [|constructor]. simpl. lia.
Qed.

(** [cpio_ls] terminates on a well-formed archive and prints the names of its
    files, in order and one on each line. *)
Theorem cpio_ls_ok m fs tr : ∀ base fuel, archive_ok fs tr → mem_bytes m base (archive fs tr) →
  in_memory base (length (archive fs tr)) → Forall (λ f, Z.of_nat (length (f_name f)) < 2 ^ 32) fs →
  (length fs < fuel)%nat → cpio_ls fuel m base = Ok (flat_map ls_line fs).
Proof.
  induction fs as [|f fs IH]; intros base [|fuel] Har Hm Hin Hn Hf; simpl in Hf; try lia; cbn [cpio_ls flat_map].
  - destruct Har as [_ [Htr Hname]]. unfold archive in Hm, Hin. rewrite fmap_nil in Hm, Hin.
    cbn [concat] in Hm, Hin. rewrite app_nil_l in Hm, Hin. rewrite <- (app_nil_r (entry_bytes tr)) in Hm.
    by rewrite (parse_header_ok m base tr [] Htr Hm Hin), decide_True by done.
  - destruct Har as [[[Hfok Hfn] Hfs]%Forall_cons Htr]. apply Forall_cons in Hn as [Hn Hns].
    unfold archive in Hm, Hin. rewrite fmap_cons in Hm, Hin. cbn [concat] in Hm, Hin.
    rewrite <- app_assoc in Hm, Hin. rewrite length_app in Hin.
    rewrite (parse_header_ok m base f _ Hfok Hm (in_memory_app _ _ _ Hin)), decide_False by done.
    cbn [mbind res_bind]. rewrite (name_printed m (base + 110) (f_name f)) by (lia || exact (filename_cstring m base f _ Hfok Hm)).
    cbn [mbind res_bind]. rewrite IH; [done|by split| |by apply in_memory_next|done|lia].
    apply mem_bytes_app in Hm as [_ Hm]. exact Hm.
Qed.

Lemma cpio_ls_ok_witness :
  cpio_ls 2 (bytes_mem 0x8000000 (archive [file_ex] trailer_ex)) 0x8000000 = Ok [97; 0x0d; 0x0a].
Proof.
  apply (cpio_ls_ok (bytes_mem 0x8000000 (archive [file_ex] trailer_ex)) [file_ex] trailer_ex 0x8000000 2 archive_ex_ok).
  - apply bytes_mem_ok; [lia|vm_compute; discriminate|]. repeat constructor; lia.
  - split; [lia|]. split; [reflexivity|vm_compute; discriminate].
  - repeat constructor.
  - simpl. lia.
Defined.

(** the shell's "cat": searching a well-formed archive with [cpio_catfile] as
    the callback prints exactly the contents of the first file with the name,
    and nothing when no file has it. *)
Theorem cpio_cat_ok alloc store_info m base fs tr p cs fuel : archive_ok fs tr → mem_bytes m base (archive fs tr) →
  in_memory base (length (archive fs tr)) → cstring p cs → Z.of_nat (length cs) < 2 ^ 32 →
  Forall (λ f, Z.of_nat (length (f_name f)) < 2 ^ 32) fs → (length fs < fuel)%nat → (length cs < fuel)%nat →
  cpio_traverse alloc store_info fuel m base p (Some (cpio_catfile m)) [] =
    Ok match find (λ f, bool_decide (f_name f = cs)) fs with
       | Some f => (Called, f_data f)
       | None => (NotFound, [])
       end.
Proof.
  intros Har Hm Hin Hp Hcs Hn Hf Hf2. unfold cpio_traverse, strlen.
  rewrite (strlen_from_ok cs) by (done || lia). rewrite Z.add_0_l. cbn [mbind res_bind].
  rewrite (cpio_traverse_from_ok _ _ _ m p cs tr) with (fs := fs) by done.
  clear Hin Hn Hf. revert base Hm. induction fs as [|f fs IH]; intros base Hm; [done|].
  cbn [file_at find]. destruct Har as [[[Hfok Hfn] Hfs]%Forall_cons Htr].
  pose proof Hm as Hm2. unfold archive in Hm. rewrite fmap_cons in Hm. cbn [concat] in Hm. rewrite <- app_assoc in Hm.
  case_decide as Ed; [rewrite bool_decide_eq_true_2 by done|rewrite bool_decide_eq_false_2 by done].
  - cbn [deliver]. unfold cpio_catfile.
    assert (mem_bytes m (base + Z.of_nat (data_offset f)) (f_data f)) as Hd.
    { apply mem_bytes_app in Hm as [Hm _]. unfold entry_bytes in Hm. rewrite !app_assoc in Hm.
      apply mem_bytes_app in Hm as [Hm _]. apply mem_bytes_app in Hm as [_ Hm].
      unfold data_offset. rewrite !length_app, header_bytes_length in Hm by done. rewrite length_app. exact Hm. }
    rewrite putn_ok by exact (proj1 Hd). done.
  - apply IH; [by split|]. apply mem_bytes_app in Hm as [_ Hm]. exact Hm.
Qed.

Lemma cpio_cat_ok_witness :
  cpio_traverse (λ _ s, Ok (0, s)) (λ _ _ _ s, s) 9 (bytes_mem 0x8000000 (archive [file_ex] trailer_ex)) 0x8000000 (lit "a")
    (Some (cpio_catfile (bytes_mem 0x8000000 (archive [file_ex] trailer_ex)))) [] = Ok (Called, [104; 105]).
Proof.
  apply (cpio_cat_ok (λ _ s, Ok (0, s)) (λ _ _ _ s, s)
    (bytes_mem 0x8000000 (archive [file_ex] trailer_ex)) 0x8000000
    [file_ex] trailer_ex (lit "a") [97] 9 archive_ex_ok).
  - apply bytes_mem_ok; [lia|vm_compute; discriminate|]. repeat constructor; lia.
  - split; [lia|]. split; [reflexivity|vm_compute; discriminate].
  - apply (lit_cstring "a"). repeat constructor; lia.
  - simpl. lia.
  - repeat constructor.
  - simpl. lia.
  - simpl. lia.
Defined.
