(* ===== verification/Mmio.v ===== *)
(** Device registers: uart_init (lib/uart.c), the watchdog (lib/reboot.c) and the
    mailbox of the video core (lib/mbox.c), with the addresses of
    include/gpio.h and include/uart.h. *)
From S2P Require Import Prelude Util.
Local Open Scope Z_scope.

Definition MMIO_BASE : Z := PHYS_TO_VIRT 0x3f000000.
Definition GPFSEL1 : Z := MMIO_BASE + 0x00200004.
Definition GPPUD : Z := MMIO_BASE + 0x00200094.
Definition GPPUDCLK0 : Z := MMIO_BASE + 0x00200098.
Definition AUX_ENABLE : Z := MMIO_BASE + 0x00215004.
Definition AUX_MU_IER : Z := MMIO_BASE + 0x00215044.
Definition AUX_MU_IIR : Z := MMIO_BASE + 0x00215048.
Definition AUX_MU_LCR : Z := MMIO_BASE + 0x0021504C.
Definition AUX_MU_MCR : Z := MMIO_BASE + 0x00215050.
Definition AUX_MU_CNTL : Z := MMIO_BASE + 0x00215060.
Definition AUX_MU_BAUD : Z := MMIO_BASE + 0x00215068.

(** The registers, each holding the last value written, and all writes in order. *)
Record mmio := Mmio { regs : gmap Z Z; writes : list (Z * Z) }.
Definition reg_read (d : mmio) (a : Z) : res Z := load (regs d !! a).
Definition reg_write (a v : Z) (d : mmio) : mmio := Mmio (<[a := u32 v]> (regs d)) (writes d ++ [(a, u32 v)]).

(** The two delay loops of 150 turns change nothing. *)
Definition uart_init (d : mmio) : res mmio :=
  e ← reg_read d AUX_ENABLE;
  let d := reg_write AUX_ENABLE (Z.lor e 1) d in
  let d := reg_write AUX_MU_IER 0 d in
  let d := reg_write AUX_MU_LCR 3 d in
  let d := reg_write AUX_MU_MCR 0 d in
  let d := reg_write AUX_MU_CNTL 0 d in
  let d := reg_write AUX_MU_BAUD 270 d in
  let d := reg_write AUX_MU_IIR 6 d in
  r ← reg_read d GPFSEL1;
  let r := Z.land r (u32 (Z.lnot (Z.lor (Z.shiftl 7 12) (Z.shiftl 7 15)))) in
  let r := Z.lor r (Z.lor (Z.shiftl 2 12) (Z.shiftl 2 15)) in
  let d := reg_write GPFSEL1 r d in
  let d := reg_write GPPUD 0 d in
  let d := reg_write GPPUDCLK0 (Z.lor (Z.shiftl 1 14) (Z.shiftl 1 15)) d in
  let d := reg_write GPPUDCLK0 0 d in
  mret (reg_write AUX_MU_CNTL 3 d).

Definition IRQs1 : Z := MMIO_BASE + 0x0000b000 + 0x00000210.
Definition enable_uart_interrupt (d : mmio) : res mmio :=
  v ← reg_read d IRQs1; mret (reg_write IRQs1 (Z.lor v (Z.shiftl 1 29)) d).

(** The function of a GPIO pin: three bits of its select register. *)
Definition pin_function (r pin : Z) : Z := Z.land (Z.shiftr r (3 * (pin - 10))) 7.

Lemma testbit_above r n i : 0 ≤ r < 2 ^ n → 0 ≤ n → n ≤ i → Z.testbit r i = false.
Proof. intros Hr Hn Hi. rewrite <- (Z.mod_small r (2 ^ n)) by done. by apply Z.mod_pow2_bits_high. Qed.

(** The two masks, bit by bit. *)
Definition select_alt5 (r : Z) : Z :=
  Z.lor (Z.land r (u32 (Z.lnot (Z.lor (Z.shiftl 7 12) (Z.shiftl 7 15))))) (Z.lor (Z.shiftl 2 12) (Z.shiftl 2 15)).

Lemma select_bits r i : 0 ≤ i < 32 →
  Z.testbit (select_alt5 r) i =
    if (12 <=? i) && (i <? 18) then (i =? 13) || (i =? 16) else Z.testbit r i.
Proof.
  intros Hi. unfold select_alt5. rewrite Z.lor_spec, Z.land_spec.
  assert (∀ k : nat, (k < 32)%nat →
    (Z.testbit (u32 (Z.lnot (Z.lor (Z.shiftl 7 12) (Z.shiftl 7 15)))) (Z.of_nat k),
     Z.testbit (Z.lor (Z.shiftl 2 12) (Z.shiftl 2 15)) (Z.of_nat k)) =
    (negb ((12 <=? Z.of_nat k) && (Z.of_nat k <? 18)), (Z.of_nat k =? 13) || (Z.of_nat k =? 16))) as H.
  { intros k Hk. do 32 (destruct k as [|k]; [vm_compute; reflexivity|]). lia. }
  specialize (H (Z.to_nat i) ltac:(lia)). rewrite Z2Nat.id in H by lia. injection H as -> ->.
  destruct (Z.leb_spec 12 i), (Z.ltb_spec i 18); cbn [andb negb].
  - by rewrite andb_false_r.
  - rewrite andb_true_r, (proj2 (Z.eqb_neq i 13)), (proj2 (Z.eqb_neq i 16)) by lia. apply orb_false_r.
  - rewrite andb_true_r, (proj2 (Z.eqb_neq i 13)), (proj2 (Z.eqb_neq i 16)) by lia. apply orb_false_r.
  - rewrite andb_true_r, (proj2 (Z.eqb_neq i 13)), (proj2 (Z.eqb_neq i 16)) by lia. apply orb_false_r.
Qed.

Lemma select_range r : 0 ≤ r < 2 ^ 32 → 0 ≤ select_alt5 r < 2 ^ 32.
Proof.
  intros Hr. assert (u32 (select_alt5 r) = select_alt5 r) as <-; [|apply u32_range].
  apply Z.bits_inj'. intros i Hi. rewrite u32_testbit. destruct (Z.ltb_spec i 32); [done|]. cbn [andb].
  unfold select_alt5. rewrite Z.lor_spec, Z.land_spec, (testbit_above r 32) by lia. symmetry.
  apply (testbit_above _ 32); [vm_compute; split; congruence|lia|lia].
Qed.

Lemma pin_function_bits r r' pin : 10 ≤ pin →
  (∀ j, 0 ≤ j < 3 → Z.testbit r (3 * (pin - 10) + j) = Z.testbit r' (3 * (pin - 10) + j)) →
  pin_function r pin = pin_function r' pin.
Proof.
  intros Hp H. unfold pin_function. apply Z.bits_inj'. intros i Hi. rewrite !Z.land_spec, !Z.shiftr_spec by done.
  destruct (decide (i < 3)) as [Hlt|Hge].
  - f_equal. rewrite (Z.add_comm i). apply H. lia.
  - rewrite (testbit_above 7 3) by lia. by rewrite !andb_false_r.
Qed.

(** [uart_init] puts pins 14 and 15, and only these, on alternate function 5,
    and sets the line up (line control 3, divisor 270, no interrupts) while transmitter
    and receiver are off, turning them on last. *)
Theorem uart_init_ok d e r : regs d !! AUX_ENABLE = Some e → regs d !! GPFSEL1 = Some r →
  0 ≤ e < 2 ^ 32 → 0 ≤ r < 2 ^ 32 →
  ∃ d' r', uart_init d = Ok d' ∧ regs d' !! GPFSEL1 = Some r' ∧
    (∀ pin, 10 ≤ pin < 20 → pin_function r' pin = if decide (pin = 14 ∨ pin = 15) then 2 else pin_function r pin) ∧
    regs d' !! AUX_MU_LCR = Some 3 ∧ regs d' !! AUX_MU_BAUD = Some 270 ∧ regs d' !! AUX_MU_IER = Some 0 ∧
    ∃ mid, writes d' = writes d ++ [(AUX_ENABLE, Z.lor e 1); (AUX_MU_IER, 0); (AUX_MU_LCR, 3); (AUX_MU_MCR, 0); (AUX_MU_CNTL, 0)]
        ++ mid ++ [(AUX_MU_CNTL, 3)] ∧ Forall (λ w, w.1 ≠ AUX_MU_CNTL) mid.
Proof.
  intros He Hr Hre Hrr. unfold uart_init, reg_read. rewrite He. cbn [load mbind res_bind].
  assert (u32 (Z.lor e 1) = Z.lor e 1) as Ee.
  { apply Z.bits_inj'. intros i Hi. rewrite u32_testbit, Z.lor_spec. destruct (Z.ltb_spec i 32); [done|].
    by rewrite (testbit_above e 32), (testbit_above 1 1) by lia. }
  unfold reg_write. cbn [regs writes]. rewrite !lookup_insert_ne by done. rewrite Hr. cbn [load mbind res_bind].
  change (Z.lor (Z.land r _) _) with (select_alt5 r). rewrite (u32_small (select_alt5 r)) by (by apply select_range).
  eexists _, (select_alt5 r). split; [done|]. split_and!.
  - cbn [regs]. by rewrite !lookup_insert_ne, lookup_insert by done.
  - intros pin Hp. case_decide as Ep.
    + transitivity (pin_function (Z.lor (Z.shiftl 2 12) (Z.shiftl 2 15)) pin); [|by destruct Ep as [->| ->]].
      apply pin_function_bits; [lia|]. intros j Hj. rewrite select_bits by lia.
      rewrite (proj2 (Z.leb_le _ _)), (proj2 (Z.ltb_lt _ _)) by lia. cbn [andb].
      assert (j = 0 ∨ j = 1 ∨ j = 2) as [->|[->| ->]] by lia; by destruct Ep as [->| ->].
    + apply pin_function_bits; [lia|]. intros j Hj. rewrite select_bits by lia.
      destruct (Z.leb_spec 12 (3 * (pin - 10) + j)), (Z.ltb_spec (3 * (pin - 10) + j) 18); try done. lia.
  - cbn [regs]. by rewrite !lookup_insert_ne, lookup_insert by done.
  - cbn [regs]. by rewrite !lookup_insert_ne, lookup_insert by done.
  - cbn [regs]. by rewrite !lookup_insert_ne, lookup_insert by done.
  - eexists [_; _; _; _; _; _]. cbn [writes]. rewrite Ee, <- !app_assoc. split; [reflexivity|]. by repeat constructor.
Qed.

Lemma uart_init_ok_witness : ∃ d' r', uart_init (Mmio (<[GPFSEL1 := 0x24000]> {[AUX_ENABLE := 0]}) []) = Ok d' ∧
  regs d' !! GPFSEL1 = Some r' ∧ pin_function r' 14 = 2.
Proof.
  destruct (uart_init_ok (Mmio (<[GPFSEL1 := 0x24000]> {[AUX_ENABLE := 0]}) []) 0 0x24000) as (d' & r' & E & L & P & _);
    [reflexivity|reflexivity|lia|lia|].
  exists d', r'. split; [exact E|]. split; [exact L|]. exact (P 14 ltac:(lia)).
Defined.

(** ** The watchdog *)

Definition PM_PASSWORD : Z := 0x5a000000.
Definition PM_RSTC : Z := MMIO_BASE + 0x10001c.
Definition PM_WDOG : Z := MMIO_BASE + 0x100024.
Definition reboot (tick : Z) (d : mmio) : mmio :=
  reg_write PM_WDOG (Z.lor PM_PASSWORD tick) (reg_write PM_RSTC (Z.lor PM_PASSWORD 0x20) d).
Definition cancel_reboot (d : mmio) : mmio :=
  reg_write PM_WDOG (Z.lor PM_PASSWORD 0) (reg_write PM_RSTC (Z.lor PM_PASSWORD 0) d).

Lemma password_field t : 0 ≤ t < 2 ^ 24 → Z.shiftr (Z.lor PM_PASSWORD t) 24 = 0x5a ∧ Z.land (Z.lor PM_PASSWORD t) (Z.ones 24) = t.
Proof.
  intros Ht. split.
  - rewrite Z.shiftr_lor, (Z.shiftr_div_pow2 t), Z.div_small by lia. reflexivity.
  - rewrite Z.land_lor_distr_l, Z.land_ones, Z.land_ones, (Z.mod_small t) by lia. reflexivity.
Qed.

(** [reboot] and [cancel_reboot] write both power registers with the password
    they demand, and the tick count in full, for every count of 24 bits; a
    larger count destroys the password. *)
Theorem reboot_password t d : 0 ≤ t < 2 ^ 24 →
  (∃ w, regs (reboot t d) !! PM_WDOG = Some w ∧ Z.shiftr w 24 = 0x5a ∧ Z.land w (Z.ones 24) = t) ∧
  (∃ w, regs (cancel_reboot d) !! PM_WDOG = Some w ∧ Z.shiftr w 24 = 0x5a ∧ Z.land w (Z.ones 24) = 0) ∧
  (∃ w, regs (reboot (2 ^ 24) d) !! PM_WDOG = Some w ∧ Z.shiftr w 24 ≠ 0x5a).
Proof.
  intros Ht. destruct (password_field t Ht) as [H1 H2].
  assert (u32 (Z.lor PM_PASSWORD t) = Z.lor PM_PASSWORD t) as E.
  { apply Z.bits_inj'. intros i Hi. rewrite u32_testbit, Z.lor_spec. destruct (Z.ltb_spec i 32); [done|].
    rewrite (testbit_above PM_PASSWORD 32) by (unfold PM_PASSWORD; lia).
    by rewrite (testbit_above t 24) by lia. }
  split_and!.
  - exists (Z.lor PM_PASSWORD t). cbn [reboot reg_write regs]. rewrite lookup_insert_eq, E. done.
  - exists PM_PASSWORD. cbn [cancel_reboot reg_write regs]. rewrite lookup_insert_eq. done.
  - exists 0x5b000000. cbn [reboot reg_write regs]. rewrite lookup_insert_eq. done.
Qed.

Lemma reboot_password_witness : ∃ w, regs (reboot 1 (Mmio ∅ [])) !! PM_WDOG = Some w ∧
  Z.shiftr w 24 = 0x5a ∧ Z.land w (Z.ones 24) = 1.
Proof. destruct (reboot_password 1 (Mmio ∅ [])) as (H & _); [lia|]. exact H. Defined.

(** ** The mailbox *)

Definition REQUEST_CODE : Z := 0.
Definition TAG_REQUEST_CODE : Z := 0.
Definition END_TAG : Z := 0.
Definition MBOX_FULL : Z := 0x80000000.
Definition MBOX_EMPTY : Z := 0x40000000.
Definition REQUEST_SUCCEED : Z := 0x80000000.
Definition GET_BOARD_REVISION : Z := 0x00010002.
Definition GET_ARM_MEMORY : Z := 0x00010005.
Definition ARM2VC : Z := 8.

(** The message buffer, the values MBOX_STATUS and MBOX_READ will give, in order,
    and what has been written to MBOX_WRITE. *)
Record vcore := VCore { mbox : list Z; mbox_status : list Z; mbox_read : list Z; mbox_written : list Z }.

Section mailbox.
(** The address of [mbox], and the video core: what it leaves in the buffer in
    answer to a message. *)
Context (mbox_addr : Z) (answer : Z → list Z → list Z).

(** [WAITING( *MBOX_STATUS & mask)] on the status values still to come. *)
Fixpoint mbox_wait (mask : Z) (st : list Z) : res (list Z) :=
  match st with
  | [] => Fuel
  | v :: st => if Z.land v mask =? 0 then mret st else mbox_wait mask st
  end.

Fixpoint mbox_response (r : Z) (rd st : list Z) : res (list Z * list Z) :=
  st ← mbox_wait MBOX_EMPTY st;
  match rd with
  | [] => Fuel
  | v :: rd => if r =? v then mret (rd, st) else mbox_response r rd st
  end.

Definition mbox_call (ch : Z) (v : vcore) : res (Z * vcore) :=
  let r := Z.lor (Z.land (u32 mbox_addr) (u32 (Z.lnot 0xF))) (Z.land ch 0xF) in
  st ← mbox_wait MBOX_FULL (mbox_status v);
  '(rd, st) ← mbox_response r (mbox_read v) st;
  let b := answer r (mbox v) in
  c ← load (b !! 1%nat);
  mret (Z.b2z (c =? REQUEST_SUCCEED), VCore b st rd (mbox_written v ++ [r])).

(** [mbox[0] = ...; mbox[1] = ...]: the first words of the buffer are replaced. *)
Definition set_message (ws b : list Z) : list Z := ws ++ drop (length ws) b.

Definition get_board_revision (v : vcore) : res (Z * vcore) :=
  let b := set_message [7 * 4; REQUEST_CODE; GET_BOARD_REVISION; 4; TAG_REQUEST_CODE; 0; END_TAG] (mbox v) in
  '(_, v) ← mbox_call ARM2VC (VCore b (mbox_status v) (mbox_read v) (mbox_written v));
  r ← load (mbox v !! 5%nat); mret (r, v).

Definition get_arm_memory (v : vcore) : res (Z * Z * vcore) :=
  let b := set_message [8 * 4; REQUEST_CODE; GET_ARM_MEMORY; 8; TAG_REQUEST_CODE; 0; 0; END_TAG] (mbox v) in
  '(_, v) ← mbox_call ARM2VC (VCore b (mbox_status v) (mbox_read v) (mbox_written v));
  a ← load (mbox v !! 5%nat); s ← load (mbox v !! 6%nat); mret (a, s, v).

(** What the video core does before it answers a call with address word [r]: it
    is busy, it delivers responses to others, each after a wait, then ours. *)
Definition waits_end (mask : Z) (w : list Z) : Prop :=
  ∃ b e, w = b ++ [e] ∧ Forall (λ x, Z.land x mask ≠ 0) b ∧ Z.land e mask = 0.
Definition vc_answers (r : Z) (v : vcore) (st rd : list Z) : Prop :=
  ∃ full waits w others, mbox_status v = full ++ concat waits ++ w ++ st ∧ mbox_read v = others ++ r :: rd ∧
    waits_end MBOX_FULL full ∧ Forall (waits_end MBOX_EMPTY) waits ∧ waits_end MBOX_EMPTY w ∧
    length waits = length others ∧ Forall (λ x, x ≠ r) others.

Lemma mbox_wait_ok mask w st : waits_end mask w → mbox_wait mask (w ++ st) = Ok st.
Proof using.
  intros (b & e & -> & Hb & He). induction Hb as [|x b Hx Hb IH]; cbn [app mbox_wait].
  - by rewrite (proj2 (Z.eqb_eq _ _)).
  - by rewrite (proj2 (Z.eqb_neq _ _)).
Qed.

Lemma mbox_response_ok r others waits w rd st : length waits = length others → Forall (λ x, x ≠ r) others →
  Forall (waits_end MBOX_EMPTY) waits → waits_end MBOX_EMPTY w →
  mbox_response r (others ++ r :: rd) (concat waits ++ w ++ st) = Ok (rd, st).
Proof using.
  intros Hl Ho Hw He. revert waits Hl Hw. induction Ho as [|o others Hne Ho IH]; intros [|w2 waits] Hl Hw; try done.
  - cbn [concat app mbox_response]. rewrite mbox_wait_ok by done. cbn [mbind res_bind]. by rewrite Z.eqb_refl.
  - apply Forall_cons in Hw as [Hw2 Hw]. cbn [concat app mbox_response].
    rewrite <- app_assoc, mbox_wait_ok by done. cbn [mbind res_bind].
    rewrite (proj2 (Z.eqb_neq _ _)) by done. apply IH; [by injection Hl|done].
Qed.

Definition mbox_word (ch : Z) : Z := Z.lor (Z.land (u32 mbox_addr) (u32 (Z.lnot 0xF))) (Z.land ch 0xF).

Lemma mbox_call_eq ch v st rd c : vc_answers (mbox_word ch) v st rd → answer (mbox_word ch) (mbox v) !! 1%nat = Some c →
  mbox_call ch v = Ok (Z.b2z (c =? REQUEST_SUCCEED), VCore (answer (mbox_word ch) (mbox v)) st rd (mbox_written v ++ [mbox_word ch])).
Proof using.
  intros (full & waits & w & others & Es & Er & Hf & Hw & He & Hl & Ho) Hc. unfold mbox_call. fold (mbox_word ch).
  rewrite Es, mbox_wait_ok by done. cbn [mbind res_bind]. rewrite Er, mbox_response_ok by done. cbn [mbind res_bind].
  by rewrite Hc.
Qed.

(** a mailbox call terminates once the video core has room and answers: it
    sends the 16-byte aligned address of the buffer with the channel in its low
    four bits, waits out the responses to others, and returns whether the answer
    in the buffer says success. *)
Theorem mbox_call_ok ch v st rd c : vc_answers (mbox_word ch) v st rd → answer (mbox_word ch) (mbox v) !! 1%nat = Some c →
  0 ≤ mbox_addr → mbox_addr mod 16 = 0 → 0 ≤ ch < 16 →
  mbox_word ch = u32 mbox_addr + ch ∧
  ∃ v', mbox_call ch v = Ok (if decide (c = REQUEST_SUCCEED) then 1 else 0, v') ∧
    mbox v' = answer (mbox_word ch) (mbox v) ∧ mbox_written v' = mbox_written v ++ [mbox_word ch].
Proof using.
  intros Ha Hc Hm H16 Hch. split.
  - unfold mbox_word. change 0xF with (Z.ones 4) at 2. rewrite (Z.land_ones ch), (Z.mod_small ch) by lia.
    assert (Z.land (u32 mbox_addr) (u32 (Z.lnot 0xF)) = u32 mbox_addr) as ->.
    { apply Z.bits_inj'. intros i Hi. rewrite Z.land_spec, !u32_testbit, Z.lnot_spec by done.
      destruct (Z.ltb_spec i 32); [|done]. cbn [andb]. destruct (decide (i < 4)) as [H4|H4].
      - assert (Z.testbit mbox_addr i = false) as ->; [|done].
        apply Z.mod_divide in H16 as [k ->]; [|lia]. change 16 with (2 ^ 4). by rewrite Z.mul_pow2_bits_low.
      - rewrite (testbit_above 15 4) by lia. by rewrite andb_true_r. }
    assert (u32 mbox_addr = u32 mbox_addr / 16 * 2 ^ 4) as ->; [|by rewrite lor_low by lia].
    apply Z.mod_divide in H16 as [k ->]; [|lia]. unfold u32. change (2 ^ 32) with (268435456 * 16).
    rewrite Z.mul_mod_distr_r, Z.div_mul by lia. done.
  - eexists. split; [rewrite (mbox_call_eq _ _ _ _ _ Ha Hc)|].
    + destruct (Z.eqb_spec c REQUEST_SUCCEED); case_decide; done.
    + done.
Qed.

(** [get_arm_memory] sends the property message for the memory size and
    returns the two words of the answer, [get_board_revision] the revision word
    of its own message; neither looks at whether the call succeeded. *)
Theorem mbox_requests_ok v st rd b1 b2 c1 c2 r a n : length (mbox v) = 64%nat → vc_answers (mbox_word ARM2VC) v st rd →
  answer (mbox_word ARM2VC) ([28; 0; 0x10002; 4; 0; 0; 0] ++ drop 7 (mbox v)) = b1 →
  answer (mbox_word ARM2VC) ([32; 0; 0x10005; 8; 0; 0; 0; 0] ++ drop 8 (mbox v)) = b2 →
  b1 !! 1%nat = Some c1 → b1 !! 5%nat = Some r → b2 !! 1%nat = Some c2 → b2 !! 5%nat = Some a → b2 !! 6%nat = Some n →
  (∃ v', get_board_revision v = Ok (r, v') ∧ mbox v' = b1) ∧ (∃ v', get_arm_memory v = Ok (a, n, v') ∧ mbox v' = b2).
Proof using.
  intros Hl Ha E1 E2 H11 H15 H21 H25 H26. subst b1 b2. split.
  - eexists (VCore _ _ _ _). split; [|reflexivity]. refine (bind_step _ _ _ _ (mbox_call_eq ARM2VC (VCore ([28; 0; 0x10002; 4; 0; 0; 0] ++ drop 7 (mbox v))
      (mbox_status v) (mbox_read v) (mbox_written v)) st rd c1 Ha H11) _). cbn [mbox]. by rewrite H15.
  - eexists (VCore _ _ _ _). split; [|reflexivity]. refine (bind_step _ _ _ _ (mbox_call_eq ARM2VC (VCore ([32; 0; 0x10005; 8; 0; 0; 0; 0] ++ drop 8 (mbox v))
      (mbox_status v) (mbox_read v) (mbox_written v)) st rd c2 Ha H21) _). cbn [mbox]. by rewrite H25, H26.
Qed.
End mailbox.

(** A video core that answers every message with success and the words 0 and
    1 GiB, after being busy once and after a response to someone else. *)
Definition vcore_ex : vcore := VCore (repeat 0 64) [MBOX_FULL; 0; 0; MBOX_EMPTY; 0] [7; 0x2008] [].
Definition answer_ex (r : Z) (b : list Z) : list Z := <[6%nat := 0x40000000]> (<[1%nat := REQUEST_SUCCEED]> b).

Lemma vcore_ex_answers : vc_answers (mbox_word 0xffff000000002000 8) vcore_ex [] [].
Proof.
  exists [MBOX_FULL; 0], [[0]], [MBOX_EMPTY; 0], [7]. split; [done|]. split; [done|].
  split; [exists [MBOX_FULL], 0; repeat constructor; discriminate|].
  split; [constructor; [exists [], 0; repeat constructor|constructor]|].
  split; [exists [MBOX_EMPTY], 0; repeat constructor; discriminate|]. split; [done|]. repeat constructor. discriminate.
Qed.

Lemma mbox_call_ok_witness : ∃ v', mbox_call 0xffff000000002000 answer_ex 8 vcore_ex = Ok (1, v') ∧ mbox_written v' = [0x2008].
Proof.
  destruct (mbox_call_ok 0xffff000000002000 answer_ex 8 vcore_ex [] [] REQUEST_SUCCEED vcore_ex_answers) as [_ (v' & E & _ & W)];
    [reflexivity|lia|reflexivity|lia|].
  exists v'. split; [exact E|exact W].
Defined.

Lemma mbox_requests_ok_witness : ∃ v', get_arm_memory 0xffff000000002000 answer_ex vcore_ex = Ok (0, 0x40000000, v').
Proof.
  destruct (mbox_requests_ok 0xffff000000002000 answer_ex vcore_ex [] [] _ _ REQUEST_SUCCEED REQUEST_SUCCEED 0 0 0x40000000
    eq_refl vcore_ex_answers eq_refl eq_refl) as [_ (v' & E & _)]; [reflexivity..|].
  exists v'. exact E.
Defined.
