(* ===== verification/Loader.v ===== *)
(** btlder/c8763.c: the boot loader that receives the kernel over the UART. *)
From S2P Require Import Prelude Util Lock Mem Uart.
Local Open Scope Z_scope.

Definition protocol_header : list Z := [0x63; 0x38; 0x37; 0x36; 0x33; 0].
Definition kernel_address : Z := 0x80000.

(** The loop that waits for the header; [idx] is a [byte]. *)
Fixpoint read_header (fuel : nat) (idx : Z) (s : ustate) : res ustate :=
  match fuel with
  | O => Fuel
  | S fuel =>
      '(data, s) ← uart_read s;
      let data := u8 data in
      h ← load (protocol_header !! Z.to_nat idx);
      let idx := if data =? h then idx else 0 in
      let idx := u8 (idx + 1) in
      let s := uart_send data s in
      if idx =? 5 then mret s else read_header fuel idx s
  end.

(** The four bytes of the size, shifted into what [img_size] was. *)
Definition read_size (img_size : Z) (s : ustate) : res (Z * ustate) :=
  for_loop 4 0 (λ _ '(n, s), '(b, s) ← uart_read s; mret (s32 (Z.lor (Z.shiftl n 8) (u8 b)), s)) (img_size, s).

Definition read_image (img_size : Z) (m : bmem) (s : ustate) : res (bmem * ustate) :=
  for_loop (Z.to_nat img_size) 0 (λ i '(m, s),
    '(b, s) ← uart_read s; m ← store8 m (u64 (kernel_address + i)) (u8 b); mret (m, uart_send (u8 b) s)) (m, s).

Section loader.
(** The kernel that was loaded, called with the address of the device tree. *)
Context (run_kernel : Z → bmem → ustate → res (bmem * ustate)).

(** The first [turns] turns of the outer loop, which has no end: header, size,
    image, the call, and again with the size left as it is. *)
Fixpoint c8763_turns (turns fuel : nat) (dtb img_size : Z) (m : bmem) (s : ustate) : res (bmem * ustate) :=
  match turns with
  | O => mret (m, s)
  | S turns =>
      s ← read_header fuel 0 s;
      '(n, s) ← read_size img_size s;
      '(m, s) ← read_image n m s;
      '(m, s) ← run_kernel dtb m s;
      c8763_turns turns fuel dtb n m s
  end.
Definition c8763_reader (turns fuel : nat) (dtb : Z) (m : bmem) (s : ustate) : res (bmem * ustate) :=
  c8763_turns turns fuel dtb 0 m s.
End loader.

(** ** The header *)

(** The state of the header loop after some bytes, while it has not stopped. *)
Definition header_step (idx b : Z) : Z := if bool_decide (protocol_header !! Z.to_nat idx = Some b) then idx + 1 else 1.
Fixpoint still_waiting (idx : Z) (bs : list Z) : Prop :=
  match bs with [] => True | b :: bs => header_step idx b < 5 ∧ still_waiting (header_step idx b) bs end.

Definition echoed (bs : list Z) (s s' : ustate) : Prop :=
  tx s' = tx s ++ bs ∧ (λ b, b mod 256) <$> bs = bs.

Lemma uart_read_ok b l s : rx s = b :: l → uart_read s = Ok (b, with_rx l s).
Proof. intros E. unfold uart_read, wait_data_ready, aux_mu_io_read. by rewrite E. Qed.

(** [s] after reading [bs] and sending them back. *)
Definition after_echo (bs rest : list Z) (s : ustate) : ustate := with_tx (tx s ++ bs) (with_rx rest s).

Lemma after_echo_app xs ys rest s : after_echo ys rest (after_echo xs (ys ++ rest) s) = after_echo (xs ++ ys) rest s.
Proof. unfold after_echo, with_tx, with_rx. cbn. by rewrite app_assoc. Qed.

Lemma header_step_range idx b : 0 ≤ idx < 5 → 1 ≤ header_step idx b ≤ 5.
Proof. intros H. unfold header_step. case_bool_decide; lia. Qed.

Lemma read_header_step fuel idx b l s : 0 ≤ idx < 5 → 0 ≤ b < 256 → rx s = b :: l →
  read_header (S fuel) idx s =
    if header_step idx b =? 5 then Ok (after_echo [b] l s) else read_header fuel (header_step idx b) (after_echo [b] l s).
Proof.
  intros Hi Hb El. cbn [read_header]. rewrite (uart_read_ok b l) by done. cbn [mbind res_bind].
  rewrite (u8_small b) by lia.
  destruct (lookup_lt_is_Some_2 protocol_header (Z.to_nat idx)) as [h Eh]; [simpl; lia|].
  rewrite Eh. cbn [load mbind res_bind].
  assert (u8 ((if b =? h then idx else 0) + 1) = header_step idx b) as ->.
  { unfold header_step. rewrite Eh. destruct (Z.eqb_spec b h) as [->|Hne].
    - rewrite bool_decide_eq_true_2 by done. apply u8_small. lia.
    - rewrite bool_decide_eq_false_2 by congruence. apply u8_small. lia. }
  assert (uart_send b (with_rx l s) = after_echo [b] l s) as ->; [|done].
  unfold uart_send, aux_mu_io_write, after_echo. by rewrite u8_small.
Qed.

Definition is_byte (b : Z) : Prop := 0 ≤ b < 256.

Lemma read_header_waits pre : ∀ fuel idx rest s, 0 ≤ idx < 5 → Forall is_byte pre → still_waiting idx pre →
  rx s = pre ++ rest → (length pre ≤ fuel)%nat →
  read_header fuel idx s =
    read_header (fuel - length pre) (foldl header_step idx pre) (after_echo pre rest s) ∧ 0 ≤ foldl header_step idx pre < 5.
Proof.
  induction pre as [|b pre IH]; intros fuel idx rest s Hi Hb Hw El Hf; cbn [still_waiting foldl length app] in *.
  - rewrite Nat.sub_0_r. split; [|done]. f_equal. unfold after_echo. rewrite app_nil_r. rewrite <- El. by destruct s.
  - apply Forall_cons in Hb as [Hb Hbs]. destruct Hw as [H5 Hw]. destruct fuel as [|fuel]; [lia|].
    rewrite (read_header_step _ _ b (pre ++ rest)) by done. rewrite (proj2 (Z.eqb_neq _ _)) by lia.
    pose proof (header_step_range idx b Hi).
    destruct (IH fuel (header_step idx b) rest (after_echo [b] (pre ++ rest) s)) as [E R]; [lia|done|done|done|lia|].
    rewrite E, after_echo_app. done.
Qed.

(** From any state "c8763" completes the header at its last byte. *)
Lemma header_completes idx : 0 ≤ idx < 5 → header_step idx 0x63 = 1 ∧
  header_step 1 0x38 = 2 ∧ header_step 2 0x37 = 3 ∧ header_step 3 0x36 = 4 ∧ header_step 4 0x33 = 5.
Proof.
  intros Hi. split; [|done].
  assert (idx = 0 ∨ idx = 1 ∨ idx = 2 ∨ idx = 3 ∨ idx = 4) as [->|[->|[->|[->| ->]]]] by lia; done.
Qed.

Definition header_text : list Z := [0x63; 0x38; 0x37; 0x36; 0x33].

Lemma header_tail fuel idx y rest s : 0 ≤ idx < 5 → is_byte y → header_step idx y = 1 →
  rx s = [y; 0x38; 0x37; 0x36; 0x33] ++ rest →
  read_header (5 + fuel) idx s = Ok (after_echo [y; 0x38; 0x37; 0x36; 0x33] rest s).
Proof.
  intros Hi Hy E1 El. cbn [app] in El. destruct (header_completes 0) as (_ & E2 & E3 & E4 & E5); [lia|].
  cbn [plus]. rewrite (read_header_step _ idx y _ s Hi Hy El), E1. cbn [Z.eqb Pos.eqb].
  rewrite (read_header_step _ 1 0x38 (0x37 :: 0x36 :: 0x33 :: rest)), E2 by (done || unfold is_byte; lia).
  cbn [Z.eqb Pos.eqb]. rewrite (after_echo_app [y] [0x38]). cbn [app].
  rewrite (read_header_step _ 2 0x37 (0x36 :: 0x33 :: rest)), E3 by (done || unfold is_byte; lia).
  cbn [Z.eqb Pos.eqb]. rewrite (after_echo_app [y; 0x38] [0x37]). cbn [app].
  rewrite (read_header_step _ 3 0x36 (0x33 :: rest)), E4 by (done || unfold is_byte; lia).
  cbn [Z.eqb Pos.eqb]. rewrite (after_echo_app [y; 0x38; 0x37] [0x36]). cbn [app].
  rewrite (read_header_step _ 4 0x33 rest), E5 by (done || unfold is_byte; lia).
  cbn [Z.eqb Pos.eqb]. by rewrite (after_echo_app [y; 0x38; 0x37; 0x36] [0x33]).
Qed.

Lemma read_header_ok pre rest fuel s : Forall is_byte pre → still_waiting 0 pre → rx s = pre ++ header_text ++ rest →
  (length pre + 5 ≤ fuel)%nat → read_header fuel 0 s = Ok (after_echo (pre ++ header_text) rest s).
Proof.
  intros Hb Hw El Hf. destruct (read_header_waits pre fuel 0 _ s ltac:(lia) Hb Hw El) as [-> Hr]; [lia|].
  replace (fuel - length pre)%nat with (5 + (fuel - length pre - 5))%nat by lia.
  rewrite (header_tail _ _ 0x63 rest); [|done|unfold is_byte; lia|by apply header_completes|done].
  by rewrite after_echo_app.
Qed.

(** ** The size and the image *)

Definition be32 (n : Z) : list Z := [Z.shiftr n 24 mod 256; Z.shiftr n 16 mod 256; Z.shiftr n 8 mod 256; n mod 256].

Lemma shift_in n b : 0 ≤ n < 2 ^ 23 → 0 ≤ b < 256 → s32 (Z.lor (Z.shiftl n 8) (u8 b)) = 256 * n + b.
Proof.
  intros Hn Hb. rewrite u8_small by lia.
  rewrite Z.shiftl_mul_pow2, lor_low by lia. rewrite s32_small; lia.
Qed.

Lemma read_size_ok n rest s : 0 ≤ n < 2 ^ 31 → rx s = be32 n ++ rest → read_size 0 s = Ok (n, with_rx rest s).
Proof.
  intros Hn El. unfold be32 in El. rewrite !Z.shiftr_div_pow2 in El by lia.
  unfold read_size. cbn [app] in El.
  pose proof (Z.mod_pos_bound (n / 2 ^ 24) 256). pose proof (Z.mod_pos_bound (n / 2 ^ 16) 256).
  pose proof (Z.mod_pos_bound (n / 2 ^ 8) 256). pose proof (Z.mod_pos_bound n 256).
  assert (n / 2 ^ 24 mod 256 < 128) as Htop.
  { rewrite Z.mod_small; [|split; [apply Z.div_pos; lia|]]; apply Z.div_lt_upper_bound; lia. }
  assert (n = 256 * (256 * (256 * (n / 2 ^ 24 mod 256) + n / 2 ^ 16 mod 256) + n / 2 ^ 8 mod 256) + n mod 256) as En.
  { pose proof (Z.div_mod n 256 ltac:(lia)). pose proof (Z.div_mod (n / 2 ^ 8) 256 ltac:(lia)).
    pose proof (Z.div_mod (n / 2 ^ 16) 256 ltac:(lia)).
    replace (n / 2 ^ 16) with (n / 2 ^ 8 / 256) in * by (rewrite Z.div_div by lia; done).
    replace (n / 2 ^ 24) with (n / 2 ^ 8 / 256 / 256) in * by (rewrite !Z.div_div by lia; done).
    rewrite (Z.mod_small (n / 2 ^ 8 / 256 / 256)); [change (2 ^ 8) with 256 in *; lia|].
    rewrite !Z.div_div by lia. split; [apply Z.div_pos; lia|apply Z.div_lt_upper_bound; lia]. }
  set (b3 := n / 2 ^ 24 mod 256) in *. set (b2 := n / 2 ^ 16 mod 256) in *. set (b1 := n / 2 ^ 8 mod 256) in *.
  set (b0 := n mod 256) in *. clearbody b3 b2 b1 b0.
  cbn [for_loop]. rewrite (uart_read_ok b3 _ s El). cbn [mret res_ret mbind res_bind]. rewrite shift_in by lia.
  rewrite (uart_read_ok b2 (b1 :: b0 :: rest) (with_rx _ _) eq_refl). cbn [mret res_ret mbind res_bind]. rewrite shift_in by lia.
  rewrite (uart_read_ok b1 (b0 :: rest) (with_rx _ _) eq_refl). cbn [mret res_ret mbind res_bind]. rewrite shift_in by lia.
  rewrite (uart_read_ok b0 rest (with_rx _ _) eq_refl). cbn [mret res_ret mbind res_bind]. rewrite shift_in by lia.
  apply (f_equal Ok), (f_equal2 pair); [lia|by destruct s].
Qed.

Lemma read_image_loop n img old : ∀ k rest m s, (k + n = length img)%nat → length old = length img →
  Forall is_byte img → kernel_address + Z.of_nat (length img) < 2 ^ 64 →
  window m kernel_address (take k img ++ drop k old) → rx s = drop k img ++ rest →
  ∃ m', for_loop n (Z.of_nat k) (λ i '(m, s),
      '(b, s) ← uart_read s; m ← store8 m (u64 (kernel_address + i)) (u8 b); mret (m, uart_send (u8 b) s)) (m, s) =
    Ok (m', after_echo (drop k img) rest s) ∧ window m' kernel_address img ∧
    same_outside kernel_address (Z.of_nat (length img)) m m'.
Proof.
  induction n as [|n IH]; intros k rest m s Hk Hl Hb Ha Hw El.
  - exists m. split; [|split; [|done]].
    + cbn [for_loop]. unfold after_echo. rewrite drop_ge in * by lia. rewrite app_nil_r. cbn in El. rewrite <- El. by destruct s.
    + rewrite take_ge, drop_ge, app_nil_r in Hw by lia. done.
  - destruct (lookup_lt_is_Some_2 img k) as [b Eb]; [lia|].
    destruct (lookup_lt_is_Some_2 old k) as [o Eo]; [lia|].
    pose proof (Forall_lookup_1 _ _ _ _ Hb Eb) as Hbb. unfold is_byte in Hbb.
    rewrite (drop_S img b k Eb) in El |- *. cbn [app] in El. cbn [for_loop]. rewrite (uart_read_ok b _ s El). cbn [mbind res_bind].
    rewrite (u8_small b) by lia. rewrite (u64_small (kernel_address + Z.of_nat k)) by (unfold kernel_address in *; lia).
    destruct (win_store m kernel_address _ k b Hw) as (m1 & E1 & Hw1 & Hs1).
    { rewrite length_app, length_take, length_drop. lia. }
    rewrite E1. cbn [mret res_ret mbind res_bind].
    replace (Z.of_nat k + 1) with (Z.of_nat (S k)) by lia.
    assert (uart_send b (with_rx (drop (S k) img ++ rest) s) = after_echo [b] (drop (S k) img ++ rest) s) as ->.
    { unfold uart_send, aux_mu_io_write, after_echo. by rewrite u8_small. }
    destruct (IH (S k) rest m1 (after_echo [b] (drop (S k) img ++ rest) s)) as (m2 & E2 & Hw2 & Hs2); try done; try lia.
    + rewrite (take_S_r _ _ _ Eb). rewrite <- app_assoc. cbn [app]. 
      rewrite (drop_S old o k Eo) in Hw1. rewrite insert_app_r_alt in Hw1 by (rewrite length_take; lia).
      rewrite length_take_le, Nat.sub_diag in Hw1 by lia. rewrite u8_small in Hw1 by lia. exact Hw1.
    + exists m2. split; [rewrite E2, after_echo_app; done|]. split; [done|].
      intros x Hx. rewrite Hs2 by done. apply Hs1. rewrite length_app, length_take, length_drop.
      replace (k `min` length img + (length old - k))%nat with (length img) by lia. exact Hx.
Qed.

Lemma after_echo_with_rx xs ys rest s : with_rx ys (after_echo xs rest s) = after_echo xs ys s.
Proof. done. Qed.

(** C31: for a stream that holds "c8763" (after bytes on which the loader keeps
    waiting), a size and that many bytes, the loader terminates with exactly
    these bytes at 0x80000 and nothing else of the memory changed, has echoed
    all but the size, and calls the kernel with the device tree. *)
Theorem c8763_reader_ok rk turns fuel dtb pre img old rest m s :
  Forall is_byte pre → still_waiting 0 pre → Forall is_byte img → Z.of_nat (length img) < 2 ^ 31 →
  rx s = pre ++ header_text ++ be32 (Z.of_nat (length img)) ++ img ++ rest →
  window m kernel_address old → length old = length img → (length pre + 5 ≤ fuel)%nat →
  ∃ m', window m' kernel_address img ∧ same_outside kernel_address (Z.of_nat (length img)) m m' ∧
    c8763_reader rk (S turns) fuel dtb m s =
      ('(m, s) ← rk dtb m' (with_rx rest (with_tx (tx s ++ pre ++ header_text ++ img) s));
       c8763_turns rk turns fuel dtb (Z.of_nat (length img)) m s).
Proof.
  intros Hpre Hw Himg Hlen El Hold Hl Hf.
  destruct (read_image_loop (length img) img old 0 rest m (after_echo (pre ++ header_text) (img ++ rest) s))
    as (m' & E & Hw' & Hs'); [done|done|done|unfold kernel_address; lia|exact Hold|done|].
  exists m'. split; [done|]. split; [done|]. unfold c8763_reader. cbn [c8763_turns].
  rewrite (read_header_ok pre _ fuel s Hpre Hw El Hf). cbn [mbind res_bind].
  rewrite (read_size_ok (Z.of_nat (length img)) (img ++ rest)) by (done || lia). cbn [mbind res_bind].
  rewrite after_echo_with_rx. unfold read_image. rewrite Nat2Z.id.
  change (Z.of_nat 0) with 0 in E. res_step E. rewrite after_echo_app.
  unfold after_echo. by rewrite <- !app_assoc.
Qed.

Lemma c8763_reader_ok_witness : ∃ m', window m' kernel_address [0xd6; 0x5f] ∧
  c8763_reader (λ _ m s, Ok (m, s)) 1 9 0 (bytes_mem kernel_address [0; 0])
    (with_rx [0x63; 0x63; 0x38; 0x37; 0x36; 0x33; 0; 0; 0; 2; 0xd6; 0x5f] uart_reset) =
  Ok (m', with_tx [0x63; 0x63; 0x38; 0x37; 0x36; 0x33; 0xd6; 0x5f] uart_reset).
Proof.
  destruct (c8763_reader_ok (λ _ m s, Ok (m, s)) 0 9 0 [0x63] [0xd6; 0x5f] [0; 0] [] (bytes_mem kernel_address [0; 0])
    (with_rx [0x63; 0x63; 0x38; 0x37; 0x36; 0x33; 0; 0; 0; 2; 0xd6; 0x5f] uart_reset)) as (m' & Hw & _ & E).
  - repeat constructor; unfold is_byte; lia.
  - vm_compute. split; [reflexivity|exact I].
  - repeat constructor; unfold is_byte; lia.
  - simpl. lia.
  - reflexivity.
  - apply bytes_mem_window; [unfold kernel_address; lia|simpl; unfold kernel_address; lia|repeat constructor; lia].
  - reflexivity.
  - simpl. lia.
  - exists m'. split; [exact Hw|exact E].
Defined.

(** What the state of the header loop remembers: the last [idx] bytes are any
    byte and then the header from its second character on. *)
Definition matched (idx : Z) (seen : list Z) : Prop :=
  idx = 0 ∧ seen = [] ∨ ∃ bs x, 1 ≤ idx ∧ seen = bs ++ x :: take (Z.to_nat idx - 1) [0x38; 0x37; 0x36; 0x33].

Lemma matched_step idx seen b : 0 ≤ idx < 5 → matched idx seen → matched (header_step idx b) (seen ++ [b]).
Proof.
  intros Hi Hm. right. unfold header_step. case_bool_decide as Eb.
  - destruct Hm as [[-> ->]|(bs & x & H1 & ->)]; [by exists [], b|]. exists bs, x. split; [lia|].
    rewrite <- app_assoc. cbn [app]. do 2 f_equal.
    assert (idx = 1 ∨ idx = 2 ∨ idx = 3 ∨ idx = 4) as [->|[->|[->| ->]]] by lia; by injection Eb as <-.
  - exists seen, b. split; [lia|done].
Qed.

Lemma read_header_matched fuel : ∀ idx seen s s', 0 ≤ idx < 5 → Forall is_byte (rx s) → matched idx seen →
  read_header fuel idx s = Ok s' → ∃ bs x, seen ++ rx s = bs ++ [x; 0x38; 0x37; 0x36; 0x33] ++ rx s'.
Proof.
  induction fuel as [|fuel IH]; intros idx seen s s' Hi Hb Hm E; [done|].
  destruct (rx s) as [|b l] eqn:El.
  { cbn [read_header] in E. unfold uart_read, wait_data_ready in E. by rewrite El in E. }
  apply Forall_cons in Hb as [Hb Hl]. rewrite (read_header_step _ _ b l) in E by done.
  pose proof (matched_step idx seen b Hi Hm) as Hm'. pose proof (header_step_range idx b Hi).
  destruct (Z.eqb_spec (header_step idx b) 5) as [E5|E5].
  - injection E as <-. rewrite E5 in Hm'. destruct Hm' as [[? _]|(bs & x & _ & Ex)]; [done|].
    exists bs, x. cbn [after_echo rx with_tx with_rx] in *. change (b :: l) with ([b] ++ l). rewrite app_assoc, Ex, <- app_assoc. done.
  - destruct (IH (header_step idx b) (seen ++ [b]) (after_echo [b] l s) s') as (bs & x & Ex); [lia|done|done|done|].
    exists bs, x. rewrite <- Ex, <- app_assoc. done.
Qed.

(** the header loop stops only behind the bytes "8763", but whatever byte is in
    front of them: the first character of the header is not compared. *)
Theorem read_header_exact fuel s s' : Forall is_byte (rx s) → read_header fuel 0 s = Ok s' →
  (∃ bs x, rx s = bs ++ [x; 0x38; 0x37; 0x36; 0x33] ++ rx s') ∧
  ∀ y rest, is_byte y → ∃ t, read_header 5 0 (with_rx ([y; 0x38; 0x37; 0x36; 0x33] ++ rest) s) = Ok t ∧ rx t = rest.
Proof.
  intros Hb E. split.
  - apply (read_header_matched fuel 0 [] s s'); [lia|done|by left|done].
  - intros y rest Hy. eexists. split; [apply (header_tail 0 0 y rest); [lia|done| |done]|done].
    unfold header_step. by case_bool_decide.
Qed.

Lemma read_header_exact_witness : ∃ bs x, [0x63; 0x78; 0x38; 0x37; 0x36; 0x33] = bs ++ [x; 0x38; 0x37; 0x36; 0x33] ++ [].
Proof.
  destruct (read_header_exact 9 (with_rx [0x63; 0x78; 0x38; 0x37; 0x36; 0x33] uart_reset)
    (after_echo [0x63; 0x78; 0x38; 0x37; 0x36; 0x33] [] uart_reset)) as [H _].
  - repeat constructor; unfold is_byte; lia.
  - reflexivity.
  - exact H.
Defined.

(** The first byte of the header is not compared with anything: whatever it is, the
    rest of the header completes it. *)
Lemma header_any_first b rest s fuel : is_byte b → rx s = [b; 0x38; 0x37; 0x36; 0x33] ++ rest → (5 ≤ fuel)%nat →
  read_header fuel 0 s = Ok (after_echo [b; 0x38; 0x37; 0x36; 0x33] rest s).
Proof.
  intros Hb Hs Hf. do 5 (destruct fuel as [|fuel]; [lia|]).
  assert (header_step 0 b = 1) as H1 by (unfold header_step; by case_bool_decide).
  rewrite (read_header_step _ 0 b ([0x38; 0x37; 0x36; 0x33] ++ rest)) by (done || lia). rewrite H1. cbn [Z.eqb Pos.eqb].
  rewrite (read_header_step _ 1 0x38 ([0x37; 0x36; 0x33] ++ rest)) by (done || lia). change (header_step 1 0x38) with 2. cbn [Z.eqb Pos.eqb].
  rewrite (read_header_step _ 2 0x37 ([0x36; 0x33] ++ rest)) by (done || lia). change (header_step 2 0x37) with 3. cbn [Z.eqb Pos.eqb].
  rewrite (read_header_step _ 3 0x36 ([0x33] ++ rest)) by (done || lia). change (header_step 3 0x36) with 4. cbn [Z.eqb Pos.eqb].
  rewrite (read_header_step _ 4 0x33 rest) by (done || lia). change (header_step 4 0x33) with 5. cbn [Z.eqb Pos.eqb].
  by rewrite !after_echo_app.
Qed.
