(* ===== verification/Event.v ===== *)
(** lib/event.c: the queue of deferred interrupt work, most urgent first, and
    its preemptive dispatcher. *)
From S2P Require Import Prelude Util ListHead Lock Malloc Heap Alloc Ordered.
From stdpp Require Import sorting.
Local Open Scope Z_scope.

(** [irq_event_t] without its list node; [func] is the address of a function. *)
Record irq_event := IrqEvent { func : Z; priority : Z }.
Definition sizeof_irq_event : Z := 32.

(** The globals of event.c on top of the heap; [events] is the memory of the
    event structures by address. *)
Record estate := EState {
  heap : mstate; irq_event_head : Z; curr_priority : Z; events : gmap Z irq_event;
}.
Definition with_heap (h : mstate) (s : estate) : estate :=
  EState h (irq_event_head s) (curr_priority s) (events s).
Definition with_irq_event_head (p : Z) (s : estate) : estate :=
  EState (heap s) p (curr_priority s) (events s).
Definition with_curr_priority (c : Z) (s : estate) : estate :=
  EState (heap s) (irq_event_head s) c (events s).
Definition with_events (e : gmap Z irq_event) (s : estate) : estate :=
  EState (heap s) (irq_event_head s) (curr_priority s) e.
Definition event_lm (s : estate) : lmem := lm (heap s).
Definition with_event_lm (m : lmem) (s : estate) : estate := with_heap (with_lm m (heap s)) s.
Definition event_lock (s : estate) : estate := with_heap (with_lk (lock (lk (heap s))) (heap s)) s.
Definition event_unlock (s : estate) : estate := with_heap (with_lk (unlock (lk (heap s))) (heap s)) s.

(** [size_t curr_priority = 0x10000;] *)
Definition initial_priority : Z := 0x10000.

Section event.
(** [kmalloc] *)
Context (alloc : Z → mstate → res (Z * mstate)).

Definition init_irq_event (s : estate) : res estate :=
  '(p, h) ← alloc sizeof_irq_event (heap s);
  let s := with_irq_event_head p (with_heap h s) in
  mret (with_event_lm (INIT_LIST_HEAD (event_lm s) p) s).

Definition add_irq_event (f prio : Z) (s : estate) : res estate :=
  '(new_event, h) ← alloc sizeof_irq_event (heap s);
  let s := with_events (<[new_event := IrqEvent f prio]> (events s)) (with_heap h s) in
  let s := with_event_lm (INIT_LIST_HEAD (event_lm s) new_event) s in
  let s := event_lock s in
  m ← insert_ordered
        (λ curr, e ← load (events s !! curr); mret (prio <? priority e))
        new_event (irq_event_head s) (event_lm s);
  mret (event_unlock (with_event_lm m s)).

(** The rest of the kernel, that the functions of the events run on. *)
Context {W : Type} (call : Z → estate * W → res (estate * W)).

(** [while (!list_empty(irq_event_head))]; [prev_priority] is an [int]. *)
Fixpoint run_irq_event (fuel : nat) (sw : estate * W) : res (estate * W) :=
  match fuel with
  | O => Fuel
  | S fuel =>
      let '(s, w) := sw in
      e ← list_empty (event_lm s) (irq_event_head s);
      if (e : bool) then mret (s, w)
      else
        let s := event_lock s in
        nxt_event ← get_next (event_lm s) (irq_event_head s);
        ev ← load (events s !! nxt_event);
        if curr_priority s <=? priority ev then mret (event_unlock s, w)
        else
          m ← list_del_entry (event_lm s) nxt_event;
          let s := with_event_lm m s in
          let prev_priority := s32 (curr_priority s) in
          let s := event_unlock (with_curr_priority (priority ev) s) in
          '(s, w) ← call (func ev) (s, w);
          run_irq_event fuel (with_curr_priority (u64 prev_priority) s, w)
  end.
End event.

(** ** The queue *)

(** A waiting event: where its structure lies, and what it holds. *)
Abbreviation entry := (Z * irq_event)%type.
Definition entry_key (e : entry) : Z := priority e.2.

Section event_proofs.
Context `{SA : SmallAlloc alloc}.

Record event_inv (s : estate) (L : rings) (g : sa_ghost) (q : list entry) : Prop := {
  ev_heap : sa_inv (heap s) L g;
  ev_head : ¬ sa_private (irq_event_head s);
  ev_ring : L !! irq_event_head s = Some q.*1;
  ev_mem : ∀ p e, (p, e) ∈ q → events s !! p = Some e;
  ev_order : in_order entry_key q;
  ev_lock : lock_wf (lk (heap s));
}.

Definition sa_others (s : estate) (h : Z) : Prop := ¬ sa_private h ∧ h ≠ irq_event_head s.

Lemma event_inv_lk s L g q k : event_inv s L g q → lock_wf k →
  event_inv (with_heap (with_lk k (heap s)) s) L g q.
Proof using. intros [] Hk. split; simpl; try done. by apply sa_lock. Qed.

(** [init_irq_event] succeeds when there is memory, and leaves an empty queue. *)
Theorem init_irq_event_inv s L g : sa_inv (heap s) L g → lock_wf (lk (heap s)) →
  sa_room L g sizeof_irq_event →
  ∃ s' L' g', init_irq_event alloc s = Ok s' ∧ event_inv s' L' g' [] ∧
    agree_on (λ h, ¬ sa_private h ∧ h ≠ irq_event_head s') L L' ∧
    L !! irq_event_head s' = None.
Proof using SA.
  intros HI Hlk Hroom.
  destruct (sa_alloc _ _ _ sizeof_irq_event HI) as
    (p & h & L1 & g1 & E & Hk & HI1 & Ha & Hn & Hf & Hlive & _); [by unfold sizeof_irq_event|done|].
  assert (¬ sa_private p) as Hp by (intros Hp; by apply Hn, (sa_private_node h L1 g1)).
  assert (lists_ok (INIT_LIST_HEAD (lm h) p) (<[p := []]> L1)) as Hok
    by (apply INIT_LIST_HEAD_head; [by apply (sa_lists h L1 g1)|done]).
  eexists _, (<[p := []]> L1), g1. split_and!; [unfold init_irq_event; by rewrite E|..]; simpl.
  - split; simpl.
    + apply sa_insert_ring; [done|done|done|]. intros q [->|Hq]%elem_of_cons; [|by apply not_elem_of_nil in Hq].
      right. apply Hlive. by right.
    + done.
    + by rewrite lookup_insert_eq.
    + by intros ?? ?%not_elem_of_nil.
    + constructor.
    + by rewrite Hk.
  - intros h' [Hh1 Hh2]. rewrite lookup_insert_ne by done. by apply Ha.
  - rewrite <- (Ha p Hp). destruct (L1 !! p) as [l|] eqn:El; [|done].
    destruct Hn. apply (node_elem L1 p l); [done|by left].
Qed.

Lemma add_irq_event_inv s L g q f prio :
  event_inv s L g q → sa_room L g sizeof_irq_event →
  ∃ p s' L' g', add_irq_event alloc f prio s = Ok s' ∧
    event_inv s' L' g' (enqueue entry_key (p, IrqEvent f prio) q) ∧
    irq_event_head s' = irq_event_head s ∧ curr_priority s' = curr_priority s ∧
    lk (heap s') = unlock (lock (lk (heap s))) ∧ agree_on (sa_others s) L L' ∧
    ¬ sa_live L g p ∧ (∀ x, sa_live L' g' x ↔ sa_live L g x ∨ x = p) ∧ (∀ k, sa_budget g (S k) → sa_budget g' k).
Proof using SA.
  intros [HI Hh Hr Hm Ho Hlk] Hroom.
  destruct (sa_alloc _ _ _ sizeof_irq_event HI) as
    (p & h & L1 & g1 & E & Hk & HI1 & Ha & Hn & Hf & Hlive & Hbud & _); [by unfold sizeof_irq_event|done|].
  destruct (enqueue_split entry_key (p, IrqEvent f prio) q) as (q1 & q2 & -> & Eq & Hq1 & Hq2).
  assert (L1 !! irq_event_head s = Some (q1.*1 ++ q2.*1)) as Hr1
    by (rewrite Ha by done; by rewrite <- fmap_app).
  assert (∀ p' e, (p', e) ∈ q1 ++ q2 → p ≠ p') as Hfresh.
  { intros p' e Hin ->. apply Hn, (node_elem L1 _ _ _ Hr1). right.
    rewrite <- fmap_app. apply list_elem_of_fmap. by exists (p', e). }
  set (ev := <[p := IrqEvent f prio]> (events s)).
  assert (∀ p' e, (p', e) ∈ q1 ++ q2 → ev !! p' = Some e) as Hm1.
  { intros p' e Hin. unfold ev. rewrite lookup_insert_ne; [by apply Hm|by eapply Hfresh]. }
  destruct (insert_ordered_ok (λ curr, e ← load (ev !! curr); mret (prio <? priority e))
    p (irq_event_head s) (INIT_LIST_HEAD (lm h) p) L1 (q1.*1) (q2.*1)) as (m & Em & Hok).
  - apply INIT_LIST_HEAD_entry; [by apply (sa_lists h L1 g1)|done].
  - done.
  - done.
  - intros x ([p' e] & -> & Hin)%list_elem_of_fmap. simpl.
    rewrite (Hm1 p' e) by (apply elem_of_app; by left). simpl. f_equal. apply Z.ltb_ge.
    rewrite Forall_forall in Hq1. apply (Hq1 _ Hin).
  - intros y Hy. destruct q2 as [|[p' e] q2]; simplify_eq/=.
    rewrite (Hm1 y e) by set_solver. simpl. f_equal. apply Z.ltb_lt. by apply (Hq2 (y, e)).
  - assert (sa_live (<[irq_event_head s := q1.*1 ++ p :: q2.*1]> L1) g1 p) as Hlp.
    { apply sa_insert_live; [done|]. apply Hlive. by right. }
    eexists p, _, (<[irq_event_head s := q1.*1 ++ p :: q2.*1]> L1), g1.
    split_and!; [refine (bind_step _ _ _ _ E _); refine (bind_step _ _ _ _ Em eq_refl)|..]; simpl.
    + split; simpl.
      * apply sa_lock. apply (sa_insert_ring (with_lk (lock (lk h)) (with_lm _ h)) L1); [|done|done|].
        -- apply sa_lock. eapply sa_client; [done| |done|by left].
           apply INIT_LIST_HEAD_entry; [by apply (sa_lists h L1 g1)|done].
        -- intros x Hx. destruct (decide (x = p)) as [->|Hne]; [right; apply Hlive; by right|left].
           apply (node_elem L1 _ _ x Hr1). set_solver.
      * done.
      * rewrite lookup_insert_eq, Eq, fmap_app. done.
      * intros p' e. rewrite Eq, elem_of_app, elem_of_cons.
        intros [Hin|[[= -> ->]|Hin]]; [apply Hm1; set_solver|unfold ev; by rewrite lookup_insert_eq|apply Hm1; set_solver].
      * by apply enqueue_in_order.
      * rewrite Hk. by apply lock_wf_balanced.
    + done.
    + done.
    + by rewrite Hk.
    + intros h' [Hh1 Hh2]. rewrite lookup_insert_ne by done. by apply Ha.
    + done.
    + intros x. rewrite <- Hlive. split; apply sa_live_agree; intros h' Hh';
        rewrite lookup_insert_ne; try done; by intros <-.
    + done.
Qed.

(** ** The dispatcher *)

Context {W : Type} (call : Z → estate * W → res (estate * W)).
(** What the function of an event does to the rest of the kernel. *)
Context (effect : Z → W → W).

(** The functions return, and leave queue and priority as they find them:
    whatever they add and run themselves has been run when they return. *)
Definition calls_ok : Prop := ∀ f s w L g q, event_inv s L g q →
  ∃ s' L' g', call f (s, w) = Ok (s', effect f w) ∧ event_inv s' L' g' q ∧
    irq_event_head s' = irq_event_head s ∧ curr_priority s' = curr_priority s ∧
    lk (heap s') = lk (heap s).

Definition run_effects (q : list entry) (w : W) : W :=
  foldl (λ w e, effect (func e.2) w) w q.

Lemma run_irq_event_inv q1 : ∀ q2 s L g w fuel,
  calls_ok → event_inv s L g (q1 ++ q2) → 0 ≤ curr_priority s < 2 ^ 31 →
  Forall (λ e, entry_key e < curr_priority s) q1 → Forall (λ e, curr_priority s ≤ entry_key e) q2 →
  (length q1 < fuel)%nat → lk (heap s) = unlock (lock (lk (heap s))) →
  ∃ s' L' g', run_irq_event call fuel (s, w) = Ok (s', run_effects q1 w) ∧
    event_inv s' L' g' q2 ∧ curr_priority s' = curr_priority s ∧
    irq_event_head s' = irq_event_head s ∧ lk (heap s') = lk (heap s).
Proof using SA.
  induction q1 as [|[p e] q1 IH]; intros q2 s L g w [|fuel] Hcall HE Hc H1 H2 Hf Hlk; simpl in Hf; [lia| |lia|].
  - pose proof HE as [HI Hh Hr Hm Ho Hw]. simpl in *.
    pose proof (list_empty_ok _ _ _ _ (sa_lists _ _ _ HI) Hr) as Ee. unfold event_lm. res_step Ee.
    destruct q2 as [|[p e] q2]; simpl.
    { exists s, L, g. done. }
    pose proof (get_next_ok _ _ _ [] _ (sa_lists _ _ _ HI) Hr) as En. simpl in En.
    unfold event_lm in *. simpl. res_step En. rewrite (Hm p e) by set_solver. simpl.
    apply Forall_cons in H2 as [He _]. rewrite (proj2 (Z.leb_le _ _)) by done.
    eexists _, L, g. split; [done|]. unfold event_unlock. simpl. rewrite <- Hlk.
    destruct s as [[] ? ? ?]. done.
  - pose proof HE as [HI Hh Hr Hm Ho Hw].
    pose proof (list_empty_ok _ _ _ _ (sa_lists _ _ _ HI) Hr) as Ee.
    pose proof (get_next_ok _ _ _ [] _ (sa_lists _ _ _ HI) Hr) as En. simpl in En.
    apply Forall_cons in H1 as [He H1]. apply StronglySorted_inv in Ho as [Ho Hle].
    destruct (list_del_entry_ok (lm (heap s)) L (irq_event_head s) [] p (q1 ++ q2).*1
      (sa_lists _ _ _ HI) Hr) as (m & Ed & Hok & _).
    set (s1 := event_unlock (with_curr_priority (priority e) (with_event_lm m (event_lock s)))).
    assert (event_inv s1 (<[irq_event_head s := (q1 ++ q2).*1]> L) g (q1 ++ q2)) as HE1.
    { split; simpl.
      - apply sa_lock, (sa_insert_ring (with_lk (lock (lk (heap s))) (heap s)) L); [by apply sa_lock|done|done|].
        intros x Hx. left. apply (node_elem L _ _ x Hr). set_solver.
      - done.
      - by rewrite lookup_insert_eq.
      - intros p' e' Hin. apply Hm. set_solver.
      - done.
      - rewrite <- Hlk. done. }
    destruct (Hcall (func e) s1 w _ _ _ HE1) as (s2 & L2 & g2 & Ec & HE2 & Hh2 & Hc2 & Hk2).
    set (s3 := with_curr_priority (u64 (s32 (curr_priority s))) s2).
    assert (curr_priority s3 = curr_priority s) as Hc3.
    { unfold s3. simpl. autorewrite with words. done. }
    assert (lk (heap s1) = lk (heap s)) as Hk1 by (by rewrite Hlk).
    destruct (IH q2 s3 L2 g2 (effect (func e) w) fuel) as (s4 & L4 & g4 & E4 & HE4 & Hc4 & Hh4 & Hk4);
      [done| |by rewrite Hc3|by rewrite Hc3|by rewrite Hc3|lia| |].
    { destruct HE2. by split. }
    { unfold s3. simpl. by rewrite Hk2, Hk1. }
    exists s4, L4, g4. split_and!; [|done|congruence|by rewrite Hh4|].
    + simpl. unfold event_lm. res_step Ee. simpl. res_step En.
      rewrite (Hm p e) by set_solver. simpl. unfold entry_key in He. simpl in He.
      rewrite (proj2 (Z.leb_gt _ _)) by done. unfold event_lm. simpl. res_step Ed.
      fold s1. rewrite Ec. simpl. fold s3. done.
    + rewrite Hk4. unfold s3. simpl. by rewrite Hk2, Hk1.
Qed.

(** [add_irq_event] puts the event behind every event that is at least as
    urgent and before every less urgent one: the queue stays in order, events
    of one priority stay first come, first served, and nothing is lost. The
    lock is released, and no other ring of the kernel changes. *)
Theorem add_irq_event_ok s L g q f prio :
  event_inv s L g q → sa_room L g sizeof_irq_event →
  ∃ p s' L' g' q', add_irq_event alloc f prio s = Ok s' ∧ event_inv s' L' g' q' ∧
    q' ≡ₚ (p, IrqEvent f prio) :: q ∧
    (∀ k, filter (λ e, entry_key e = k) q' =
      filter (λ e, entry_key e = k) q ++ (if decide (prio = k) then [(p, IrqEvent f prio)] else [])) ∧
    curr_priority s' = curr_priority s ∧ lk (heap s') = unlock (lock (lk (heap s))) ∧
    agree_on (sa_others s) L L' ∧ ¬ sa_live L g p.
Proof using SA.
  intros HE Hroom. destruct (add_irq_event_inv s L g q f prio HE Hroom) as
    (p & s' & L' & g' & E & HE' & _ & Hc & Hk & Ha & Hf & _).
  exists p, s', L', g', (enqueue entry_key (p, IrqEvent f prio) q). split_and!; try done.
  - apply enqueue_perm.
  - intros k. apply (enqueue_stable entry_key (p, IrqEvent f prio)), HE.
Qed.

(** C37: [run_irq_event] terminates; it runs the events more urgent than the
    current priority, each once and in queue order, leaves the others waiting,
    and restores the current priority. The callbacks must return and leave the
    queue as it was ([calls_ok]). *)
Theorem run_irq_event_ok s L g q w :
  calls_ok → event_inv s L g q → 0 ≤ curr_priority s < 2 ^ 31 →
  lk (heap s) = unlock (lock (lk (heap s))) →
  ∃ q1 q2 s' L' g', q = q1 ++ q2 ∧
    Forall (λ e, entry_key e < curr_priority s) q1 ∧ Forall (λ e, curr_priority s ≤ entry_key e) q2 ∧
    run_irq_event call (S (length q)) (s, w) = Ok (s', run_effects q1 w) ∧
    event_inv s' L' g' q2 ∧ curr_priority s' = curr_priority s ∧ lk (heap s') = lk (heap s).
Proof using SA.
  intros Hcall HE Hc Hlk.
  destruct (in_order_split entry_key (curr_priority s) q (ev_order _ _ _ _ HE)) as (q1 & q2 & -> & H1 & H2).
  destruct (run_irq_event_inv q1 q2 s L g w (S (length (q1 ++ q2))) Hcall HE Hc H1 H2) as
    (s' & L' & g' & E & HE' & Hc' & _ & Hk'); [rewrite length_app; lia|done|].
  by exists q1, q2, s', L', g'.
Qed.

(** preemption. An interrupt that arrives while the dispatcher runs at
    priority [curr_priority] adds its event and runs the dispatcher again: if it
    is more urgent than that, exactly its function runs before the interrupted
    one goes on, and otherwise it waits in the queue and nothing runs. *)
Theorem irq_arrival s L g q f prio w :
  calls_ok → event_inv s L g q → sa_room L g sizeof_irq_event →
  0 ≤ curr_priority s < 2 ^ 31 → Forall (λ e, curr_priority s ≤ entry_key e) q →
  ∃ p s1 s' L' g', add_irq_event alloc f prio s = Ok s1 ∧
    run_irq_event call 2 (s1, w) = Ok (s', if prio <? curr_priority s then effect f w else w) ∧
    event_inv s' L' g' (if prio <? curr_priority s then q else enqueue entry_key (p, IrqEvent f prio) q) ∧
    curr_priority s' = curr_priority s.
Proof using SA.
  intros Hcall HE Hroom Hc Hq.
  destruct (add_irq_event_inv s L g q f prio HE Hroom) as
    (p & s1 & L1 & g1 & E & HE1 & _ & Hc1 & Hk1 & _).
  assert (lk (heap s1) = unlock (lock (lk (heap s1)))) as Hlk1
    by (rewrite Hk1; symmetry; apply unlock_lock_idem, HE).
  destruct (Z.ltb_spec prio (curr_priority s)) as [Hp|Hp].
  - assert (enqueue entry_key (p, IrqEvent f prio) q = (p, IrqEvent f prio) :: q) as Eq.
    { destruct q as [|e q]; [done|]. apply Forall_cons in Hq as [He _]. simpl.
      unfold entry_key in *. simpl. by rewrite (proj2 (Z.ltb_lt _ _)) by lia. }
    rewrite Eq in HE1.
    destruct (run_irq_event_inv [(p, IrqEvent f prio)] q s1 L1 g1 w 2 Hcall HE1) as
      (s' & L' & g' & E' & HE' & Hc' & _ & _); [by rewrite Hc1| |by rewrite Hc1|simpl; lia|done|].
    { apply Forall_singleton. rewrite Hc1. done. }
    exists p, s1, s', L', g'. split_and!; [done|done|done|by rewrite Hc', Hc1].
  - destruct (run_irq_event_inv [] (enqueue entry_key (p, IrqEvent f prio) q) s1 L1 g1 w 2 Hcall HE1) as
      (s' & L' & g' & E' & HE' & Hc' & _ & _); [by rewrite Hc1|done| |simpl; lia|done|].
    { rewrite enqueue_perm, Hc1. by constructor. }
    exists p, s1, s', L', g'. split_and!; [done|done|done|by rewrite Hc', Hc1].
Qed.
End event_proofs.

(** ** Witnesses *)

(** Functions that only record that they ran. *)
Definition call_ex (f : Z) (sw : estate * list Z) : res (estate * list Z) := Ok (sw.1, sw.2 ++ [f]).

Lemma calls_ok_ex : calls_ok call_ex (λ f w, w ++ [f]).
Proof. intros f s w L g q HE. by exists s, L, g. Qed.

(** An empty queue on the example heap. *)
Lemma event_ex : ∃ s L g, event_inv s L g [] ∧ sa_room L g sizeof_irq_event ∧
  curr_priority s = initial_priority ∧ lk (heap s) = LockSt 0 true.
Proof.
  destruct (ring_ex sizeof_irq_event) as (h & L & g & p & HI & Hp & Hr & Hroom & Hk).
  { unfold sizeof_irq_event. lia. }
  exists (EState h p initial_priority ∅), L, g. split_and!; [|done|done|done].
  split; simpl; [done|done|done| |constructor|].
  - intros p' e He. by apply not_elem_of_nil in He.
  - rewrite Hk. split; simpl; [lia|lia].
Qed.

Lemma event_budget_ex : ∃ s L g, event_inv s L g [] ∧ sa_budget g 2 ∧ curr_priority s = initial_priority.
Proof.
  destruct (ring_budget_ex 2) as (h & L & g & p & HI & Hp & Hr & HB & Hk); [lia|].
  exists (EState h p initial_priority ∅), L, g. split; [|done].
  split; simpl; [done|done|done| |constructor|].
  - intros p' e He. by apply not_elem_of_nil in He.
  - rewrite Hk. split; simpl; [lia|lia].
Qed.

Lemma init_irq_event_inv_witness : ∃ s s', init_irq_event (kmalloc layout_ex) s = Ok s'.
Proof.
  destruct (ring_ex sizeof_irq_event) as (h & L & g & p & HI & Hp & Hr & Hroom & Hk).
  { unfold sizeof_irq_event. lia. }
  destruct (init_irq_event_inv (EState h 0 initial_priority ∅) L g HI) as (s' & _ & _ & E & _).
  - simpl. rewrite Hk. split; simpl; lia.
  - exact Hroom.
  - exists (EState h 0 initial_priority ∅), s'. exact E.
Defined.

Lemma add_irq_event_ok_witness : ∃ s s', add_irq_event (kmalloc layout_ex) 0x80100 1 s = Ok s'.
Proof.
  destruct event_ex as (s & L & g & HE & Hroom & _ & _).
  destruct (add_irq_event_ok s L g [] 0x80100 1 HE Hroom) as (p & s' & _ & _ & _ & E & _).
  exists s, s'. exact E.
Defined.

Lemma run_irq_event_ok_witness : ∃ s s' w, run_irq_event call_ex 2 (s, []) = Ok (s', w).
Proof.
  destruct event_ex as (s0 & L0 & g0 & HE0 & Hroom & Hc & Hk).
  destruct (add_irq_event_inv s0 L0 g0 [] 0x80100 1 HE0 Hroom) as
    (p & s & L & g & _ & HE & _ & Hc1 & Hk1 & _).
  destruct (run_irq_event_ok call_ex (λ f w, w ++ [f]) s L g _ [] calls_ok_ex HE) as
    (q1 & q2 & s' & _ & _ & _ & _ & _ & E & _).
  - rewrite Hc1, Hc. unfold initial_priority. lia.
  - rewrite Hk1, Hk. reflexivity.
  - exists s, s', (run_effects (λ f w, w ++ [f]) q1 []). exact E.
Defined.

Lemma irq_arrival_witness : ∃ s s1 s', add_irq_event (kmalloc layout_ex) 0x80100 1 s = Ok s1 ∧
  run_irq_event call_ex 2 (s1, []) = Ok (s', [0x80100]).
Proof.
  destruct event_ex as (s & L & g & HE & Hroom & Hc & _).
  destruct (irq_arrival call_ex (λ f w, w ++ [f]) s L g [] 0x80100 1 [] calls_ok_ex HE Hroom) as
    (p & s1 & s' & _ & _ & E1 & E2 & _).
  - rewrite Hc. unfold initial_priority. lia.
  - apply Forall_nil_2.
  - rewrite Hc in E2. exists s, s1, s'. split; [exact E1|exact E2].
Defined.
