(* ===== verification/Timer.v ===== *)
(** lib/timer.c and include/timer.h: software timers on the core timer, kept
    in order of expiry. *)
From S2P Require Import Prelude Util ListHead Lock Mem CString Malloc Buddy Reserve Heap Alloc KAlloc Ram Ordered.
From stdpp Require Import sorting.
Local Open Scope Z_scope.

(** [timer_task_t] without its list node. *)
Record timer_task := TimerTask { func : Z; expire : Z; args : Z }.
Definition sizeof_timer_task : Z := 40.

(** The registers of the core timer: frequency, count, compare value, control. *)
Record timer_hw := TimerHw { cntfrq_el0 : Z; cntpct_el0 : Z; cntp_cval_el0 : Z; cntp_ctl_el0 : Z; irq_ctrl : Z }.
Definition with_cval (c : Z) (h : timer_hw) : timer_hw :=
  TimerHw (cntfrq_el0 h) (cntpct_el0 h) c (cntp_ctl_el0 h) (irq_ctrl h).

(** The globals of timer.c on top of the heap; [tasks] is the memory of the
    task structures, [bytes] that of the argument strings. *)
Record tstate := TState {
  heap : mstate; timer_task_head : Z; tasks : gmap Z timer_task; bytes : bmem; hw : timer_hw;
}.
Definition with_heap (h : mstate) (s : tstate) : tstate := TState h (timer_task_head s) (tasks s) (bytes s) (hw s).
Definition with_timer_task_head (p : Z) (s : tstate) : tstate := TState (heap s) p (tasks s) (bytes s) (hw s).
Definition with_tasks (t : gmap Z timer_task) (s : tstate) : tstate := TState (heap s) (timer_task_head s) t (bytes s) (hw s).
Definition with_bytes (b : bmem) (s : tstate) : tstate := TState (heap s) (timer_task_head s) (tasks s) b (hw s).
Definition with_hw (h : timer_hw) (s : tstate) : tstate := TState (heap s) (timer_task_head s) (tasks s) (bytes s) h.
Definition timer_lm (s : tstate) : lmem := lm (heap s).
Definition with_timer_lm (m : lmem) (s : tstate) : tstate := with_heap (with_lm m (heap s)) s.

Definition timer_enable (h : timer_hw) : timer_hw :=
  TimerHw (cntfrq_el0 h) (cntpct_el0 h) (cntp_cval_el0 h) 1 2.
Definition timer_disable (h : timer_hw) : timer_hw :=
  TimerHw (cntfrq_el0 h) (cntpct_el0 h) (cntp_cval_el0 h) 0 (irq_ctrl h).

(** A write of CNTP_TVAL_EL0 sets the compare value to the count plus the low
    32 bits of the operand, sign-extended. *)
Definition set_timer_interrupt_by_secs (secs : Z) (h : timer_hw) : timer_hw :=
  with_cval (u64 (cntpct_el0 h + s32 (u64 (cntfrq_el0 h * secs)))) h.
Definition set_timer_interrupt_by_tick (tick : Z) (h : timer_hw) : timer_hw := with_cval tick h.
Definition get_expire_tick_from_secs (seconds : Z) (h : timer_hw) : Z :=
  u64 (u64 (cntfrq_el0 h * seconds) + cntpct_el0 h).

Definition TIMER_BY_SESC : Z := 0.
Definition TIMER_BY_TICK : Z := 1.

Section timer.
(** [kmalloc]; and what the [args] field of a fresh structure happens to hold. *)
Context (alloc : Z → mstate → res (Z * mstate)) (garbage : Z → Z).

Definition init_timer_list (s : tstate) : res tstate :=
  '(p, h) ← alloc sizeof_list_head (heap s);
  let s := with_timer_task_head p (with_heap h s) in
  mret (with_timer_lm (INIT_LIST_HEAD (timer_lm s) p) s).

Definition first_expire (s : tstate) : res Z :=
  p ← get_next (timer_lm s) (timer_task_head s); t ← load (tasks s !! p); mret (expire t).

Definition add_timer_task (by_tick value f a : Z) (s : tstate) : res tstate :=
  '(new_task, h) ← alloc sizeof_timer_task (heap s);
  let s := with_heap h s in
  n ← strlen (mem_fuel (bytes s)) (at_mem (bytes s) a);
  let args_len := s32 (u32 (n + 1)) in
  let exp := if by_tick =? TIMER_BY_SESC then get_expire_tick_from_secs value (hw s)
             else u64 (get_expire_tick_from_secs 0 (hw s) + value) in
  '(arg, s) ← (if 1 <? args_len then
      '(arg, h) ← alloc (u32 args_len) (heap s);
      b ← store8 (bytes s) (arg + args_len) 0;
      b ← memcpy b arg a (u64 args_len);
      mret (arg, with_bytes b (with_heap h s))
    else mret (garbage new_task, s));
  let s := with_tasks (<[new_task := TimerTask f exp arg]> (tasks s)) s in
  let s := with_timer_lm (INIT_LIST_HEAD (timer_lm s) new_task) s in
  m ← insert_ordered
        (λ curr, t ← load (tasks s !! curr); mret (exp <? expire t))
        new_task (timer_task_head s) (timer_lm s);
  let s := with_timer_lm m s in
  e ← first_expire s;
  mret (with_hw (set_timer_interrupt_by_tick e (hw s)) s).

(** The call of a [timer_callback] on its argument. *)
Context (call : Z → Z → tstate → res tstate).

Definition do_timer_task (task : Z) (s : tstate) : res tstate :=
  m ← list_del_entry (timer_lm s) task;
  let s := with_timer_lm m s in
  t ← load (tasks s !! task);
  s ← call (func t) (args t) s;
  e ← list_empty (timer_lm s) (timer_task_head s);
  if negb (e : bool) then
    x ← first_expire s; mret (with_hw (set_timer_interrupt_by_tick x (hw s)) s)
  else mret (with_hw (set_timer_interrupt_by_secs 500 (hw s)) s).

Definition timer_handler (s : tstate) : res tstate :=
  e ← list_empty (timer_lm s) (timer_task_head s);
  if (e : bool) then mret (with_hw (set_timer_interrupt_by_secs 500 (hw s)) s)
  else task ← get_next (timer_lm s) (timer_task_head s); do_timer_task task s.
End timer.

(** ** The timer queue *)

Abbreviation entry := (Z * timer_task)%type.
Definition entry_key (e : entry) : Z := expire e.2.

(** The compare register when [q] waits: the first expiry. *)
Definition armed (q : list entry) (h : timer_hw) : Prop :=
  ∀ e, head q = Some e → cntp_cval_el0 h = entry_key e.

Section timer_proofs.
Context `{SA : SmallAlloc alloc}.

Record timer_inv (s : tstate) (L : rings) (g : sa_ghost) (q : list entry) : Prop := {
  tm_heap : sa_inv (heap s) L g;
  tm_head : ¬ sa_private (timer_task_head s);
  tm_ring : L !! timer_task_head s = Some q.*1;
  tm_mem : ∀ p t, (p, t) ∈ q → tasks s !! p = Some t;
  tm_order : in_order entry_key q;
}.

Lemma timer_inv_hw s L g q h : timer_inv s L g q → timer_inv (with_hw h s) L g q.
Proof using. by intros []. Qed.

Lemma first_expire_ok s L g e q : timer_inv s L g (e :: q) → first_expire s = Ok (entry_key e).
Proof using.
  intros [HI Hh Hr Hm Ho]. destruct e as [p t].
  pose proof (get_next_ok _ _ _ [] _ (sa_lists _ _ _ HI) Hr) as En. simpl in En.
  unfold first_expire, timer_lm. res_step En. by rewrite (Hm p t) by set_solver.
Qed.

(** A fresh object becomes a task of the queue. *)
Lemma place_task s L g q p t :
  timer_inv s L g q → ¬ node L p → sa_live L g p →
  let s1 := with_timer_lm (INIT_LIST_HEAD (timer_lm s) p) (with_tasks (<[p := t]> (tasks s)) s) in
  ∃ m L', insert_ordered (λ curr, t' ← load (tasks s1 !! curr); mret (expire t <? expire t'))
      p (timer_task_head s1) (timer_lm s1) = Ok m ∧
    timer_inv (with_timer_lm m s1) L' g (enqueue entry_key (p, t) q) ∧
    agree_on (λ h, h ≠ timer_task_head s) L L'.
Proof using.
  intros [HI Hh Hr Hm Ho] Hn Hlive s1.
  destruct (enqueue_split entry_key (p, t) q) as (q1 & q2 & -> & Eq & Hq1 & Hq2).
  rewrite fmap_app in Hr.
  assert (∀ p' t', (p', t') ∈ q1 ++ q2 → tasks s1 !! p' = Some t') as Hm1.
  { intros p' t' Hin. simpl. rewrite lookup_insert_ne; [by apply Hm|]. intros ->.
    apply Hn, (node_elem L _ _ _ Hr). right. rewrite <- fmap_app. apply list_elem_of_fmap.
    by exists (p', t'). }
  pose proof (sa_lists _ _ _ HI) as Hok.
  destruct (insert_ordered_ok (λ curr, t' ← load (tasks s1 !! curr); mret (expire t <? expire t'))
    p (timer_task_head s) (timer_lm s1) L (q1.*1) (q2.*1)) as (m & Em & Hok').
  - by apply INIT_LIST_HEAD_entry.
  - done.
  - done.
  - intros x ([p' t'] & -> & Hin)%list_elem_of_fmap.
    change ((p', t').1) with p'. rewrite (Hm1 p' t') by (apply elem_of_app; by left). simpl. f_equal. apply Z.ltb_ge.
    rewrite Forall_forall in Hq1. apply (Hq1 _ Hin).
  - intros y Hy. destruct q2 as [|[p' t'] q2]; simplify_eq/=.
    rewrite lookup_insert_ne; [|intros ->; apply Hn, (node_elem L _ _ _ Hr); set_solver].
    rewrite (Hm y t') by set_solver. simpl. f_equal. apply Z.ltb_lt. by apply (Hq2 (y, t')).
  - exists m, (<[timer_task_head s := q1.*1 ++ p :: q2.*1]> L). split_and!; [done| |].
    + split; simpl.
      * apply (sa_insert_ring (with_lm _ (heap s)) L); [|done|done|].
        -- eapply sa_client; [done|by apply INIT_LIST_HEAD_entry|done|by left].
        -- intros x Hx. destruct (decide (x = p)) as [->|Hne]; [by right|left].
           apply (node_elem L _ _ x Hr). set_solver.
      * done.
      * by rewrite lookup_insert_eq, Eq, fmap_app.
      * intros p' t'. rewrite Eq, elem_of_app, elem_of_cons.
        intros [Hin|[[= -> ->]|Hin]]; [apply Hm1; set_solver|by rewrite lookup_insert_eq|apply Hm1; set_solver].
      * by apply enqueue_in_order.
    + intros h Hne. by rewrite lookup_insert_ne.
Qed.

Lemma add_timer_task_run garbage s L g q by_tick value f a :
  timer_inv s L g q → sa_room L g sizeof_timer_task → load8 (bytes s) a = Ok 0 →
  ∃ p t s' L' g', add_timer_task alloc garbage by_tick value f a s = Ok s' ∧
    timer_inv s' L' g' (enqueue entry_key (p, t) q) ∧ func t = f ∧
    expire t = (if by_tick =? TIMER_BY_SESC then get_expire_tick_from_secs value (hw s)
                else u64 (get_expire_tick_from_secs 0 (hw s) + value)) ∧
    armed (enqueue entry_key (p, t) q) (hw s') ∧ lk (heap s') = lk (heap s) ∧
    agree_on (λ h, ¬ sa_private h ∧ h ≠ timer_task_head s) L L' ∧
    (bytes s', timer_task_head s') = (bytes s, timer_task_head s) ∧ (∀ k, sa_budget g (S k) → sa_budget g' k) ∧
    (∀ x n, sa_used L g x n → sa_used L' g' x n).
Proof using SA.
  intros [HI Hh Hr Hm Ho] Hroom Ha.
  destruct (sa_alloc _ _ _ sizeof_timer_task HI) as
    (p & h & L1 & g1 & E & Hk & HI1 & Hag & Hn & _ & Hlive & Hbud & Hus); [by unfold sizeof_timer_task|done|].
  set (exp := if by_tick =? TIMER_BY_SESC then get_expire_tick_from_secs value (hw s)
    else u64 (get_expire_tick_from_secs 0 (hw s) + value)).
  assert (timer_inv (with_heap h s) L1 g1 q) as HT.
  { split; simpl; [done|done|by rewrite Hag|done|done]. }
  destruct (place_task _ _ _ _ p (TimerTask f exp (garbage p)) HT Hn) as (m & L2 & Em & HT2 & Hag2);
    [apply Hlive; by right|].
  set (t := TimerTask f exp (garbage p)) in *. set (s1 := with_timer_lm _ _) in Em, HT2.
  set (s2 := with_timer_lm m s1) in HT2.
  assert (∃ e q', enqueue entry_key (p, t) q = e :: q') as (e & q' & Ee).
  { destruct (enqueue_split entry_key (p, t) q) as ([|e q1] & q2 & _ & -> & _); simpl; eauto. }
  exists p, t, (with_hw (set_timer_interrupt_by_tick (entry_key e) (hw s2)) s2), L2, g1.
  split_and!; [|by apply timer_inv_hw|done|done| | | |done|done|].
  - unfold add_timer_task. rewrite E. cbn [mbind res_bind].
    assert (strlen (mem_fuel (bytes s)) (at_mem (bytes s) a) = Ok 0) as En.
    { unfold strlen, mem_fuel. simpl. unfold at_mem. by rewrite Z.add_0_r, Ha. }
    simpl (bytes _). res_step En. change (1 <? s32 (u32 (0 + 1))) with false. cbv iota.
    cbn [mbind res_bind mret res_ret].
    refine (bind_step _ _ _ _ Em _).
    rewrite Ee in HT2. exact (bind_step _ _ _ _ (first_expire_ok _ _ _ _ _ HT2) eq_refl).
  - rewrite Ee. by intros e' [= <-].
  - done.
  - intros h' [Hh1 Hh2]. rewrite Hag2 by done. by apply Hag.
  - intros x n Hx. apply (sa_used_agree _ L1 _ _ _ _ HI1); [|by apply Hus]. intros h' Hh'. apply Hag2. intros ->. exact (Hh Hh').
Qed.

(** ** Running a task *)

Context (call : Z → Z → tstate → res tstate).

Lemma timer_pop s L g p t q : timer_inv s L g ((p, t) :: q) →
  ∃ m, get_next (timer_lm s) (timer_task_head s) = Ok p ∧ list_del_entry (timer_lm s) p = Ok m ∧
    tasks s !! p = Some t ∧ timer_inv (with_timer_lm m s) (<[timer_task_head s := q.*1]> L) g q.
Proof using.
  intros [HI Hh Hr Hm Ho]. pose proof (sa_lists _ _ _ HI) as Hok.
  destruct (list_del_entry_ok (lm (heap s)) L (timer_task_head s) [] p (q.*1) Hok Hr) as (m & Ed & Hok' & _).
  exists m. split_and!; [exact (get_next_ok _ _ _ [] _ Hok Hr)|done|apply Hm; by left|].
  apply StronglySorted_inv in Ho as [Ho _].
  split; simpl; [|done|by rewrite lookup_insert_eq|intros; apply Hm; by right|done].
  apply (sa_insert_ring (heap s) L); [done|done|done|].
  intros x Hx. left. apply (node_elem L _ _ x Hr). apply elem_of_cons in Hx as [->|Hx]; [by left|].
  right. by right.
Qed.

Lemma timer_empty s L g q : timer_inv s L g q →
  list_empty (timer_lm s) (timer_task_head s) = Ok (bool_decide (q = [])).
Proof using.
  intros HT. unfold timer_lm. rewrite (list_empty_ok _ _ _ _ (sa_lists _ _ _ (tm_heap _ _ _ _ HT)) (tm_ring _ _ _ _ HT)).
  f_equal. apply bool_decide_ext. by destruct q.
Qed.

(** The timer that is set when a task has left the queue [q]. *)
Definition rearm (q : list entry) (h : timer_hw) : timer_hw :=
  match q with [] => set_timer_interrupt_by_secs 500 h | e :: _ => set_timer_interrupt_by_tick (entry_key e) h end.

(** C39: [timer_handler] on an empty queue sets the timer to 500 seconds (as far as the
    register holds them). Otherwise it takes the earliest task out of the queue and
    runs it on its argument; the task may do anything that leaves a queue, such as
    putting itself back with [add_timer_task], which sets the timer, too. With
    whatever queue and timer it leaves, the timer is then set to the expiry of the
    first task, or to 500 seconds from then when there is none, and nothing else
    changes. *)
Theorem timer_handler_ok (Post : tstate → list entry → Prop) s L g q :
  timer_inv s L g q →
  (∀ p t q1 m, q = (p, t) :: q1 → timer_inv (with_timer_lm m s) (<[timer_task_head s := q1.*1]> L) g q1 →
    ∃ s2 L2 g2 q2, call (func t) (args t) (with_timer_lm m s) = Ok s2 ∧ timer_inv s2 L2 g2 q2 ∧ Post s2 q2) →
  match q with
  | [] => timer_handler call s = Ok (with_hw (rearm [] (hw s)) s)
  | (p, t) :: q1 => ∃ m s2 L2 g2 q2, timer_inv (with_timer_lm m s) (<[timer_task_head s := q1.*1]> L) g q1 ∧
      call (func t) (args t) (with_timer_lm m s) = Ok s2 ∧ Post s2 q2 ∧
      timer_handler call s = Ok (with_hw (rearm q2 (hw s2)) s2) ∧
      timer_inv (with_hw (rearm q2 (hw s2)) s2) L2 g2 q2 ∧ armed q2 (rearm q2 (hw s2))
  end.
Proof using.
  intros HT Hcall. pose proof (timer_empty _ _ _ _ HT) as Ee. destruct q as [|[p t] q].
  { unfold timer_handler. by res_apply Ee. }
  destruct (timer_pop _ _ _ _ _ _ HT) as (m & En & Ed & Hm & HT1).
  destruct (Hcall p t q m eq_refl HT1) as (s2 & L2 & g2 & q2 & Ec & HT2 & HP).
  exists m, s2, L2, g2, q2. split; [done|]. split; [done|]. split; [done|]. split; [|split; [by apply timer_inv_hw|]].
  - pose proof (timer_empty _ _ _ _ HT2) as Ee2. unfold timer_handler. res_apply Ee. cbn [bool_decide]. res_apply En.
    unfold do_timer_task. res_apply Ed. change (tasks (with_timer_lm m s)) with (tasks s). rewrite Hm. res_apply (eq_refl (Ok t)).
    res_apply Ec. res_apply Ee2. destruct q2 as [|e q2]; [done|]. cbn. by rewrite (first_expire_ok _ _ _ _ _ HT2).
  - by destruct q2 as [|e q2]; [|intros e' [= <-]].
Qed.
End timer_proofs.

(** ** Arguments *)

Section arguments.
Context `{KA : KAlloc alloc}.
#[local] Existing Instance KAlloc_small.
Abbreviation timers_ok := (@timer_inv alloc KAlloc_small).

(** What [add_timer_task] needs to copy the string [cs] at [a]: memory for it next to the
    task itself, the string and the byte before it outside of the memory handed out,
    and that memory mapped, with the byte behind its end. *)
Record can_copy (b : bmem) (g : ka_ghost) (a : Z) (cs : list Z) : Prop := {
  cc_room : ka_room g 2;
  cc_tidy : ka_tidy g;
  cc_string : window b a (cs ++ [0]) ∧ ∀ j, -1 ≤ j ≤ Z.of_nat (length cs) → ka_static g (a + j);
  cc_ram : ram_mapped b;
  cc_end : is_Some (b !! (VIRT_BASE + 0x1000 * FRAMES_COUNT));
}.

(** The memory with a copy of the string [cs] at [p], and a zero behind it. *)
Definition args_copied (b b' : bmem) (p : Z) (cs : list Z) : Prop :=
  window b' p (cs ++ [0]) ∧ load8 b' (p + Z.of_nat (length cs) + 1) = Ok 0 ∧
  same_outside p (Z.of_nat (length cs) + 2) b b'.

Lemma add_timer_task_args garbage s L (g : ka_ghost) q by_tick value f a cs :
  timers_ok s L g q → cs ≠ [] → Forall (λ c, 0 < c < 256) cs → Z.of_nat (length cs) < 0x40000 → can_copy (bytes s) g a cs →
  ∃ p t c s' L' g', add_timer_task alloc garbage by_tick value f a s = Ok s' ∧
    timers_ok s' L' g' (enqueue entry_key (p, t) q) ∧ func t = f ∧
    expire t = (if by_tick =? TIMER_BY_SESC then get_expire_tick_from_secs value (hw s)
                else u64 (get_expire_tick_from_secs 0 (hw s) + value)) ∧
    armed (enqueue entry_key (p, t) q) (hw s') ∧ lk (heap s') = lk (heap s) ∧
    agree_on (λ h, ¬ ka_private h ∧ h ≠ timer_task_head s) L L' ∧
    args_copied (bytes s) (bytes s') (args t) cs ∧ Z.of_nat (length cs) + 1 ≤ c ∧
    ka_live L' g' (args t) c ∧ (∀ c', ¬ ka_live L g (args t) c') ∧ ∀ x n, ka_live L g x n → ka_live L' g' x n.
Proof using.
  intros [HI Hh Hr Hm Ho] Hne Hcs Hlen [HR Ht [Hw Hst] HM [b He]].
  set (n := Z.of_nat (length cs) + 1). assert (Z.of_nat (length (cs ++ [0])) = n) as Eln by (unfold n; rewrite length_app; simpl; lia).
  destruct (ka_alloc _ _ _ sizeof_timer_task 1 HI) as
    (p & c1 & h & L1 & g1 & E & Hk & HI1 & HR1 & Hag & Hn & _ & Hc1 & _ & Hl1 & Hs1 & Ht1); [by unfold sizeof_timer_task|done|].
  specialize (Hc1 ltac:(by unfold sizeof_timer_task)). destruct (Ht1 Ht) as [HT1 _].
  assert (0 < length cs)%nat as Hpos by (destruct cs; [done|simpl; lia]).
  destruct (ka_alloc _ _ _ n 0 HI1) as
    (arg & c & h2 & L2 & g2 & E2 & Hk2 & HI2 & _ & Hag2 & Hn2 & Hc & _ & Hnl2 & Hl2 & Hs2 & Ht2); [unfold n; lia|done|].
  destruct (Ht2 HT1) as [_ Hpl].
  destruct (copy_overrun (bytes s) (ka_static g1) arg a (cs ++ [0]) b HM He) as (b1 & b2 & Es & Em & Hw2 & Hz & Ho2);
    [by destruct cs|by rewrite Eln|done|lia|intros j Hj; apply Hs1, Hst; lia|]. rewrite Eln in *.
  set (exp := if by_tick =? TIMER_BY_SESC then get_expire_tick_from_secs value (hw s)
    else u64 (get_expire_tick_from_secs 0 (hw s) + value)).
  assert (timers_ok (with_bytes b2 (with_heap h2 s)) L2 g2 q) as HT.
  { split; simpl; [done|done|by rewrite Hag2, Hag|done|done]. }
  assert (ka_live L2 g2 p c1) as Hlive by (apply Hl2; left; apply Hl1; by right).
  assert (¬ ka_private p) as Hnp by (intros Hp; by apply Hn, (ka_private_node h _ g1)).
  assert (¬ node L2 p) as Hnn by (by apply (ka_not_node h2 L1 L2 g2 p c1)).
  set (t := TimerTask f exp arg).
  destruct (place_task _ _ _ _ p t HT Hnn) as (m & L3 & Ei & HT3 & Hag3); [by exists c1|].
  set (s1 := with_timer_lm _ _) in Ei, HT3. set (s2 := with_timer_lm m s1) in HT3.
  assert (∃ e q', enqueue entry_key (p, t) q = e :: q') as (e & q' & Ee).
  { destruct (enqueue_split entry_key (p, t) q) as ([|e q1] & q2 & _ & -> & _); simpl; eauto. }
  assert (∀ x k, ka_live L3 g2 x k ↔ ka_live L2 g2 x k) as Hl3.
  { intros x k. split; apply ka_live_agree; intros h' Hh'; [symmetry|]; apply Hag3; by intros ->. }
  exists p, t, c, (with_hw (set_timer_interrupt_by_tick (entry_key e) (hw s2)) s2), L3, g2.
  split_and!; [|by apply @timer_inv_hw|done|done| | | |split; [exact Hw2|split]|lia| | |].
  - unfold add_timer_task. rewrite E. cbn [mbind res_bind].
    assert (strlen (mem_fuel (bytes s)) (at_mem (bytes s) a) = Ok (Z.of_nat (length cs))) as En.
    { apply strlen_ok; [by apply (win_cstring _ _ _ [])|lia]. }
    simpl (bytes _). res_step En. replace (s32 (u32 (Z.of_nat (length cs) + 1))) with n by (rewrite u32_small, s32_small; unfold n; lia).
    rewrite (proj2 (Z.ltb_lt 1 n)) by (unfold n; lia). rewrite (u32_small n), (u64_small n) by (unfold n; lia).
    cbn [heap with_heap]. rewrite E2. cbn [mbind res_bind bytes with_heap]. rewrite Es. cbn [mbind res_bind]. rewrite Em. cbn [mbind res_bind mret res_ret].
    refine (bind_step _ _ _ _ Ei _).
    rewrite Ee in HT3. exact (bind_step _ _ _ _ (first_expire_ok _ _ _ _ _ HT3) eq_refl).
  - rewrite Ee. by intros e' [= <-].
  - cbn. by rewrite Hk2.
  - intros h' [Hh1 Hh2]. rewrite Hag3, Hag2 by done. by apply Hag.
  - replace (args t + Z.of_nat (length cs) + 1) with (arg + n) by (unfold n; cbn; lia). exact Hz.
  - replace (Z.of_nat (length cs) + 2) with (n + 1) by (unfold n; lia). exact Ho2.
  - apply Hl3, Hl2. by right.
  - intros c' Hx. apply (Hnl2 c'), Hl1. by left.
  - intros x k Hx. apply Hl3, Hl2. left. apply Hl1. by left.
Qed.

(** C38: [add_timer_task] succeeds when there is memory; the new task has the callback
    it was given and expires the given number of seconds or ticks from now, goes
    behind every task that expires no later and before every later one, and the
    compare register holds the expiry of the first task. An empty argument string
    is not copied, and no byte changes. Any other of less than 256 KiB is copied
    into a new object of at least its length with the terminator, to which the task
    points; and the byte behind those, which need not belong to the object, is
    cleared. No other byte and no other ring of the kernel changes. *)
Theorem add_timer_task_inv garbage s L (g : ka_ghost) q by_tick value f a cs :
  timers_ok s L g q → ka_room g 1 → cstring (at_mem (bytes s) a) cs → Z.of_nat (length cs) < 0x40000 →
  (cs ≠ [] → can_copy (bytes s) g a cs) →
  ∃ p t s' L' g', add_timer_task alloc garbage by_tick value f a s = Ok s' ∧
    timers_ok s' L' g' (enqueue entry_key (p, t) q) ∧ func t = f ∧
    expire t = (if by_tick =? TIMER_BY_SESC then get_expire_tick_from_secs value (hw s)
                else u64 (get_expire_tick_from_secs 0 (hw s) + value)) ∧
    armed (enqueue entry_key (p, t) q) (hw s') ∧ lk (heap s') = lk (heap s) ∧
    agree_on (λ h, ¬ ka_private h ∧ h ≠ timer_task_head s) L L' ∧ (∀ x n, ka_live L g x n → ka_live L' g' x n) ∧
    match cs with
    | [] => bytes s' = bytes s
    | _ => args_copied (bytes s) (bytes s') (args t) cs ∧
        ∃ c, Z.of_nat (length cs) + 1 ≤ c ∧ ka_live L' g' (args t) c ∧ ∀ c', ¬ ka_live L g (args t) c'
    end.
Proof using.
  intros HT HR Hcs Hlen Hc. destruct cs as [|c0 cs].
  - destruct (@add_timer_task_run _ KAlloc_small garbage s L g q by_tick value f a HT HR) as
      (p & t & s' & L' & g' & H1 & H2 & H3 & H4 & H5 & H6 & H7 & [= H8 _] & _ & H9).
    { rewrite <- (Z.add_0_r a). exact (cstring_nil _ Hcs). }
    by exists p, t, s', L', g'.
  - destruct (add_timer_task_args garbage s L g q by_tick value f a (c0 :: cs) HT) as
      (p & t & c & s' & L' & g' & H1 & H2 & H3 & H4 & H5 & H6 & H7 & H8 & H9 & H10 & H11 & H12); [done|apply Hcs|done|by apply Hc|].
    exists p, t, s', L', g'. split; [done|]. split; [done|]. split; [done|]. split; [done|]. split; [done|]. split; [done|]. split; [done|].
    split; [done|]. split; [done|]. by exists c.
Qed.
End arguments.

(** ** The range of the timer *)

(** The delay that is programmed. *)
Definition programmed_delay (h : timer_hw) (secs : Z) : Z :=
  u64 (cntp_cval_el0 (set_timer_interrupt_by_secs secs h) - cntpct_el0 h).

(** C40: the delay is the one asked for exactly when it is below 2^31 ticks, since
    CNTP_TVAL_EL0 holds 32 signed bits. *)
Theorem set_timer_exact h secs : 0 ≤ cntfrq_el0 h * secs < 2 ^ 63 →
  programmed_delay h secs = cntfrq_el0 h * secs ↔ cntfrq_el0 h * secs < 2 ^ 31.
Proof.
  intros Hd. unfold programmed_delay, set_timer_interrupt_by_secs. cbn [with_cval cntp_cval_el0].
  unfold u64 at 1 2. rewrite Zminus_mod_idemp_l.
  replace (cntpct_el0 h + s32 (u64 (cntfrq_el0 h * secs)) - cntpct_el0 h)
    with (s32 (u64 (cntfrq_el0 h * secs))) by lia.
  rewrite u64_small by lia. pose proof (s32_range (cntfrq_el0 h * secs)) as Hs. split.
  - intros E. destruct (Z.lt_ge_cases (s32 (cntfrq_el0 h * secs)) 0) as [Hn|Hn].
    + rewrite <- (Z.mod_add _ 1) in E by lia. rewrite Z.mod_small in E; lia.
    + rewrite Z.mod_small in E; lia.
  - intros Hlt. rewrite s32_small by lia. apply Z.mod_small. lia.
Qed.

Lemma set_timer_exact_witness :
  programmed_delay (TimerHw 62500000 0 0 0 0) 1 = 62500000 ↔ 62500000 < 2 ^ 31.
Proof. apply (set_timer_exact (TimerHw 62500000 0 0 0 0) 1). split; vm_compute; [discriminate|reflexivity]. Defined.

(** at 62.5 MHz the 500 seconds that stand for "no timer interrupt" come out as
    less than 19. *)
Theorem idle_timer_short now : 0 ≤ now < 2 ^ 63 →
  programmed_delay (TimerHw 62500000 now 0 0 0) 500 < 62500000 * 19.
Proof.
  intros Hn. unfold programmed_delay, set_timer_interrupt_by_secs. cbn [with_cval cntp_cval_el0 cntpct_el0 cntfrq_el0].
  change (s32 (u64 (62500000 * 500))) with 1185228928. rewrite !u64_small; rewrite ?u64_small; lia.
Qed.

Lemma idle_timer_short_witness : programmed_delay (TimerHw 62500000 0 0 0 0) 500 < 62500000 * 19.
Proof. apply (idle_timer_short 0). lia. Defined.

(** ** Witnesses *)

Definition hw_ex : timer_hw := TimerHw 62500000 1000 0 0 0.

(** A queue without tasks on the example heap, memory left for [k] requests. *)
Lemma timer_ex k : (k ≤ 999)%nat → ∃ s L g, timer_inv s L g [] ∧ sa_budget g k ∧ load8 (bytes s) 0x100 = Ok 0.
Proof.
  intros Hk. destruct (ring_budget_ex k Hk) as (h & L & g & p & HI & Hp & Hr & Hb & _).
  exists (TState h p ∅ {[0x100 := 0]} hw_ex), L, g. split_and!; [|done|done].
  split; simpl; [done|done|done| |constructor].
  intros p' e He. by apply not_elem_of_nil in He.
Qed.

(** The kernel's own memory with the string [cs] and a queue without tasks. *)
Lemma timer_args_ex cs : Forall (λ c, 0 < c < 256) cs → Z.of_nat (length cs) < 0x40000 → ∃ s L (g : ka_ghost) ,
  @timer_inv _ (@KAlloc_small _ KAlloc_ex) s L g [] ∧ can_copy (alloc := kmalloc layout_ex) (bytes s) g (VIRT_BASE + 0xa0000) cs.
Proof.
  intros Hcs Hlen. destruct (kalloc_ex_tidy 2) as (h & L & g & Ht & HI & HR & _ & HS); [lia|].
  set (e := VIRT_BASE + 0x1000 * FRAMES_COUNT). set (a := VIRT_BASE + 0xa0000). set (r := VIRT_BASE + 0x80000).
  set (m0 := <[e := 0]> (bytes_mem a (cs ++ [0]))).
  assert (Forall (λ b, 0 ≤ b < 256) (cs ++ [0])) as Hcs' by (apply Forall_app; split; [apply (Forall_impl _ _ _ Hcs); intros x Hx; cbv beta in *; lia|repeat constructor; lia]).
  assert (∀ x b, bytes_mem a (cs ++ [0]) !! x = Some b → x ≠ e ∧ 0 ≤ b < 256) as Hin.
  { intros x b (i & -> & Hi)%bytes_mem_inv. pose proof (lookup_lt_Some _ _ _ Hi) as Hlt. rewrite length_app in Hlt. simpl in Hlt.
    split; [unfold a, e, FRAMES_COUNT; lia|]. rewrite Forall_lookup in Hcs'. by apply (Hcs' i). }
  destruct (ram_fill m0) as (m & HM & Hsub & _).
  { apply map_Forall_insert_2; [lia|]. intros x b Hx. by apply (Hin x b). }
  assert (bytes_mem a (cs ++ [0]) ⊆ m) as Hsub'.
  { etransitivity; [|exact Hsub]. apply insert_subseteq. destruct (_ !! e) as [b|] eqn:E; [|done]. by destruct (Hin e b E). }
  destruct (HS r) as (S & P & N); [unfold r; lia|].
  exists (TState (with_lm (INIT_LIST_HEAD (lm h) r) h) r ∅ m hw_ex), (<[r := []]> L), g. split; split; try done.
  - apply (ka_client (KAlloc := KAlloc_ex) h L g); [done|by apply INIT_LIST_HEAD_head; [eapply ka_lists|]| |].
    + intros h' Hh'. rewrite lookup_insert_ne; [done|]. by intros <-.
    + intros q [Hq|Hq]%node_insert; [|by left]. apply list_elem_of_singleton in Hq as ->. right. by left.
  - apply lookup_insert_eq.
  - intros p t Hq. by apply not_elem_of_nil in Hq.
  - constructor.
  - split.
    + apply (window_weaken _ _ _ _ Hsub'). apply bytes_mem_window; [unfold a, VIRT_BASE; lia|rewrite length_app; simpl; unfold a, VIRT_BASE; lia|exact Hcs'].
    + intros j Hj. apply HS. unfold a. lia.
  - exists 0. apply (lookup_weaken m0); [apply lookup_insert_eq|exact Hsub].
Qed.

Lemma add_timer_task_inv_witness : ∃ s s',
  add_timer_task (kmalloc layout_ex) (λ _, 0) TIMER_BY_SESC 2 0x80200 (VIRT_BASE + 0xa0000) s = Ok s'.
Proof.
  destruct (timer_args_ex [104; 105]) as (s & L & g & HT & HC); [repeat constructor; lia|simpl; lia|].
  destruct (add_timer_task_inv (KA := KAlloc_ex) (λ _, 0) s L g [] TIMER_BY_SESC 2 0x80200 (VIRT_BASE + 0xa0000) [104; 105] HT) as (p & t & s' & _ & _ & E & _).
  - apply ka_room_less, (cc_room _ _ _ _ HC).
  - apply (win_cstring _ _ _ []); [apply (cc_string _ _ _ _ HC)|repeat constructor; lia].
  - simpl. lia.
  - intros _. exact HC.
  - exists s, s'. exact E.
Defined.

(** A task that puts itself back, as [schedule_timer_task] does. *)
Definition recurring (_ _ : Z) (s : tstate) : res tstate :=
  add_timer_task (kmalloc layout_ex) (λ _, 0) TIMER_BY_TICK 1953125 0x80200 0x100 s.

Lemma timer_handler_ok_witness : ∃ s s' : tstate, recurring 0 0 s = Ok s' ∧ ∃ s2, timer_handler recurring s' = Ok s2.
Proof.
  destruct (timer_ex 2) as (s & L & g & HT & HB & Hz); [lia|].
  assert (0 ≤ sizeof_timer_task ≤ 0x200) as Hs by (unfold sizeof_timer_task; lia).
  destruct (add_timer_task_run (λ _, 0) s L g [] TIMER_BY_TICK 1953125 0x80200 0x100 HT (sa_budget_room L g _ 1 Hs HB) Hz) as
    (p & t & s1 & L1 & g1 & E1 & HT1 & _ & _ & _ & _ & _ & [= Eb _] & HB1 & _).
  exists s, s1. split; [exact E1|].
  pose proof (timer_handler_ok recurring (λ _ q, ∃ e, q = [e]) s1 L1 g1 [(p, t)] HT1) as H. cbn beta iota in H.
  destruct H as (m & s2 & L2 & g2 & q2 & _ & _ & _ & E2 & _).
  - intros p' t' q1 m [= <- <- <-] HTm.
    destruct (add_timer_task_run (λ _, 0) _ _ g1 [] TIMER_BY_TICK 1953125 0x80200 0x100 HTm) as
      (p2 & t2 & s2 & L2 & g2 & E2 & HT2 & _).
    + apply (sa_budget_room _ g1 _ 0 Hs), HB1, HB.
    + change (load8 (bytes s1) 0x100 = Ok 0). rewrite Eb. exact Hz.
    + exists s2, L2, g2, [(p2, t2)]. split; [exact E2|]. split; [exact HT2|]. by exists (p2, t2).
  - eexists. exact E2.
Defined.
