(* ===== verification/Thread.v ===== *)
(** include/thread.h, include/sched.h and lib/sched.S: threads, the state of the
    whole kernel, and the context switch. *)
From S2P Require Import Prelude Util ListHead Lock Mem Malloc Mmu Timer.
Local Open Scope Z_scope.

Definition PID_MAX : Z := 32768.
Definition THREAD_RUNNING : Z := 0.
Definition THREAD_ZOMBIE : Z := 1.
Definition THREAD_UNUSED : Z := 2.
Definition USTACK_SIZE : Z := 0x4000.
Definition KSTACK_SIZE : Z := 0x4000.
Definition SIG_MAX : Z := 32.
Definition USER_SIG_WRAPPER_VIRT_ADDR : Z := 0xffffffff9000.

(** [thread_context_t]: x19 to x28, then the rest. *)
Record thread_context := Cxt { callee : list Z; fp : Z; lr : Z; sp : Z; ttbr0_el1 : Z }.

(** [thread_t] without its two list nodes. *)
Record thread := Thread {
  cxt : thread_context; state : Z; pid : Z; data : Z; data_size : Z; ustack_ptr : Z; kstack_ptr : Z;
  sig_handler : list Z; sigcount : list Z; sigcheck : Z; sig_save_cxt : thread_context; curr_sig_handler : Z;
}.
Definition with_cxt (c : thread_context) (t : thread) : thread :=
  Thread c (state t) (pid t) (data t) (data_size t) (ustack_ptr t) (kstack_ptr t) (sig_handler t) (sigcount t) (sigcheck t) (sig_save_cxt t) (curr_sig_handler t).
Definition with_state (x : Z) (t : thread) : thread :=
  Thread (cxt t) x (pid t) (data t) (data_size t) (ustack_ptr t) (kstack_ptr t) (sig_handler t) (sigcount t) (sigcheck t) (sig_save_cxt t) (curr_sig_handler t).
Definition with_pid (x : Z) (t : thread) : thread :=
  Thread (cxt t) (state t) x (data t) (data_size t) (ustack_ptr t) (kstack_ptr t) (sig_handler t) (sigcount t) (sigcheck t) (sig_save_cxt t) (curr_sig_handler t).
Definition with_data (x n : Z) (t : thread) : thread :=
  Thread (cxt t) (state t) (pid t) x n (ustack_ptr t) (kstack_ptr t) (sig_handler t) (sigcount t) (sigcheck t) (sig_save_cxt t) (curr_sig_handler t).
Definition with_ustack_ptr (x : Z) (t : thread) : thread :=
  Thread (cxt t) (state t) (pid t) (data t) (data_size t) x (kstack_ptr t) (sig_handler t) (sigcount t) (sigcheck t) (sig_save_cxt t) (curr_sig_handler t).
Definition with_kstack_ptr (x : Z) (t : thread) : thread :=
  Thread (cxt t) (state t) (pid t) (data t) (data_size t) (ustack_ptr t) x (sig_handler t) (sigcount t) (sigcheck t) (sig_save_cxt t) (curr_sig_handler t).
Definition with_sig_handler (l : list Z) (t : thread) : thread :=
  Thread (cxt t) (state t) (pid t) (data t) (data_size t) (ustack_ptr t) (kstack_ptr t) l (sigcount t) (sigcheck t) (sig_save_cxt t) (curr_sig_handler t).
Definition with_sigcount (l : list Z) (t : thread) : thread :=
  Thread (cxt t) (state t) (pid t) (data t) (data_size t) (ustack_ptr t) (kstack_ptr t) (sig_handler t) l (sigcheck t) (sig_save_cxt t) (curr_sig_handler t).
Definition with_sigcheck (x : Z) (t : thread) : thread :=
  Thread (cxt t) (state t) (pid t) (data t) (data_size t) (ustack_ptr t) (kstack_ptr t) (sig_handler t) (sigcount t) x (sig_save_cxt t) (curr_sig_handler t).
Definition with_sig_save_cxt (c : thread_context) (t : thread) : thread :=
  Thread (cxt t) (state t) (pid t) (data t) (data_size t) (ustack_ptr t) (kstack_ptr t) (sig_handler t) (sigcount t) (sigcheck t) c (curr_sig_handler t).
Definition with_curr_sig_handler (h : Z) (t : thread) : thread :=
  Thread (cxt t) (state t) (pid t) (data t) (data_size t) (ustack_ptr t) (kstack_ptr t) (sig_handler t) (sigcount t) (sigcheck t) (sig_save_cxt t) h.

Definition with_fp_sp (f s : Z) (c : thread_context) : thread_context := Cxt (callee c) f (lr c) s (ttbr0_el1 c).
Definition with_lr (x : Z) (c : thread_context) : thread_context := Cxt (callee c) (fp c) x (sp c) (ttbr0_el1 c).
Definition with_ttbr0 (x : Z) (c : thread_context) : thread_context := Cxt (callee c) (fp c) (lr c) (sp c) x.

(** [vm_area_struct_t] without its list node. *)
Record vm_area := VmArea { virt_addr : Z; phys_addr : Z; area_size : Z; protected : Z; allocated : Z }.

(** The kernel: heap, strings and timers; table words; areas and threads by
    address; the globals of sched.h; the registers a context switch saves, and
    the thread TPIDR_EL1 points into. *)
Record kstate := K {
  tm : tstate; kwords : gmap Z Z; vmas : gmap Z vm_area; threads : gmap Z thread;
  nxt_pid : Z; curr_thread : Z; rq : Z; cpu : thread_context; tpidr_el1 : Z;
}.
Definition with_tm (t : tstate) (s : kstate) : kstate :=
  K t (kwords s) (vmas s) (threads s) (nxt_pid s) (curr_thread s) (rq s) (cpu s) (tpidr_el1 s).
Definition with_vmas (v : gmap Z vm_area) (s : kstate) : kstate :=
  K (tm s) (kwords s) v (threads s) (nxt_pid s) (curr_thread s) (rq s) (cpu s) (tpidr_el1 s).
Definition with_threads (t : gmap Z thread) (s : kstate) : kstate :=
  K (tm s) (kwords s) (vmas s) t (nxt_pid s) (curr_thread s) (rq s) (cpu s) (tpidr_el1 s).
Definition with_nxt_pid (n : Z) (s : kstate) : kstate :=
  K (tm s) (kwords s) (vmas s) (threads s) n (curr_thread s) (rq s) (cpu s) (tpidr_el1 s).
Definition with_curr_thread (p : Z) (s : kstate) : kstate :=
  K (tm s) (kwords s) (vmas s) (threads s) (nxt_pid s) p (rq s) (cpu s) (tpidr_el1 s).
Definition with_rq (p : Z) (s : kstate) : kstate :=
  K (tm s) (kwords s) (vmas s) (threads s) (nxt_pid s) (curr_thread s) p (cpu s) (tpidr_el1 s).
Definition with_cpu (c : thread_context) (s : kstate) : kstate :=
  K (tm s) (kwords s) (vmas s) (threads s) (nxt_pid s) (curr_thread s) (rq s) c (tpidr_el1 s).
Definition with_tpidr_el1 (p : Z) (s : kstate) : kstate :=
  K (tm s) (kwords s) (vmas s) (threads s) (nxt_pid s) (curr_thread s) (rq s) (cpu s) p.

Definition k_heap (s : kstate) : mstate := heap (tm s).
Definition with_k_heap (h : mstate) (s : kstate) : kstate := with_tm (with_heap h (tm s)) s.
Definition k_lm (s : kstate) : lmem := lm (k_heap s).
Definition with_k_lm (m : lmem) (s : kstate) : kstate := with_k_heap (with_lm m (k_heap s)) s.
Definition k_bytes (s : kstate) : bmem := bytes (tm s).
Definition with_k_bytes (b : bmem) (s : kstate) : kstate := with_tm (with_bytes b (tm s)) s.
Definition k_lock (s : kstate) : kstate := with_k_heap (with_lk (lock (lk (k_heap s))) (k_heap s)) s.
Definition k_unlock (s : kstate) : kstate := with_k_heap (with_lk (unlock (lk (k_heap s))) (k_heap s)) s.

(** The table code on the kernel's state. *)
Definition run_mm (f : mm → res mm) (s : kstate) : res kstate :=
  m ← f (Mm (k_heap s) (kwords s));
  mret (K (with_heap (mm_heap m) (tm s)) (words m) (vmas s) (threads s) (nxt_pid s) (curr_thread s) (rq s) (cpu s) (tpidr_el1 s)).

Definition get_thread (p : Z) (s : kstate) : res thread := load (threads s !! p).
Definition upd_thread (p : Z) (f : thread → thread) (s : kstate) : res kstate :=
  t ← get_thread p s; mret (with_threads (<[p := f t]> (threads s)) s).
Definition curr (s : kstate) : res thread := get_thread (curr_thread s) s.

(** Where the linker puts the array of threads and the code the kernel compares
    and maps. *)
Record klayout := KLayout { threads_base : Z; default_sig_handler_addr : Z; sig_handler_wrapper_addr : Z; idle_addr : Z;
  schedule_timer_task_addr : Z; empty_string_addr : Z }.
Definition sizeof_thread : Z := 696.
(** [&threads[i]], whose first member is its list node; and [&t->vma_list]. *)
Definition thread_at (kl : klayout) (i : Z) : Z := threads_base kl + sizeof_thread * i.
Definition vma_list (t : Z) : Z := t + 168.

(** ** sched.S *)

(** The stores of [switch_to] and [store_cxt]: all but [ttbr0_el1]. *)
Definition saved (c old : thread_context) : thread_context := with_ttbr0 (ttbr0_el1 old) c.

Definition switch_to (curr_cxt next_cxt : Z) (s : kstate) : res kstate :=
  s ← upd_thread curr_cxt (λ t, with_cxt (saved (cpu s) (cxt t)) t) s;
  n ← get_thread next_cxt s;
  mret (with_tpidr_el1 next_cxt (with_cpu (cxt n) s)).

Definition store_cxt (p : Z) (s : kstate) : res kstate :=
  upd_thread p (λ t, with_cxt (saved (cpu s) (cxt t)) t) s.

(** [load_cxt] leaves the table base alone. *)
Definition load_cxt (c : thread_context) (s : kstate) : kstate := with_cpu (saved c (cpu s)) s.
