(* ===== verification/Sched.v ===== *)
(** lib/sched.c: the run queue and the life of a thread, and the areas of memory
    of lib/mmu.c that belong to a thread. *)
From S2P Require Import Prelude Util ListHead Lock Mem CString Malloc Mmu Timer Thread.
Local Open Scope Z_scope.

Definition sizeof_vm_area : Z := 56.
Definition PG_NEED_ALLOC : Z := 1.
Definition PG_DONT_ALLOC : Z := 0.
Definition TF_LEVEL0 : Z := 4.
Definition TF_LEVEL1 : Z := 5.
Definition TF_LEVEL2 : Z := 6.
Definition TF_LEVEL3 : Z := 7.

(** [x % 0x1000 ? x + (0x1000 - x % 0x1000) : x] *)
Definition round_page (x : Z) : Z := if x mod 0x1000 =? 0 then x else u64 (x + (0x1000 - x mod 0x1000)).

(** ** schedule *)

(** The do-while loop: [list_next_entry] until a node that is neither the head of
    the queue nor a zombie; twice the nodes of the ring is fuel enough (see RunQueue.v). *)
Fixpoint next_runnable (fuel : nat) (s : kstate) (p : Z) : res Z :=
  match fuel with
  | O => Fuel
  | S fuel =>
      p ← get_next (k_lm s) p;
      if list_is_head p (rq s) then next_runnable fuel s p
      else t ← get_thread p s; if state t =? THREAD_ZOMBIE then next_runnable fuel s p else mret p
  end.

Definition schedule (s : kstate) : res kstate :=
  let s := k_lock s in
  p ← next_runnable (2 * ring_fuel (k_lm s)) s (curr_thread s);
  let s := with_curr_thread p s in
  let s := k_unlock s in
  switch_to (tpidr_el1 s) (curr_thread s) s.

Definition thread_exit (s : kstate) : res kstate :=
  let s := k_lock s in
  s ← upd_thread (curr_thread s) (with_state THREAD_ZOMBIE) s;
  let s := k_unlock s in
  schedule s.

Section sched.
Context (kl : klayout) (alloc : Z → mstate → res (Z * mstate)) (free : Z → mstate → res mstate).
(** What [kmalloc]ed memory holds for the timer (see Timer.v). *)
Context (garbage : Z → Z).

Definition k_alloc (n : Z) (s : kstate) : res (Z * kstate) := '(p, h) ← alloc n (k_heap s); mret (p, with_k_heap h s).
Definition k_free (p : Z) (s : kstate) : res kstate := h ← free p (k_heap s); mret (with_k_heap h s).

(** ** Threads *)

(** The search for a slot once the pids have run out. *)
Fixpoint find_unused (n : nat) (i : Z) (s : kstate) : res (option Z) :=
  match n with
  | O => mret None
  | S n =>
      t ← get_thread (thread_at kl i) s;
      if state t =? THREAD_UNUSED then mret (Some i) else find_unused n (i + 1) s
  end.

(** The result 0 is the NULL of the error path, which leaves the lock taken. *)
Definition thread_create (start filesize : Z) (s : kstate) : res (Z * kstate) :=
  let s := k_lock s in
  '(use_thread, s) ← (
    if PID_MAX <? nxt_pid s then
      o ← find_unused (Z.to_nat (PID_MAX + 1)) 0 s;
      mret (from_option (thread_at kl) 0 o, s)
    else mret (thread_at kl (nxt_pid s), with_nxt_pid (s32 (nxt_pid s + 1)) s));
  if use_thread =? 0 then mret (0, s)
  else
    s ← upd_thread use_thread (with_state THREAD_RUNNING) s;
    '(p, s) ← k_alloc (u32 filesize) s;
    s ← upd_thread use_thread (with_data p (u32 filesize)) s;
    '(p, s) ← k_alloc KSTACK_SIZE s;
    s ← upd_thread use_thread (with_kstack_ptr p) s;
    '(p, s) ← k_alloc USTACK_SIZE s;
    s ← upd_thread use_thread (with_ustack_ptr p) s;
    '(pgd, s) ← k_alloc 0x1000 s;
    s ← upd_thread use_thread (λ t, with_cxt (with_ttbr0 pgd (cxt t)) t) s;
    s ← upd_thread use_thread (λ t, with_cxt (with_lr start (cxt t)) t) s;
    s ← upd_thread use_thread (λ t, with_cxt (with_fp_sp (u64 (kstack_ptr t + KSTACK_SIZE)) (u64 (kstack_ptr t + KSTACK_SIZE)) (cxt t)) t) s;
    s ← run_mm (clear_table pgd) s;
    let s := with_k_lm (INIT_LIST_HEAD (k_lm s) (vma_list use_thread)) s in
    s ← upd_thread use_thread (with_sigcheck 0) s;
    s ← upd_thread use_thread (λ t, with_sigcount (repeat 0 (Z.to_nat SIG_MAX))
          (with_sig_handler (repeat (default_sig_handler_addr kl) (Z.to_nat SIG_MAX)) t)) s;
    m ← list_add (k_lm s) use_thread (rq s);
    let s := k_unlock (with_k_lm m s) in
    mret (use_thread, s).

Definition init_threads (s : kstate) : res kstate :=
  let s := with_nxt_pid 0 (k_lock s) in
  '(p, s) ← k_alloc sizeof_list_head s;
  let s := with_rq p s in
  let s := with_k_lm (INIT_LIST_HEAD (k_lm s) (rq s)) s in
  s ← for_loop (Z.to_nat (PID_MAX + 1)) 0 (λ i s,
        s ← upd_thread (thread_at kl i) (with_pid i) s;
        upd_thread (thread_at kl i) (with_state THREAD_UNUSED) s) s;
  '(t, s) ← thread_create (idle_addr kl) 0x4000 s;
  let s := with_tpidr_el1 t (with_curr_thread t s) in
  mret (k_unlock s).

(** The areas of a thread, freed one by one: [pos->next] is read before [pos] is freed. *)
Fixpoint free_vmas (fuel : nat) (head pos : Z) (s : kstate) : res kstate :=
  match fuel with
  | O => Fuel
  | S fuel =>
      if pos =? head then mret s
      else
        v ← load (vmas s !! pos);
        s ← (if negb (allocated v =? 0) then k_free (PHYS_TO_VIRT (phys_addr v)) s else mret s);
        nxt_pos ← get_next (k_lm s) pos;
        s ← k_free pos s;
        free_vmas fuel head nxt_pos s
  end.

Definition reap (p : Z) (s : kstate) : res kstate :=
  m ← list_del_entry (k_lm s) p;
  let s := with_k_lm m s in
  t ← get_thread p s;
  s ← k_free (kstack_ptr t) s;
  s ← run_mm (free_pages free (ttbr0_el1 (cxt t)) 0) s;
  pos ← get_next (k_lm s) (vma_list p);
  s ← free_vmas (ring_fuel (k_lm s)) (vma_list p) pos s;
  upd_thread p (with_state THREAD_UNUSED) s.

Definition kill_zombies (s : kstate) : res kstate :=
  let s := k_lock s in
  '(_, s) ← list_for_each k_lm (ring_fuel (k_lm s)) (rq s) (λ p s,
     t ← get_thread p s;
     if state t =? THREAD_ZOMBIE then s ← reap p s; mret (Next p s) else mret (Next p s)) s;
  mret (k_unlock s).

(** One turn of [idle]. *)
Definition idle_turn (s : kstate) : res kstate := s ← kill_zombies s; schedule s.

(** ** Areas *)

Definition add_vma (thread virt size phys prot alloc_flag : Z) (s : kstate) : res kstate :=
  let size := round_page size in
  '(new_vma, s) ← k_alloc sizeof_vm_area s;
  let s := with_vmas (<[new_vma := VmArea virt phys size prot (u32 alloc_flag)]> (vmas s)) s in
  m ← list_add_tail (k_lm s) new_vma (vma_list thread);
  mret (with_k_lm m s).

(** The address is within the area, both ends included. *)
Definition vma_hit (far : Z) (v : vm_area) : bool := (virt_addr v <=? far) && (far <=? u64 (virt_addr v + area_size v)).

(** [handle_abort] with the fault address and the fault status; the thread that
    is killed never comes back. *)
Definition handle_abort (far_el1 iss : Z) (s : kstate) : res kstate :=
  '(pos, s) ← list_for_each k_lm (ring_fuel (k_lm s)) (vma_list (curr_thread s)) (λ p s,
     v ← load (vmas s !! p); mret (if vma_hit far_el1 v then Break p s else Next p s)) s;
  if pos =? vma_list (curr_thread s) then thread_exit s
  else
    let ifsc := Z.land iss 0x3f in
    if (ifsc =? TF_LEVEL0) || (ifsc =? TF_LEVEL1) || (ifsc =? TF_LEVEL2) || (ifsc =? TF_LEVEL3) then
      v ← load (vmas s !! pos);
      let addr := u64 (far_el1 - virt_addr v) in
      let addr := if addr mod 0x1000 =? 0 then addr else addr - addr mod 0x1000 in
      t ← curr s;
      run_mm (mapping_set_prot alloc (PHYS_TO_VIRT (ttbr0_el1 (cxt t))) (u64 (virt_addr v + addr)) (u64 (phys_addr v + addr)) (protected v)) s
    else thread_exit s.

(** ** Running a program *)

Definition schedule_timer_task (s : kstate) : res kstate :=
  t ← add_timer_task alloc garbage TIMER_BY_TICK (Z.shiftr (cntfrq_el0 (hw (tm s))) 5) (schedule_timer_task_addr kl) (empty_string_addr kl) (tm s);
  mret (with_tm t s).

(** The four areas every program gets. *)
Definition add_program_vmas (t size data ustack : Z) (s : kstate) : res kstate :=
  s ← add_vma t 0 size (VIRT_TO_PHYS data) (Z.lor (Z.lor PROT_R PROT_W) PROT_X) PG_NEED_ALLOC s;
  s ← add_vma t 0xffffffffb000 USTACK_SIZE (VIRT_TO_PHYS ustack) (Z.lor (Z.lor PROT_R PROT_W) PROT_X) PG_NEED_ALLOC s;
  s ← add_vma t 0x3C000000 0x3000000 0x3C000000 (Z.lor PROT_R PROT_W) PG_DONT_ALLOC s;
  add_vma t USER_SIG_WRAPPER_VIRT_ADDR 0x2000 (VIRT_TO_PHYS (sig_handler_wrapper_addr kl)) (Z.lor PROT_R PROT_X) PG_DONT_ALLOC s.

(** The registers [exec_thread] leaves for its [eret]. *)
Record eret_regs := Eret { r_elr : Z; r_spsr : Z; r_sp_el0 : Z; r_sp : Z; r_ttbr0 : Z }.

Definition exec_thread (data filesize : Z) (s : kstate) : res (eret_regs * kstate) :=
  '(p, s) ← thread_create data filesize s;
  t ← get_thread p s;
  s ← add_program_vmas p (u32 filesize) (Thread.data t) (ustack_ptr t) s;
  b ← memcpy (k_bytes s) (Thread.data t) data (u32 filesize);
  let s := with_k_bytes b s in
  s ← upd_thread p (λ t, with_cxt (with_ttbr0 (VIRT_TO_PHYS (ttbr0_el1 (cxt t))) (cxt t)) t) s;
  s ← upd_thread p (λ t, with_cxt (with_lr 0 (with_fp_sp 0xfffffffff000 0xfffffffff000 (cxt t))) t) s;
  let s := with_curr_thread p s in
  let s := with_tm (with_hw (timer_enable (hw (tm s))) (tm s)) s in
  m ← add_timer_task alloc garbage TIMER_BY_SESC 1 (schedule_timer_task_addr kl) (empty_string_addr kl) (tm s);
  let s := with_tm m s in
  t ← get_thread p s;
  let k := u64 (kstack_ptr t + KSTACK_SIZE) in
  mret (Eret (lr (cxt t)) 0 (sp (cxt t)) k (ttbr0_el1 (cxt t)),
        with_tpidr_el1 p (with_cpu (with_ttbr0 (ttbr0_el1 (cxt t)) (with_fp_sp k k (cpu s))) s)).
End sched.
