(* ===== verification/RunQueue.v ===== *)
(** The scheduler of lib/sched.c is round robin over the threads that are not
    zombies. *)
From S2P Require Import Prelude Util ListHead Lock Mem Malloc Mmu Timer Thread Sched.
Local Open Scope Z_scope.

(** [r] is the queue [l] in the order it is visited from thread [c]. *)
Definition rotation (r l : list Z) (c : Z) : Prop := ∃ l1 l2, l = l1 ++ c :: l2 ∧ r = l2 ++ l1 ++ [c].

Lemma split_where {A} (xs : list A) p ys : ∀ a b, xs ++ p :: ys = a ++ b →
  (∃ k, a = xs ++ p :: k ∧ ys = k ++ b) ∨ (∃ k, xs = a ++ k ∧ b = k ++ p :: ys).
Proof.
  induction xs as [|x xs IH]; intros [|y a] b E; simpl in *.
  - right. by exists [].
  - injection E as <- ->. left. by exists a.
  - right. by exists (x :: xs).
  - injection E as <- E. destruct (IH a b E) as [(k & -> & ->)|(k & -> & ->)]; [left|right]; by exists k.
Qed.

Lemma rotation_move xs p ys l c : rotation (xs ++ p :: ys) l c → rotation (ys ++ xs ++ [p]) l p.
Proof.
  intros (l1 & l2 & -> & E). apply split_where in E as [(k & -> & ->)|(k & -> & E)].
  - exists (l1 ++ c :: xs), k. split; [by rewrite <- app_assoc|]. by rewrite <- !app_assoc.
  - symmetry in E. apply split_where in E as [(k2 & -> & ->)|(k2 & -> & E)].
    + exists k, (k2 ++ c :: l2). split; [by rewrite <- app_assoc|]. by rewrite <- !app_assoc.
    + destruct k2 as [|z k2]; [injection E as -> <-|by destruct k2].
      exists l1, l2. split; [done|]. by rewrite app_nil_r, <- app_assoc.
Qed.

Lemma rotation_perm r l c : rotation r l c → r ≡ₚ l.
Proof. intros (l1 & l2 & -> & ->). rewrite app_assoc, (Permutation_app_comm l2 l1), <- app_assoc. by rewrite <- Permutation_cons_append. Qed.

Lemma find_app {A} (f : A → bool) l1 l2 : find f (l1 ++ l2) = match find f l1 with Some x => Some x | None => find f l2 end.
Proof. induction l1 as [|x l1 IH]; simpl; [done|by destruct (f x)]. Qed.

Lemma find_ext {A} (f g : A → bool) l : (∀ x, f x = g x) → find f l = find g l.
Proof. intros E. induction l as [|x l IH]; simpl; [done|]. by rewrite E, IH. Qed.

(** ** The search of [schedule] *)

Definition is_runnable (s : kstate) (p : Z) : bool :=
  match threads s !! p with Some t => negb (state t =? THREAD_ZOMBIE) | None => false end.

(** The kernel with run queue [l]: every queued thread exists, the running one is
    queued, and TPIDR_EL1 is a thread's. *)
Record queue_ok (s : kstate) (L : gmap Z (list Z)) (l : list Z) : Prop := {
  qu_lists : lists_ok (k_lm s) L;
  qu_ring : L !! rq s = Some l;
  qu_curr : curr_thread s ∈ l;
  qu_threads : ∀ p, p ∈ l → is_Some (threads s !! p);
  qu_tpidr : is_Some (threads s !! tpidr_el1 s);
}.

Section search.
Context (s : kstate) (L : gmap Z (list Z)) (l : list Z) (HQ : queue_ok s L l).

Lemma search_from rest : ∀ pre fuel, l = pre ++ rest → (length rest < fuel)%nat →
  next_runnable fuel s (before (rq s) pre) =
    match find (is_runnable s) rest with
    | Some p => Ok p
    | None => next_runnable (fuel - S (length rest)) s (rq s)
    end.
Proof using HQ.
  pose proof HQ as [Hl Hr _ Ht _].
  induction rest as [|p rest IH]; intros pre [|fuel] El Hf; simpl in Hf; try lia; cbn [next_runnable find length].
  - rewrite (get_next_ok _ L (rq s) pre []) by (rewrite ?El in Hr; done). cbn [mbind res_bind after].
    unfold list_is_head. rewrite bool_decide_eq_true_2 by done. by rewrite Nat.sub_succ, Nat.sub_0_r.
  - rewrite (get_next_ok _ L (rq s) pre (p :: rest)) by (rewrite ?El in Hr; done). cbn [mbind res_bind].
    change (after (rq s) (p :: rest)) with p. unfold list_is_head.
    assert (NoDup (rq s :: l)) as Hnd by (by apply (lo_nodup _ _ Hl)).
    apply NoDup_cons in Hnd as [Hni _].
    rewrite bool_decide_eq_false_2 by (intros Ep; apply Hni; rewrite <- Ep, El; set_solver).
    destruct (Ht p) as [t Et]; [rewrite El; set_solver|].
    unfold get_thread. unfold is_runnable at 1. rewrite Et. cbn [load mbind res_bind].
    destruct (state t =? THREAD_ZOMBIE); [cbn [negb]|done].
    assert (before (rq s) (pre ++ [p]) = p) as Eb by (by rewrite last_snoc).
    rewrite <- Eb at 1. rewrite IH by (rewrite ?El, <- ?app_assoc; done || lia). done.
Qed.

(** The search finds the next runnable thread of the rotation, whatever the
    current thread is, and ends as soon as there is one. *)
Lemma search_ok r p : rotation r l (curr_thread s) → find (is_runnable s) r = Some p →
  next_runnable (2 * ring_fuel (k_lm s)) s (curr_thread s) = Ok p.
Proof using HQ.
  intros (l1 & l2 & El & ->) Hp. pose proof HQ as [Hl Hr _ _ _].
  pose proof (ring_fuel_enough _ _ _ _ Hl Hr) as Hf.
  assert (length l2 + length l1 + 1 = length l)%nat as Hlen by (rewrite El, length_app; simpl; lia).
  assert (before (rq s) (l1 ++ [curr_thread s]) = curr_thread s) as Eb by (by rewrite last_snoc).
  rewrite <- Eb at 1. rewrite (search_from l2) by (rewrite <- ?app_assoc; done || lia).
  rewrite !find_app in Hp. destruct (find (is_runnable s) l2) as [p2|] eqn:E2; [congruence|].
  change (rq s) with (before (rq s) []) at 1. rewrite (search_from l) by (done || lia).
  rewrite El, find_app. destruct (find (is_runnable s) l1) as [p1|]; [congruence|].
  cbn [find] in *. destruct (is_runnable s (curr_thread s)); [congruence|done].
Qed.
End search.

Lemma find_filter {A} (f : A → bool) (l : list A) p : find f l = Some p →
  ∃ xs ys, l = xs ++ p :: ys ∧ f p = true ∧ filter f xs = [].
Proof.
  induction l as [|x l IH]; simpl; [done|]. destruct (f x) eqn:Ef.
  - intros [= ->]. by exists [], l.
  - intros (xs & ys & -> & Ep & Ex)%IH. exists (x :: xs), ys. split_and!; [done|done|].
    rewrite filter_cons_False by (rewrite Ef; by intros []). done.
Qed.

(** ** One call of [schedule] *)

(** The registers of the thread that TPIDR_EL1 names go to its context. *)
Definition save_current (s : kstate) : gmap Z thread :=
  alter (λ t, with_cxt (saved (cpu s) (cxt t)) t) (tpidr_el1 s) (threads s).

Lemma save_current_state s p : is_runnable (with_threads (save_current s) s) p = is_runnable s p.
Proof.
  unfold is_runnable, save_current. simpl. destruct (decide (p = tpidr_el1 s)) as [->|Hne].
  - rewrite lookup_alter_eq. by destruct (threads s !! tpidr_el1 s).
  - by rewrite lookup_alter_ne.
Qed.

Record scheduled (s s' : kstate) (L : gmap Z (list Z)) (l : list Z) (p : Z) : Prop := {
  sc_queue : queue_ok s' L l;
  sc_curr : curr_thread s' = p;
  sc_tpidr : tpidr_el1 s' = p;
  sc_saved : threads s' = save_current s;
  sc_cpu : ∃ t, threads s' !! p = Some t ∧ cpu s' = cxt t;
  sc_rest : (tm s', kwords s', vmas s', nxt_pid s', rq s') = (tm (k_unlock (k_lock s)), kwords s, vmas s, nxt_pid s, rq s);
}.

Lemma scheduled_runnable s s' L l p q : scheduled s s' L l p → is_runnable s' q = is_runnable s q.
Proof. intros H. unfold is_runnable. rewrite (sc_saved _ _ _ _ _ H). apply (save_current_state s q). Qed.

Lemma schedule_run s L l r p :
  queue_ok s L l → rotation r l (curr_thread s) → find (is_runnable s) r = Some p →
  ∃ s', schedule s = Ok s' ∧ scheduled s s' L l p.
Proof.
  intros HQ Hr Hp. assert (queue_ok (k_lock s) L l) as HQ1 by (by destruct HQ).
  pose proof (search_ok _ _ _ HQ1 r p Hr Hp) as En.
  assert (p ∈ l) as Hin.
  { apply find_some in Hp as [Hin _]. apply list_elem_of_In in Hin. by rewrite <- (rotation_perm r l _ Hr). }
  pose proof HQ as [Hl Hrq Hc Ht [tc Etc]].
  destruct (Ht p Hin) as [tp Etp].
  assert (∃ t, save_current s !! p = Some t) as [t Et].
  { unfold save_current. destruct (decide (p = tpidr_el1 s)) as [->|Hne].
    - rewrite lookup_alter_eq, Etp. by eexists.
    - rewrite lookup_alter_ne by done. by exists tp. }
  set (s1 := k_unlock (with_curr_thread p (k_lock s))).
  exists (with_tpidr_el1 p (with_cpu (cxt t) (with_threads (save_current s) s1))). split.
  - unfold schedule. refine (bind_step _ _ _ _ En _). fold s1. unfold switch_to, upd_thread, get_thread.
    change (threads s1 !! tpidr_el1 s1) with (threads s !! tpidr_el1 s). rewrite Etc. cbn [load mbind res_bind mret res_ret].
    assert (<[tpidr_el1 s := with_cxt (saved (cpu s) (cxt tc)) tc]> (threads s) = save_current s) as Es.
    { apply map_eq. intros q. unfold save_current. destruct (decide (q = tpidr_el1 s)) as [->|Hne].
      - by rewrite lookup_insert_eq, lookup_alter_eq, Etc.
      - by rewrite lookup_insert_ne, lookup_alter_ne. }
    change (threads (with_threads ?a ?b)) with a. change (curr_thread s1) with p.
    change (<[tpidr_el1 s1 := with_cxt (saved (cpu s1) (cxt tc)) tc]> (threads s1))
      with (<[tpidr_el1 s := with_cxt (saved (cpu s) (cxt tc)) tc]> (threads s)).
    rewrite Es, Et. done.
  - assert (∀ q, is_Some (threads s !! q) → is_Some (save_current s !! q)) as Hsv.
    { intros q [x Ex]. unfold save_current. destruct (decide (q = tpidr_el1 s)) as [->|Hne].
      - rewrite lookup_alter_eq, Ex. by eexists.
      - rewrite lookup_alter_ne by done. by exists x. }
    split; simpl; [|done|done|done|by exists t|done].
    split; simpl; [done|done|done|intros q Hq; by apply Hsv, Ht|by apply Hsv].
Qed.

(** C10: [schedule] gives the processor to the next thread of the run queue, in the
    order of the ring from the running one, that is not a zombie: the registers
    go to the context TPIDR_EL1 names and come from the chosen one, whose thread
    both [curr_thread] and TPIDR_EL1 name afterwards. The queue and the state of
    every thread are kept, and the interrupt lock is balanced. *)
Theorem schedule_ok s L l r p :
  queue_ok s L l → rotation r l (curr_thread s) → find (is_runnable s) r = Some p →
  ∃ s', schedule s = Ok s' ∧ scheduled s s' L l p ∧ ∀ q, is_runnable s' q = is_runnable s q.
Proof.
  intros HQ Hr Hp. destruct (schedule_run _ _ _ _ _ HQ Hr Hp) as (s' & E & H).
  exists s'. split_and!; [done|done|]. intros q. by apply (scheduled_runnable _ _ _ _ _ _ H).
Qed.

(** ** Many calls *)

(** [n] calls of [schedule], and the threads they gave the processor to. *)
Fixpoint schedules (n : nat) (s : kstate) : res (list Z * kstate) :=
  match n with
  | O => mret ([], s)
  | S n => s ← schedule s; '(ps, s') ← schedules n s; mret (curr_thread s :: ps, s')
  end.

Lemma schedules_run n : ∀ s L l r, queue_ok s L l → rotation r l (curr_thread s) →
  (n ≤ length (filter (is_runnable s) r))%nat →
  ∃ s', schedules n s = Ok (take n (filter (is_runnable s) r), s') ∧ queue_ok s' L l ∧
    ∀ q, is_runnable s' q = is_runnable s q.
Proof.
  induction n as [|n IH]; intros s L l r HQ Hr Hn; [by exists s|].
  destruct (find (is_runnable s) r) as [p|] eqn:Ep; cycle 1.
  { exfalso. assert (filter (is_runnable s) r = []) as E; [|rewrite E in Hn; simpl in Hn; lia].
    apply elem_of_nil_inv. intros x [Hx Hin]%list_elem_of_filter. apply list_elem_of_In in Hin.
    apply (find_none _ _ Ep) in Hin. by rewrite Hin in Hx. }
  destruct (schedule_run _ _ _ _ _ HQ Hr Ep) as (s1 & E1 & H1).
  assert (∀ q, is_runnable s1 q = is_runnable s q) as Hrun by (intros q; by apply (scheduled_runnable _ _ _ _ _ _ H1)).
  destruct (find_filter _ _ _ Ep) as (xs & ys & -> & Hp & Hxs).
  assert (∀ zs : list Z, filter (is_runnable s1) zs = filter (is_runnable s) zs) as Hf.
  { intros zs. apply list_filter_iff. intros q. by rewrite Hrun. }
  assert (filter (is_runnable s) (xs ++ p :: ys) = p :: filter (is_runnable s) ys) as Ef.
  { rewrite filter_app, Hxs. simpl. rewrite filter_cons_True by (by rewrite Hp). done. }
  rewrite Ef in Hn |- *. simpl in Hn.
  apply rotation_move in Hr. rewrite <- (sc_curr _ _ _ _ _ H1) in Hr.
  assert (filter (is_runnable s) (ys ++ xs ++ [p]) = filter (is_runnable s) ys ++ [p]) as Ef'.
  { rewrite !filter_app, Hxs. simpl. rewrite filter_cons_True by (by rewrite Hp). done. }
  destruct (IH s1 L l (ys ++ xs ++ [curr_thread s1]) (sc_queue _ _ _ _ _ H1) Hr) as (s2 & E2 & HQ2 & Hr2).
  { rewrite Hf, (sc_curr _ _ _ _ _ H1), Ef', length_app. simpl. lia. }
  exists s2. split_and!; [|done|intros q; by rewrite Hr2].
  simpl. rewrite E1. cbn [mbind res_bind]. rewrite E2, Hf, (sc_curr _ _ _ _ _ H1), Ef'. simpl.
  by rewrite take_app_le by lia.
Qed.

(** C11: the scheduler is fair: as many calls of [schedule] as there are runnable
    threads in the queue run each of them once, in the order of the ring, and
    nothing else. *)
Theorem schedule_round_robin s L l r :
  queue_ok s L l → rotation r l (curr_thread s) →
  ∃ s', schedules (length (filter (is_runnable s) r)) s = Ok (filter (is_runnable s) r, s') ∧
    queue_ok s' L l ∧ filter (is_runnable s) r ≡ₚ filter (is_runnable s) l.
Proof.
  intros HQ Hr. destruct (schedules_run (length (filter (is_runnable s) r)) s L l r HQ Hr) as (s' & E & HQ' & _); [done|].
  exists s'. rewrite firstn_all in E. split_and!; [done|done|]. by rewrite (rotation_perm _ _ _ Hr).
Qed.

(** ** Exit *)

Lemma zombie_runnable s c t : threads s !! c = Some t →
  ∀ q, is_runnable (with_threads (<[c := with_state THREAD_ZOMBIE t]> (threads s)) s) q =
    is_runnable s q && negb (bool_decide (q = c)).
Proof.
  intros E q. unfold is_runnable. simpl. destruct (decide (q = c)) as [->|Hne].
  - rewrite lookup_insert_eq, bool_decide_eq_true_2 by done. simpl. by rewrite andb_false_r.
  - rewrite lookup_insert_ne, bool_decide_eq_false_2 by done. simpl. by rewrite andb_true_r.
Qed.

(** A thread is killed, and the running one gives the processor away. *)
Lemma kill_schedule s L l r p c t :
  queue_ok s L l → rotation r l (curr_thread s) → threads s !! c = Some t →
  find (λ q, is_runnable s q && negb (bool_decide (q = c))) r = Some p →
  ∃ s', (s ← upd_thread c (with_state THREAD_ZOMBIE) (k_lock s); schedule (k_unlock s)) = Ok s' ∧
    queue_ok s' L l ∧ curr_thread s' = p ∧ tpidr_el1 s' = p ∧
    (state <$> threads s' !! c = Some THREAD_ZOMBIE) ∧
    ∀ q, is_runnable s' q = is_runnable s q && negb (bool_decide (q = c)).
Proof.
  intros HQ Hr Et Hp. pose proof HQ as [Hl Hrq Hc Ht [tc Etc]].
  set (s1 := with_threads (<[c := with_state THREAD_ZOMBIE t]> (threads s)) s).
  pose proof (zombie_runnable s _ t Et) as Hz. fold s1 in Hz.
  assert (queue_ok (k_unlock (k_lock s1)) L l) as HQ1.
  { split; simpl; [done|done|done| |].
    - intros q Hq. apply lookup_insert_is_Some. destruct (decide (c = q)); [by left|right]. auto.
    - apply lookup_insert_is_Some. destruct (decide (c = tpidr_el1 s)); [by left|right]. by rewrite Etc. }
  destruct (schedule_run _ L l r p HQ1 Hr) as (s' & E' & H').
  { rewrite <- Hp. apply find_ext. exact Hz. }
  exists s'. split_and!.
  - refine (bind_step _ _ (k_lock s1) _ _ E'). unfold upd_thread, get_thread.
    change (threads (k_lock s) !! c) with (threads s !! c). by rewrite Et.
  - apply H'.
  - apply H'.
  - apply H'.
  - rewrite (sc_saved _ _ _ _ _ H'). unfold save_current. simpl.
    destruct (decide (c = tpidr_el1 s)) as [E|Hne].
    + by rewrite <- E, lookup_alter_eq, lookup_insert_eq.
    + by rewrite lookup_alter_ne, lookup_insert_eq.
  - intros q. rewrite (scheduled_runnable _ _ _ _ _ _ H'). exact (Hz q).
Qed.

(** C12: [thread_exit] makes the running thread a zombie and gives the processor to
    the next of the others that can run; the zombie stays queued for
    [kill_zombies] and is not runnable any more, all other threads are as
    runnable as before. *)
Theorem thread_exit_ok s L l r p :
  queue_ok s L l → rotation r l (curr_thread s) →
  find (λ q, is_runnable s q && negb (bool_decide (q = curr_thread s))) r = Some p →
  ∃ s', thread_exit s = Ok s' ∧ queue_ok s' L l ∧ curr_thread s' = p ∧ tpidr_el1 s' = p ∧
    (state <$> threads s' !! curr_thread s = Some THREAD_ZOMBIE) ∧
    ∀ q, is_runnable s' q = is_runnable s q && negb (bool_decide (q = curr_thread s)).
Proof.
  intros HQ Hr Hp. destruct (qu_threads _ _ _ HQ _ (qu_curr _ _ _ HQ)) as [t Et].
  destruct (kill_schedule s L l r p _ t HQ Hr Et Hp) as (s' & E & H). exists s'. split; [exact E|exact H].
Qed.

(** ** Witnesses *)

Definition cxt_ex (x : Z) : thread_context := Cxt (repeat x 10) 0 x 0 0.
Definition thread_ex (i st : Z) : thread :=
  Thread (cxt_ex i) st i 0 0 0 0 (repeat 0x80300 32) (repeat 0 32) 0 (cxt_ex 0) 0.

(** Three threads, the second a zombie; the first runs. *)
Definition lists_ex : lmem :=
  __list_add (__list_add (__list_add (INIT_LIST_HEAD (Lmem ∅ ∅) 0x100) 0x3000 0x100 0x100) 0x2000 0x100 0x3000) 0x1000 0x100 0x2000.
Definition kstate_ex : kstate :=
  K (TState (MState 0 0 ∅ lists_ex (LockSt 0 true)) 0 ∅ ∅ hw_ex) ∅ ∅
    {[0x1000 := thread_ex 0 THREAD_RUNNING; 0x2000 := thread_ex 1 THREAD_ZOMBIE; 0x3000 := thread_ex 2 THREAD_RUNNING]}
    3 0x1000 0x100 (cxt_ex 7) 0x1000.

Lemma lists_ex_ok : lists_ok lists_ex {[0x100 := [0x1000; 0x2000; 0x3000]]}.
Proof.
  assert (∀ l x, node {[0x100 := l]} x → x ∈ 0x100 :: l) as Hnode.
  { intros l x (h & l' & [<- <-]%lookup_singleton_Some & Hx). done. }
  assert (∀ m l new, lists_ok m {[0x100 := l]} → new ∉ 0x100 :: l →
    lists_ok (__list_add m new 0x100 (after 0x100 l)) {[0x100 := new :: l]}) as Hadd.
  { intros m l new Hok Hn. 
    assert (<[0x100 := new :: l]> {[0x100 := l]} =@{gmap Z (list Z)} {[0x100 := new :: l]}) as <- by apply insert_singleton_eq.
    apply (list_insert_ok _ _ 0x100 [] l new); [done|by rewrite lookup_singleton_eq|].
    intros Hx. by apply Hn, Hnode. }
  apply (Hadd _ [0x2000; 0x3000]); [|set_solver]. apply (Hadd _ [0x3000]); [|set_solver].
  apply (Hadd _ []); [|set_solver].
  apply (INIT_LIST_HEAD_head _ ∅); [by split; intros *; rewrite lookup_empty|].
  intros (h & l & H & _). by rewrite lookup_empty in H.
Qed.

Lemma queue_ex : queue_ok kstate_ex {[0x100 := [0x1000; 0x2000; 0x3000]]} [0x1000; 0x2000; 0x3000].
Proof.
  split; [exact lists_ex_ok|done|set_solver| |by eexists].
  intros p. rewrite !elem_of_cons, elem_of_nil. intros [->|[->|[->|[]]]]; by eexists.
Qed.

Lemma rotation_ex : rotation [0x2000; 0x3000; 0x1000] [0x1000; 0x2000; 0x3000] (curr_thread kstate_ex).
Proof. by exists [], [0x2000; 0x3000]. Qed.

Lemma schedule_ok_witness : ∃ s', schedule kstate_ex = Ok s' ∧ curr_thread s' = 0x3000.
Proof.
  destruct (schedule_ok _ _ _ _ 0x3000 queue_ex rotation_ex eq_refl) as (s' & E & H & _).
  exists s'. split; [exact E|exact (sc_curr _ _ _ _ _ H)].
Defined.

Lemma schedule_round_robin_witness : ∃ s', schedules 2 kstate_ex = Ok ([0x3000; 0x1000], s').
Proof.
  destruct (schedule_round_robin _ _ _ _ queue_ex rotation_ex) as (s' & E & _). exists s'. exact E.
Defined.

Lemma thread_exit_ok_witness : ∃ s', thread_exit kstate_ex = Ok s' ∧ curr_thread s' = 0x3000.
Proof.
  destruct (thread_exit_ok _ _ _ _ 0x3000 queue_ex rotation_ex eq_refl) as (s' & E & _ & H & _).
  exists s'. split; [exact E|exact H].
Defined.
