(* ===== verification/Spawn.v ===== *)
(** [thread_create] of lib/sched.c: which slot it takes, what the new thread looks
    like, and what happens when there is no slot. *)
From S2P Require Import Prelude Util ListHead Lock Mem Malloc Heap Alloc KAlloc Mmu PageTable Timer Thread Sched RunQueue.
Local Open Scope Z_scope.

Lemma upd_thread_ok p f s t : threads s !! p = Some t →
  upd_thread p f s = Ok (with_threads (<[p := f t]> (threads s)) s).
Proof. intros E. unfold upd_thread, get_thread. by rewrite E. Qed.

Section client.
Context `{KA : KAlloc alloc}.

Lemma ka_set_ring s L g m h l :
  ka_inv s L g → ¬ ka_private h → lists_ok m (<[h := l]> L) →
  (∀ p, p ∈ h :: l → node L p ∨ ka_static g p ∨ ∃ n, n ≤ 0x200 ∧ ka_live L g p n) → ka_inv (with_lm m s) (<[h := l]> L) g.
Proof.
  intros HI Hh Hok Hl. apply (ka_client s L); [done|done| |].
  - intros h' Hh'. rewrite lookup_insert_ne; [done|]. by intros ->.
  - intros p [Hp|Hp]%node_insert; [by apply Hl|by left].
Qed.

Lemma k_alloc_placed s L g n k : ka_inv (k_heap s) L g → 0 ≤ n ≤ 0x40000 → ka_room g (S k) →
  ∃ p c h L' g', (k_alloc alloc n s = Ok (p, with_k_heap h s) ∧ lk h = lk (k_heap s) ∧ ka_inv h L' g' ∧ ka_room g' k ∧
    agree_on (λ h, ¬ ka_private h) L L' ∧ ¬ node L' p ∧ n ≤ c ∧ (n ≤ 0x200 → c ≤ 0x200) ∧ (∀ c', ¬ ka_live L g p c') ∧
    (∀ q m, ka_live L' g' q m ↔ ka_live L g q m ∨ (q = p ∧ m = c)) ∧
    (∀ q, ka_static g q → q ≠ p ∧ ka_static g' q ∧ (node L' q → node L q))) ∧
    (ka_tidy g → ka_tidy g' ∧ placed (ka_static g) p n).
Proof.
  intros HI Hn HR. destruct (ka_alloc _ _ _ n k HI Hn HR) as (p & c & h & L' & g' & E & H1 & H2 & H3 & H4 & H5 & H6 & H7 & H8 & H9 & H10 & H11).
  exists p, c, h, L', g'. split; [|exact H11]. split; [unfold k_alloc; by rewrite E|]. done.
Qed.

Lemma k_alloc_ok s L g n k : ka_inv (k_heap s) L g → 0 ≤ n ≤ 0x40000 → ka_room g (S k) →
  ∃ p c h L' g', k_alloc alloc n s = Ok (p, with_k_heap h s) ∧ lk h = lk (k_heap s) ∧ ka_inv h L' g' ∧ ka_room g' k ∧
    agree_on (λ h, ¬ ka_private h) L L' ∧ ¬ node L' p ∧ n ≤ c ∧ (n ≤ 0x200 → c ≤ 0x200) ∧ (∀ c', ¬ ka_live L g p c') ∧
    (∀ q m, ka_live L' g' q m ↔ ka_live L g q m ∨ (q = p ∧ m = c)) ∧
    (∀ q, ka_static g q → q ≠ p ∧ ka_static g' q ∧ (node L' q → node L q)).
Proof.
  intros HI Hn HR. destruct (k_alloc_placed s L g n k HI Hn HR) as (p & c & h & L' & g' & H & _). by exists p, c, h, L', g'.
Qed.
End client.

(** ** The slot *)

(** The slot [thread_create] takes: the next one until all have been used once,
    then the first unused one. *)
Definition takes_slot (kl : klayout) (s : kstate) (i : Z) : Prop :=
  if PID_MAX <? nxt_pid s then
    0 ≤ i ≤ PID_MAX ∧ (state <$> threads s !! thread_at kl i = Some THREAD_UNUSED) ∧
    ∀ j, 0 ≤ j < i → ∃ t, threads s !! thread_at kl j = Some t ∧ state t ≠ THREAD_UNUSED
  else i = nxt_pid s.

Lemma find_unused_found kl s i : ∀ n j, (state <$> threads s !! thread_at kl i = Some THREAD_UNUSED) →
  j ≤ i < j + Z.of_nat n →
  (∀ k, j ≤ k < i → ∃ t, threads s !! thread_at kl k = Some t ∧ state t ≠ THREAD_UNUSED) →
  find_unused kl n j s = Ok (Some i).
Proof.
  intros n. induction n as [|n IH]; intros j Hi Hj Hb; [lia|]. simpl. unfold get_thread.
  destruct (decide (j = i)) as [->|Hne].
  - destruct (threads s !! thread_at kl i) as [t|]; [|done]. injection Hi as Hi. simpl.
    by rewrite (proj2 (Z.eqb_eq _ _) Hi).
  - destruct (Hb j) as (t & Et & Ht); [lia|]. rewrite Et. simpl. rewrite (proj2 (Z.eqb_neq _ _) Ht).
    apply IH; [done|lia|]. intros k Hk. apply Hb. lia.
Qed.

Lemma find_unused_none kl s n : ∀ j,
  (∀ k, j ≤ k < j + Z.of_nat n → ∃ t, threads s !! thread_at kl k = Some t ∧ state t ≠ THREAD_UNUSED) →
  find_unused kl n j s = Ok None.
Proof.
  induction n as [|n IH]; intros j Hb; [done|]. simpl. unfold get_thread.
  destruct (Hb j) as (t & Et & Ht); [lia|]. rewrite Et. simpl. rewrite (proj2 (Z.eqb_neq _ _) Ht).
  apply IH. intros k Hk. apply Hb. lia.
Qed.

(** No pid is new, and no thread is unused. *)
Definition no_slot (kl : klayout) (s : kstate) : Prop :=
  PID_MAX < nxt_pid s ∧ ∀ i, 0 ≤ i ≤ PID_MAX → ∃ t, threads s !! thread_at kl i = Some t ∧ state t ≠ THREAD_UNUSED.

(** when the pids have run out and every thread is in use, [thread_create]
    returns NULL without creating anything, but with the interrupt lock still
    taken: interrupts stay off. *)
Theorem thread_create_full kl alloc start filesize s :
  no_slot kl s → thread_create kl alloc start filesize s = Ok (0, k_lock s) ∧ irq_on (lk (k_heap (k_lock s))) = false.
Proof.
  intros [Hn Ht]. split; [|done]. unfold thread_create. change (nxt_pid (k_lock s)) with (nxt_pid s).
  rewrite (proj2 (Z.ltb_lt _ _) Hn).
  assert (find_unused kl (Z.to_nat (PID_MAX + 1)) 0 (k_lock s) = Ok None) as ->; [|done].
  apply find_unused_none. intros k Hk. apply Ht. unfold PID_MAX in *. lia.
Qed.

(** ** The steps of the construction *)

Section steps.
Context `{KA : KAlloc alloc} (s0 : kstate) (p : Z) (L0 : rings) (g0 : ka_ghost).

(** Objects of the given sizes that have been handed out since the start. *)
Definition fresh_objects (L : rings) (g : ka_ghost) (ms : list (Z * Z)) : Prop :=
  NoDup ms.*1 ∧ Forall (λ m, (∃ c, m.2 ≤ c ∧ ka_live L g m.1 c) ∧ ∀ c, ¬ ka_live L0 g0 m.1 c) ms.

(** Half way: only thread [p] differs from the start, and the lock is held. *)
Record mid (s : kstate) (L : rings) (g : ka_ghost) (k : nat) (t : thread) (ms : list (Z * Z)) (W : gmap Z Z) (n : Z) : Prop := {
  md_inv : ka_inv (k_heap s) L g;
  md_room : ka_room g k;
  md_rings : agree_on (λ h, ¬ ka_private h) L0 L;
  md_static : ∀ q, ka_static g0 q → ka_static g q ∧ (node L q → node L0 q);
  md_live : ∀ q m, ka_live L0 g0 q m → ka_live L g q m;
  md_fresh : fresh_objects L g ms;
  md_threads : threads s = <[p := t]> (threads s0);
  md_words : kwords s = W;
  md_lock : lk (k_heap s) = lock (lk (k_heap s0));
  md_rest : (nxt_pid s, rq s, curr_thread s, vmas s, cpu s, tpidr_el1 s, k_bytes s) = (n, rq s0, curr_thread s0, vmas s0, cpu s0, tpidr_el1 s0, k_bytes s0);
  md_tm : tm s = with_heap (k_heap s) (tm s0);
  md_placed : ka_tidy g0 → ka_tidy g ∧ Forall (λ m, placed (ka_static g0) m.1 m.2) ms;
}.

Lemma mid_upd s L g k t ms W n f : mid s L g k t ms W n →
  ∃ s', upd_thread p f s = Ok s' ∧ mid s' L g k (f t) ms W n.
Proof.
  intros []. eexists. split; [apply upd_thread_ok; rewrite md_threads0; apply lookup_insert_eq|].
  split; try done. cbn [with_threads threads]. by rewrite md_threads0, insert_insert_eq.
Qed.

Lemma mid_alloc s L g k t ms W n sz : mid s L g (S k) t ms W n → 0 ≤ sz ≤ 0x40000 →
  ∃ x s' L' g', k_alloc alloc sz s = Ok (x, s') ∧ mid s' L' g' k t ((x, sz) :: ms) W n.
Proof.
  intros [HI HR Ha Hs Hl [Hnd Hf] Ht HW Hk Hr Htm Hpl] Hsz.
  destruct (k_alloc_placed s L g sz k HI Hsz HR) as (x & c & h & L' & g' & (E & Hlk & HI' & HR' & Ha' & Hn & Hc & _ & Hnl & Hl' & Hs') & Hp).
  exists x, (with_k_heap h s), L', g'. split; [exact E|]. split; try done.
  - by transitivity L.
  - intros q Hq. destruct (Hs q Hq) as [Hq1 Hq2]. destruct (Hs' q Hq1) as (_ & Hq3 & Hq4). auto.
  - intros q m Hq. apply Hl'. left. by apply Hl.
  - split.
    + constructor; [|exact Hnd]. intros ([y sy] & Ey & Hin)%list_elem_of_fmap. simpl in Ey. subst y.
      rewrite Forall_forall in Hf. destruct (Hf _ Hin) as [(c' & _ & Hc') _]. by apply (Hnl c').
    + constructor.
      * split; [exists c; split; [done|]; apply Hl'; by right|]. intros c' Hc'. by apply (Hnl c'), Hl.
      * eapply Forall_impl; [exact Hf|]. intros [y sy] [(c' & Hle & Hc') Hy]. split; [|done].
        exists c'. split; [done|]. apply Hl'. by left.
  - exact (eq_trans Hlk Hk).
  - cbn [with_k_heap with_tm tm]. by rewrite Htm.
  - intros Ht0. destruct (Hpl Ht0) as [Htg Hall]. destruct (Hp Htg) as [Htg' (P1 & P2 & P3 & P4)]. split; [done|].
    constructor; [|done]. split; [done|]. split; [done|]. split; [|done]. intros q Hq. apply P3. by apply Hs.
Qed.

Lemma mid_clear s L g k t ms W n pgd : mid s L g k t ms W n →
  ∃ s' W', run_mm (clear_table pgd) s = Ok s' ∧ mid s' L g k t ms W' n ∧
    ∀ x, 0 ≤ x < 512 → W' !! Mmu.entry pgd x = Some 0.
Proof.
  intros [HI HR Ha Hs Hl Hf Ht HW Hk Hr Htm Hpl].
  destruct (clear_table_ok pgd (Mm (k_heap s) (kwords s))) as (m & E & Hh & Hz & _).
  eexists _, (words m). split; [unfold run_mm; rewrite E; done|]. cbn [mm_heap] in Hh. split; [|done].
  split; cbn [k_heap tm heap with_heap]; rewrite ?Hh; try done. by rewrite Htm.
Qed.
End steps.

(** ** The thread it makes *)

Record created `{KA : KAlloc alloc} (kl : klayout) (s s' : kstate) (L L' : rings) (g g' : ka_ghost) (l : list Z)
    (p start filesize : Z) (t0 t : thread) : Prop := {
  cr_inv : ka_inv (k_heap s') L' g';
  cr_queue : L' !! rq s' = Some (p :: l);
  cr_vmas : L' !! vma_list p = Some [];
  cr_rings : agree_on (λ h, ¬ ka_private h ∧ h ≠ rq s ∧ h ≠ vma_list p) L L';
  cr_threads : threads s' = <[p := t]> (threads s);
  cr_state : state t = THREAD_RUNNING ∧ pid t = pid t0 ∧ data_size t = filesize;
  cr_start : lr (cxt t) = start ∧ sp (cxt t) = u64 (kstack_ptr t + KSTACK_SIZE) ∧ fp (cxt t) = sp (cxt t);
  cr_signals : sig_handler t = repeat (default_sig_handler_addr kl) 32 ∧ sigcount t = repeat 0 32 ∧ sigcheck t = 0;
  cr_objects : fresh_objects L g L' g' [(ttbr0_el1 (cxt t), 0x1000); (ustack_ptr t, USTACK_SIZE); (kstack_ptr t, KSTACK_SIZE); (data t, filesize)];
  cr_live : ∀ q m, ka_live L g q m → ka_live L' g' q m;
  cr_pgd : ∀ x, 0 ≤ x < 512 → kwords s' !! Mmu.entry (ttbr0_el1 (cxt t)) x = Some 0;
  cr_lock : lk (k_heap s') = unlock (lock (lk (k_heap s)));
  cr_rest : (rq s', curr_thread s', vmas s', cpu s', tpidr_el1 s', k_bytes s') = (rq s, curr_thread s, vmas s, cpu s, tpidr_el1 s, k_bytes s);
  cr_static : ∀ q, ka_static g q → ka_static g' q ∧ (node L' q → node L q ∨ q = p ∨ q = vma_list p);
  cr_tm : tm s' = with_heap (k_heap s') (tm s);
  cr_placed : ka_tidy g → ka_tidy g' ∧ Forall (λ m, placed (ka_static g) m.1 m.2)
    [(ttbr0_el1 (cxt t), 0x1000); (ustack_ptr t, USTACK_SIZE); (kstack_ptr t, KSTACK_SIZE); (data t, filesize)];
}.

(** A slot of the array that is in no list, with its two list nodes. *)
Record slot_free `{KA : KAlloc alloc} (L : rings) (g : ka_ghost) (p : Z) : Prop := {
  sl_static : ka_static g p ∧ ka_static g (vma_list p);
  sl_out : ¬ node L p ∧ ¬ node L (vma_list p);
}.

Lemma fresh_agree `{KA : KAlloc alloc} L0 g0 L L' g ms : agree_on ka_private L L' →
  fresh_objects L0 g0 L g ms → fresh_objects L0 g0 L' g ms.
Proof.
  intros Ha [Hnd Hf]. split; [done|]. eapply Forall_impl; [exact Hf|]. intros m [(c & Hc & Hl) Hn].
  split; [|done]. exists c. split; [done|]. by apply (ka_live_agree L).
Qed.

Lemma takes_slot_run kl s i : takes_slot kl s i → 0 ≤ nxt_pid s < 2 ^ 31 - 1 →
  ∃ n, (if PID_MAX <? nxt_pid s then
      o ← find_unused kl (Z.to_nat (PID_MAX + 1)) 0 s; mret (from_option (thread_at kl) 0 o, s)
    else mret (thread_at kl (nxt_pid s), with_nxt_pid (s32 (nxt_pid s + 1)) s)) = Ok (thread_at kl i, with_nxt_pid n s) ∧
    n = if PID_MAX <? nxt_pid s then nxt_pid s else nxt_pid s + 1.
Proof.
  unfold takes_slot. intros Hs Hn. destruct (PID_MAX <? nxt_pid s).
  - destruct Hs as (Hi & Hu & Hb). exists (nxt_pid s). split; [|done].
    rewrite (find_unused_found kl s i) by (unfold PID_MAX in *; done || lia). by destruct s.
  - subst i. rewrite s32_small by lia. by exists (nxt_pid s + 1).
Qed.

Definition reset_signals (kl : klayout) (t : thread) : thread :=
  with_sigcount (repeat 0 (Z.to_nat SIG_MAX)) (with_sig_handler (repeat (default_sig_handler_addr kl) (Z.to_nat SIG_MAX)) (with_sigcheck 0 t)).

(** The last steps: no areas, no signals, and into the run queue. *)
Lemma mid_finish kl `{KA : KAlloc alloc} s0 p L0 g0 s L g k t ms W n l :
  ka_inv (k_heap s0) L0 g0 → mid s0 p L0 g0 s L g k t ms W n → L0 !! rq s0 = Some l → ¬ ka_private (rq s0) →
  ka_static g0 p ∧ ka_static g0 (vma_list p) → ¬ node L0 p ∧ ¬ node L0 (vma_list p) →
  let L' := <[rq s0 := p :: l]> (<[vma_list p := []]> L) in
  ∃ s', (s ← upd_thread p (with_sigcheck 0) (with_k_lm (INIT_LIST_HEAD (k_lm s) (vma_list p)) s);
      s ← upd_thread p (λ t, with_sigcount (repeat 0 (Z.to_nat SIG_MAX))
            (with_sig_handler (repeat (default_sig_handler_addr kl) (Z.to_nat SIG_MAX)) t)) s;
      m ← list_add (k_lm s) p (rq s);
      mret (p, k_unlock (with_k_lm m s))) = Ok (p, s') ∧
    ka_inv (k_heap s') L' g ∧ agree_on ka_private L L' ∧ threads s' = <[p := reset_signals kl t]> (threads s0) ∧
    kwords s' = W ∧ lk (k_heap s') = unlock (lock (lk (k_heap s0))) ∧
    (nxt_pid s', rq s', curr_thread s', vmas s', cpu s', tpidr_el1 s', k_bytes s') = (n, rq s0, curr_thread s0, vmas s0, cpu s0, tpidr_el1 s0, k_bytes s0) ∧
    tm s' = with_heap (k_heap s') (tm s0).
Proof.
  intros HI0 [HI HR Ha Hs Hl Hf Ht HW Hk Hr Htm _] Hrq Hpr [Hs1 Hs2] [Ho1 Ho2] L'.
  destruct (Hs _ Hs1) as [Hs1' Hn1], (Hs _ Hs2) as [Hs2' Hn2].
  assert (¬ ka_private (vma_list p)) as Hpv by (intros Hp; by apply Ho2, (ka_private_node _ _ _ _ HI0)).
  assert (vma_list p ≠ rq s0) as Hne by (intros E; apply Ho2; rewrite E; apply (node_elem L0 _ _ _ Hrq); by left).
  assert (L !! rq s0 = Some l) as Hrq' by (by rewrite Ha).
  pose proof (INIT_LIST_HEAD_head _ _ (vma_list p) (ka_lists _ _ _ HI) ltac:(auto)) as Hok1.
  assert (ka_inv (with_lm (INIT_LIST_HEAD (lm (k_heap s)) (vma_list p)) (k_heap s)) (<[vma_list p := []]> L) g) as HI1.
  { apply ka_set_ring; [done|done|done|]. intros q [->|Hq]%elem_of_cons; [by right; left|by apply not_elem_of_nil in Hq]. }
  destruct (list_add_ok _ (<[vma_list p := []]> L) (rq s0) [] l p Hok1) as (m & Em & Hok2).
  { by rewrite lookup_insert_ne. }
  { intros [Hx|Hx]%node_insert; [|by auto]. apply elem_of_cons in Hx as [Hx|Hx]; [|by apply not_elem_of_nil in Hx].
    unfold vma_list in Hx. lia. }
  set (s1 := with_k_lm (INIT_LIST_HEAD (k_lm s) (vma_list p)) s).
  set (s2 := with_threads (<[p := with_sigcheck 0 t]> (threads s1)) s1).
  set (s3 := with_threads (<[p := reset_signals kl t]> (threads s2)) s2).
  injection Hr as Hr1 Hr2 Hr3 Hr4 Hr5 Hr6 Hr7.
  exists (k_unlock (with_k_lm m s3)). split_and!.
  - rewrite (upd_thread_ok p _ s1 t) by (simpl; rewrite Ht; apply lookup_insert_eq). cbn [mbind res_bind]. fold s2.
    rewrite (upd_thread_ok p _ s2 (with_sigcheck 0 t)) by apply lookup_insert_eq. cbn [mbind res_bind].
    fold (reset_signals kl t). fold s3. change (rq s3) with (rq s). rewrite Hr2. change (k_lm s3) with (INIT_LIST_HEAD (k_lm s) (vma_list p)).
    exact (bind_step _ _ _ _ Em eq_refl).
  - change (k_heap (k_unlock (with_k_lm m s3))) with
      (with_lk (unlock (lk (k_heap s))) (with_lm m (with_lm (INIT_LIST_HEAD (k_lm s) (vma_list p)) (k_heap s)))).
    apply ka_lock. unfold L'. apply ka_set_ring; [done|done|exact Hok2|].
    intros q [->|[->|Hq]%elem_of_cons]%elem_of_cons; [left|by right; left|left];
      (apply (node_elem _ (rq s0) l); [by rewrite lookup_insert_ne|set_solver]).
  - intros h Hh. unfold L'. rewrite !lookup_insert_ne; [done|by intros <-|by intros <-].
  - cbn. by rewrite Ht, !insert_insert_eq.
  - done.
  - change (lk (k_heap (k_unlock (with_k_lm m s3)))) with (unlock (lk (k_heap s))). by rewrite Hk.
  - change (k_bytes (k_unlock (with_k_lm m s3))) with (k_bytes s). cbn. by rewrite Hr1, Hr2, Hr3, Hr4, Hr5, Hr6, Hr7.
  - cbn. by rewrite Htm.
Qed.

Ltac mid_upd_step H s' H' :=
  let E := fresh "E" in
  match goal with |- ∃ _ _ _ _, (upd_thread _ ?f _ ≫= _) = _ ∧ _ =>
    destruct (mid_upd _ _ _ _ _ _ _ _ _ _ _ _ f H) as (s' & E & H'); rewrite E; cbn [mbind res_bind] end.
Ltac mid_alloc_step H n x s' L' g' H' :=
  let E := fresh "E" in
  destruct (mid_alloc _ _ _ _ _ _ _ _ _ _ _ _ n H) as (x & s' & L' & g' & E & H'); [unfold KSTACK_SIZE, USTACK_SIZE; lia|];
  rewrite E; cbn [mbind res_bind].

(** With room left for [k] objects more. *)
Lemma thread_create_run kl `{KA : KAlloc alloc} s L g l i k t0 start filesize :
  ka_inv (k_heap s) L g → ka_room g (4 + k) → L !! rq s = Some l → ¬ ka_private (rq s) →
  takes_slot kl s i → 0 ≤ nxt_pid s < 2 ^ 31 - 1 → thread_at kl i ≠ 0 → threads s !! thread_at kl i = Some t0 →
  slot_free L g (thread_at kl i) → 0 ≤ filesize ≤ 0x40000 →
  ∃ s' L' g' t, thread_create kl alloc start filesize s = Ok (thread_at kl i, s') ∧
    created kl s s' L L' g g' l (thread_at kl i) start filesize t0 t ∧ ka_room g' k ∧
    nxt_pid s' = (if PID_MAX <? nxt_pid s then nxt_pid s else nxt_pid s + 1).
Proof.
  intros HI HR Hrq Hpr Hslot Hnp Hne Ht0 [[Hs1 Hs2] [Ho1 Ho2]] Hfs.
  destruct (takes_slot_run kl (k_lock s) i Hslot Hnp) as (n & En & Hn). set (p := thread_at kl i) in *.
  assert (mid s p L g (with_nxt_pid n (k_lock s)) L g (4 + k) t0 [] (kwords s) n) as H0.
  { split; try done; [by apply ka_lock|by split; [constructor|constructor]|by rewrite insert_id]. }
  unfold thread_create. rewrite En. cbn [mbind res_bind]. rewrite (proj2 (Z.eqb_neq _ _) Hne), u32_small by lia.
  mid_upd_step H0 s1 H1. mid_alloc_step H1 filesize pd s2 L2 g2 H2. mid_upd_step H2 s3 H3.
  mid_alloc_step H3 KSTACK_SIZE pk s4 L4 g4 H4. mid_upd_step H4 s5 H5.
  mid_alloc_step H5 USTACK_SIZE pu s6 L6 g6 H6. mid_upd_step H6 s7 H7.
  mid_alloc_step H7 0x1000 pt s8 L8 g8 H8. mid_upd_step H8 s9 H9. mid_upd_step H9 s10 H10. mid_upd_step H10 s11 H11.
  destruct (mid_clear _ _ _ _ _ _ _ _ _ _ _ _ pt H11) as (s12 & W & E12 & H12 & Hz).
  rewrite E12. cbn [mbind res_bind].
  match type of H12 with mid _ _ _ _ _ _ _ _ ?t _ _ _ => set (t12 := t) in H12 end.
  destruct (mid_finish kl _ _ _ _ _ _ _ _ _ _ _ _ l HI H12 Hrq Hpr (conj Hs1 Hs2) (conj Ho1 Ho2)) as
    (s13 & E13 & HI' & Ha' & Ht' & HW' & Hk' & Hr' & Htm').
  eexists s13, _, g8, _. split; [exact E13|]. split; [|split; [exact (md_room _ _ _ _ _ _ _ _ _ _ _ _ H12)|injection Hr' as -> _; exact Hn]].
  injection Hr' as _ Er Ec Ev Eu Ei Eb. destruct H12 as [_ _ Ha Hst Hl Hf _ _ _ _ _ Hpl].
  split; try done.
  - rewrite Er. by rewrite lookup_insert_eq.
  - rewrite lookup_insert_ne, lookup_insert_eq; [done|].
    intros E'. apply Ho2. rewrite <- E'. apply (node_elem L _ _ _ Hrq). by left.
  - intros h (Hh & Hh1 & Hh2). rewrite !lookup_insert_ne by done. by apply Ha.
  - eapply fresh_agree; [exact Ha'|exact Hf].
  - intros q m Hq. eapply ka_live_agree; [exact Ha'|by apply Hl].
  - rewrite HW'. exact Hz.
  - by rewrite Er, Ec, Ev, Eu, Ei, Eb.
  - intros q Hq. destruct (Hst q Hq) as [H1' H2']. split; [done|]. intros [Hx|[Hx|Hx]%node_insert]%node_insert; [| |left; by apply H2'].
    + rewrite !elem_of_cons in Hx. destruct Hx as [->|[->|Hx]]; [left; apply (node_elem L _ _ _ Hrq); apply elem_of_cons; by left|by right; left|].
      left. apply (node_elem L _ _ _ Hrq), elem_of_cons. by right.
    + rewrite elem_of_cons in Hx. destruct Hx as [->|Hx]; [by right; right|by apply not_elem_of_nil in Hx].
Qed.

(** C14: with memory for four objects and a free slot, [thread_create] returns the
    slot's thread (the next pid's, or the first unused one when the pids have run
    out), at the head of the run queue: running, with its own fresh program
    memory, kernel stack, user stack and empty page table, no area, its stack
    pointer at the end of the kernel stack, the default handler for every signal
    and none pending. The lock is balanced, and nothing else changes. *)
Theorem thread_create_ok kl `{KA : KAlloc alloc} s L g l i t0 start filesize :
  ka_inv (k_heap s) L g → ka_room g 4 → L !! rq s = Some l → ¬ ka_private (rq s) →
  takes_slot kl s i → 0 ≤ nxt_pid s < 2 ^ 31 - 1 → thread_at kl i ≠ 0 → threads s !! thread_at kl i = Some t0 →
  slot_free L g (thread_at kl i) → 0 ≤ filesize ≤ 0x40000 →
  ∃ s' L' g' t, thread_create kl alloc start filesize s = Ok (thread_at kl i, s') ∧
    created kl s s' L L' g g' l (thread_at kl i) start filesize t0 t ∧
    nxt_pid s' = (if PID_MAX <? nxt_pid s then nxt_pid s else nxt_pid s + 1).
Proof.
  intros HI HR Hrq Hpr Hslot Hnp Hne Ht0 Hfree Hfs.
  destruct (thread_create_run kl s L g l i 0 t0 start filesize HI HR Hrq Hpr Hslot Hnp Hne Ht0 Hfree Hfs) as (s' & L' & g' & t & E & HC & _ & Hn).
  by exists s', L', g', t.
Qed.

(** ** Witnesses *)

(** A new ring of static nodes. *)
Lemma ka_static_ring `{KA : KAlloc alloc} s L g h l : ka_inv s L g → NoDup (h :: l) →
  (∀ q, q ∈ h :: l → ka_static g q ∧ ¬ node L q ∧ ¬ ka_private q) → ∃ m, ka_inv (with_lm m s) (<[h := l]> L) g.
Proof.
  intros HI. induction l as [|x l IH] using rev_ind; intros Hnd Hs.
  - destruct (Hs h) as (S & N & P); [by left|]. exists (INIT_LIST_HEAD (lm s) h).
    apply ka_set_ring; [done|done|apply INIT_LIST_HEAD_head; [by eapply ka_lists|done]|].
    intros q [->|Hq]%elem_of_cons; [by right; left|by apply not_elem_of_nil in Hq].
  - change (h :: l ++ [x]) with ((h :: l) ++ [x]) in Hnd, Hs. apply NoDup_app in Hnd as (Hnd & Hx & _).
    destruct (IH Hnd) as (m & HI1); [intros q Hq; apply Hs, elem_of_app; by left|].
    assert (x ∉ h :: l) as Hxl by (intros Hin; apply (Hx x Hin); by left).
    destruct (Hs x) as (Sx & Nx & Px); [apply elem_of_app; right; by left|].
    destruct (list_add_tail_ok m (<[h := l]> L) h l [] x (ka_lists _ _ _ HI1)) as (m' & _ & Hok).
    { by rewrite lookup_insert_eq, app_nil_r. }
    { intros [Hq|Hq]%node_insert; done. }
    rewrite insert_insert_eq in Hok. exists m'. destruct (Hs h) as (S & N & P); [by left|].
    apply (ka_set_ring s L g m' h); [done|done|done|]. intros q Hq. right. left. apply (Hs q). by rewrite elem_of_cons, elem_of_app in *; set_solver.
Qed.

Definition kl_ex : klayout := KLayout (VIRT_BASE + 0x90000) 0x80300 0x80400 0x80500 0x80600 0x100.

(** A booted kernel with an empty run queue, [thr] as its threads, and room. *)
Definition kernel_with (h : mstate) (rq : Z) (thr : gmap Z thread) (n : Z) : kstate :=
  K (TState h rq ∅ ∅ hw_ex) ∅ ∅ thr n rq rq (cxt_ex 0) rq.

Lemma kernel_ex_tidy (k : nat) : (k ≤ 1000)%nat → ∃ h L g r, ka_tidy g ∧ ka_inv h L g ∧ ka_room g k ∧ L !! r = Some [] ∧ ¬ ka_private r ∧
  (∀ p, VIRT_BASE + 0x90000 ≤ p < VIRT_BASE + 0xf0000 → ka_static g p ∧ ¬ node L p ∧ ¬ ka_private p).
Proof.
  intros Hk. destruct (kalloc_ex_tidy k Hk) as (h & L & g & HT & HI & HR & _ & HS). set (r := VIRT_BASE + 0x80000).
  destruct (HS r) as (H1 & H2 & H3); [unfold r; lia|].
  exists (with_lm (INIT_LIST_HEAD (lm h) r) h), (<[r := []]> L), g, r. split_and!.
  - exact HT.
  - apply ka_set_ring; [done|done| |].
    + apply INIT_LIST_HEAD_head; [by eapply ka_lists|done].
    + intros q [->|Hq]%elem_of_cons; [by right; left|by apply not_elem_of_nil in Hq].
  - done.
  - by rewrite lookup_insert_eq.
  - done.
  - intros p Hp. destruct (HS p) as (H4 & H5 & H6); [lia|]. split; [done|]. split; [|done].
    intros [Hx|Hx]%node_insert; [|done]. apply elem_of_cons in Hx as [->|Hx]; [unfold r in Hp; lia|by apply not_elem_of_nil in Hx].
Qed.

Lemma kernel_ex (k : nat) : (k ≤ 1000)%nat → ∃ h L g r, ka_inv h L g ∧ ka_room g k ∧ L !! r = Some [] ∧ ¬ ka_private r ∧
  (∀ p, VIRT_BASE + 0x90000 ≤ p < VIRT_BASE + 0xf0000 → ka_static g p ∧ ¬ node L p ∧ ¬ ka_private p).
Proof. intros Hk. destruct (kernel_ex_tidy k Hk) as (h & L & g & r & _ & H). by exists h, L, g, r. Qed.

Lemma thread_create_ok_witness : ∃ s s', thread_create kl_ex (kmalloc layout_ex) 0x80700 0x4000 s = Ok (VIRT_BASE + 0x90000, s').
Proof.
  destruct (kernel_ex 4) as (h & L & g & r & HI & HR & Hr & Hp & HS); [lia|].
  set (s := kernel_with h r {[VIRT_BASE + 0x90000 := thread_ex 0 THREAD_UNUSED]} 0).
  destruct (thread_create_ok kl_ex s L g [] 0 (thread_ex 0 THREAD_UNUSED) 0x80700 0x4000) as (s' & _ & _ & _ & E & _).
  - exact HI.
  - exact HR.
  - exact Hr.
  - exact Hp.
  - reflexivity.
  - split; [discriminate|reflexivity].
  - discriminate.
  - apply lookup_singleton_eq.
  - destruct (HS (VIRT_BASE + 0x90000)) as (A1 & A2 & _); [lia|]. destruct (HS (vma_list (VIRT_BASE + 0x90000))) as (B1 & B2 & _); [unfold vma_list; lia|].
    split; [exact (conj A1 B1)|exact (conj A2 B2)].
  - lia.
  - exists s, s'. exact E.
Defined.

(** Every thread in use. *)
Definition threads_full : gmap Z thread :=
  list_to_map ((λ i, (thread_at kl_ex i, thread_ex i THREAD_RUNNING)) <$> seqZ 0 (PID_MAX + 1)).

Lemma threads_full_ok i : 0 ≤ i ≤ PID_MAX → threads_full !! thread_at kl_ex i = Some (thread_ex i THREAD_RUNNING).
Proof.
  intros Hi. apply elem_of_list_to_map_1.
  - rewrite <- list_fmap_compose. apply NoDup_fmap_2_strong; [|apply NoDup_seqZ].
    intros x y _ _. unfold compose, thread_at, sizeof_thread. cbn [fst]. lia.
  - apply list_elem_of_fmap. exists i. split; [done|]. apply elem_of_seqZ. lia.
Qed.

Lemma thread_create_full_witness : ∃ s s', thread_create kl_ex (kmalloc layout_ex) 0x80700 0x4000 s = Ok (0, s').
Proof.
  set (s := kernel_with (MState 0 0 ∅ (Lmem ∅ ∅) (LockSt 0 true)) 0x100 threads_full 32769).
  destruct (thread_create_full kl_ex (kmalloc layout_ex) 0x80700 0x4000 s) as [E _].
  - split; [reflexivity|]. intros i Hi. exists (thread_ex i THREAD_RUNNING). split; [exact (threads_full_ok i Hi)|discriminate].
  - exists s, (k_lock s). exact E.
Defined.
