(* ===== verification/Areas.v ===== *)
(** The areas of a thread: adding one, and what a translation fault does with
    them ([add_vma] and [handle_abort] of lib/mmu.c). *)
From S2P Require Import Prelude Util ListHead Lock Mem Malloc Buddy Reserve Heap Alloc KAlloc PageAlloc Mmu PageTable Timer Thread Sched RunQueue Spawn.
Local Open Scope Z_scope.

(** Thread [t] has the areas [vs], in the order they were added. *)
Definition areas_ok (s : kstate) (L : rings) (t : Z) (vs : list vm_area) : Prop :=
  ∃ ps, L !! vma_list t = Some ps ∧ Forall2 (λ p v, vmas s !! p = Some v) ps vs.

Lemma round_page_eq x : 0 ≤ x → x + 0x1000 ≤ 2 ^ 64 → round_page x = 0x1000 * ((x + 0xfff) / 0x1000).
Proof.
  intros H0 H1. unfold round_page. pose proof (Z.div_mod x 0x1000 ltac:(lia)) as Ex.
  pose proof (Z.mod_pos_bound x 0x1000 ltac:(lia)) as Hm. destruct (Z.eqb_spec (x mod 0x1000) 0) as [E|E].
  - replace (x + 0xfff) with (0xfff + (x / 0x1000) * 0x1000) by lia.
    rewrite Z.div_add by lia. change (0xfff / 0x1000) with 0. lia.
  - rewrite u64_small by lia. replace (x + 0xfff) with ((x mod 0x1000 - 1) + (x / 0x1000 + 1) * 0x1000) by lia.
    rewrite Z.div_add by lia. rewrite (Z.div_small (x mod 0x1000 - 1)) by lia. lia.
Qed.

Section areas.
Context `{KA : KAlloc alloc}.

(** The ring of [t] has new objects at its end, and nothing else is in use that was
    not before. *)
Definition grown (L : rings) (g : ka_ghost) (L' : rings) (g' : ka_ghost) (t : Z) : Prop :=
  ∃ ps new, L !! vma_list t = Some ps ∧ L' !! vma_list t = Some (ps ++ new) ∧ (∀ q c, q ∈ new → ¬ ka_live L g q c) ∧
    ∀ q m, ka_live L' g' q m → ka_live L g q m ∨ q ∈ new.

Lemma grown_trans L1 g1 L2 g2 L3 g3 t : (∀ q m, ka_live L1 g1 q m → ka_live L2 g2 q m) →
  grown L1 g1 L2 g2 t → grown L2 g2 L3 g3 t → grown L1 g1 L3 g3 t.
Proof.
  intros Hm (ps & n1 & H1 & H2 & H3 & H4) (ps' & n2 & H1' & H2' & H3' & H4'). simplify_eq.
  exists ps, (n1 ++ n2). split; [done|]. split; [by rewrite app_assoc|]. split.
  - intros q c [Hq|Hq]%elem_of_app; [by apply H3|]. intros Hl%Hm. by apply (H3' q c).
  - intros q m [[?|?]%H4|?]%H4'; rewrite ?elem_of_app; auto.
Qed.

(** No object in use has become a node. *)
Lemma grown_client L g L' g' t q m : agree_on (λ h, ¬ ka_private h ∧ h ≠ vma_list t) L L' → ¬ ka_private (vma_list t) →
  grown L g L' g' t → ka_live L g q m → client_node L' q → client_node L q.
Proof.
  intros Ha Hp (ps & new & H1 & H2 & H3 & _) Hl (h & l & Hh & Hl' & Hq). destruct (decide (h = vma_list t)) as [->|Hne].
  - exists (vma_list t), ps. split; [done|]. split; [done|]. simplify_eq. rewrite app_comm_cons in Hq.
    apply elem_of_app in Hq as [Hq|Hq]; [done|]. by destruct (H3 q m Hq).
  - exists h, l. split; [done|]. split; [by rewrite <- Ha|done].
Qed.

Record added (s s' : kstate) (L L' : rings) (g g' : ka_ghost) (t : Z) (vs : list vm_area) (v : vm_area) : Prop := {
  ad_inv : ka_inv (k_heap s') L' g';
  ad_areas : areas_ok s' L' t (vs ++ [v]);
  ad_others : ∀ t' vs', t' ≠ t → ¬ ka_private (vma_list t') → areas_ok s L t' vs' → areas_ok s' L' t' vs';
  ad_rings : agree_on (λ h, ¬ ka_private h ∧ h ≠ vma_list t) L L';
  ad_live : ∀ q m, ka_live L g q m → ka_live L' g' q m;
  ad_static : ∀ q, ka_static g q → ka_static g' q ∧ (node L' q → node L q);
  ad_lock : lk (k_heap s') = lk (k_heap s);
  ad_rest : (threads s', kwords s', nxt_pid s', rq s', curr_thread s', cpu s', tpidr_el1 s') =
    (threads s, kwords s, nxt_pid s, rq s, curr_thread s, cpu s, tpidr_el1 s) ∧
    (bytes (tm s'), tasks (tm s'), timer_task_head (tm s'), hw (tm s')) = (bytes (tm s), tasks (tm s), timer_task_head (tm s), hw (tm s));
  ad_grown : grown L g L' g' t;
}.

Lemma add_vma_run s L g k t virt size phys prot flag vs :
  ka_inv (k_heap s) L g → ka_room g (S k) → areas_ok s L t vs → ¬ ka_private (vma_list t) → 0 ≤ flag < 2 ^ 32 →
  ∃ s' L' g', add_vma alloc t virt size phys prot flag s = Ok s' ∧ ka_room g' k ∧
    added s s' L L' g g' t vs (VmArea virt phys (round_page size) prot flag).
Proof.
  intros HI HR (ps & Hps & Hvs) Hp Hflag.
  destruct (k_alloc_ok s L g sizeof_vm_area k HI) as (p & c & h & L1 & g1 & E & Hlk & HI1 & HR1 & Ha & Hn & _ & Hc & Hnl & Hl & Hs);
    [unfold sizeof_vm_area; lia|done|].
  assert (L1 !! vma_list t = Some (ps ++ [])) as Hps1 by (rewrite app_nil_r, Ha; done).
  destruct (list_add_tail_ok (lm h) L1 (vma_list t) ps [] p (ka_lists _ _ _ HI1)) as (m & Em & Hok).
  { done. }
  { done. }
  set (v := VmArea virt phys (round_page size) prot flag).
  set (s1 := with_vmas (<[p := v]> (vmas s)) (with_k_heap h s)).
  assert (∀ t' ps', L1 !! vma_list t' = Some ps' → p ∉ ps') as Hfresh.
  { intros t' ps' Hps' Hin. apply Hn, (node_elem L1 _ _ _ Hps'). by right. }
  assert (∀ t' ps' vs', L1 !! vma_list t' = Some ps' → Forall2 (λ p v, vmas s !! p = Some v) ps' vs' →
    Forall2 (λ p v, vmas s1 !! p = Some v) ps' vs') as Hkeep.
  { intros t' ps' vs' Hps' Hf. pose proof (Hfresh t' ps' Hps') as Hni. clear Hps'. induction Hf as [|q w ps' vs' Hq Hf IH]; [done|].
    constructor; [|apply IH; set_solver]. simpl. rewrite lookup_insert_ne; [done|]. set_solver. }
  exists (with_k_lm m s1), (<[vma_list t := ps ++ [p]]> L1), g1. split; [|split; [done|]].
  - unfold add_vma. rewrite E. cbn [mbind res_bind]. rewrite (u32_small flag) by done. fold v. fold s1.
    change (k_lm s1) with (lm h). exact (bind_step _ _ _ _ Em eq_refl).
  - split.
    + apply (ka_set_ring h L1 g1 m (vma_list t)); [done|done|done|].
      intros q Hq. rewrite elem_of_cons, elem_of_app, list_elem_of_singleton in Hq.
      destruct Hq as [->|[Hq| ->]].
      * left. apply (node_elem L1 _ _ _ Hps1). by left.
      * left. apply (node_elem L1 _ _ _ Hps1). right. apply elem_of_app. by left.
      * right. right. exists c. split; [apply Hc; unfold sizeof_vm_area; lia|]. apply Hl. by right.
    + exists (ps ++ [p]). split; [by rewrite lookup_insert_eq|]. apply Forall2_app.
      * apply (Hkeep t); [|done]. by rewrite app_nil_r in Hps1.
      * constructor; [|constructor]. apply lookup_insert_eq.
    + intros t' vs' Ht' Hp' (ps' & Hps' & Hvs'). exists ps'.
      assert (L1 !! vma_list t' = Some ps') as Hps'' by (rewrite Ha; done).
      split; [|by apply (Hkeep t')]. rewrite lookup_insert_ne; [done|]. unfold vma_list. lia.
    + intros h' [Hh1 Hh2]. rewrite lookup_insert_ne by done. by apply Ha.
    + intros q m' Hq. apply (ka_live_agree L1); [|apply Hl; by left].
      intros h' Hh'. rewrite lookup_insert_ne; [done|]. by intros <-.
    + intros q Hq. destruct (Hs q Hq) as (Hq0 & Hq1 & Hq2). split; [done|]. intros [Hx|Hx]%node_insert; [|by apply Hq2].
      rewrite elem_of_cons, elem_of_app, list_elem_of_singleton in Hx. destruct Hx as [->|[Hx| ->]].
      * apply (node_elem L _ _ _ Hps). by left.
      * apply (node_elem L _ _ _ Hps). by right.
      * done.
    + done.
    + done.
    + exists ps, [p]. split; [done|]. split; [by rewrite lookup_insert_eq|]. split; [by intros q c' ->%list_elem_of_singleton|].
      intros q m' Hq. rewrite list_elem_of_singleton. assert (ka_live L1 g1 q m') as Hq1.
      { apply (ka_live_agree (<[vma_list t := ps ++ [p]]> L1)); [|done]. intros h' Hh'. rewrite lookup_insert_ne; [done|]. by intros <-. }
      apply Hl in Hq1 as [?|[? _]]; auto.
Qed.
End areas.

(** ** Looking for an area *)

Lemma area_search (f : vm_area → bool) s L t vs : lists_ok (k_lm s) L → areas_ok s L t vs →
  ∃ pos, list_for_each k_lm (ring_fuel (k_lm s)) (vma_list t)
      (λ p s, v ← load (vmas s !! p); mret (if f v then Break p s else Next p s)) s = Ok (pos, s) ∧
    match find f vs with
    | Some v => pos ≠ vma_list t ∧ vmas s !! pos = Some v
    | None => pos = vma_list t
    end.
Proof.
  intros Hok (ps & Hps & Hvs). pose proof (ring_fuel_enough _ _ _ _ Hok Hps) as Hfuel.
  pose proof (lo_nodup _ _ Hok _ _ Hps) as Hnd. apply NoDup_cons in Hnd as [Hnd _].
  assert (∀ ps1 vs1, Forall2 (λ p v, vmas s !! p = Some v) ps1 vs1 → Forall (λ v, f v = false) vs1 →
    ∀ p, p ∈ ps1 → (v ← load (vmas s !! p); mret (if f v then Break p s else Next p s)) = Ok (Next p s)) as Hskip.
  { intros ps1 vs1 H12 Hf p Hp. apply list_elem_of_lookup in Hp as [i Hi].
    destruct (Forall2_lookup_l _ _ _ _ _ H12 Hi) as (v & Hv & E). rewrite E. simpl.
    by rewrite (proj1 (Forall_lookup _ _) Hf i v Hv). }
  destruct (find f vs) as [v|] eqn:Ef.
  - apply find_filter in Ef as (vs1 & vs2 & -> & Hf & Hn).
    apply Forall2_app_inv_r in Hvs as (ps1 & ps2' & H1 & H2 & ->).
    destruct ps2' as [|p ps2]; [by inversion H2|]. apply Forall2_cons in H2 as [Hp H2].
    exists p. split; [|split; [|done]].
    + apply (list_for_each_found k_lm L _ ps1 p ps2); [done|done|done| |].
      * apply (Hskip ps1 vs1 H1). apply Forall_forall. intros w Hw. destruct (f w) eqn:Ew; [|done].
        exfalso. apply (not_elem_of_nil w). rewrite <- Hn. apply list_elem_of_filter. by rewrite Ew.
      * by rewrite Hp; simpl; rewrite Hf.
    + intros ->. apply Hnd. apply elem_of_app. right. by left.
  - exists (vma_list t). split; [|done]. apply (list_for_each_none k_lm L _ ps); [done|done|done|].
    apply (Hskip ps vs Hvs). apply Forall_forall. intros w Hw. apply list_elem_of_In in Hw. by apply (find_none _ _ Ef).
Qed.

(** ** Aborts *)

Definition translation_fault (iss : Z) : bool :=
  let ifsc := Z.land iss 0x3f in (ifsc =? TF_LEVEL0) || (ifsc =? TF_LEVEL1) || (ifsc =? TF_LEVEL2) || (ifsc =? TF_LEVEL3).

(** an abort outside every area of the running thread, and any abort that is
    not a translation fault, ends the thread: [handle_abort] is [thread_exit]. *)
Theorem handle_abort_kills alloc far iss s L vs :
  lists_ok (k_lm s) L → areas_ok s L (curr_thread s) vs →
  find (vma_hit far) vs = None ∨ translation_fault iss = false →
  handle_abort alloc far iss s = thread_exit s.
Proof.
  intros Hok Ha Hwhy. destruct (area_search (vma_hit far) s L _ vs Hok Ha) as (pos & E & Hpos).
  unfold handle_abort. rewrite E. cbn [mbind res_bind]. destruct (find (vma_hit far) vs) as [v|].
  - destruct Hpos as [Hne _]. rewrite (proj2 (Z.eqb_neq _ _) Hne). destruct Hwhy as [|Hwhy]; [done|].
    unfold translation_fault in Hwhy. cbv zeta in *. by rewrite Hwhy.
  - by rewrite Hpos, Z.eqb_refl.
Qed.

Section abort.
Context `{PA : PageAlloc alloc}.

Lemma run_mm_ok (f : mm → res mm) s m : f (Mm (k_heap s) (kwords s)) = Ok m →
  run_mm f s = Ok (K (with_heap (mm_heap m) (tm s)) (words m) (vmas s) (threads s) (nxt_pid s) (curr_thread s) (rq s) (cpu s) (tpidr_el1 s)).
Proof using. intros E. unfold run_mm. by rewrite E. Qed.

Lemma fault_page (a far : Z) : 0 ≤ a ≤ far → a mod 0x1000 = 0 → far < 2 ^ 48 →
  let addr := u64 (far - a) in
  (if addr mod 0x1000 =? 0 then addr else addr - addr mod 0x1000) = far - a - (far - a) mod 0x1000 ∧
  u64 (a + (far - a - (far - a) mod 0x1000)) = 0x1000 * (far / 0x1000).
Proof using.
  intros Ha Hm Hfar addr. unfold addr. rewrite u64_small by lia.
  pose proof (Z.mod_pos_bound (far - a) 0x1000 ltac:(lia)). split.
  - destruct (Z.eqb_spec ((far - a) mod 0x1000) 0); lia.
  - apply Z.mod_divide in Hm as [c ->]; [|lia].
    assert ((far - c * 0x1000) mod 0x1000 = far mod 0x1000) as ->.
    { replace (far - c * 0x1000) with (far + (- c) * 0x1000) by lia. by rewrite Z.mod_add by lia. }
    pose proof (Z.div_mod far 0x1000 ltac:(lia)). pose proof (Z.mod_pos_bound far 0x1000 ltac:(lia)).
    rewrite u64_small; lia.
Qed.

(** The page that an abort of an area maps, as the memory of the area has it. *)
Definition fault_frame (v : vm_area) (far : Z) : Z := phys_addr v + (far - virt_addr v - (far - virt_addr v) mod 0x1000).

Lemma fault_frame_page v far : 0 ≤ virt_addr v ≤ far → virt_addr v mod 0x1000 = 0 → 0 ≤ phys_addr v →
  phys_addr v + (far - virt_addr v) < 2 ^ 48 →
  0 ≤ fault_frame v far < 2 ^ 48 ∧ fault_frame v far mod 0x1000 = phys_addr v mod 0x1000 ∧
  (∀ va, va / 0x1000 = far / 0x1000 → fault_frame v far + va mod 0x1000 = phys_addr v + (va - virt_addr v)).
Proof using.
  intros Hv Hvm Hp Hpa. unfold fault_frame. set (x := far - virt_addr v) in *.
  pose proof (Z.mod_pos_bound x 0x1000 ltac:(lia)). pose proof (Z.mod_le x 0x1000 ltac:(lia) ltac:(lia)).
  split; [lia|]. split.
  - rewrite Z.add_sub_assoc, Zminus_mod_idemp_r. f_equal. lia.
  - intros va Hva. pose proof (Z.div_mod va 0x1000 ltac:(lia)). pose proof (Z.div_mod far 0x1000 ltac:(lia)).
    assert (x mod 0x1000 = far mod 0x1000) as ->; [|lia].
    apply Z.mod_divide in Hvm as [c Ec]; [|lia]. unfold x. rewrite Ec.
    replace (far - c * 0x1000) with (far + (- c) * 0x1000) by lia. by rewrite Z.mod_add by lia.
Qed.

Lemma handle_abort_run far iss s L g m root T vs v t :
  lists_ok (k_lm s) L → areas_ok s L (curr_thread s) vs → find (vma_hit far) vs = Some v →
  translation_fault iss = true → curr s = Ok t → ttbr0_el1 (cxt t) = 0x1000 * root → 0 ≤ root < FRAMES_COUNT →
  space_ok (Mm (k_heap s) (kwords s)) g (3 + m) root T →
  0 ≤ virt_addr v → virt_addr v mod 0x1000 = 0 → 0 ≤ phys_addr v →
  far < 2 ^ 48 → phys_addr v + (far - virt_addr v) < 2 ^ 48 →
  ∃ s' g' T', handle_abort alloc far iss s = Ok s' ∧ space_ok (Mm (k_heap s') (kwords s')) g' m root T' ∧
    (∀ va, 0 ≤ va < 2 ^ 48 → hw_walk PHYS_TO_VIRT (kwords s') 4 0 (0x1000 * root) va =
      if decide (va / 0x1000 = far / 0x1000) then Some (page_desc (fault_frame v far) (prot_flags (protected v)), 3)
      else hw_walk PHYS_TO_VIRT (kwords s) 4 0 (0x1000 * root) va) ∧
    (∀ va, 0 ≤ va < 2 ^ 48 → translate PHYS_TO_VIRT (kwords s') (0x1000 * root) va =
      if decide (va / 0x1000 = far / 0x1000) then Some (phys_addr v - phys_addr v mod 0x1000 + (va - virt_addr v))
      else translate PHYS_TO_VIRT (kwords s) (0x1000 * root) va) ∧
    (threads s', vmas s', curr_thread s', cpu s', k_bytes s', lk (k_heap s')) =
      (threads s, vmas s, curr_thread s, cpu s, k_bytes s, lk (k_heap s)).
Proof using.
  intros Hok Ha Hf Hiss Ht Hroot Hr HS Hv0 Hvm Hp0 Hfar Hpa.
  destruct (area_search (vma_hit far) s L _ vs Hok Ha) as (pos & E & Hpos). rewrite Hf in Hpos. destruct Hpos as [Hne Hv].
  apply find_some in Hf as [_ Hhit]. unfold vma_hit in Hhit. apply andb_true_iff in Hhit as [Hhit _]. apply Z.leb_le in Hhit.
  destruct (fault_page (virt_addr v) far) as [Eaddr Eva]; [lia|done|done|].
  destruct (fault_frame_page v far) as (Hff & Hfm & Hfa); [lia|done|done|done|].
  destruct (mapping_run _ g m root T (0x1000 * (far / 0x1000)) (fault_frame v far) (prot_flags (protected v)) HS) as (m' & g' & T' & Em & Hlk & HS' & Hw).
  assert (∀ va, 0 ≤ va < 2 ^ 48 → same_page (0x1000 * (far / 0x1000)) va ↔ va / 0x1000 = far / 0x1000) as Hsp.
  { intros va Hva. unfold same_page. rewrite (Z.mul_comm 0x1000), Z.div_mul by lia. rewrite !Z.mod_small; [split; congruence|..];
      (split; [apply Z.div_pos; lia|apply Z.div_lt_upper_bound; lia]). }
  eexists _, g', T'. split; [|split; [|split; [|split]]].
  - unfold handle_abort. rewrite E. cbn [mbind res_bind]. rewrite (proj2 (Z.eqb_neq _ _) Hne).
    unfold translation_fault in Hiss. cbv zeta in Hiss |- *. rewrite Hiss. rewrite Hv. cbn [load mbind res_bind].
    rewrite Ht. cbn [mbind res_bind]. rewrite Eaddr, Eva, Hroot. fold (fault_frame v far). rewrite (u64_small (fault_frame v far)) by lia.
    destruct (page_phys root Hr) as [_ ->]. apply run_mm_ok. exact Em.
  - cbn. destruct m'. exact HS'.
  - intros va Hva. cbn [kwords]. rewrite Hw. specialize (Hsp va Hva). do 2 case_decide; tauto || done.
  - intros va Hva. cbn [kwords]. rewrite (translate_mapped _ _ _ _ _ (prot_flags (protected v)) Hff (prot_flags_ok _) Hw).
    rewrite Hfm. specialize (Hsp va Hva). specialize (Hfa va). do 2 case_decide; try tauto. f_equal. lia.
  - cbn. by rewrite Hlk.
Qed.

(** C15: a translation fault inside an area maps the page of the faulting address,
    and that page only, to the corresponding page of the area's memory, with a
    descriptor that lets the program execute, write and reach the page exactly
    as the protection of the area says; the walk of any other address is as
    before, and the thread can go on. The test includes the end of the area:
    the page behind an area of whole pages is mapped, too. *)
Theorem handle_abort_maps far iss s L g m root T vs v t :
  lists_ok (k_lm s) L → areas_ok s L (curr_thread s) vs → find (vma_hit far) vs = Some v →
  translation_fault iss = true → curr s = Ok t → ttbr0_el1 (cxt t) = 0x1000 * root → 0 ≤ root < FRAMES_COUNT →
  space_ok (Mm (k_heap s) (kwords s)) g (3 + m) root T →
  0 ≤ virt_addr v → virt_addr v mod 0x1000 = 0 → 0 ≤ phys_addr v → phys_addr v mod 0x1000 = 0 →
  far < 2 ^ 48 → phys_addr v + (far - virt_addr v) < 2 ^ 48 →
  ∃ s' g' T' d, handle_abort alloc far iss s = Ok s' ∧ space_ok (Mm (k_heap s') (kwords s')) g' m root T' ∧
    (∀ va, 0 ≤ va < 2 ^ 48 → hw_walk PHYS_TO_VIRT (kwords s') 4 0 (0x1000 * root) va =
      if decide (va / 0x1000 = far / 0x1000) then Some (d, 3) else hw_walk PHYS_TO_VIRT (kwords s) 4 0 (0x1000 * root) va) ∧
    Z.testbit d 54 = negb (Z.testbit (protected v) 2) ∧ Z.testbit d 7 = negb (Z.testbit (protected v) 1) ∧
    Z.testbit d 6 = Z.testbit (protected v) 0 ∧ Z.testbit d 53 = true ∧
    (∀ va, 0 ≤ va < 2 ^ 48 → translate PHYS_TO_VIRT (kwords s') (0x1000 * root) va =
      if decide (va / 0x1000 = far / 0x1000) then Some (phys_addr v + (va - virt_addr v))
      else translate PHYS_TO_VIRT (kwords s) (0x1000 * root) va) ∧
    (threads s', vmas s', curr_thread s', cpu s', k_bytes s', lk (k_heap s')) =
      (threads s, vmas s, curr_thread s, cpu s, k_bytes s, lk (k_heap s)).
Proof using.
  intros Hok Ha Hf Hiss Ht Hroot Hr HS Hv0 Hvm Hp0 Hpm Hfar Hpa.
  destruct (handle_abort_run far iss s L g m root T vs v t) as (s' & g' & T' & E & HS' & Hw & Htr & Hrest); try done.
  apply find_some in Hf as [_ Hhit]. unfold vma_hit in Hhit. apply andb_true_iff in Hhit as [Hhit _]. apply Z.leb_le in Hhit.
  destruct (fault_frame_page v far) as (Hff & Hfm & _); [lia|done|done|done|].
  destruct (prot_desc_bits (fault_frame v far) (protected v)) as [Ed (R1 & R2 & R3 & R4)]; [split; [done|by rewrite Hfm]|].
  rewrite Hpm, Z.sub_0_r in Htr. rewrite <- Ed in R1, R2, R3, R4. by exists s', g', T', (page_desc (fault_frame v far) (prot_flags (protected v))).
Qed.
End abort.

(** ** Witnesses *)

Definition page_thread (root : Z) : thread := with_cxt (with_ttbr0 (0x1000 * root) (cxt_ex 0)) (thread_ex 0 THREAD_RUNNING).

(** A running thread at [c] without areas, and with room for [k] objects. *)
Lemma running_ex k : (k ≤ 1000)%nat → ∃ s L g, let c := VIRT_BASE + 0x90000 in
  ka_inv (k_heap s) L g ∧ ka_room g k ∧ areas_ok s L c [] ∧ ¬ ka_private (vma_list c) ∧ curr_thread s = c ∧
  threads s = {[c := page_thread 0xa0]} ∧ ka_static g (page_addr 0xa0) ∧
  (∀ x, 0 ≤ x < 512 → kwords s !! Mmu.entry (page_addr 0xa0) x = Some 0).
Proof.
  intros Hk. destruct (kernel_ex k Hk) as (h & L & g & r & HI & HR & _ & _ & HS). set (c := VIRT_BASE + 0x90000).
  destruct (HS (vma_list c)) as (A1 & A2 & A3); [unfold c, vma_list; lia|].
  destruct (HS (page_addr 0xa0)) as (B1 & _); [unfold page_addr; change FRAME_START with VIRT_BASE; lia|].
  set (h1 := with_lm (INIT_LIST_HEAD (lm h) (vma_list c)) h).
  destruct (clear_table_ok (page_addr 0xa0) (Mm h1 ∅)) as (m & _ & _ & Hz & _).
  exists (K (TState h1 r ∅ ∅ hw_ex) (words m) ∅ {[c := page_thread 0xa0]} 0 c r (cxt_ex 0) c), (<[vma_list c := []]> L), g.
  cbv zeta. split; [|split; [exact HR|split; [|split; [exact A3|split; [reflexivity|split; [reflexivity|split; [exact B1|exact Hz]]]]]]].
  - apply (ka_set_ring h L); [done|done|apply INIT_LIST_HEAD_head; [by eapply ka_lists|done]|].
    intros q [->|Hq]%elem_of_cons; [by right; left|by apply not_elem_of_nil in Hq].
  - exists []. split; [by rewrite lookup_insert_eq|constructor].
Qed.

Definition area_ex : vm_area := VmArea 0 0x800000 0x4000 5 1.

(** The same with one area, and the tables as PageTable.v wants them. *)
Lemma area_state_ex : ∃ s L (g : pa_ghost), lists_ok (k_lm s) L ∧ areas_ok s L (curr_thread s) [area_ex] ∧
  curr s = Ok (page_thread 0xa0) ∧ space_ok (Mm (k_heap s) (kwords s)) g 3 0xa0 {[ [] := 0xa0 ]}.
Proof.
  destruct (running_ex 2) as (s & L & g & HI & HR & Ha & Hp & Hc & Ht & Hs & Hz); [lia|].
  destruct (add_vma_run s L g 1 (VIRT_BASE + 0x90000) 0 0x4000 0x800000 5 1 [] HI HR Ha Hp) as (s' & L' & g' & _ & HR' & HA); [lia|].
  destruct HA as [HI' Ha' _ _ _ Hs' _ [Hr _]]. injection Hr as Er1 Er2 _ _ Er3 _ _.
  exists s', L', (L', g'.1, g'.2). split; [by eapply ka_lists|]. rewrite Er3, Hc. split; [exact Ha'|]. split.
  - unfold curr, get_thread. by rewrite Er1, Er3, Hc, Ht, lookup_singleton_eq.
  - split; [exact HI'| |].
    + apply big_blocks_room; [apply (bi_part _ _ _ _ (hp_buddy _ _ _ _ _ HI'))|exact HR'|lia].
    + apply fresh_tree; [unfold FRAMES_COUNT; lia| |cbn [words]; rewrite Er2; exact Hz].
      destruct (Hs' _ Hs) as [[_ Hs2] _]. apply (Hs2 0xa0); [unfold FRAMES_COUNT; lia|apply in_page_refl].
Qed.

Lemma handle_abort_maps_witness : ∃ s s', handle_abort (kmalloc layout_ex) 0x1234 6 s = Ok s' ∧
  translate PHYS_TO_VIRT (kwords s') 0xa0000 0x1ffc = Some 0x801ffc ∧
  ∃ d, hw_walk PHYS_TO_VIRT (kwords s') 4 0 0xa0000 0x1ffc = Some (d, 3) ∧ Z.testbit d 54 = false ∧ Z.testbit d 7 = true.
Proof.
  destruct area_state_ex as (s & L & g & Hok & Ha & Hc & HS).
  destruct (handle_abort_maps 0x1234 6 s L g 0 0xa0 {[ [] := 0xa0 ]} [area_ex] area_ex (page_thread 0xa0)) as (s' & g' & T' & d & E & _ & Hw & R1 & R2 & _ & _ & Ht & _).
  - exact Hok.
  - exact Ha.
  - reflexivity.
  - reflexivity.
  - exact Hc.
  - reflexivity.
  - unfold FRAMES_COUNT. lia.
  - exact HS.
  - cbn. lia.
  - reflexivity.
  - cbn. lia.
  - reflexivity.
  - lia.
  - cbn. lia.
  - exists s, s'. split; [exact E|]. change 0xa0000 with (0x1000 * 0xa0). split; [rewrite Ht by lia; rewrite decide_True by reflexivity; reflexivity|].
    exists d. split; [rewrite Hw by lia; rewrite decide_True by reflexivity; reflexivity|]. split; [exact R1|exact R2].
Defined.

Lemma handle_abort_kills_witness : ∃ s, handle_abort (kmalloc layout_ex) 0x9000 6 s = thread_exit s.
Proof.
  destruct area_state_ex as (s & L & g & Hok & Ha & _). exists s.
  apply (handle_abort_kills _ _ _ s L [area_ex] Hok Ha). left. reflexivity.
Defined.
