(* ===== verification/Reap.v ===== *)
(** The end of a thread: [kill_zombies] of lib/sched.c gives back what the dead
    threads own and makes their slots free. *)
From S2P Require Import Prelude Util ListHead Lock Mem Malloc Buddy Reserve Heap Alloc KAlloc KFree PageAlloc Mmu PageTable Timer Thread Sched RunQueue Spawn Areas.
Local Open Scope Z_scope.

Lemma filter_iff_in {A} (P Q : A → Prop) `{∀ x, Decision (P x), ∀ x, Decision (Q x)} (l : list A) :
  (∀ x, x ∈ l → P x ↔ Q x) → filter P l = filter Q l.
Proof.
  induction l as [|x l IH]; intros Hl; [done|]. rewrite !filter_cons, IH by set_solver.
  destruct (decide (P x)) as [Hp|Hp], (decide (Q x)) as [Hq|Hq]; try done; exfalso; [apply Hq|apply Hp]; apply (Hl x); (done || set_solver).
Qed.

Section reap.
Context {alloc : Z → mstate → res (Z * mstate)} {free : Z → mstate → res mstate} {KA : KAlloc alloc} {KF : KFree alloc free}.

(** ** Giving objects back *)

(** No list node and no record of the allocator lies in the object. *)
Record freeable (L : rings) (g : ka_ghost) (o : Z * Z) : Prop := {
  fa_live : ka_live L g o.1 o.2;
  fa_align : o.2 ≤ 0x200 → o.1 mod 0x1000 ≠ 0;
  fa_clear : ∀ q, node L q ∨ kf_meta q → ¬ kf_within o.1 o.2 q;
}.

Lemma freeable_self s L g o : ka_inv s L g → freeable L g o → ¬ node L o.1 ∧ ¬ kf_meta o.1.
Proof using.
  intros HI [Hl _ Hc]. split; intros Hx; apply (Hc o.1); auto; by eapply kf_self.
Qed.

Lemma freeable_sub L L' g o : agree_on ka_private L L' → (∀ q, node L' q → node L q) → freeable L g o → freeable L' g o.
Proof using.
  intros Ha Hn [Hl Ho Hc]. split; [by apply (ka_live_agree L)|done|]. intros q [Hq|Hq]; apply Hc; [left; by apply Hn|by right].
Qed.

(** The heap after the objects [os] have been given back, one after the other. *)
Record frees (h0 : mstate) (L0 : rings) (g0 : ka_ghost) (h : mstate) (L : rings) (g : ka_ghost) (os : list (Z * Z)) : Prop := {
  fr_inv : ka_inv h L g;
  fr_lock : lk h = lk h0;
  fr_room : ∀ k, ka_room g0 k → ka_room g k;
  fr_rings : agree_on (λ h, ¬ ka_private h) L0 L;
  fr_live : ∀ q m, ka_live L g q m ↔ ka_live L0 g0 q m ∧ q ∉ os.*1;
  fr_static : ∀ q, ka_static g0 q → (∀ o, o ∈ os → ¬ kf_within o.1 o.2 q) → ka_static g q;
  fr_nodes : ∀ q, node L q → node L0 q ∨ kf_meta q ∨ q ∈ os.*1;
  fr_cells : cells_same (λ q, node L0 q ∨ kf_meta q ∨ q ∈ os.*1) (lm h0) (lm h);
  fr_tidy : ∀ keep, (∀ q m, keep q m → ka_live L0 g0 q m ∧ q ∉ os.*1) → Forall (λ o, propped keep o.1 o.2) os → ka_tidy g0 → ka_tidy g;
}.

Lemma frees_nil h L g : ka_inv h L g → frees h L g h L g [].
Proof using.
  intros HI. split; try done; [|by left]. intros q m. split; [|by intros [? _]]. intros H. split; [done|by apply not_elem_of_nil].
Qed.

(** What is left can still be given back; [X] and [X'] are the rings that count. *)
Lemma frees_freeable h0 L0 g0 h L g os X X' o : ka_inv h0 L0 g0 → frees h0 L0 g0 h L g os → Forall (freeable L0 g0) os →
  agree_on ka_private L0 X → agree_on ka_private L X' → (∀ q, node X' q → node X q ∨ kf_meta q ∨ q ∈ os.*1) →
  freeable X g0 o → o.1 ∉ os.*1 → freeable X' g o.
Proof using.
  intros HI [F1 F2 F3 F4 F5 F6 F7 F8 F9] Hos HX HX' Hn [Hl Ha Hc] Hno. assert (ka_live L0 g0 o.1 o.2) as Hl0 by (by apply (ka_live_agree X)).
  split; [apply (ka_live_agree L); [done|by apply F5]|done|].
  intros q [[Hq|[Hq|Hq]]%Hn|Hq]; [by apply Hc; left|by apply Hc; right| |by apply Hc; right].
  apply list_elem_of_fmap in Hq as (o' & -> & Ho'). rewrite Forall_forall in Hos. destruct (Hos _ Ho') as [Hl' _ _].
  apply (kf_apart h0 L0 g0 o'.1 o'.2 o.1 o.2); [done..|]. intros E. apply Hno. rewrite <- E. apply list_elem_of_fmap. by exists o'.
Qed.

Lemma frees_step h0 L0 g0 h L g os o : ka_inv h0 L0 g0 → frees h0 L0 g0 h L g os → Forall (freeable L0 g0) os →
  freeable L0 g0 o → o.1 ∉ os.*1 → ∃ h' L' g', free o.1 h = Ok h' ∧ frees h0 L0 g0 h' L' g' (os ++ [o]).
Proof using.
  intros HI HF Hos Ho Hno. destruct (frees_freeable h0 L0 g0 h L g os L0 L o HI HF Hos) as [Hl Ha Hc]; [done|done|apply HF|done|done|].
  destruct HF as [F1 F2 F3 F4 F5 F6 F7 F8 F9].
  destruct (kf_free h L g o.1 o.2 F1 Hl Ha Hc) as (h' & L' & g' & E & G2 & G1 & G3 & G4 & G5 & G6 & G7 & G8 & G9).
  exists h', L', g'. split; [done|]. split.
  - done.
  - by rewrite G2.
  - intros k Hk. by apply G3, F3.
  - by transitivity L.
  - intros q m. rewrite G5, F5, fmap_app. cbn [fmap list_fmap]. rewrite elem_of_app, list_elem_of_singleton. tauto.
  - intros q Hq Hout. apply G6; [apply F6; [done|]; intros o' Ho'; apply Hout|apply Hout]; apply elem_of_app; [by left|by right; left].
  - intros q Hq. rewrite fmap_app, elem_of_app. cbn [fmap list_fmap]. rewrite list_elem_of_singleton.
    apply G7 in Hq as [[?|[?|?]]%F7|[?| ->]]; auto.
  - transitivity (lm h); [eapply cells_same_weaken; [|exact F8]|eapply cells_same_weaken; [|exact G8]]; intros q; rewrite fmap_app, elem_of_app;
      cbn [fmap list_fmap]; rewrite list_elem_of_singleton; [tauto|]. intros [[?|[?|?]]%F7|[?| ->]]; auto.
  - intros keep Hk [Hp1 [Hp2 _]%Forall_cons]%Forall_app Ht. assert (∀ q m, keep q m → ka_live L0 g0 q m ∧ q ∉ os.*1) as Hk'.
    { intros q m [H1 H2]%Hk. split; [done|]. intros Hin. apply H2. rewrite fmap_app. apply elem_of_app. by left. }
    apply G9; [by apply (F9 keep)|]. intros Hn u Hu E'. destruct (Hp2 Hn u Hu E') as (q & m & Hq & Hr). exists q, m. split; [|done].
    by apply F5, Hk'.
Qed.

(** The rings of the clients are apart from what was given back. *)
Lemma frees_delete h0 L0 g0 h L g os hd q : frees h0 L0 g0 h L g os → ¬ ka_private hd →
  node (delete hd L) q → node (delete hd L0) q ∨ kf_meta q ∨ q ∈ os.*1.
Proof using.
  intros HF Hp (h' & l' & [Hne Hl]%lookup_delete_Some & Hq). pose proof (ka_lists _ _ _ (fr_inv _ _ _ _ _ _ _ HF)) as Hok.
  destruct (fr_nodes _ _ _ _ _ _ _ HF q (node_elem _ _ _ _ Hl Hq)) as [(h2 & l2 & Hl2 & Hq2)|?]; [|by right].
  left. exists h2, l2. split; [|done]. apply lookup_delete_Some. split; [|done]. intros <-.
  apply Hne, (lo_disj _ _ Hok _ _ l2 l' q); [by rewrite (fr_rings _ _ _ _ _ _ _ HF)|done..].
Qed.

(** ** The areas of a thread *)

(** What [free_vmas] gives back: the memory of the areas that own theirs, and the areas. *)
Definition area_objects (ps : list Z) (vs : list vm_area) : list Z :=
  concat (zip_with (λ p v, (if allocated v =? 0 then [] else [PHYS_TO_VIRT (phys_addr v)]) ++ [p]) ps vs).


Lemma k_free_step h0 L0 g0 s L g os o : ka_inv h0 L0 g0 → frees h0 L0 g0 (k_heap s) L g os → Forall (freeable L0 g0) os →
  freeable L0 g0 o → o.1 ∉ os.*1 → ∃ h' L' g', k_free free o.1 s = Ok (with_k_heap h' s) ∧ frees h0 L0 g0 h' L' g' (os ++ [o]).
Proof using.
  intros HI HF Hos Ho Hno. destruct (frees_step _ _ _ _ _ _ _ _ HI HF Hos Ho Hno) as (h' & L' & g' & E & HF').
  exists h', L', g'. split; [|done]. unfold k_free. by rewrite E.
Qed.

(** The memory of one area, when it has its own. *)
Lemma free_area_run h0 L0 g0 s L g pre os v p rest : ka_inv h0 L0 g0 → frees h0 L0 g0 (k_heap s) L g pre →
  os.*1 = (if allocated v =? 0 then [] else [PHYS_TO_VIRT (phys_addr v)]) ++ p :: rest → Forall (freeable L0 g0) (pre ++ os) → NoDup (pre ++ os).*1 →
  ∃ h' L' g' os0 os1 n, (if negb (allocated v =? 0) then k_free free (PHYS_TO_VIRT (phys_addr v)) s else mret s) = Ok (with_k_heap h' s) ∧
    frees h0 L0 g0 h' L' g' (pre ++ os0) ∧ os = os0 ++ (p, n) :: os1 ∧ os1.*1 = rest.
Proof using.
  intros HI HF Hos Hfa Hnd. destruct (allocated v =? 0); cbn [negb app] in *.
  - apply fmap_cons_inv in Hos as ([p' n] & os1 & -> & -> & ->). exists (k_heap s), L, g, [], os1, n. split; [by destruct s as [[] ? ? ? ? ? ? ? ?]|].
    by rewrite app_nil_r.
  - apply fmap_cons_inv in Hos as (o & os2 & E & Hos & ->). symmetry in Hos. apply fmap_cons_inv in Hos as ([p' n] & os1 & -> & -> & ->).
    apply Forall_app in Hfa as [Hpre Hfa]. apply Forall_cons in Hfa as [Ho _].
    destruct (k_free_step _ _ _ _ _ _ _ _ HI HF Hpre Ho) as (h' & L' & g' & Ef & HF').
    { rewrite fmap_app in Hnd. apply NoDup_app in Hnd as (_ & Hnd & _). intros Hin. apply (Hnd _ Hin). by left. }
    exists h', L', g', [o], os1, n. rewrite E. done.
Qed.

Lemma free_vmas_run h0 L0 g0 hd ps : ∀ vs s L g pre os fuel, ka_inv h0 L0 g0 → frees h0 L0 g0 (k_heap s) L g pre →
  Forall2 (λ p v, vmas s !! p = Some v) ps vs → ListHead.path (lm h0) (ps ++ [hd]) →
  os.*1 = area_objects ps vs → Forall (freeable L0 g0) (pre ++ os) → NoDup (pre ++ os).*1 → (hd ∉ ps) → (length ps < fuel)%nat →
  ∃ h' L' g', free_vmas free fuel hd (after hd ps) s = Ok (with_k_heap h' s) ∧ frees h0 L0 g0 h' L' g' (pre ++ os).
Proof using.
  induction ps as [|p ps IH]; intros vs s L g pre os fuel HI HF Hvs Hp Hos Hfa Hnd Hh Hfu; (destruct fuel as [|fuel]; [lia|]).
  { apply Forall2_nil_inv_l in Hvs as ->. destruct os; [|done]. rewrite app_nil_r. exists (k_heap s), L, g. split; [|done].
    change (after hd []) with hd. cbn [free_vmas]. rewrite (proj2 (Z.eqb_eq _ _)) by done. by destruct s as [[] ? ? ? ? ? ? ? ?]. }
  apply Forall2_cons_inv_l in Hvs as (v & vs' & Hv & Hvs & ->). unfold area_objects in Hos. cbn [zip_with concat] in Hos. rewrite <- app_assoc in Hos.
  cbn [app] in Hos. destruct (free_area_run _ _ _ _ _ _ _ _ _ _ _ HI HF Hos Hfa Hnd) as (h1 & L1 & g1 & os0 & os1 & n & E1 & HF1 & -> & Hos1).
  rewrite app_assoc in Hfa, Hnd. pose proof Hfa as Hfa'. apply Forall_app in Hfa' as [Hpre Hfa']. apply Forall_cons in Hfa' as [Ho _].
  assert (p ∉ (pre ++ os0).*1) as Hno.
  { rewrite fmap_app in Hnd. apply NoDup_app in Hnd as (_ & Hnd & _). intros Hin. apply (Hnd _ Hin). by left. }
  assert (get_next (k_lm (with_k_heap h1 s)) p = Ok (after hd ps)) as En.
  { destruct (freeable_self _ _ _ _ HI Ho) as [N1 N2]. unfold get_next. change (k_lm (with_k_heap h1 s)) with (lm h1).
    rewrite (proj1 (fr_cells _ _ _ _ _ _ _ HF1 p ltac:(tauto))). destruct ps; destruct Hp as [[Hn _] _]; by rewrite Hn. }
  destruct (k_free_step _ _ _ (with_k_heap h1 s) L1 g1 (pre ++ os0) (p, n) HI HF1 Hpre Ho Hno) as (h2 & L2 & g2 & E2 & HF2).
  destruct (IH vs' (with_k_heap h2 s) L2 g2 ((pre ++ os0) ++ [(p, n)]) os1 fuel) as (h3 & L3 & g3 & E3 & HF3).
  - done.
  - exact HF2.
  - exact Hvs.
  - destruct ps; [done|]. apply Hp.
  - exact Hos1.
  - by rewrite <- app_assoc.
  - by rewrite <- app_assoc.
  - set_solver.
  - simpl in Hfu. lia.
  - exists h3, L3, g3. rewrite <- app_assoc in HF3. split; [|by rewrite app_assoc]. change (after hd (p :: ps)) with p. cbn [free_vmas].
    rewrite (proj2 (Z.eqb_neq p hd)) by set_solver. rewrite Hv. cbn [load mbind res_bind]. res_apply E1. res_apply En. res_apply E2. exact E3.
Qed.

(** ** One thread *)

(** [p] can be reaped, and [os] is all that is given back: its kernel stack, the
    memory of its areas, the areas. *)
Record reapable (s : kstate) (L : rings) (g : ka_ghost) (p : Z) (os : list (Z * Z)) : Prop := {
  rp_owns : ∃ t ps vs, threads s !! p = Some t ∧ L !! vma_list p = Some ps ∧ Forall2 (λ q v, vmas s !! q = Some v) ps vs ∧
    os.*1 = kstack_ptr t :: area_objects ps vs ∧
    ∃ used root T, tree_ok used (kwords s) root T ∧ 0 ≤ root < FRAMES_COUNT ∧ ttbr0_el1 (cxt t) = 0x1000 * root;
  rp_objects : Forall (freeable (delete (vma_list p) L) g) os ∧ NoDup os.*1;
  rp_static : ka_static g p ∧ ka_static g (vma_list p) ∧ ∀ o, o ∈ os → ¬ kf_within o.1 o.2 (vma_list p);
  rp_head : vma_list p ≠ rq s ∧ ¬ ka_private (vma_list p);
}.

Lemma area_in ps vs x : length ps = length vs → x ∈ ps → x ∈ area_objects ps vs.
Proof using.
  unfold area_objects. revert vs. induction ps as [|p ps IH]; intros [|v vs] Hl Hx; [by apply not_elem_of_nil in Hx|done..|].
  cbn [zip_with concat]. rewrite !elem_of_app, list_elem_of_singleton. apply elem_of_cons in Hx as [->|Hx]; [by left; right|right].
  apply IH; [simpl in Hl; lia|done].
Qed.

Lemma path_next m h ps x : ListHead.path m (ps ++ [h]) → x ∈ ps → is_Some (nxt m !! x).
Proof using.
  intros Hp (l1 & l2 & ->)%list_elem_of_split. rewrite <- app_assoc in Hp. cbn [app] in Hp. apply path_app in Hp as [_ Hp].
  destruct l2; destruct Hp as [[Hn _] _]; by eexists.
Qed.

Lemma nodes_fuel m ps : NoDup ps → (∀ x, x ∈ ps → is_Some (nxt m !! x)) → (length ps < ring_fuel m)%nat.
Proof using.
  intros Hnd Hs. unfold ring_fuel. assert (size (list_to_set ps : gset Z) ≤ size (dom (nxt m)))%nat as H.
  { apply subseteq_size. intros x Hx%elem_of_list_to_set. by apply elem_of_dom, Hs. }
  rewrite size_list_to_set in H by done. rewrite size_dom in H. lia.
Qed.

Lemma reap_run s L g l1 p l2 os : ka_inv (k_heap s) L g → L !! rq s = Some (l1 ++ p :: l2) → ¬ ka_private (rq s) → reapable s L g p os →
  let L1 := <[rq s := l1 ++ l2]> (delete (vma_list p) L) in
  ∃ m h' L' g' t, threads s !! p = Some t ∧ reap free p s = Ok (with_threads (<[p := with_state THREAD_UNUSED t]> (threads s)) (with_k_heap h' s)) ∧
    ka_inv (with_lm m (k_heap s)) L1 g ∧ frees (with_lm m (k_heap s)) L1 g h' L' g' os ∧
    get_next (lm h') p = Ok (after (rq s) l2) ∧ ¬ node L1 p ∧ ¬ node L1 (vma_list p).
Proof using.
  intros HI Hrq Hpr [(t & ps & vs & Ht & Hps & Hvs & Hos & used & root & T & HT & Hroot & Ett) [Hfa Hnd] (Hs1 & Hs2 & Hvw) [Hne Hvp]] L1.
  pose proof (ka_lists _ _ _ HI) as Hok. destruct (list_del_entry_ok _ _ _ _ _ _ Hok Hrq) as (m & Em & Hok1 & Hout & Hnext & _).
  assert (L1 = delete (vma_list p) (<[rq s := l1 ++ l2]> L)) as EL by (unfold L1; by rewrite delete_insert_ne).
  assert (∀ q, node L1 q → node (delete (vma_list p) L) q) as Hsub.
  { intros q [Hq|Hq]%node_insert; [|done]. apply (node_elem _ (rq s) (l1 ++ p :: l2)); [by rewrite lookup_delete_ne|set_solver]. }
  assert (lists_ok m L1) as Hok2 by (rewrite EL; by apply lists_ok_delete).
  assert (agree_on ka_private (delete (vma_list p) L) L1) as Ha1.
  { intros h Hh. unfold L1. rewrite lookup_insert_ne; [done|]. by intros <-. }
  assert (ka_inv (with_lm m (k_heap s)) L1 g) as HI1.
  { apply (ka_client (k_heap s) L); [done|done| |intros q Hq; left; by eapply node_delete, Hsub].
    intros h Hh. rewrite Ha1 by done. rewrite lookup_delete_ne; [done|]. by intros <-. }
  assert (Forall (freeable L1 g) os) as Hfa1 by (eapply Forall_impl; [exact Hfa|]; intros o; by apply freeable_sub).
  assert (¬ node L1 (vma_list p)) as Hv1.
  { intros Hx%Hsub. by apply (node_delete_out _ _ _ _ (vma_list p) Hok Hps); [left|]. }
  assert (¬ node L1 p) as Hp1 by (rewrite EL; by intros Hx%node_delete).
  assert (<[rq s := l1 ++ l2]> L !! vma_list p = Some ps) as Hps1 by (by rewrite lookup_insert_ne).
  pose proof (lo_ring _ _ Hok1 _ _ Hps1) as Hring. pose proof (lo_nodup _ _ Hok1 _ _ Hps1) as Hpnd.
  pose proof (get_next_ok _ _ _ [] _ Hok1 Hps1) as Hnv. cbn [last default from_option] in Hnv.
  set (h1 := with_lm m (k_heap s)) in *.
  apply fmap_cons_inv in Hos as (o & os1 & Eo & Hos1 & ->). symmetry in Hos1.
  pose proof Hfa1 as Hfa2. apply Forall_cons in Hfa2 as [Ho _].
  destruct (k_free_step h1 L1 g (with_k_lm m s) L1 g [] o HI1 (frees_nil _ _ _ HI1)) as (h2 & L2 & g2 & E2 & HF2);
    [by constructor|done|by apply not_elem_of_nil|].
  assert (vma_list p ∉ [o].*1) as Hvo.
  { intros [E|[]%not_elem_of_nil]%elem_of_cons. apply (Hvw o); [by left|]. rewrite E. apply (kf_self h1 L1 g); [done|]. apply Ho. }
  assert (∀ q, ¬ node L1 q → ¬ kf_meta q → q ∉ [o].*1 → nxt (lm h2) !! q = nxt m !! q) as Hcell.
  { intros q N1 N2 N3. apply (fr_cells _ _ _ _ _ _ _ HF2 q). by intros [|[|]]. }
  assert (ListHead.path m (ps ++ [vma_list p])) as Hpath by (clear -Hring; destruct ps; [done|apply Hring]).
  apply NoDup_cons in Hpnd as [Hvn Hpnd]. rewrite fmap_cons in Hnd. apply NoDup_cons in Hnd as [Ho1 Hnd1].
  assert (∀ x, x ∈ ps → nxt (lm h2) !! x = nxt m !! x) as Hcells.
  { intros x Hx. assert (x ∈ os1.*1) as Hin by (rewrite Hos1; apply area_in; [by eapply Forall2_length|done]).
    assert (x ≠ o.1) as Hxo by (by intros ->). apply list_elem_of_fmap in Hin as (o' & -> & Ho').
    rewrite Forall_forall in Hfa1. destruct (freeable_self h1 L1 g o' HI1) as [N1 N2]; [by apply Hfa1; right|].
    apply Hcell; [done|done|]. by intros [?|[]%not_elem_of_nil]%elem_of_cons. }
  destruct (free_vmas_run h1 L1 g (vma_list p) ps vs (with_k_heap h2 s) L2 g2 [o] os1 (ring_fuel (lm h2))) as (h' & L' & g' & E3 & HF3);
    [exact HI1|exact HF2|exact Hvs|exact Hpath|exact Hos1|exact Hfa1|cbn [app]; rewrite fmap_cons; by constructor|exact Hvn| |].
  { apply nodes_fuel; [done|]. intros x Hx. rewrite Hcells by done. by eapply path_next. }
  exists m, h', L', g', t. split; [done|]. split; [|split; [done|split; [exact HF3|split; [|done]]]].
  - unfold reap. res_apply Em. assert (get_thread p (with_k_lm m s) = Ok t) as Et by (unfold get_thread; cbn; by rewrite Ht).
    res_apply Et. rewrite Eo. res_apply E2.
    assert (run_mm (free_pages free (ttbr0_el1 (cxt t)) 0) (with_k_heap h2 (with_k_lm m s)) = Ok (with_k_heap h2 s)) as E4.
    { unfold run_mm. rewrite Ett. change (Mm _ _) with (Mm h2 (kwords s)). by rewrite (free_pages_run free used (Mm h2 (kwords s)) root T HT Hroot). }
    res_apply E4. assert (get_next (k_lm (with_k_heap h2 s)) (vma_list p) = Ok (after (vma_list p) ps)) as E5.
    { unfold get_next. change (k_lm (with_k_heap h2 s)) with (lm h2). rewrite Hcell; [exact Hnv|done| |done]. by eapply kf_static_meta. }
    res_apply E5. res_apply E3. by rewrite (upd_thread_ok p _ _ t).
  - assert (p ∉ (o :: os1).*1) as Hpo.
    { intros (o' & Ep & Ho')%list_elem_of_fmap. rewrite Forall_forall in Hfa. destruct (Hfa o' Ho') as [Hl' _ Hc'].
      apply (Hc' p); [left; apply (node_elem _ (rq s) (l1 ++ p :: l2)); [by rewrite lookup_delete_ne|set_solver]|].
      rewrite Ep. by eapply (kf_self h1 L1 g), (ka_live_agree (delete (vma_list p) L)). }
    assert (nxt (lm h') !! p = nxt m !! p) as En.
    { apply (fr_cells _ _ _ _ _ _ _ HF3 p). intros [Hx|[Hx|Hx]]; [done|by eapply kf_static_meta in Hx|done]. }
    unfold get_next. by rewrite En.
Qed.

(** ** The whole run queue *)

Definition dead (s : kstate) (l : list Z) : list Z := filter (λ p, is_runnable s p = false) l.
Definition alive (s : kstate) (l : list Z) : list Z := filter (λ p, is_runnable s p = true) l.

(** The kernel after the loop over [rest], the threads [kept] before it in the queue;
    [obj] gives the objects of each dead thread. *)
Record swept (obj : Z → list (Z * Z)) (s : kstate) (L : rings) (g : ka_ghost) (s' : kstate) (L' : rings) (g' : ka_ghost) (kept rest : list Z) : Prop := {
  sw_inv : ka_inv (k_heap s') L' g';
  sw_queue : L' !! rq s = Some (kept ++ alive s rest);
  sw_lock : lk (k_heap s') = lk (k_heap s);
  sw_room : ∀ k, ka_room g k → ka_room g' k;
  sw_rings : agree_on (λ h, ¬ ka_private h ∧ h ≠ rq s ∧ ∀ p, p ∈ dead s rest → h ≠ vma_list p) L L';
  sw_live : ∀ q m, ka_live L' g' q m ↔ ka_live L g q m ∧ q ∉ (dead s rest ≫= obj).*1;
  sw_static : ∀ q, ka_static g q → (∀ o, o ∈ dead s rest ≫= obj → ¬ kf_within o.1 o.2 q) → ka_static g' q;
  sw_nodes : ∀ q, node L' q → (node L q ∧ ∀ p, p ∈ dead s rest → q ≠ p ∧ q ≠ vma_list p) ∨ kf_meta q ∨ q ∈ (dead s rest ≫= obj).*1;
  sw_threads : ∀ q, threads s' !! q = (if decide (q ∈ dead s rest) then with_state THREAD_UNUSED else id) <$> threads s !! q;
  sw_rest : s' = with_threads (threads s') (with_k_heap (k_heap s') s);
}.

Lemma swept_nil obj s L g kept : ka_inv (k_heap s) L g → L !! rq s = Some kept → swept obj s L g s L g kept [].
Proof using.
  intros HI Hrq. split; cbn; try done.
  - by rewrite app_nil_r.
  - intros q m. split; [|by intros [? _]]. intros H. split; [done|apply not_elem_of_nil].
  - intros q Hq. left. split; [done|]. intros p []%not_elem_of_nil.
  - intros q. by destruct (threads s !! q).
  - by destruct s as [[] ? ? ? ? ? ? ? ?].
Qed.

(** A thread that lives is passed over. *)
Lemma swept_alive obj s L g s' L' g' kept p rest : is_runnable s p = true →
  swept obj s L g s' L' g' (kept ++ [p]) rest → swept obj s L g s' L' g' kept (p :: rest).
Proof using.
  intros Hp [S1 S2 S3 S4 S5 S6 S7 S8 S9 S10]. assert (dead s (p :: rest) = dead s rest) as Ed.
  { unfold dead. rewrite filter_cons_False; [done|]. by rewrite Hp. }
  assert (alive s (p :: rest) = p :: alive s rest) as Ea by (unfold alive; by rewrite filter_cons_True).
  split; rewrite ?Ed, ?Ea; try done. by rewrite <- app_assoc in S2.
Qed.

(** A dead thread has been reaped and then the rest. *)
Lemma swept_dead obj s L g kept p rest m h1 L1' g1 t s' L' g' :
  let L1 := <[rq s := kept ++ rest]> (delete (vma_list p) L) in
  let s1 := with_threads (<[p := with_state THREAD_UNUSED t]> (threads s)) (with_k_heap h1 s) in
  threads s !! p = Some t → is_runnable s p = false → (p ∉ rest) → L !! rq s = Some (kept ++ p :: rest) →
  frees (with_lm m (k_heap s)) L1 g h1 L1' g1 (obj p) → agree_on ka_private L L1 → ¬ node L1 p → ¬ node L1 (vma_list p) →
  swept obj s1 L1' g1 s' L' g' kept rest → swept obj s L g s' L' g' kept (p :: rest).
Proof using.
  intros L1 s1 Ht Hp Hnp Hrq HF Ha N1 N2 [S1 S2 S3 S4 S5 S6 S7 S8 S9 S10]. destruct HF as [F1 F2 F3 F4 F5 F6 F7 F8 F9].
  assert (∀ q, q ∈ rest → is_runnable s1 q = is_runnable s q) as Hrun.
  { intros q Hq. unfold is_runnable, s1. cbn [with_threads threads]. rewrite lookup_insert_ne; [done|]. by intros ->. }
  assert (dead s1 rest = dead s rest) as Ed by (apply filter_iff_in; intros q Hq; by rewrite Hrun).
  assert (alive s1 rest = alive s rest) as Ea by (apply filter_iff_in; intros q Hq; by rewrite Hrun).
  assert (dead s (p :: rest) = p :: dead s rest) as Ed' by (unfold dead; by rewrite filter_cons_True).
  assert (alive s (p :: rest) = alive s rest) as Ea' by (unfold alive; rewrite filter_cons_False; [done|]; by rewrite Hp).
  rewrite Ed in *. rewrite Ea in *. assert (∀ q, node L1 q → node L q) as Hsub.
  { intros q [Hq|Hq]%node_insert; [|by eapply node_delete]. apply (node_elem L (rq s) (kept ++ p :: rest)); [done|set_solver]. }
  split; rewrite ?Ed', ?Ea'; cbn [mbind list_bind]; try setoid_rewrite fmap_app; try setoid_rewrite elem_of_app.
  - done.
  - done.
  - rewrite S3. exact F2.
  - intros k Hk. by apply S4, F3.
  - intros h (Hh1 & Hh2 & Hh3). rewrite S5, F4; [|done|].
    + unfold L1. rewrite lookup_insert_ne, lookup_delete_ne; [done|..]; apply not_eq_sym; [apply Hh3; by left|done].
    + split; [done|]. split; [done|]. intros q Hq. apply Hh3. by right.
  - intros q n. rewrite S6, F5. assert (ka_live L1 g q n ↔ ka_live L g q n) as -> by (by split; apply ka_live_agree). tauto.
  - intros q Hq Ho. apply S7; [apply F6; [done|]; intros o Hin; apply Ho; by left|]. intros o Hin. apply Ho. by right.
  - intros q [[Hq Hd]|[?|?]]%S8; [|tauto..]. apply F7 in Hq as [Hq|[?|?]]; [|tauto..]. left. split; [by apply Hsub|].
    intros d [->|Hin]%elem_of_cons; [|by apply Hd]. split; by intros ->.
  - intros q. rewrite S9. unfold s1. cbn [with_threads threads]. destruct (decide (q = p)) as [->|Hne].
    + rewrite lookup_insert_eq, Ht. rewrite (decide_True (P := p ∈ p :: _)) by (by left). rewrite decide_False; [done|].
      intros Hin. apply Hnp. by apply list_elem_of_filter in Hin as [_ ?].
    + rewrite lookup_insert_ne by done. destruct (decide (q ∈ dead s rest)) as [Hin|Hin].
      * by rewrite decide_True by (by right).
      * rewrite decide_False; [done|]. by intros [?|?]%elem_of_cons.
  - rewrite S10. reflexivity.
Qed.

(** The dead threads of the queue can be reaped, each of objects of its own. *)
Definition sweepable (obj : Z → list (Z * Z)) (s : kstate) (L : rings) (g : ka_ghost) (rest : list Z) : Prop :=
  Forall (λ p, reapable s L g p (obj p)) (dead s rest) ∧ NoDup (dead s rest ≫= obj).*1.

(** Reaping one leaves the others as they are. *)
Lemma reapable_keep s L g kept p rest m h1 L1' g1 t osp q os :
  let L1 := <[rq s := kept ++ rest]> (delete (vma_list p) L) in
  let s1 := with_threads (<[p := with_state THREAD_UNUSED t]> (threads s)) (with_k_heap h1 s) in
  ka_inv (k_heap s) L g → L !! rq s = Some (kept ++ p :: rest) → ¬ ka_private (rq s) → reapable s L g p osp →
  ka_inv (with_lm m (k_heap s)) L1 g → frees (with_lm m (k_heap s)) L1 g h1 L1' g1 osp →
  q ∈ rest → q ≠ p → (∀ o, o ∈ os → o.1 ∉ osp.*1) → reapable s L g q os → reapable s1 L1' g1 q os.
Proof using.
  intros L1 s1 HI Hrq Hpr [(_ & psp & _ & _ & Hpsp & _) [Hfp _] _ [Hpn Hpp]] HI1 HF Hin Hne Hdisj
    [(tq & ps & vs & Htq & Hps & Hvs & Eos & HT) [Hf Hnd] (Q1 & Q2 & Q3) [Hqn Hqp]].
  assert (vma_list q ≠ vma_list p) as Hvv by (unfold vma_list; lia).
  assert (∀ x, node L1 x → node (delete (vma_list p) L) x) as Hsub.
  { intros x [Hx|Hx]%node_insert; [|done]. apply (node_elem _ (rq s) (kept ++ p :: rest)); [by rewrite lookup_delete_ne|set_solver]. }
  assert (∀ x, node (delete (vma_list q) L1) x → node (delete (vma_list q) L) x) as Hsubq.
  { intros x (h & l & [Hh Hl]%lookup_delete_Some & Hx). unfold L1 in Hl. apply lookup_insert_Some in Hl as [[<- <-]|[_ Hl]].
    - apply (node_elem _ (rq s) (kept ++ p :: rest)); [by rewrite lookup_delete_ne|set_solver].
    - apply lookup_delete_Some in Hl as [_ Hl]. apply (node_elem _ h l); [by rewrite lookup_delete_ne|done]. }
  assert (∀ h, ¬ ka_private h → agree_on ka_private L (delete h L)) as Had.
  { intros h Hh x Hx. rewrite lookup_delete_ne; [done|]. by intros ->. }
  assert (agree_on ka_private (delete (vma_list p) L) L1) as Ha1 by (intros h Hh; unfold L1; rewrite lookup_insert_ne; [done|]; by intros <-).
  assert (Forall (freeable L1 g) osp) as Hfp1 by (eapply Forall_impl; [exact Hfp|]; intros o; by apply freeable_sub).
  assert (∀ o x, o ∈ osp → node (delete (vma_list p) L) x → ¬ kf_within o.1 o.2 x) as Hclear.
  { intros o x Ho Hx. rewrite Forall_forall in Hfp. apply (Hfp o Ho). by left. }
  split; cbn [s1 with_threads threads vmas kwords with_k_heap with_tm rq].
  - exists tq, ps, vs. split; [by rewrite lookup_insert_ne|]. split; [|done]. rewrite (fr_rings _ _ _ _ _ _ _ HF) by done.
    unfold L1. by rewrite lookup_insert_ne, lookup_delete_ne.
  - split; [|done]. apply Forall_forall. intros o Ho. rewrite Forall_forall in Hf.
    apply (frees_freeable (with_lm m (k_heap s)) L1 g h1 L1' g1 osp (delete (vma_list q) L1)); [done|done|done| | | | |by apply Hdisj].
    + intros x Hx. rewrite lookup_delete_ne; [done|]. by intros <-.
    + intros x Hx. rewrite lookup_delete_ne; [done|]. by intros <-.
    + intros x. by apply (frees_delete _ _ _ _ _ _ _ _ _ HF).
    + apply (freeable_sub (delete (vma_list q) L)); [|done|by apply Hf]. intros x Hx. rewrite !lookup_delete_ne by (by intros <-).
      unfold L1. rewrite lookup_insert_ne, lookup_delete_ne; [done|..]; by intros <-.
  - split; [|split; [|done]]; apply (fr_static _ _ _ _ _ _ _ HF); try done; intros o Ho; apply Hclear; try done.
    + apply (node_elem _ (rq s) (kept ++ p :: rest)); [by rewrite lookup_delete_ne|set_solver].
    + apply (node_elem _ (vma_list q) ps); [by rewrite lookup_delete_ne|by left].
  - done.
Qed.

Lemma sweepable_cons obj s L g p rest : sweepable obj s L g (p :: rest) →
  if is_runnable s p then sweepable obj s L g rest
  else reapable s L g p (obj p) ∧ sweepable obj s L g rest ∧ ∀ q o, q ∈ dead s rest → o ∈ obj q → o.1 ∉ (obj p).*1.
Proof using.
  unfold sweepable, dead. rewrite filter_cons. intros [Hf Hnd]. destruct (is_runnable s p) eqn:Ep.
  - by rewrite decide_False in Hf, Hnd by done.
  - rewrite decide_True in Hf, Hnd by done. apply Forall_cons in Hf as [Hp Hf]. cbn [mbind list_bind] in Hnd. rewrite fmap_app in Hnd.
    apply NoDup_app in Hnd as (_ & Hd & Hnd). split; [done|]. split; [done|]. intros q o Hq Ho Hin. apply (Hd _ Hin).
    apply list_elem_of_fmap. exists o. split; [done|]. apply list_elem_of_bind. by exists q.
Qed.

Abbreviation sweep := (λ p s, t ← get_thread p s;
  if state t =? THREAD_ZOMBIE then s ← reap free p s; mret (Next p s) else mret (Next p s)) (only parsing).

Lemma sweep_from obj rest : ∀ kept s L g fuel, ka_inv (k_heap s) L g → L !! rq s = Some (kept ++ rest) → ¬ ka_private (rq s) →
  (∀ p, p ∈ rest → is_Some (threads s !! p)) → sweepable obj s L g rest → (length rest < fuel)%nat →
  ∃ s' L' g', list_for_each_from k_lm fuel (rq s) sweep (after (rq s) rest) s = Ok (rq s, s') ∧ swept obj s L g s' L' g' kept rest.
Proof using.
  induction rest as [|p rest IH]; intros kept s L g fuel HI Hrq Hpr Hall HS Hfu; (destruct fuel as [|fuel]; [lia|]).
  { exists s, L, g. split; [|apply swept_nil; [done|by rewrite app_nil_r in Hrq]].
    cbn [list_for_each_from]. unfold list_is_head. by rewrite bool_decide_eq_true_2. }
  pose proof (ka_lists _ _ _ HI) as Hok. pose proof (lo_nodup _ _ Hok _ _ Hrq) as Hnd.
  rewrite app_comm_cons in Hnd. apply NoDup_app in Hnd as (_ & Hnd1 & Hnd2). apply NoDup_cons in Hnd2 as [Hpr' _].
  assert (p ≠ rq s) as Hne by (intros ->; apply (Hnd1 (rq s)); by left).
  destruct (Hall p) as [t Ht]; [by left|]. apply sweepable_cons in HS.
  change (after (rq s) (p :: rest)) with p. cbn [list_for_each_from]. unfold list_is_head at 1. rewrite bool_decide_eq_false_2 by done.
  assert (get_thread p s = Ok t) as Et by (unfold get_thread; by rewrite Ht). res_step Et.
  destruct (is_runnable s p) eqn:Ep; pose proof Ep as Es; unfold is_runnable in Es; rewrite Ht in Es.
  - apply negb_true_iff in Es. rewrite Es. cbn [mbind res_bind mret res_ret].
    assert (L !! rq s = Some ((kept ++ [p]) ++ rest)) as Hrq' by (by rewrite <- app_assoc).
    pose proof (get_next_ok _ _ _ _ _ Hok Hrq') as En. rewrite last_snoc in En. change (get_next (k_lm s) p = Ok (after (rq s) rest)) in En. res_step En.
    destruct (IH (kept ++ [p]) s L g fuel HI Hrq' Hpr) as (s' & L' & g' & E & HW); [intros q Hq; apply Hall; by right|done|simpl in Hfu; lia|].
    exists s', L', g'. split; [exact E|by apply swept_alive].
  - apply negb_false_iff in Es. rewrite Es. destruct HS as (Hrp & HS & Hdj).
    destruct (reap_run s L g kept p rest (obj p) HI Hrq Hpr Hrp) as (m & h1 & L1 & g1 & t' & Ht' & E1 & HI1 & HF & En & N1 & N2).
    rewrite Ht in Ht'. injection Ht' as <-. res_step E1. cbn [mbind res_bind mret res_ret].
    set (s1 := with_threads (<[p := with_state THREAD_UNUSED t]> (threads s)) (with_k_heap h1 s)) in *.
    assert (get_next (k_lm s1) p = Ok (after (rq s) rest)) as En' by exact En. res_step En'.
    assert (∀ q, q ∈ rest → q ≠ p) as Hqp by (by intros q Hq ->).
    assert (∀ q, q ∈ rest → is_runnable s1 q = is_runnable s q) as Hrun.
    { intros q Hq. unfold is_runnable, s1. cbn [with_threads threads]. rewrite lookup_insert_ne; [done|]. apply not_eq_sym. by apply Hqp. }
    assert (dead s1 rest = dead s rest) as Ed by (apply filter_iff_in; intros q Hq; by rewrite Hrun).
    destruct (IH kept s1 L1 g1 fuel) as (s' & L' & g' & E & HW).
    + exact (fr_inv _ _ _ _ _ _ _ HF).
    + change (rq s1) with (rq s). rewrite (fr_rings _ _ _ _ _ _ _ HF) by done. by rewrite lookup_insert_eq.
    + exact Hpr.
    + intros q Hq. unfold s1. cbn [with_threads threads]. rewrite lookup_insert_ne by (apply not_eq_sym; by apply Hqp). apply Hall. by right.
    + unfold sweepable. rewrite Ed. destruct HS as [Hf Hn]. split; [|exact Hn]. rewrite Forall_forall in Hf |- *. intros q Hq.
      pose proof Hq as [_ Hin]%list_elem_of_filter.
      apply (reapable_keep s L g kept p rest m h1 L1 g1 t (obj p)); [done..|by apply Hqp|intros o; by apply Hdj|by apply Hf].
    + simpl in Hfu. lia.
    + exists s', L', g'. split; [exact E|]. apply (swept_dead obj s L g kept p rest m h1 L1 g1 t); try done.
      destruct Hrp as [_ _ _ [_ Hp2]]. intros h Hh. rewrite lookup_insert_ne, lookup_delete_ne; [done|by intros <-|by intros <-].
Qed.

(** The slots of the dead lie outside of all that is given back. *)
Lemma dead_clear obj s L g l d o : ka_inv (k_heap s) L g → L !! rq s = Some l → sweepable obj s L g l → d ∈ dead s l → o ∈ dead s l ≫= obj →
  ¬ kf_within o.1 o.2 d ∧ ¬ kf_within o.1 o.2 (vma_list d) ∧ o.1 ≠ d ∧ o.1 ≠ vma_list d.
Proof using.
  intros HI Hrq [Hf _] Hd Ho. apply list_elem_of_bind in Ho as (e & Ho & He). rewrite Forall_forall in Hf.
  destruct (Hf d Hd) as [(_ & ps & _ & _ & Hps & _) _ _ _], (Hf e He) as [_ [Hfa _] (_ & _ & Hve) [Hne Hpe]].
  rewrite Forall_forall in Hfa. destruct (Hfa o Ho) as [Hl _ Hc]. pose proof Hd as [_ Hdl]%list_elem_of_filter.
  assert (ka_live L g o.1 o.2) as Hl' by (apply (ka_live_agree (delete (vma_list e) L)); [|done]; intros h Hh; rewrite lookup_delete_ne; [done|]; by intros <-).
  pose proof (kf_self _ _ _ _ _ HI Hl') as Hself.
  assert (¬ kf_within o.1 o.2 d) as H1.
  { apply Hc. left. apply (node_elem _ (rq s) l); [by rewrite lookup_delete_ne|by right]. }
  assert (¬ kf_within o.1 o.2 (vma_list d)) as H2.
  { destruct (decide (d = e)) as [->|Hde]; [by apply Hve|]. apply Hc. left.
    apply (node_elem _ (vma_list d) ps); [rewrite lookup_delete_ne; [done|unfold vma_list; lia]|by left]. }
  split; [done|]. split; [done|]. split; intros E; rewrite E in Hself at 2; done.
Qed.

(** What [kill_zombies] leaves: the living threads in the queue in their order, the
    slots of the dead free for new threads, their objects out of use, and everything
    else as it was. *)
Record reaped (obj : Z → list (Z * Z)) (s : kstate) (L : rings) (g : ka_ghost) (l : list Z) (s' : kstate) (L' : rings) (g' : ka_ghost) : Prop := {
  re_heap : ka_inv (k_heap s') L' g';
  re_queue : queue_ok s' L' (alive s l);
  re_slots : ∀ p, p ∈ dead s l → slot_free L' g' p ∧ state <$> threads s' !! p = Some THREAD_UNUSED;
  re_others : ∀ p, p ∉ dead s l → threads s' !! p = threads s !! p;
  re_live : ∀ q m, ka_live L' g' q m ↔ ka_live L g q m ∧ q ∉ (dead s l ≫= obj).*1;
  re_room : ∀ k, ka_room g k → ka_room g' k;
  re_rings : agree_on (λ h, ¬ ka_private h ∧ h ≠ rq s ∧ ∀ p, p ∈ dead s l → h ≠ vma_list p) L L';
  re_lock : lk (k_heap s') = unlock (lock (lk (k_heap s)));
  re_rest : s' = with_threads (threads s') (with_k_heap (k_heap s') s);
}.

Lemma sweepable_lock obj s L g l : sweepable obj s L g l → sweepable obj (k_lock s) L g l.
Proof using. intros [Hf Hn]. split; [|exact Hn]. eapply Forall_impl; [exact Hf|]. by intros p []. Qed.

Lemma kill_zombies_run obj s L g l : ka_inv (k_heap s) L g → queue_ok s L l → ¬ ka_private (rq s) → is_runnable s (curr_thread s) = true →
  sweepable obj s L g l → ∃ s' L' g', kill_zombies free s = Ok s' ∧ reaped obj s L g l s' L' g'.
Proof using.
  intros HI [Q1 Q2 Q3 Q4 Q5] Hpr Hrun HS. pose proof (ka_lock _ _ _ (lock (lk (k_heap s))) HI) as HI0.
  destruct (sweep_from obj l [] (k_lock s) L g (ring_fuel (k_lm s))) as (s1 & L1 & g1 & E & [S1 S2 S3 S4 S5 S6 S7 S8 S9 S10]);
    [exact HI0|exact Q2|exact Hpr|exact Q4|by apply sweepable_lock|exact (ring_fuel_enough _ _ _ _ Q1 Q2)|].
  change (dead (k_lock s) l) with (dead s l) in *. change (alive (k_lock s) l) with (alive s l) in *. change (threads (k_lock s)) with (threads s) in *.
  assert (∀ p, is_Some (threads s !! p) → is_Some (threads s1 !! p)) as Hsome by (intros p [t Ht]; rewrite S9, Ht; by eexists).
  exists (k_unlock s1), L1, g1. split; [|split].
  - unfold kill_zombies, list_for_each. pose proof (get_next_ok _ _ _ [] _ Q1 Q2) as En. cbn [last default from_option] in En.
    change (get_next (k_lm (k_lock s)) (rq (k_lock s)) = Ok (after (rq (k_lock s)) l)) in En. res_step En.
    change (ring_fuel (k_lm (k_lock s))) with (ring_fuel (k_lm s)). res_apply E. reflexivity.
  - by apply ka_lock.
  - assert (rq s1 = rq s ∧ curr_thread s1 = curr_thread s ∧ tpidr_el1 s1 = tpidr_el1 s) as (Er & Ec & Et) by (rewrite S10; done).
    split; cbn [k_unlock with_k_heap with_tm rq curr_thread threads tpidr_el1]; rewrite ?Er, ?Ec, ?Et.
    + exact (ka_lists _ _ _ S1).
    + exact S2.
    + apply list_elem_of_filter. done.
    + intros p [_ Hp]%list_elem_of_filter. by apply Hsome, Q4.
    + by apply Hsome.
  - intros p Hp. pose proof (dead_clear obj s L g l p) as Hcl. destruct HS as [Hf Hn]. rewrite Forall_forall in Hf.
    destruct (Hf p Hp) as [(t & _ & _ & Ht & _) _ (P1 & P2 & _) _]. rewrite <- Forall_forall in Hf.
    assert (∀ q, q = p ∨ q = vma_list p → ¬ node L1 q) as Hout.
    { intros q Hq [[_ Hx]|[Hx|Hx]]%S8.
      - destruct (Hx p Hp). destruct Hq; congruence.
      - destruct Hq as [-> | ->]; by eapply kf_static_meta in Hx.
      - apply list_elem_of_fmap in Hx as (o & -> & Ho). destruct (Hcl o HI Q2 (conj Hf Hn) Hp Ho) as (_ & _ & N1 & N2). destruct Hq; congruence. }
    split; [|cbn; by rewrite S9, decide_True, Ht by done]. split; [|split; apply Hout; auto].
    split; apply S7; try done; intros o Ho; by destruct (Hcl o HI Q2 (conj Hf Hn) Hp Ho) as (? & ? & _).
  - intros p Hp. cbn. rewrite S9, decide_False by done. by destruct (threads s !! p).
  - exact S6.
  - exact S4.
  - exact S5.
  - change (unlock (lk (k_heap s1)) = unlock (lock (lk (k_heap s)))). by rewrite S3.
  - rewrite S10. reflexivity.
Qed.

(** The living threads keep their turns. *)
Lemma alive_rotation s r l c : rotation r l c → is_runnable s c = true → rotation (alive s r) (alive s l) c.
Proof using.
  intros (l1 & l2 & -> & ->) Hc. exists (alive s l1), (alive s l2). unfold alive. split.
  - by rewrite filter_app, filter_cons_True.
  - by rewrite !filter_app, filter_cons_True.
Qed.

Lemma find_alive s s' r p : (∀ q, is_runnable s q = true → is_runnable s' q = true) → find (is_runnable s) r = Some p →
  find (is_runnable s') (alive s r) = Some p.
Proof using.
  intros Hs. unfold alive. induction r as [|q r IH]; [done|]. cbn [find]. rewrite filter_cons. destruct (is_runnable s q) eqn:Eq.
  - rewrite decide_True by done. cbn [find]. by rewrite Hs.
  - rewrite decide_False by done. exact IH.
Qed.

(** C13: A turn of the idle thread. [kill_zombies] ends with the lock balanced: the
    queue has the living threads in their order, and the slots of the dead are
    unused and ready for [thread_create]. The objects that are given back are, for
    each dead thread, its kernel stack, the memory of the areas that own some and
    the records of its areas; exactly these are no longer in use, so whatever else
    was in use stays in use, the page tables of the dead among it: nothing ever
    gives those back. No less memory can be handed out than before, and every
    other thread, every other ring, the areas and the words of the tables are as
    before. Then the next living thread runs.
    The objects must be live, apart from each other and from every list node, and
    a small one must not be the first of its page, which [kfree] would take for
    the page. *)
Theorem idle_turn_ok obj s L g l r p : ka_inv (k_heap s) L g → queue_ok s L l → ¬ ka_private (rq s) → is_runnable s (curr_thread s) = true →
  sweepable obj s L g l → rotation r l (curr_thread s) → find (is_runnable s) r = Some p →
  ∃ s1 s2 L' g', kill_zombies free s = Ok s1 ∧ reaped obj s L g l s1 L' g' ∧ idle_turn free s = Ok s2 ∧ scheduled s1 s2 L' (alive s l) p.
Proof using.
  intros HI HQ Hpr Hrun HS Hr Hp. destruct (kill_zombies_run obj s L g l HI HQ Hpr Hrun HS) as (s1 & L' & g' & E & HR).
  assert (∀ q, is_runnable s q = true → is_runnable s1 q = true) as Hal.
  { intros q Hq. unfold is_runnable. rewrite (re_others _ _ _ _ _ _ _ _ HR); [exact Hq|]. intros [Hd _]%list_elem_of_filter. congruence. }
  destruct (schedule_run s1 L' (alive s l) (alive s r) p (re_queue _ _ _ _ _ _ _ _ HR)) as (s2 & E2 & H2).
  - rewrite (re_rest _ _ _ _ _ _ _ _ HR). by apply alive_rotation.
  - by apply find_alive.
  - exists s1, s2, L', g'. split; [exact E|]. split; [exact HR|]. split; [|exact H2]. unfold idle_turn. by res_step E.
Qed.
End reap.

(** ** A thread that was killed before it ran *)

#[global] Instance KFree_ex : KFree (kmalloc layout_ex) (kfree layout_ex) := kfree_KFree layout_ex layout_ex_ok.

Definition zero_table : gmap Z Z := list_to_map ((λ x, (Mmu.entry (page_addr 0) x, 0)) <$> seqZ 0 512).

Lemma zero_table_ok : tree_ok (λ _, True) zero_table 0 {[ [] := 0 ]}.
Proof.
  apply fresh_tree; [done|done|]. intros x Hx. apply elem_of_list_to_map_1.
  - rewrite <- list_fmap_compose. apply NoDup_fmap_2_strong; [|apply NoDup_seqZ].
    intros y z _ _. unfold compose, Mmu.entry. cbn [fst]. lia.
  - apply list_elem_of_fmap. exists x. split; [done|]. apply elem_of_seqZ. lia.
Qed.

#[local] Opaque zero_table.

(** The idle thread runs; the zombie behind it owns a kernel stack. *)
Lemma reap_ex : let i := VIRT_BASE + 0x90000 in let z := VIRT_BASE + 0x902b8 in ∃ s L g obj, ka_inv (k_heap s) L g ∧ queue_ok s L [i; z] ∧ ¬ ka_private (rq s) ∧
  is_runnable s (curr_thread s) = true ∧ sweepable obj s L g [i; z] ∧ dead s [i; z] = [z] ∧ alive s [i; z] = [i] ∧ curr_thread s = i.
Proof.
  intros i z. destruct (kalloc_ex_tidy 1) as (h0 & L0 & g0 & _ & HI0 & HR & _ & HS); [lia|].
  destruct (kmalloc_clear layout_ex layout_ex_ok h0 L0 g0 KSTACK_SIZE HI0 ltac:(unfold KSTACK_SIZE; lia) HR) as (p & c & h1 & L1 & g1 & _ & _ & HI1 & Hl & Hc & _ & Hclr & Hst).
  assert (∀ q, VIRT_BASE + 0x80000 ≤ q < VIRT_BASE + 0xf0000 → ka_static g1 q ∧ ¬ node L1 q ∧ ¬ ka_private q ∧ ¬ kf_within p c q) as Hs1.
  { intros q Hq. destruct (HS q Hq) as (S & P & N), (Hst q S) as (S' & W & N'). split; [done|]. split; [by intros Hx%N'|done]. }
  set (r := VIRT_BASE + 0x80000) in *. set (v := vma_list z).
  destruct (@ka_static_ring _ KAlloc_ex h1 L1 g1 v [] HI1) as (m2 & HI2); [repeat constructor; apply not_elem_of_nil| |].
  { intros q ->%list_elem_of_singleton. destruct (Hs1 v) as (? & ? & ? & _); [unfold v, z, vma_list; lia|done]. }
  destruct (@ka_static_ring _ KAlloc_ex _ _ g1 r [i; z] HI2) as (m3 & HI3).
  { rewrite !NoDup_cons. rewrite !not_elem_of_cons. unfold r, i, z. split_and!; try apply not_elem_of_nil; [lia..|constructor]. }
  { intros q Hq. assert (VIRT_BASE + 0x80000 ≤ q < VIRT_BASE + 0x90300 ∧ q ≠ v) as [Hr Hne].
    { rewrite !elem_of_cons in Hq. unfold r, i, z, v, vma_list in *. destruct Hq as [->|[->|[->|Hq]]]; [lia|lia|lia|by apply not_elem_of_nil in Hq]. }
    destruct (Hs1 q) as (S & N & P & _); [lia|]. split; [done|]. split; [|done]. intros [Hx|Hx]%node_insert; [|done].
    by apply list_elem_of_singleton in Hx. }
  set (L3 := <[r := [i; z]]> (<[v := []]> L1)).
  set (tz := with_kstack_ptr p (thread_ex 1 THREAD_ZOMBIE)).
  set (s := K (TState (with_lm m3 (with_lm m2 h1)) 0 ∅ ∅ hw_ex) zero_table ∅ {[i := thread_ex 0 THREAD_RUNNING; z := tz]} 2 i r (cxt_ex 0) i).
  assert (i ≠ z) as Hiz by (unfold i, z; lia). assert (z ≠ i) as Hzi by done. assert (r ≠ v) as Hrv by (unfold r, v, vma_list, z; lia).
  assert (threads s !! i = Some (thread_ex 0 THREAD_RUNNING)) as Ti by (unfold s; cbn [threads]; apply lookup_insert_eq).
  assert (threads s !! z = Some tz) as Tz by (unfold s; cbn [threads]; rewrite lookup_insert_ne by done; apply lookup_singleton_eq).
  assert (is_runnable s i = true) as Ri by (unfold is_runnable; by rewrite Ti). assert (is_runnable s z = false) as Rz by (unfold is_runnable; by rewrite Tz).
  assert (dead s [i; z] = [z]) as Ed by (unfold dead; rewrite filter_cons_False, filter_cons_True; [done|done|by rewrite Ri]).
  exists s, L3, g1, (λ _, [(p, c)]).
  split; [exact HI3|]. split; [|split; [|split; [exact Ri|split; [|split; [exact Ed|split; [|done]]]]]].
  - split; [exact (ka_lists _ _ _ HI3)|apply lookup_insert_eq|by left| |change (is_Some (threads s !! i)); by rewrite Ti].
    intros q [->|[->|[]%not_elem_of_nil]%elem_of_cons]%elem_of_cons; [by rewrite Ti|by rewrite Tz].
  - apply (Hs1 r). unfold r. lia.
  - unfold sweepable. rewrite Ed. split; [|cbn; apply NoDup_singleton]. constructor; [|constructor].
    destruct (Hs1 z) as (Z1 & _ & _ & Z2); [unfold z; lia|]. destruct (Hs1 v) as (V1 & _ & V2 & V3); [unfold v, vma_list, z; lia|]. split.
    + exists tz, [], []. split; [exact Tz|]. split; [unfold L3; rewrite lookup_insert_ne by done; apply lookup_insert_eq|]. split; [constructor|].
      split; [reflexivity|]. exists (λ _, True), 0, {[ [] := 0 ]}. split; [exact zero_table_ok|done].
    + split; [|apply NoDup_singleton]. constructor; [|constructor]. split; cbn [fst snd].
      * apply (ka_live_agree L1); [|exact Hl]. intros h Hh. fold v. rewrite lookup_delete_ne by (by intros <-). unfold L3.
        rewrite !lookup_insert_ne; [done|by intros <-|]. intros <-. destruct (Hs1 r) as (_ & _ & N & _); [unfold r; lia|done].
      * lia.
      * intros q [Hq|Hq]; [|apply Hclr; by right]. apply node_delete in Hq. apply node_insert in Hq as [Hq|[Hq|Hq]%node_insert]; [| |apply Hclr; by left].
        -- apply Hs1. rewrite !elem_of_cons in Hq. unfold r, i, z in Hq. destruct Hq as [->|[->|[->|[]%not_elem_of_nil]]]; lia.
        -- apply list_elem_of_singleton in Hq as ->. done.
    + split; [done|]. split; [done|]. by intros o ->%list_elem_of_singleton.
    + split; [|done]. intros E. by symmetry in E.
  - unfold alive. rewrite filter_cons_True, filter_cons_False; [done|by rewrite Rz|done].
Qed.

Lemma idle_turn_ok_witness : ∃ s s' L' g', idle_turn (kfree layout_ex) s = Ok s' ∧ queue_ok s' L' [VIRT_BASE + 0x90000] ∧
  slot_free (KA := KAlloc_ex) L' g' (VIRT_BASE + 0x902b8).
Proof.
  destruct reap_ex as (s & L & g & obj & HI & HQ & Hp & Hr & HS & Ed & Ea & Ec).
  destruct (idle_turn_ok obj s L g _ [VIRT_BASE + 0x902b8; VIRT_BASE + 0x90000] (VIRT_BASE + 0x90000) HI HQ Hp Hr HS)
    as (s1 & s2 & L' & g' & _ & [_ _ H3 _ _ _ _ _ _] & E & H2).
  - rewrite Ec. by exists [], [VIRT_BASE + 0x902b8].
  - cbn [find]. rewrite Ec in Hr. rewrite Hr. assert (VIRT_BASE + 0x902b8 ∈ dead s [VIRT_BASE + 0x90000; VIRT_BASE + 0x902b8]) as [Hz _]%list_elem_of_filter by (rewrite Ed; by left).
    by rewrite Hz.
  - exists s, s2, L', g'. rewrite Ea in H2. rewrite Ed in H3. split; [exact E|]. split; [exact (sc_queue _ _ _ _ _ H2)|]. apply (H3 (VIRT_BASE + 0x902b8)). by left.
Defined.
