(* ===== verification/Syscall.v ===== *)
(** lib/syscall.c: the system calls, on the state of the whole kernel. *)
From S2P Require Import Prelude Util ListHead Lock Mem CString Malloc Mmu Cpio Uart Mmio Timer Thread Sched.
Local Open Scope Z_scope.

(** [trapframe_t] (include/trapframe.h): x0 to x30 and the three system registers. *)
Record trapframe := Tf { tf_x : list Z; spsr_el1 : Z; elr_el1 : Z; sp_el0 : Z }.
Definition sizeof_trapframe : Z := 272.
Definition with_x0 (v : Z) (t : trapframe) : trapframe := Tf (<[0%nat := u64 v]> (tf_x t)) (spsr_el1 t) (elr_el1 t) (sp_el0 t).

(** Threads and memory; the trapframes on the kernel stacks, by address; the
    UART; the mailbox; the [cpio_file_info] records. *)
Record sstate := Sys { ks : kstate; tfs : gmap Z trapframe; ser : ustate; box : vcore; infos : gmap Z (Z * Z) }.
Definition with_ks (k : kstate) (s : sstate) : sstate := Sys k (tfs s) (ser s) (box s) (infos s).
Definition with_tfs (m : gmap Z trapframe) (s : sstate) : sstate := Sys (ks s) m (ser s) (box s) (infos s).
Definition with_ser (u : ustate) (s : sstate) : sstate := Sys (ks s) (tfs s) u (box s) (infos s).
Definition with_box (v : vcore) (s : sstate) : sstate := Sys (ks s) (tfs s) (ser s) v (infos s).
Definition with_infos (m : gmap Z (Z * Z)) (s : sstate) : sstate := Sys (ks s) (tfs s) (ser s) (box s) m.

Definition on_ks (f : kstate → res kstate) (s : sstate) : res sstate := k ← f (ks s); mret (with_ks k s).
Definition s_lock (s : sstate) : sstate := with_ks (k_lock (ks s)) s.
Definition s_unlock (s : sstate) : sstate := with_ks (k_unlock (ks s)) s.
Definition s_curr (s : sstate) : res thread := curr (ks s).
Definition upd_curr (f : thread → thread) (s : sstate) : res sstate := on_ks (upd_thread (curr_thread (ks s)) f) s.
Definition get_tf (tf : Z) (s : sstate) : res trapframe := load (tfs s !! tf).
Definition upd_tf (tf : Z) (f : trapframe → trapframe) (s : sstate) : res sstate :=
  t ← get_tf tf s; mret (with_tfs (<[tf := f t]> (tfs s)) s).
Definition set_x0 (tf v : Z) (s : sstate) : res sstate := upd_tf tf (with_x0 v) s.
Definition arg (i : nat) (t : trapframe) : res Z := load (tf_x t !! i).

(** ** Memory as the kernel sees it while a thread runs

    Addresses of the lower half go through the tables of TTBR0_EL1: the access
    faults where nothing is mapped, and a store also where the page is read-only. *)
Definition user_desc (k : kstate) (va : Z) : option (Z * Z) := hw_walk PHYS_TO_VIRT (kwords k) 4 0 (ttbr0_el1 (cpu k)) va.
Definition mem_addr (write : bool) (k : kstate) (va : Z) : res Z :=
  if va <? 2 ^ 48 then
    '(d, _) ← load (user_desc k va);
    _ ← require (negb (write && Z.testbit d 7));
    pa ← load (translate PHYS_TO_VIRT (kwords k) (ttbr0_el1 (cpu k)) va);
    mret (PHYS_TO_VIRT pa)
  else mret va.
Definition user_load (k : kstate) (va : Z) : res Z := a ← mem_addr false k (u64 va); load8 (k_bytes k) a.
Definition user_store (va v : Z) (k : kstate) : res kstate :=
  a ← mem_addr true k (u64 va); b ← store8 (k_bytes k) a v; mret (with_k_bytes b k).
Definition user_ptr (k : kstate) (p : Z) : cptr := λ i, user_load k (p + i).

(** Bytes of [memcpy] that may be undetermined are copied as such. *)
Definition copy_bytes (dst src n : Z) (m : bmem) : bmem :=
  foldr (λ i m', match m !! (src + i) with Some b => <[dst + i := b]> m' | None => delete (dst + i) m' end) m (seqZ 0 n).

Section syscall.
Context (kl : klayout) (alloc : Z → mstate → res (Z * mstate)) (free : Z → mstate → res mstate).
(** Where the archive is, and the mailbox and its video core (see Mmio.v). *)
Context (cpio_ramfs : Z) (mbox_addr : Z) (answer : Z → list Z → list Z).

Definition s_alloc (n : Z) (s : sstate) : res (Z * sstate) := '(p, k) ← k_alloc alloc n (ks s); mret (p, with_ks k s).

Definition sys_getpid (tf : Z) (s : sstate) : res sstate := t ← s_curr s; set_x0 tf (pid t) s.

Definition sys_uart_read (tf buf size : Z) (s : sstate) : res sstate :=
  s ← for_loop (Z.to_nat size) 0 (λ i s,
        '(c, u) ← uart_getc (ser s); k ← user_store (buf + i) c (ks s); mret (with_ks k (with_ser u s))) s;
  set_x0 tf size s.

Definition sys_uart_write (tf buf size : Z) (s : sstate) : res sstate :=
  s ← for_loop (Z.to_nat size) 0 (λ i s, c ← user_load (ks s) (buf + i); mret (with_ser (uart_send c (ser s)) s)) s;
  set_x0 tf size s.

(** The result of [cpio_traverse] as the pointer it is. *)
Definition found_ptr (f : found) : Z := match f with NotFound => u64 (-1) | Called => 0 | Info p => p end.

Definition reset_thread_signals (t : thread) : thread :=
  with_sigcount (repeat 0 (Z.to_nat SIG_MAX)) (with_sig_handler (repeat (default_sig_handler_addr kl) (Z.to_nat SIG_MAX)) (with_sigcheck 0 t)).

Definition store_info (cfi start size : Z) (s : sstate) : sstate := with_infos (<[cfi := (start, size)]> (infos s)) s.

(** The -1 of a name that is not found is not NULL: [sys_exec] goes on with it. *)
Definition sys_exec (tf name : Z) (s : sstate) : res sstate :=
  '(f, s) ← cpio_traverse s_alloc store_info (mem_fuel (k_bytes (ks s))) (k_bytes (ks s)) cpio_ramfs (user_ptr (ks s) name) None s;
  let cfi := found_ptr f in
  if cfi =? 0 then mret s
  else
    let c := curr_thread (ks s) in
    pos ← get_next (k_lm (ks s)) (vma_list c);
    s ← on_ks (free_vmas free (ring_fuel (k_lm (ks s))) (vma_list c) pos) s;
    let s := with_ks (with_k_lm (INIT_LIST_HEAD (k_lm (ks s)) (vma_list c)) (ks s)) s in
    '(start, size) ← load (infos s !! cfi);
    s ← upd_curr (λ t, with_data (data t) size t) s;
    '(p, s) ← s_alloc (u32 size) s;
    s ← upd_curr (λ t, with_data p (data_size t) t) s;
    b ← memcpy (k_bytes (ks s)) p start size;
    let s := with_ks (with_k_bytes b (ks s)) s in
    '(p, s) ← s_alloc USTACK_SIZE s;
    s ← upd_curr (with_ustack_ptr p) s;
    t ← s_curr s;
    s ← on_ks (run_mm (free_pages free (ttbr0_el1 (cxt t)) 0)) s;
    s ← on_ks (run_mm (clear_table (PHYS_TO_VIRT (ttbr0_el1 (cxt t))))) s;
    t ← s_curr s;
    s ← on_ks (add_program_vmas kl alloc c size (data t) (ustack_ptr t)) s;
    s ← upd_curr reset_thread_signals s;
    s ← upd_tf tf (λ t, Tf (<[0%nat := 0]> (tf_x t)) (spsr_el1 t) 0 0xfffffffff000) s;
    on_ks (k_free free cfi) s.

(** ** fork *)

(** The areas but the device's and the signal wrapper's get memory of their own. *)
Definition fork_area (new_thread : Z) (pos : Z) (k : kstate) : res kstate :=
  v ← load (vmas k !! pos);
  if (virt_addr v =? USER_SIG_WRAPPER_VIRT_ADDR) || (virt_addr v =? 0x3C000000) then mret k
  else
    '(new_alloc, k) ← k_alloc alloc (u32 (area_size v)) k;
    k ← add_vma alloc new_thread (virt_addr v) (area_size v) (VIRT_TO_PHYS new_alloc) (protected v) PG_NEED_ALLOC k;
    _ ← require (area_size v <? 2 ^ 31);
    mret (with_k_bytes (copy_bytes new_alloc (PHYS_TO_VIRT (phys_addr v)) (area_size v) (k_bytes k)) k).

(** The copy of the kernel stack: its trapframes, at their distance from its start. *)
Definition copy_frames (dst src : Z) (m : gmap Z trapframe) : gmap Z trapframe :=
  let inside (base a : Z) := (base <=? a) && (a + sizeof_trapframe <=? base + KSTACK_SIZE) in
  kmap (λ a, a + (dst - src)) (filter (λ x, inside src x.1 = true) m) ∪ filter (λ x, inside dst x.1 = false) m.

(** What follows [store_cxt]: reached by the parent, and again by the child when it
    is scheduled for the first time, with the locals of the parent. *)
Definition fork_return (tf parent_pid new_thread : Z) (s : sstate) : res sstate :=
  t ← s_curr s;
  if negb (parent_pid =? pid t) then set_x0 tf 0 s
  else
    n ← get_thread new_thread (ks s);
    let temp_ttbr0_el1 := ttbr0_el1 (cxt n) in
    s ← on_ks (upd_thread new_thread (with_cxt (cxt t))) s;
    s ← on_ks (upd_thread new_thread (λ n, with_cxt (with_ttbr0 (VIRT_TO_PHYS temp_ttbr0_el1) (cxt n)) n)) s;
    s ← on_ks (upd_thread new_thread (λ n, with_cxt (with_fp_sp (u64 (fp (cxt n) + (kstack_ptr n - kstack_ptr t))) (sp (cxt n)) (cxt n)) n)) s;
    s ← on_ks (upd_thread new_thread (λ n, with_cxt (with_fp_sp (fp (cxt n)) (u64 (sp (cxt n) + (kstack_ptr n - kstack_ptr t))) (cxt n)) n)) s;
    let s := s_unlock s in
    n ← get_thread new_thread (ks s);
    set_x0 tf (pid n) s.

Definition sys_fork (tf : Z) (s : sstate) : res sstate :=
  let s := s_lock s in
  t ← s_curr s;
  let parent_pid := pid t in
  '(new_thread, k) ← thread_create kl alloc (data t) (u32 (data_size t)) (ks s);
  let s := with_ks k s in
  s ← on_ks (upd_thread new_thread (with_sig_handler (sig_handler t))) s;
  s ← on_ks (λ k, '(_, k) ← list_for_each k_lm (ring_fuel (k_lm k)) (vma_list (curr_thread k))
        (λ pos k, k ← fork_area new_thread pos k; mret (Next pos k)) k; mret k) s;
  s ← on_ks (add_vma alloc new_thread 0x3C000000 0x3000000 0x3C000000 (Z.lor PROT_R PROT_W) PG_DONT_ALLOC) s;
  s ← on_ks (add_vma alloc new_thread USER_SIG_WRAPPER_VIRT_ADDR 0x2000 (VIRT_TO_PHYS (sig_handler_wrapper_addr kl)) (Z.lor PROT_R PROT_X) PG_DONT_ALLOC) s;
  n ← get_thread new_thread (ks s);
  let s := with_tfs (copy_frames (kstack_ptr n) (kstack_ptr t) (tfs s)) s in
  s ← on_ks (store_cxt (tpidr_el1 (ks s))) s;
  fork_return tf parent_pid new_thread s.

Definition sys_exit (s : sstate) : res sstate := on_ks thread_exit s.

(** ** The mailbox *)

(** A buffer of words as bytes, lowest first, and back. *)
Definition word_bytes (w : Z) : list Z := (λ i, u8 (Z.shiftr w (8 * i))) <$> seqZ 0 4.
Fixpoint bytes_words (bs : list Z) : list Z :=
  match bs with
  | b0 :: b1 :: b2 :: b3 :: bs => (b0 + Z.shiftl b1 8 + Z.shiftl b2 16 + Z.shiftl b3 24) :: bytes_words bs
  | _ => []
  end.
(** [memcpy] over the first [length new] bytes of the buffer. *)
Definition overwrite (new : list Z) (ws : list Z) : list Z :=
  bytes_words (new ++ drop (length new) (flat_map word_bytes ws)).

Definition sys_mbox_call (ch mb : Z) (s : sstate) : res sstate :=
  let s := s_lock s in
  size_bytes ← for_loop 4 0 (λ i l, c ← user_load (ks s) (mb + i); mret (l ++ [c])) [];
  mbox_size ← load (head (bytes_words size_bytes));
  _ ← require (mbox_size <=? 4 * Z.of_nat (length (mbox (box s))));
  bs ← for_loop (Z.to_nat mbox_size) 0 (λ i l, c ← user_load (ks s) (mb + i); mret (l ++ [c])) [];
  let v := VCore (overwrite bs (mbox (box s))) (mbox_status (box s)) (mbox_read (box s)) (mbox_written (box s)) in
  '(_, v) ← mbox_call mbox_addr answer (u8 ch) v;
  let s := with_box v s in
  s ← on_ks (for_loop (Z.to_nat mbox_size) 0 (λ i k,
        c ← load (flat_map word_bytes (mbox v) !! Z.to_nat i); user_store (mb + i) c k)) s;
  mret (s_unlock s).

(** ** Signals and killing *)

Definition sys_kill_pid (pid : Z) (s : sstate) : res sstate :=
  let s := s_lock s in
  unused ← (if (PID_MAX <=? pid) || (pid <? 0) then mret true
            else t ← get_thread (thread_at kl pid) (ks s); mret (state t =? THREAD_UNUSED));
  if (unused : bool) then mret (s_unlock s)
  else if pid =? 0 then mret (s_unlock s)
  else
    s ← on_ks (upd_thread (thread_at kl pid) (with_state THREAD_ZOMBIE)) s;
    let s := s_unlock s in
    on_ks schedule s.

Definition sys_signal (signum handler : Z) (s : sstate) : res sstate :=
  if SIG_MAX <=? signum then mret s
  else upd_curr (λ t, with_sig_handler (<[Z.to_nat signum := handler]> (sig_handler t)) t) s.

(** [threads[pid]] with a negative [pid] and [sigcount[signum]] past its end are
    outside their arrays. *)
Definition sys_kill (pid signum : Z) (s : sstate) : res sstate :=
  unused ← (if PID_MAX <=? pid then mret true
            else _ ← require (0 <=? pid); t ← get_thread (thread_at kl pid) (ks s); mret (state t =? THREAD_UNUSED));
  if (unused : bool) then mret s
  else
    let s := s_lock s in
    t ← get_thread (thread_at kl pid) (ks s);
    n ← load (sigcount t !! Z.to_nat signum);
    s ← on_ks (upd_thread (thread_at kl pid) (with_sigcount (<[Z.to_nat signum := s32 (n + 1)]> (sigcount t)))) s;
    mret (s_unlock s).

(** The jump back into [check_sig]: see Signal.v. *)
Definition sys_sigret (s : sstate) : res sstate :=
  t ← s_curr s; mret (with_ks (load_cxt (sig_save_cxt t) (ks s)) s).

(** ** mmap *)

Definition vma_overlaps (addr len : Z) (v : vm_area) : bool :=
  negb ((u64 (addr + len) <=? virt_addr v) || (u64 (virt_addr v + area_size v) <=? addr)).

Definition mmap_start (addr len : Z) : Z := if 0xfffffffff000 <=? u64 (len + addr) then 0 else addr.

(** The recursion of [sys_mmap] is bounded by fuel: see Mmap.v. *)
Fixpoint sys_mmap (fuel : nat) (tf addr len prot : Z) (s : sstate) : res sstate :=
  match fuel with
  | O => Fuel
  | S fuel =>
      let addr := mmap_start addr len in
      let len := round_page len in
      let addr := round_page addr in
      '(pos, k) ← list_for_each k_lm (ring_fuel (k_lm (ks s))) (vma_list (curr_thread (ks s))) (λ p k,
         v ← load (vmas k !! p); mret (if vma_overlaps addr len v then Break p k else Next p k)) (ks s);
      if negb (pos =? vma_list (curr_thread (ks s))) then
        v ← load (vmas (ks s) !! pos);
        sys_mmap fuel tf (u64 (virt_addr v + area_size v)) len prot s
      else
        '(p, s) ← s_alloc (u32 len) s;
        s ← on_ks (add_vma alloc (curr_thread (ks s)) addr len (VIRT_TO_PHYS p) (u64 prot) 1) s;
        set_x0 tf addr s
  end.

(** ** The dispatcher *)

Definition ARRAY_SIZE {A} (l : list A) : Z := Z.of_nat (length l).

(** A system call on the trap frame and the first three of the registers it is
    called with. *)
Definition syscall_func : Type := Z → Z → Z → Z → sstate → res sstate.

(** [fuel] is that of [sys_mmap]. *)
Definition syscall_table (fuel : nat) : list syscall_func := [
  λ tf _ _ _, sys_getpid tf;
  λ tf x0 x1 _, sys_uart_read tf x0 x1;
  λ tf x0 x1 _, sys_uart_write tf x0 x1;
  λ tf x0 _ _, sys_exec tf x0;
  λ tf _ _ _, sys_fork tf;
  λ _ _ _ _, sys_exit;
  λ _ x0 x1 _, sys_mbox_call x0 x1;
  λ _ x0 _ _, sys_kill_pid (s32 x0);
  λ _ x0 x1 _, sys_signal (u32 x0) x1;
  λ _ x0 x1 _, sys_kill (s32 x0) (u32 x1);
  λ tf x0 x1 x2, sys_mmap fuel tf x0 x1 (s32 x2);
  λ _ _ _ _, sys_sigret].

(** [tf->x[8]] as an [int], compared as a [size_t]; one number past the table passes
    the test. *)
Definition syscall_handler (fuel : nat) (tf : Z) (s : sstate) : res sstate :=
  let s := with_ks (with_k_heap (with_lk (enable_el1_interrupt (lk (k_heap (ks s)))) (k_heap (ks s))) (ks s)) s in
  f ← get_tf tf s;
  x8 ← arg 8 f; x0 ← arg 0 f; x1 ← arg 1 f; x2 ← arg 2 f;
  let syscall_num := s32 x8 in
  if ARRAY_SIZE (syscall_table fuel) <? u64 syscall_num then mret s
  else
    call ← load (syscall_table fuel !! Z.to_nat syscall_num);
    call tf x0 x1 x2 s.
End syscall.
