(* ===== verification/Signal.v ===== *)
(** lib/signal.c: the delivery of signals. A handler runs in user mode between
    [run_sig], which leaves the kernel, and [sys_sigret], which jumps back into
    the loop of [check_sig]. *)
From S2P Require Import Prelude Util ListHead Lock Mem CString Malloc Mmu Uart Mmio Timer Thread Sched RunQueue Spawn Syscall.
Local Open Scope Z_scope.

(** What a user handler starts with. *)
Record sig_regs := SigRegs { sr_elr : Z; sr_sp_el0 : Z; sr_spsr : Z; sr_x0 : Z }.

(** How [check_sig] leaves: to its caller; to a handler, with turn [i] of its loop
    waiting on the kernel stack; or for good, the thread being killed. *)
Inductive sig_out : Type :=
| Finished (s : sstate)
| Handler (r : sig_regs) (i : Z) (s : sstate)
| Gone (s : sstate).

Section signal.
Context (kl : klayout).

Definition default_sig_handler (s : sstate) : res sstate :=
  t ← s_curr s; sys_kill_pid kl (s32 (pid t)) s.

Definition run_sig (tf signum : Z) (s : sstate) : res sig_out :=
  t ← s_curr s;
  h ← load (sig_handler t !! Z.to_nat signum);
  s ← upd_curr (with_curr_sig_handler h) s;
  if h =? default_sig_handler_addr kl then
    s' ← default_sig_handler s;
    mret (if curr_thread (ks s') =? curr_thread (ks s) then Finished s' else Gone s')
  else
    f ← get_tf tf s;
    mret (Handler (SigRegs (USER_SIG_WRAPPER_VIRT_ADDR + sig_handler_wrapper_addr kl mod 0x1000) (sp_el0 f) (spsr_el1 f) h) signum s).

(** The part of a turn behind [store_cxt], where [sys_sigret] comes back to. *)
Definition sig_test (tf i : Z) (s : sstate) : res sig_out :=
  t ← s_curr s;
  c ← load (sigcount t !! Z.to_nat i);
  if 0 <? c then
    let s := s_lock s in
    s ← upd_curr (λ t, with_sigcount (<[Z.to_nat i := s32 (c - 1)]> (sigcount t)) t) s;
    run_sig tf i (s_unlock s)
  else mret (Finished s).

Definition save_sig_cxt (s : sstate) : res sstate :=
  upd_curr (λ t, with_sig_save_cxt (saved (cpu (ks s)) (sig_save_cxt t)) t) s.

(** [n] more turns, the next one being turn [i]. *)
Fixpoint sig_turns (n : nat) (tf i : Z) (s : sstate) : res sig_out :=
  match n with
  | O =>
      s ← upd_curr (with_sigcheck 0) (s_lock s);
      mret (Finished (s_unlock s))
  | S n =>
      s ← save_sig_cxt s;
      o ← sig_test tf i s;
      match o with Finished s => sig_turns n tf (i + 1) s | _ => mret o end
  end.

Definition check_sig (tf : Z) (s : sstate) : res sig_out :=
  let s := s_lock s in
  t ← s_curr s;
  if negb (sigcheck t =? 0) then mret (Finished (s_unlock s))
  else
    s ← upd_curr (with_sigcheck 1) s;
    sig_turns (Z.to_nat SIG_MAX) tf 0 (s_unlock s).

(** [sys_sigret] while turn [i] waits. *)
Definition sig_resume (tf i : Z) (s : sstate) : res sig_out :=
  s ← sys_sigret s;
  o ← sig_test tf i s;
  match o with Finished s => sig_turns (Z.to_nat (SIG_MAX - 1 - i)) tf (i + 1) s | _ => mret o end.

(** ** A whole delivery

    [user] is what happens between the start of a handler and its return through
    the wrapper; the result is the list of the signals that were handled. *)
Context (user : Z → sig_regs → sstate → res sstate).

Fixpoint deliver (fuel : nat) (tf : Z) (o : sig_out) : res (list (Z * Z) * sstate) :=
  match fuel with
  | O => Fuel
  | S fuel =>
      match o with
      | Finished s | Gone s => mret ([], s)
      | Handler r i s =>
          s ← user i r s;
          o ← sig_resume tf i s;
          '(l, s) ← deliver fuel tf o;
          mret ((i, sr_x0 r) :: l, s)
      end
  end.
Definition handle_signals (fuel : nat) (tf : Z) (s : sstate) : res (list (Z * Z) * sstate) :=
  o ← check_sig tf s; deliver fuel tf o.
End signal.

(** ** No nesting *)

(** while signals are being handled, another [check_sig] of the same thread does
    nothing but take and give back the lock: handlers do not nest. *)
Theorem check_sig_nested kl tf s t : s_curr s = Ok t → sigcheck t ≠ 0 → lock_wf (lk (k_heap (ks s))) →
  ∃ s', check_sig kl tf s = Ok (Finished s') ∧ threads (ks s') = threads (ks s) ∧ tfs s' = tfs s ∧ cpu (ks s') = cpu (ks s) ∧
    lock_counter (lk (k_heap (ks s'))) = lock_counter (lk (k_heap (ks s))).
Proof.
  intros Ht Hc Hlk. exists (s_unlock (s_lock s)). split.
  - unfold check_sig. assert (s_curr (s_lock s) = Ok t) as -> by exact Ht. cbn [mbind res_bind].
    by rewrite (proj2 (Z.eqb_neq _ _) Hc).
  - split; [done|]. split; [done|]. split; [done|].
    change (lk (k_heap (ks (s_unlock (s_lock s))))) with (unlock (lock (lk (k_heap (ks s))))). by rewrite unlock_lock.
Qed.

(** ** Every pending signal once *)

(** What is due: signal [i] with its handler as often as it is pending, then the
    signals behind it. *)
Fixpoint due (i : Z) (cs hs : list Z) : list (Z * Z) :=
  match cs, hs with
  | c :: cs, h :: hs => repeat (i, h) (Z.to_nat c) ++ due (i + 1) cs hs
  | _, _ => []
  end.

(** What the delivery works with in the record of its thread. *)
Definition sig_fields (t : thread) : list Z * list Z * Z * thread_context :=
  (sig_handler t, sigcount t, sigcheck t, sig_save_cxt t).

(** What the delivery leaves alone: the rest of its thread's record, and the other
    threads. *)
Definition outside (c : Z) (s : sstate) : option (thread_context * Z * Z * Z * Z * Z * Z) * gmap Z thread :=
  ((λ t, (cxt t, state t, pid t, data t, data_size t, ustack_ptr t, kstack_ptr t)) <$> threads (ks s) !! c, delete c (threads (ks s))).

(** The registers a function call keeps. *)
Definition kept (c : thread_context) : thread_context := with_ttbr0 0 c.

Lemma kept_saved c old : kept (saved c old) = kept c.
Proof. by destruct c. Qed.

Lemma s_upd_curr f s t : threads (ks s) !! curr_thread (ks s) = Some t →
  upd_curr f s = Ok (with_ks (with_threads (<[curr_thread (ks s) := f t]> (threads (ks s))) (ks s)) s).
Proof. intros E. unfold upd_curr, on_ks. by rewrite (upd_thread_ok _ _ _ _ E). Qed.

Section delivery.
Context (kl : klayout) (tf : Z) (c0 : Z) (f0 : trapframe) (C : thread_context) (H0 : list Z).
Context (R : relation (option (thread_context * Z * Z * Z * Z * Z * Z) * gmap Z thread)) (HR : PreOrder R).
Context (user : Z → sig_regs → sstate → res sstate).

(** The time from the start of a handler to its return, in which the processor may
    also run other threads: the thread is running again, its trap frame and the
    fields of the delivery are as they were, and the rest has changed by [R] at
    most. *)
Definition user_keeps : Prop := ∀ i r s t, s_curr s = Ok t → ∃ s' t', user i r s = Ok s' ∧ s_curr s' = Ok t' ∧
  curr_thread (ks s') = curr_thread (ks s) ∧ tfs s' !! tf = tfs s !! tf ∧ sig_fields t' = sig_fields t ∧
  R (outside (curr_thread (ks s)) s) (outside (curr_thread (ks s)) s').

Context (s0 : sstate).

(** The running thread is [c0] with record [t], in the middle of a delivery. *)
Record in_delivery (t : thread) (s : sstate) : Prop := {
  dl_curr : curr_thread (ks s) = c0;
  dl_thread : threads (ks s) !! c0 = Some t;
  dl_tf : tfs s !! tf = Some f0;
  dl_cpu : kept (cpu (ks s)) = kept C;
  dl_handlers : sig_handler t = H0;
  dl_outside : R (outside c0 s0) (outside c0 s);
}.

Lemma dl_get t s : in_delivery t s → s_curr s = Ok t.
Proof using. intros [E1 E2 _ _ _ _]. unfold s_curr, curr, get_thread. by rewrite E1, E2. Qed.

(** A change of the fields of the delivery. *)
Definition own_fields (f : thread → thread) (t : thread) : Prop :=
  (cxt (f t), state (f t), pid (f t), data (f t), data_size (f t), ustack_ptr (f t), kstack_ptr (f t), sig_handler (f t)) =
  (cxt t, state t, pid t, data t, data_size t, ustack_ptr t, kstack_ptr t, sig_handler t).

Lemma dl_upd t s f : in_delivery t s → own_fields f t → ∃ s', upd_curr f s = Ok s' ∧ in_delivery (f t) s'.
Proof using.
  intros [E1 E2 E3 E4 E5 E6] Hf. injection Hf as F1 F2 F3 F4 F5 F6 F7 F8. eexists. split; [apply (s_upd_curr f s t); by rewrite E1|].
  assert (outside c0 (with_ks (with_threads (<[curr_thread (ks s) := f t]> (threads (ks s))) (ks s)) s) = outside c0 s) as Eo.
  { unfold outside. cbn. rewrite E1, lookup_insert_eq, E2, delete_insert_eq. cbn. by rewrite F1, F2, F3, F4, F5, F6, F7. }
  split; [done| |done|done|congruence|by rewrite Eo]. cbn. by rewrite E1, lookup_insert_eq.
Qed.

Lemma dl_lock t s : in_delivery t s → in_delivery t (s_lock s).
Proof using. by intros []. Qed.
Lemma dl_unlock t s : in_delivery t s → in_delivery t (s_unlock s).
Proof using. by intros []. Qed.

Lemma run_handler t s i h : in_delivery t s → sig_handler t !! Z.to_nat i = Some h → h ≠ default_sig_handler_addr kl →
  ∃ r s', run_sig kl tf i s = Ok (Handler r i s') ∧ in_delivery (with_curr_sig_handler h t) s' ∧
    r = SigRegs (USER_SIG_WRAPPER_VIRT_ADDR + sig_handler_wrapper_addr kl mod 0x1000) (sp_el0 f0) (spsr_el1 f0) h.
Proof using.
  intros HD Hh Hd. destruct (dl_upd t s (with_curr_sig_handler h) HD) as (s1 & E1 & HD1); [done|].
  eexists _, s1. split; [|split; [exact HD1|reflexivity]].
  unfold run_sig. rewrite (dl_get t s HD). cbn [mbind res_bind]. rewrite Hh. cbn [load mbind res_bind]. rewrite E1.
  cbn [mbind res_bind]. rewrite (proj2 (Z.eqb_neq _ _) Hd). unfold get_tf. by rewrite (dl_tf _ _ HD1).
Qed.

Definition continue (tf i : Z) (s : sstate) : res sig_out :=
  o ← sig_test kl tf i s;
  match o with Finished s => sig_turns kl (Z.to_nat (SIG_MAX - 1 - i)) tf (i + 1) s | _ => mret o end.

(** What a run from some point of the loop leads to. *)
Definition delivers (o : res sig_out) (l : list (Z * Z)) : Prop :=
  ∀ fuel, (length l < fuel)%nat → ∃ s' t', (o ← o; deliver kl user fuel tf o) = Ok (l, s') ∧
    in_delivery t' s' ∧ sigcount t' = repeat 0 32 ∧ sigcheck t' = 0.

(** Pending signals with a handler of the program's own. *)
Definition registered (cs hs : list Z) : Prop := Forall2 (λ c h, 0 < c → h ≠ default_sig_handler_addr kl) cs hs.

Context (Huser : user_keeps) (Hhs : length H0 = 32%nat).

Lemma continue_ok cs n i (Hturns : ∀ s t, in_delivery t s → sigcount t = repeat 0 (S (Z.to_nat i)) ++ cs →
    delivers (sig_turns kl n tf (i + 1) s) (due (i + 1) cs (drop (S (Z.to_nat i)) H0))) h :
  (Z.to_nat i + S n = 32)%nat → 0 ≤ i → length cs = n → H0 !! Z.to_nat i = Some h → ∀ k s t, (0 < Z.of_nat k → h ≠ default_sig_handler_addr kl) →
  in_delivery t s → kept (sig_save_cxt t) = kept C → sigcount t = repeat 0 (Z.to_nat i) ++ Z.of_nat k :: cs → Z.of_nat k < 2 ^ 31 →
  delivers (continue tf i s) (due i (Z.of_nat k :: cs) (drop (Z.to_nat i) H0)).
Proof using Huser Hhs HR.
  intros Hn Hi Hcs Hh. rewrite (drop_S _ _ _ Hh).
  assert (Z.to_nat (SIG_MAX - 1 - i) = n) as En by (unfold SIG_MAX; lia).
  induction k as [|k IH]; intros s t Hhd HD HC Hc Hk fuel Hfuel.
  - change (due i (Z.of_nat 0 :: cs) (h :: ?l)) with (due (i + 1) cs l) in *. unfold continue, sig_test. rewrite (dl_get t s HD). cbn [mbind res_bind].
    assert (sigcount t !! Z.to_nat i = Some 0) as E0.
    { rewrite Hc, lookup_app_r by (rewrite repeat_length; lia). by rewrite repeat_length, Nat.sub_diag. }
    rewrite E0. cbn [load mbind res_bind]. change (0 <? 0) with false. cbv iota. cbn [mbind res_bind mret res_ret]. rewrite En.
    apply (Hturns s t); [done| |done]. rewrite Hc. replace (S (Z.to_nat i)) with (Z.to_nat i + 1)%nat by lia.
    rewrite repeat_app, <- app_assoc. done.
  - set (rest := due (i + 1) cs (drop (S (Z.to_nat i)) H0)).
    assert (due i (Z.of_nat (S k) :: cs) (h :: drop (S (Z.to_nat i)) H0) = (i, h) :: due i (Z.of_nat k :: cs) (h :: drop (S (Z.to_nat i)) H0)) as Ed.
    { cbn [due]. by rewrite !Nat2Z.id. }
    rewrite Ed in *. cbn [length] in Hfuel. destruct fuel as [|fuel]; [lia|].
    assert (sigcount t !! Z.to_nat i = Some (Z.of_nat (S k))) as E0.
    { rewrite Hc, lookup_app_r by (rewrite repeat_length; lia). by rewrite repeat_length, Nat.sub_diag. }
    destruct (dl_upd t (s_lock s) (λ t, with_sigcount (<[Z.to_nat i := s32 (Z.of_nat (S k) - 1)]> (sigcount t)) t) (dl_lock _ _ HD))
      as (s1 & E1 & HD1); [done|].
    destruct (run_handler _ (s_unlock s1) i h (dl_unlock _ _ HD1)) as (r & s2 & E2 & HD2 & Er).
    { cbn [with_sigcount sig_handler]. by rewrite (dl_handlers _ _ HD). }
    { apply Hhd. lia. }
    set (t2 := with_curr_sig_handler h _) in HD2.
    destruct (Huser i r s2 t2 (dl_get _ _ HD2)) as (s3 & t3 & E3 & Et3 & U1 & U2 & U3 & U4). rewrite (dl_curr _ _ HD2) in U4.
    injection U3 as U5 U6 U7 U8.
    assert (in_delivery t3 (with_ks (load_cxt (sig_save_cxt t3) (ks s3)) s3)) as HD3.
    { pose proof Et3 as Ht3. unfold s_curr, curr, get_thread in Ht3. apply load_Ok in Ht3. rewrite U1, (dl_curr _ _ HD2) in Ht3.
      destruct HD2 as [A1 A2 A3 A4 A5 A6]. split; cbn; [congruence|exact Ht3|congruence| |exact (eq_trans U5 A5)|by transitivity (outside c0 s2)].
      rewrite kept_saved, U8. exact HC. }
    destruct (IH _ t3 ltac:(intros; apply Hhd; lia) HD3) with (fuel := fuel) as (s' & t' & E' & HD' & Hz).
    { by rewrite U8. }
    { rewrite U6. cbn [t2 with_curr_sig_handler with_sigcount sigcount]. rewrite Hc.
      rewrite insert_app_r_alt by (rewrite repeat_length; lia). rewrite repeat_length, Nat.sub_diag. cbn [list_insert].
      replace (Z.of_nat (S k) - 1) with (Z.of_nat k) by lia. by rewrite s32_small by lia. }
    { lia. }
    { lia. }
    exists s', t'. split; [|done]. unfold continue, sig_test. rewrite (dl_get t s HD). cbn [mbind res_bind]. rewrite E0.
    cbn [load mbind res_bind]. rewrite (proj2 (Z.ltb_lt 0 _)) by lia. rewrite E1. cbn [mbind res_bind]. rewrite E2.
    cbn [mbind res_bind mret res_ret deliver]. rewrite E3. cbn [mbind res_bind]. unfold sig_resume, sys_sigret. rewrite Et3.
    cbn [mbind res_bind mret res_ret]. fold (continue tf i (with_ks (load_cxt (sig_save_cxt t3) (ks s3)) s3)).
    destruct (continue tf i (with_ks (load_cxt (sig_save_cxt t3) (ks s3)) s3)) as [o| |]; cbn [mbind res_bind] in E' |- *; try discriminate.
    rewrite E'. cbn [mbind res_bind mret res_ret]. by subst r.
Qed.

Lemma turns_ok n : ∀ i cs s t, (Z.to_nat i + n = 32)%nat → 0 ≤ i → length cs = n → Forall (λ c, 0 ≤ c < 2 ^ 31) cs →
  registered cs (drop (Z.to_nat i) H0) → in_delivery t s → sigcount t = repeat 0 (Z.to_nat i) ++ cs →
  delivers (sig_turns kl n tf i s) (due i cs (drop (Z.to_nat i) H0)).
Proof using Huser Hhs HR.
  induction n as [|n IH]; intros i [|c cs] s t Hn Hi Hl Hcs Hreg HD Hc; try discriminate Hl.
  - intros [|fuel] Hf; [simpl in Hf; lia|]. destruct (dl_upd t (s_lock s) (with_sigcheck 0) (dl_lock _ _ HD)) as (s1 & E1 & HD1); [done|].
    exists (s_unlock s1), (with_sigcheck 0 t). split; [cbn [sig_turns]; rewrite E1; done|].
    split; [by apply dl_unlock|]. split; [|done]. cbn. rewrite Hc, app_nil_r. by replace (Z.to_nat i) with 32%nat by lia.
  - apply Forall_cons in Hcs as [Hc0 Hcs]. injection Hl as Hl.
    assert (∃ h, H0 !! Z.to_nat i = Some h) as [h Hh] by (apply lookup_lt_is_Some; lia).
    rewrite (drop_S _ _ _ Hh) in Hreg. apply Forall2_cons in Hreg as [Hh0 Hreg].
    destruct (dl_upd t s (λ t, with_sig_save_cxt (saved (cpu (ks s)) (sig_save_cxt t)) t) HD) as (s1 & E1 & HD1); [done|].
    intros fuel Hf. cbn [sig_turns]. unfold save_sig_cxt. rewrite E1. cbn [mbind res_bind].
    assert ((o ← sig_test kl tf i s1; match o with Finished s => sig_turns kl n tf (i + 1) s | _ => mret o end) =
      continue tf i s1) as ->.
    { unfold continue. by replace (Z.to_nat (SIG_MAX - 1 - i)) with n by (unfold SIG_MAX; lia). }
    rewrite <- (Z2Nat.id c) in Hf, Hc, Hh0 |- * by lia.
    apply (continue_ok cs n i) with (h := h) (t := with_sig_save_cxt (saved (cpu (ks s)) (sig_save_cxt t)) t); try done; try lia.
    + intros s2 t2 HD2 Hc2. replace (S (Z.to_nat i)) with (Z.to_nat (i + 1)) in * by lia. by apply (IH (i + 1) cs s2 t2); try lia.
    + cbn. rewrite kept_saved. apply HD.
Qed.
End delivery.

(** C16: a check for signals handles every pending signal exactly as often as it is
    pending, in the order of the signal numbers, each with the handler that the
    thread has registered for it, through any sequence of handlers that return.
    It ends with no signal pending, the check open for the next interrupt and the
    registers of the interrupted loop restored; the delivery itself changes
    nothing else of the thread's record and no other thread. A signal that is
    pending must have a handler of the program's own (the default one kills the
    thread), and until a handler has returned, [user] has to leave the thread's
    trap frame, its handlers, its pending signals and its saved registers as they
    were; whatever else happens meanwhile (other threads may run) is bounded by a
    preorder [R] of the caller's choice, which then also bounds the whole check. *)
Theorem handle_signals_ok kl R `{!PreOrder R} user tf s t f : s_curr s = Ok t → tfs s !! tf = Some f → user_keeps tf R user →
  sigcheck t = 0 → length (sig_handler t) = 32%nat → length (sigcount t) = 32%nat →
  Forall (λ c, 0 ≤ c < 2 ^ 31) (sigcount t) → Forall2 (λ c h, 0 < c → h ≠ default_sig_handler_addr kl) (sigcount t) (sig_handler t) →
  ∃ s' t', handle_signals kl user (S (length (due 0 (sigcount t) (sig_handler t)))) tf s = Ok (due 0 (sigcount t) (sig_handler t), s') ∧
    s_curr s' = Ok t' ∧ curr_thread (ks s') = curr_thread (ks s) ∧ tfs s' !! tf = Some f ∧
    sig_handler t' = sig_handler t ∧ sigcount t' = repeat 0 32 ∧ sigcheck t' = 0 ∧ kept (cpu (ks s')) = kept (cpu (ks s)) ∧
    R (outside (curr_thread (ks s)) s) (outside (curr_thread (ks s)) s').
Proof.
  intros Ht Hf Hu Hsc Hlh Hlc Hc Hd.
  assert (threads (ks s) !! curr_thread (ks s) = Some t) as Et.
  { revert Ht. unfold s_curr, curr, get_thread. intros H%load_Ok. done. }
  assert (in_delivery tf (curr_thread (ks s)) f (cpu (ks s)) (sig_handler t) R s t (s_lock s)) as HD by done.
  destruct (dl_upd _ _ _ _ _ _ _ t (s_lock s) (with_sigcheck 1) HD) as (s1 & E1 & HD1); [done|].
  destruct (turns_ok kl tf (curr_thread (ks s)) f (cpu (ks s)) (sig_handler t) R _ user s Hu Hlh 32 0 (sigcount t) (s_unlock s1) (with_sigcheck 1 t)) with
    (fuel := S (length (due 0 (sigcount t) (sig_handler t)))) as (s' & t' & E' & HD' & Hz & Hk); try done; try lia; try by apply dl_unlock.
  { apply Nat.lt_succ_diag_r. }
  exists s', t'. split; [|split; [by eapply dl_get|by destruct HD']]. unfold handle_signals, check_sig.
  assert (s_curr (s_lock s) = Ok t) as -> by exact Ht. cbn [mbind res_bind].
  rewrite (proj2 (Z.eqb_eq _ _) Hsc). cbn [negb]. rewrite E1. exact E'.
Qed.

(** ** Witnesses *)

Definition sys_of (k : kstate) (tf : Z) (f : trapframe) : sstate := Sys k {[tf := f]} uart_reset (VCore (repeat 0 64) [] [] []) ∅.
Definition tf_ex : trapframe := Tf (repeat 0 31) 0 0x100 0xfffffffff000.
(** Signal 9 twice and signal 30 once, with handlers at 0x1000; all other handlers
    are the default one. *)
Definition pending_ex (check : Z) : thread :=
  with_sigcheck check (with_sigcount (<[9%nat := 2]> (<[30%nat := 1]> (repeat 0 32)))
    (with_sig_handler (<[9%nat := 0x1000]> (<[30%nat := 0x1000]> (repeat (default_sig_handler_addr kl_ex) 32))) (thread_ex 0 THREAD_RUNNING))).
Definition pending_state (check : Z) : sstate :=
  sys_of (with_threads {[0x1000 := pending_ex check]} kstate_ex) 0x5000 tf_ex.

(** Handlers that use the registers and during which another thread is created
    and the running one is switched. *)
Definition user_ex (i : Z) (r : sig_regs) (s : sstate) : res sstate :=
  s ← upd_curr (with_cxt (cxt_ex 99)) s;
  Ok (with_ks (with_cpu (cxt_ex 99) (with_threads (<[curr_thread (ks s) + sizeof_thread := thread_ex 1 THREAD_RUNNING]> (threads (ks s))) (ks s))) s).

(** No bound on what else happens. *)
Definition anything {A} : relation A := λ _ _, True.
#[local] Instance anything_preorder {A} : PreOrder (@anything A).
Proof. by split. Qed.

Lemma user_ex_keeps tf : user_keeps tf anything user_ex.
Proof.
  intros i r s t Ht. pose proof Ht as Et. unfold s_curr, curr, get_thread in Et. apply load_Ok in Et.
  unfold user_ex. rewrite (s_upd_curr _ s t Et). eexists _, (with_cxt (cxt_ex 99) t). split; [reflexivity|]. split; [|done].
  unfold s_curr, curr, get_thread. cbn. rewrite lookup_insert_ne by (unfold sizeof_thread; lia). by rewrite lookup_insert_eq.
Qed.

Lemma handle_signals_ok_witness : ∃ s', handle_signals kl_ex user_ex 4 0x5000 (pending_state 0) =
  Ok ([(9, 0x1000); (9, 0x1000); (30, 0x1000)], s').
Proof.
  destruct (handle_signals_ok kl_ex anything user_ex 0x5000 (pending_state 0) (pending_ex 0) tf_ex) as (s' & t' & E & _).
  - reflexivity.
  - reflexivity.
  - apply user_ex_keeps.
  - reflexivity.
  - reflexivity.
  - reflexivity.
  - repeat (constructor; [split; [discriminate|reflexivity]|]). constructor.
  - repeat (constructor; [intros H; discriminate|]). constructor.
  - exists s'. exact E.
Defined.

Lemma check_sig_nested_witness : ∃ s', check_sig kl_ex 0x5000 (pending_state 1) = Ok (Finished s').
Proof.
  destruct (check_sig_nested kl_ex 0x5000 (pending_state 1) (pending_ex 1)) as (s' & E & _).
  - reflexivity.
  - discriminate.
  - split; [split; [discriminate|reflexivity]|discriminate].
  - exists s'. exact E.
Defined.
