(* ===== verification/Fork.v ===== *)
(** [sys_fork] of lib/syscall.c: what the child gets, and how the call returns in
    the parent and, later, in the child. *)
From S2P Require Import Prelude Util ListHead Lock Mem CString Malloc Heap Alloc KAlloc Mmu PageTable Cpio Uart Mmio Timer Thread Sched RunQueue Spawn Areas Syscall Signal.
Local Open Scope Z_scope.

(** ** The areas of the child *)

(** The areas a child gets a copy of: all but the device's and the signal
    wrapper's. *)
Definition copied (v : vm_area) : Prop := virt_addr v ≠ USER_SIG_WRAPPER_VIRT_ADDR ∧ virt_addr v ≠ 0x3C000000.
#[export] Instance copied_dec v : Decision (copied v) := _.

(** The child's copy of an area, with its memory at [a]. *)
Definition copy_area (v : vm_area) (a : Z) : vm_area :=
  VmArea (virt_addr v) (VIRT_TO_PHYS a) (round_page (area_size v)) (protected v) PG_NEED_ALLOC.
Definition device_area : vm_area := VmArea 0x3C000000 0x3C000000 0x3000000 (Z.lor PROT_R PROT_W) PG_DONT_ALLOC.
Definition wrapper_area (kl : klayout) : vm_area :=
  VmArea USER_SIG_WRAPPER_VIRT_ADDR (VIRT_TO_PHYS (sig_handler_wrapper_addr kl)) 0x2000 (Z.lor PROT_R PROT_X) PG_DONT_ALLOC.

(** The memory after the areas [vs] have been copied to [objs]. *)
Fixpoint copy_memory (vs : list vm_area) (objs : list Z) (m : bmem) : bmem :=
  match vs, objs with
  | v :: vs, a :: objs => copy_memory vs objs (copy_bytes a (PHYS_TO_VIRT (phys_addr v)) (area_size v) m)
  | _, _ => m
  end.

Lemma copy_memory_snoc vs objs v a m : length vs = length objs →
  copy_memory (vs ++ [v]) (objs ++ [a]) m = copy_bytes a (PHYS_TO_VIRT (phys_addr v)) (area_size v) (copy_memory vs objs m).
Proof. revert objs m. induction vs as [|w vs IH]; intros [|b objs] m Hl; try done. simpl. apply IH. by injection Hl. Qed.

Section areas.
Context `{KA : KAlloc alloc} (c p : Z) (s0 : kstate) (L0 : rings) (g0 : ka_ghost) (ps : list Z).

(** On the way from [s0]: the child [p] has the areas [ws], [objs] have been handed
    out for the areas [vs], and the parent [c] is as it was. *)
Record forking (s : kstate) (L : rings) (g : ka_ghost) (k : nat) (vs ws : list vm_area) (objs : list Z) : Prop := {
  fk_inv : ka_inv (k_heap s) L g;
  fk_room : ka_room g k;
  fk_child : areas_ok s L p ws;
  fk_ring : L !! vma_list c = Some ps;
  fk_parent : ∀ vs', areas_ok s0 L0 c vs' → areas_ok s L c vs';
  fk_rings : agree_on (λ h, ¬ ka_private h ∧ h ≠ vma_list p) L0 L;
  fk_live : ∀ q m, ka_live L0 g0 q m → ka_live L g q m;
  fk_static : ∀ q, ka_static g0 q → ka_static g q ∧ (node L q → node L0 q);
  fk_lock : lk (k_heap s) = lk (k_heap s0);
  fk_bytes : k_bytes s = copy_memory vs objs (k_bytes s0);
  fk_fresh : NoDup objs ∧ Forall2 (λ v a, (∃ n, area_size v ≤ n ∧ ka_live L g a n) ∧ ∀ n, ¬ ka_live L0 g0 a n) vs objs;
  fk_rest : (threads s, kwords s, nxt_pid s, rq s, curr_thread s, cpu s, tpidr_el1 s) =
    (threads s0, kwords s0, nxt_pid s0, rq s0, curr_thread s0, cpu s0, tpidr_el1 s0);
}.

Context (Hc : ¬ ka_private (vma_list c)) (Hp : ¬ ka_private (vma_list p)) (Hcp : c ≠ p).

Lemma areas_with_heap s h L L' t vs : areas_ok s L t vs → L' !! vma_list t = L !! vma_list t → areas_ok (with_k_heap h s) L' t vs.
Proof using. intros (qs & Hqs & Hf) E. exists qs. by rewrite E. Qed.

Lemma forking_add s L g k vs ws objs v :
  forking s L g (S k) vs ws objs → 0 ≤ allocated v < 2 ^ 32 → ∀ size, area_size v = round_page size →
  ∃ s' L' g', add_vma alloc p (virt_addr v) size (phys_addr v) (protected v) (allocated v) s = Ok s' ∧
    forking s' L' g' k vs (ws ++ [v]) objs ∧ ∀ q m, ka_live L g q m → ka_live L' g' q m.
Proof using Hc Hp Hcp.
  intros [HI HR Hch Hps Hpa Ha Hl Hst Hk Hb [Hnd Hf] Hr] Hal size Hs.
  destruct (add_vma_run s L g k p (virt_addr v) size (phys_addr v) (protected v) (allocated v) ws HI HR Hch Hp Hal)
    as (s' & L' & g' & E & HR' & [A1 A2 A3 A4 A5 A6 A7 [A8 A9] _]).
  rewrite <- Hs in A2. exists s', L', g'. split; [exact E|]. split; [|exact A5]. split; try done.
  - by destruct v.
  - rewrite (A4 (vma_list c)); [done|]. split; [done|]. unfold vma_list. lia.
  - intros vs' Hv. apply A3; [done|done|]. by apply Hpa.
  - intros h Hh. rewrite (A4 h Hh). by apply Ha.
  - intros q m Hq. by apply A5, Hl.
  - intros q Hq. destruct (Hst q Hq) as [H1 H2]. destruct (A6 q H1) as [H3 H4]. auto.
  - by rewrite A7.
  - injection A9 as A9 _ _ _. unfold k_bytes. by rewrite A9.
  - split; [done|]. eapply Forall2_impl; [exact Hf|]. intros w a [(n & Hn & Hn') Hfr]. split; [|done].
    exists n. split; [done|]. by apply A5.
  - by rewrite A8.
Qed.

Lemma fork_area_copied pos v s L g k vs ws objs :
  forking s L g (S (S k)) vs ws objs → vmas s !! pos = Some v → copied v → 0 ≤ area_size v ≤ 0x40000 →
  ∃ a s' L' g', fork_area alloc p pos s = Ok s' ∧ forking s' L' g' k (vs ++ [v]) (ws ++ [copy_area v a]) (objs ++ [a]).
Proof using Hc Hp Hcp.
  intros [HI HR Hch Hps Hpa Ha Hl Hst Hk Hb [Hnd Hf] Hr] Hv [Hv1 Hv2] Hsz.
  destruct (k_alloc_ok s L g (area_size v) (S k) HI Hsz HR) as (a & n & h & L1 & g1 & E & Hlk & HI1 & HR1 & Ha1 & Hn & Hle & _ & Hfr & Hl1 & Hs1).
  assert (forking (with_k_heap h s) L1 g1 (S k) vs ws objs) as HF.
  { split; try done.
    - apply (areas_with_heap s h L); [done|]. by apply Ha1.
    - by rewrite (Ha1 _ Hc).
    - intros vs' Hvs. apply (areas_with_heap s h L); [by apply Hpa|]. by apply Ha1.
    - intros h' [Hh1 Hh2]. rewrite (Ha1 h' Hh1). by apply Ha.
    - intros q m Hq. apply Hl1. left. by apply Hl.
    - intros q Hq. destruct (Hst q Hq) as [H1 H2]. destruct (Hs1 q H1) as (_ & H3 & H4). auto.
    - by rewrite <- Hk.
    - split; [done|]. eapply Forall2_impl; [exact Hf|]. intros w b [(m & Hm & Hm') Hfr']. split; [|done].
      exists m. split; [done|]. apply Hl1. by left. }
  assert (a ∉ objs) as Hni.
  { intros Hin. apply list_elem_of_lookup in Hin as [i Hi]. destruct (Forall2_lookup_r _ _ _ _ _ Hf Hi) as (w & _ & (m & _ & Hm) & _).
    by apply (Hfr m). }
  destruct (forking_add _ _ _ _ _ _ _ (copy_area v a) HF) with (size := area_size v) as (s2 & L2 & g2 & E2 & [B1 B2 B3 B4 B5 B6 B7 B8 B9 B10 [B11 B12] B13] & Hl2);
    [cbn; unfold PG_NEED_ALLOC; lia|done|].
  exists a, (with_k_bytes (copy_bytes a (PHYS_TO_VIRT (phys_addr v)) (area_size v) (k_bytes s2)) s2), L2, g2. split.
  - unfold fork_area. rewrite Hv. cbn [load mbind res_bind]. rewrite (proj2 (Z.eqb_neq _ _) Hv1), (proj2 (Z.eqb_neq _ _) Hv2). cbn [orb].
    rewrite u32_small by lia. rewrite E. cbn [mbind res_bind]. cbn [copy_area virt_addr phys_addr protected allocated] in E2. rewrite E2.
    cbn [mbind res_bind]. by rewrite (proj2 (Z.ltb_lt _ _)) by lia.
  - split; try done.
    + cbn. rewrite copy_memory_snoc by (by eapply Forall2_length). by rewrite B10.
    + split; [apply NoDup_app; split; [done|split; [|apply NoDup_singleton]]; by intros x Hx ->%list_elem_of_singleton|].
      apply Forall2_app; [exact B12|]. constructor; [|constructor]. split.
      * exists n. split; [done|]. apply Hl2, Hl1. by right.
      * intros m Hm. by apply (Hfr m), Hl.
Qed.

(** The loop over the areas of the parent. *)
Lemma fork_areas s L g k vs : areas_ok s0 L0 c vs → Forall (λ v, 0 ≤ area_size v ≤ 0x40000) (filter copied vs) →
  forking s L g (k + 2 * length (filter copied vs)) [] [] [] →
  ∃ s' L' g' objs, list_for_each k_lm (ring_fuel (k_lm s)) (vma_list c) (λ pos k, k ← fork_area alloc p pos k; mret (Next pos k)) s = Ok (vma_list c, s') ∧
    forking s' L' g' k (filter copied vs) (zip_with copy_area (filter copied vs) objs) objs.
Proof using Hc Hp Hcp.
  intros Hvs Hsz HF.
  set (P := λ (done : list Z) (s : kstate), ∃ vs1 vs2 L g objs, vs = vs1 ++ vs2 ∧ length done = length vs1 ∧
    forking s L g (k + 2 * length (filter copied vs2)) (filter copied vs1) (zip_with copy_area (filter copied vs1) objs) objs).
  destruct (list_for_each_inv k_lm P (vma_list c) ps (λ pos k, k ← fork_area alloc p pos k; mret (Next pos k)) s (ring_fuel (k_lm s))) as (s' & E & HP).
  - intros done s1 (vs1 & vs2 & L1 & g1 & objs & _ & _ & HF1). exists L1. split; [apply (ka_lists _ _ g1), HF1|].
    apply HF1.
  - intros l1 x l2 s1 El (vs1 & vs2 & L1 & g1 & objs & -> & Hlen & HF1).
    destruct (fk_parent _ _ _ _ _ _ _ HF1 _ Hvs) as (ps' & Hps' & Hf). rewrite (fk_ring _ _ _ _ _ _ _ HF1) in Hps'. injection Hps' as <-.
    rewrite El in Hf. apply Forall2_app_inv in Hf as [_ Hf]; [|done]. destruct vs2 as [|v vs2]; [by inversion Hf|].
    apply Forall2_cons in Hf as [Hx _]. rewrite filter_app in Hsz. rewrite filter_cons in Hsz, HF1. destruct (decide (copied v)) as [Hv|Hv].
    + apply Forall_app in Hsz as [_ Hsz]. apply Forall_cons in Hsz as [Hv1 _]. cbn [length] in HF1.
      replace (k + 2 * S (length (filter copied vs2)))%nat with (S (S (k + 2 * length (filter copied vs2)))) in HF1 by lia.
      destruct (fork_area_copied x v s1 L1 g1 _ _ _ _ HF1 Hx Hv Hv1) as (a & s2 & L2 & g2 & E2 & HF2).
      exists s2. split; [by rewrite E2|]. exists (vs1 ++ [v]), vs2, L2, g2, (objs ++ [a]). split; [by rewrite <- app_assoc|].
      split; [rewrite !length_app; cbn; lia|]. rewrite filter_app, filter_cons, decide_True by done. rewrite zip_with_app; [exact HF2|].
      destruct HF1 as [_ _ _ _ _ _ _ _ _ _ [_ Hf1] _]. by eapply Forall2_length.
    + exists s1. split.
      * unfold fork_area. rewrite Hx. cbn [load mbind res_bind].
        assert ((virt_addr v =? USER_SIG_WRAPPER_VIRT_ADDR) || (virt_addr v =? 0x3C000000) = true) as ->; [|done].
        apply orb_true_iff. rewrite !Z.eqb_eq. unfold copied in Hv. lia.
      * exists (vs1 ++ [v]), vs2, L1, g1, objs. split; [by rewrite <- app_assoc|].
        split; [rewrite !length_app; cbn; lia|]. by rewrite filter_app, filter_cons, decide_False, app_nil_r by done.
  - destruct HF as [HI _ _ Hps _ _ _ _ _ _ _ _]. exact (ring_fuel_enough _ _ _ _ (ka_lists _ _ _ HI) Hps).
  - exists [], vs, L, g, []. done.
  - destruct HP as (vs1 & vs2 & L1 & g1 & objs & -> & Hlen & HF1).
    destruct (fk_parent _ _ _ _ _ _ _ HF1 _ Hvs) as (ps' & Hps' & Hf). rewrite (fk_ring _ _ _ _ _ _ _ HF1) in Hps'. injection Hps' as <-.
    apply Forall2_length in Hf. rewrite length_app in Hf. destruct vs2; [|cbn in Hf; lia]. rewrite app_nil_r in *.
    exists s', L1, g1, objs. split; [exact E|]. cbn in HF1. by rewrite Nat.add_0_r in HF1.
Qed.
End areas.

(** ** The call *)

(** The state in which the parent saves its registers, [s1]. *)
Record forked_mid `{KA : KAlloc alloc} (kl : klayout) (s s1 : sstate) (L L' : rings) (g g' : ka_ghost) (l : list Z)
    (p : Z) (t t0 n : thread) (vs : list vm_area) (objs : list Z) : Prop := {
  fd_inv : ka_inv (k_heap (ks s1)) L' g';
  fd_child : areas_ok (ks s1) L' p (zip_with copy_area (filter copied vs) objs ++ [device_area; wrapper_area kl]);
  fd_parent : areas_ok (ks s1) L' (curr_thread (ks s)) vs;
  fd_queue : L' !! rq (ks s1) = Some (p :: l);
  fd_objs : NoDup objs ∧ Forall2 (λ v a, (∃ c, area_size v ≤ c ∧ ka_live L' g' a c) ∧ ∀ c, ¬ ka_live L g a c) (filter copied vs) objs;
  fd_stacks : (∃ c, KSTACK_SIZE ≤ c ∧ ka_live L' g' (kstack_ptr n) c) ∧ ∀ c, ¬ ka_live L g (kstack_ptr n) c;
  fd_bytes : k_bytes (ks s1) = copy_memory (filter copied vs) objs (k_bytes (ks s));
  fd_threads : threads (ks s1) = <[curr_thread (ks s) := with_cxt (saved (cpu (ks s)) (cxt t)) t]> (<[p := n]> (threads (ks s)));
  fd_new : state n = THREAD_RUNNING ∧ pid n = pid t0 ∧ sig_handler n = sig_handler t ∧ sigcount n = repeat 0 32 ∧ sigcheck n = 0;
  fd_pgd : ∀ x, 0 ≤ x < 512 → kwords (ks s1) !! Mmu.entry (ttbr0_el1 (cxt n)) x = Some 0;
  fd_frames : tfs s1 = copy_frames (kstack_ptr n) (kstack_ptr t) (tfs s);
  fd_lock : lk (k_heap (ks s1)) = unlock (lock (lock (lk (k_heap (ks s)))));
  fd_rest : (rq (ks s1), curr_thread (ks s1), cpu (ks s1), tpidr_el1 (ks s1), ser s1, box s1, infos s1) =
    (rq (ks s), curr_thread (ks s), cpu (ks s), tpidr_el1 (ks s), ser s, box s, infos s);
}.

(** What the child starts with: the parent's registers, on its own kernel stack
    and with the physical address of its own table. *)
Definition child_cxt (c : thread_context) (shift pgd : Z) : thread_context :=
  Cxt (callee c) (u64 (fp c + shift)) (lr c) (u64 (sp c + shift)) (VIRT_TO_PHYS pgd).

(** The place in the kernel stack of [n] that the frame [tf] has in the one of [t]. *)
Definition child_frame (tf : Z) (t n : thread) : Z := tf + (kstack_ptr n - kstack_ptr t).

(** The state [s'] that a fork leaves to the parent, the running thread of [s] with
    record [t] and areas [vs]: [n] is what [thread_create] made of the child [p],
    [objs] the memory of its areas, [f] the parent's frame. *)
Record forked `{KA : KAlloc alloc} (kl : klayout) (s s' : sstate) (L L' : rings) (g g' : ka_ghost) (l : list Z)
    (p tf : Z) (f : trapframe) (t t0 n : thread) (vs : list vm_area) (objs : list Z) : Prop := {
  fo_inv : ka_inv (k_heap (ks s')) L' g';
  fo_child : areas_ok (ks s') L' p (zip_with copy_area (filter copied vs) objs ++ [device_area; wrapper_area kl]);
  fo_parent : areas_ok (ks s') L' (curr_thread (ks s)) vs;
  fo_queue : L' !! rq (ks s') = Some (p :: l);
  fo_objs : NoDup objs ∧ Forall2 (λ v a, (∃ c, area_size v ≤ c ∧ ka_live L' g' a c) ∧ ∀ c, ¬ ka_live L g a c) (filter copied vs) objs;
  fo_stacks : (∃ c, KSTACK_SIZE ≤ c ∧ ka_live L' g' (kstack_ptr n) c) ∧ ∀ c, ¬ ka_live L g (kstack_ptr n) c;
  fo_bytes : k_bytes (ks s') = copy_memory (filter copied vs) objs (k_bytes (ks s));
  fo_new : state n = THREAD_RUNNING ∧ pid n = pid t0 ∧ sig_handler n = sig_handler t ∧ sigcount n = repeat 0 32 ∧ sigcheck n = 0;
  fo_pgd : ∀ x, 0 ≤ x < 512 → kwords (ks s') !! Mmu.entry (ttbr0_el1 (cxt n)) x = Some 0;
  (* the parent's registers are saved, and the child has a copy of them *)
  fo_threads : let c := saved (cpu (ks s)) (cxt t) in
    threads (ks s') = <[p := with_cxt (child_cxt c (kstack_ptr n - kstack_ptr t) (ttbr0_el1 (cxt n))) n]>
      (<[curr_thread (ks s) := with_cxt c t]> (threads (ks s)));
  (* the parent returns the pid of the child *)
  fo_parent_frame : tfs s' !! tf = Some (with_x0 (pid t0) f);
  fo_child_frame : tfs s' !! child_frame tf t n = Some f;
  fo_frames : ∀ a, a ≠ tf → tfs s' !! a = copy_frames (kstack_ptr n) (kstack_ptr t) (tfs s) !! a;
  fo_lock : lk (k_heap (ks s')) = unlock (unlock (lock (lock (lk (k_heap (ks s))))));
  fo_rest : (rq (ks s'), curr_thread (ks s'), cpu (ks s'), tpidr_el1 (ks s'), ser s', box s', infos s') =
    (rq (ks s), curr_thread (ks s), cpu (ks s), tpidr_el1 (ks s), ser s, box s, infos s);
}.

(** What [sys_fork] needs to find: the running thread [t] with its areas [vs], and
    a slot with the record [t0] for the child. *)
Record can_fork `{KA : KAlloc alloc} (kl : klayout) (s : sstate) (L : rings) (g : ka_ghost) (l : list Z) (i : Z) (t t0 : thread) (vs : list vm_area) : Prop := {
  cf_inv : ka_inv (k_heap (ks s)) L g;
  cf_room : ka_room g (4 + (2 + 2 * length (filter copied vs)));
  cf_areas : areas_ok (ks s) L (curr_thread (ks s)) vs;
  cf_sizes : Forall (λ v, 0 ≤ area_size v ≤ 0x40000) (filter copied vs);
  cf_curr : s_curr s = Ok t ∧ tpidr_el1 (ks s) = curr_thread (ks s) ∧ 0 ≤ data_size t ≤ 0x40000;
  cf_queue : L !! rq (ks s) = Some l ∧ rq (ks s) ≠ vma_list (curr_thread (ks s));
  cf_heads : ¬ ka_private (rq (ks s)) ∧ ¬ ka_private (vma_list (curr_thread (ks s)));
  cf_slot : takes_slot kl (ks s) i ∧ 0 ≤ nxt_pid (ks s) < 2 ^ 31 - 1 ∧ thread_at kl i ≠ 0;
  cf_record : threads (ks s) !! thread_at kl i = Some t0 ∧ slot_free L g (thread_at kl i);
}.

Section call.
Context `{KA : KAlloc alloc} (kl : klayout).

(** The state between [thread_create] and the loop. *)
Lemma forking_start k k1 L L1 g g1 l p start size t0 n ps m vs f :
  created kl k k1 L L1 g g1 l p start size t0 n → ka_room g1 m → areas_ok k L (curr_thread k) vs →
  L !! vma_list (curr_thread k) = Some ps → ¬ ka_private (vma_list (curr_thread k)) → rq k ≠ vma_list (curr_thread k) → curr_thread k ≠ p →
  let k2 := with_threads (<[p := f n]> (threads k1)) k1 in
  forking (curr_thread k) p k2 L1 g1 ps k2 L1 g1 m [] [] [] ∧ areas_ok k2 L1 (curr_thread k) vs.
Proof using.
  intros [HI Hrq Hv Ha Ht Hst Hsta Hsig Hob Hl Hpgd Hlk Hr] HR (qs & Hqs & Hf) Hps Hc Hne Hcp k2.
  injection Hr as Er1 Er2 Er3 Er4 Er5 Er6.
  assert (L1 !! vma_list (curr_thread k) = Some ps) as Hps1.
  { rewrite Ha; [done|]. split; [done|]. unfold vma_list in *. lia. }
  split.
  - split; try done.
    + exists []. split; [exact Hv|constructor].
    + by split; constructor.
  - exists ps. split; [done|]. assert (qs = ps) as -> by congruence. cbn. by rewrite Er3.
Qed.

Lemma forked_of s L g l p t t0 n k1 L1 g1 ps k4 L4 g4 m objs vs :
  s_curr s = Ok t → tpidr_el1 (ks s) = curr_thread (ks s) → curr_thread (ks s) ≠ p → ¬ ka_private (rq (ks s)) → rq (ks s) ≠ vma_list p →
  created kl (k_lock (ks s)) k1 L L1 g g1 l p (data t) (data_size t) t0 n → areas_ok k4 L4 (curr_thread (ks s)) vs →
  let n' := with_sig_handler (sig_handler t) n in
  forking (curr_thread (ks s)) p (with_threads (<[p := n']> (threads k1)) k1) L1 g1 ps k4 L4 g4 m (filter copied vs)
    (zip_with copy_area (filter copied vs) objs ++ [device_area; wrapper_area kl]) objs →
  let k5 := with_threads (<[curr_thread (ks s) := with_cxt (saved (cpu (ks s)) (cxt t)) t]> (threads k4)) k4 in
  store_cxt (tpidr_el1 k4) k4 = Ok k5 ∧
  forked_mid kl s (with_ks k5 (with_tfs (copy_frames (kstack_ptr n') (kstack_ptr t) (tfs s)) s)) L L4 g g4 l p t t0 n' vs objs.
Proof using.
  intros Ht Htp Hcp Hpr Hne [HI1 Hrq Hv Ha Hth Hst Hsta Hsig Hob Hl Hpgd Hlk Hr] Hpa n'
    [HI HR Hch Hps Hpa' Ha' Hl' Hs' Hk Hb Hf Hr'] k5.
  injection Hr as Er1 Er2 Er3 Er4 Er5 Er6. injection Hr' as Et Ew En Eq Ec Eu Ei.
  cbn [with_threads threads kwords nxt_pid rq curr_thread cpu tpidr_el1] in *.
  rewrite Hth, insert_insert_eq in Et. cbn [k_lock with_k_heap with_tm threads] in Et.
  assert (threads (ks s) !! curr_thread (ks s) = Some t) as Hct.
  { revert Ht. unfold s_curr, curr, get_thread. intros H%load_Ok. done. }
  change (curr_thread (k_lock (ks s))) with (curr_thread (ks s)) in *. change (cpu (k_lock (ks s))) with (cpu (ks s)) in *.
  change (tpidr_el1 (k_lock (ks s))) with (tpidr_el1 (ks s)) in *. change (rq (k_lock (ks s))) with (rq (ks s)) in *.
  destruct Hob as [_ Hob]. rewrite Forall_forall in Hob.
  split.
  - unfold store_cxt. rewrite Ei, Er5, Htp. rewrite (upd_thread_ok _ _ _ t); [by rewrite Eu, Er4|].
    by rewrite Et, lookup_insert_ne.
  - split; try done.
    + cbn. rewrite Eq. rewrite Ha'; [exact Hrq|]. rewrite Er1. split; [exact Hpr|exact Hne].
    + destruct Hf as [Hnd Hf]. split; [done|]. eapply Forall2_impl; [exact Hf|]. intros v a [H1 H2]. split; [done|].
      intros c Hc. by apply (H2 c), Hl.
    + destruct (Hob (kstack_ptr n, KSTACK_SIZE)) as [(c & Hc & Hc') H2]; [rewrite !elem_of_cons; auto|]. split; [|exact H2].
      exists c. split; [exact Hc|]. by apply Hl'.
    + refine (eq_trans Hb _). f_equal. exact Er6.
    + cbn. by rewrite Et.
    + cbn. destruct Hst as (S1 & S2 & S3), Hsig as (S4 & S5 & S6). auto.
    + cbn. by rewrite Ew.
    + exact (eq_trans Hk Hlk).
    + cbn. by rewrite Eq, Ec, Eu, Ei, Er1, Er2, Er4, Er5.
Qed.

(** Up to the point where the parent saves its registers. *)
Lemma sys_fork_mid s L g l i t t0 vs tf : can_fork kl s L g l i t t0 vs →
  ∃ s1 L' g' n objs, sys_fork kl alloc tf s = fork_return tf (pid t) (thread_at kl i) s1 ∧
    forked_mid kl s s1 L L' g g' l (thread_at kl i) t t0 n vs objs ∧ curr_thread (ks s) ≠ thread_at kl i ∧
    (ka_tidy g → ∀ c, ka_live L g (kstack_ptr t) c → KSTACK_SIZE ≤ c →
      kstack_ptr t + KSTACK_SIZE ≤ kstack_ptr n ∨ kstack_ptr n + KSTACK_SIZE ≤ kstack_ptr t).
Proof using.
  intros [HI HR Hvs Hsz (Ht & Htp & Hds) [Hrq Hne] [Hpr Hc] (Hsl & Hnp & Hp0) [Ht0 Hfree]]. set (p := thread_at kl i) in *.
  destruct Hvs as (ps & Hps & Hf). destruct (sl_out _ _ _ Hfree) as [_ Hout].
  assert (∀ h l, L !! h = Some l → h ≠ vma_list p) as Hheads.
  { intros h l' Hh ->. apply Hout, (node_elem L _ _ _ Hh). by left. }
  assert (curr_thread (ks s) ≠ p) as Hcp by (intros E; apply (Hheads _ _ Hps); by rewrite E).
  assert (¬ ka_private (vma_list p)) as Hpp by (intros Hx; by apply Hout, (ka_private_node _ _ _ _ HI)).
  destruct (thread_create_run kl (k_lock (ks s)) L g l i (2 + 2 * length (filter copied vs)) t0 (data t) (data_size t))
    as (k1 & L1 & g1 & n & E1 & HC & HR1 & _); try done; [by apply ka_lock|].
  fold p in E1, HC.
  destruct (forking_start (k_lock (ks s)) k1 L L1 g g1 l p (data t) (data_size t) t0 n ps _ vs (with_sig_handler (sig_handler t)) HC HR1)
    as [HF0 Hpa0]; try done; [by exists ps|].
  set (k2 := with_threads (<[p := with_sig_handler (sig_handler t) n]> (threads k1)) k1) in *.
  change (curr_thread (k_lock (ks s))) with (curr_thread (ks s)) in *.
  destruct (fork_areas _ p k2 L1 g1 ps Hc Hpp Hcp k2 L1 g1 2 vs Hpa0 Hsz HF0) as (k3 & L3 & g3 & objs & E3 & HF3).
  destruct (forking_add _ _ _ _ _ _ Hc Hpp Hcp _ _ _ _ _ _ _ device_area HF3) with (size := 0x3000000) as (k4 & L4 & g4 & E4 & HF4 & _);
    [split; [discriminate|reflexivity]|reflexivity|].
  destruct (forking_add _ _ _ _ _ _ Hc Hpp Hcp _ _ _ _ _ _ _ (wrapper_area kl) HF4) with (size := 0x2000) as (k5 & L5 & g5 & E5 & HF5 & _);
    [split; [discriminate|reflexivity]|reflexivity|].
  rewrite <- app_assoc in HF5.
  destruct (forked_of s L g l p t t0 n k1 L1 g1 ps k5 L5 g5 0 objs vs) as [E6 HFd]; try done.
  { by eapply Hheads. }
  { by apply HF5. }
  eexists _, L5, g5, (with_sig_handler (sig_handler t) n), objs. split; [|split; [exact HFd|split; [exact Hcp|]]]; cycle 1.
  { intros Htidy c Hlc Hcs. destruct HC as [HI1 _ _ _ _ _ _ _ [_ Hob] Hl1 _ _ _ _ _ Hpl]. rewrite Forall_forall in Hob.
    destruct (Hob (kstack_ptr n, KSTACK_SIZE)) as [(c' & Hc' & Hlc') Hfr]; [rewrite !elem_of_cons; auto|]. cbn [fst snd] in *.
    destruct (ka_disjoint _ _ _ _ _ _ _ HI1 (proj1 (Hpl Htidy)) (Hl1 _ _ Hlc) Hlc'); [|cbn; lia..].
    intros E. apply (Hfr c). by rewrite <- E. }
  assert (threads k1 !! p = Some n) as Hn by (destruct HC as [_ _ _ _ -> _ _ _ _ _ _ _ _ _ _ _]; apply lookup_insert_eq).
  assert (get_thread p k5 = Ok (with_sig_handler (sig_handler t) n)) as Hn5.
  { destruct HF5 as [_ _ _ _ _ _ _ _ _ _ _ Hr]. injection Hr as Er _ _ _ _ _ _. unfold get_thread. rewrite Er. cbn. by rewrite lookup_insert_eq. }
  assert (curr_thread k2 = curr_thread (ks s)) as Ec.
  { destruct HC as [_ _ _ _ _ _ _ _ _ _ _ _ Hr _ _ _]. injection Hr as _ Ec _ _ _ _. exact Ec. }
  unfold sys_fork. assert (s_curr (s_lock s) = Ok t) as -> by exact Ht. cbn [mbind res_bind].
  rewrite u32_small by lia. change (ks (s_lock s)) with (k_lock (ks s)). rewrite E1. cbn [mbind res_bind]. unfold on_ks.
  cbn [with_ks ks]. rewrite (upd_thread_ok _ _ _ n Hn). fold k2. cbn [mbind res_bind mret res_ret with_ks ks].
  rewrite Ec, E3. cbn [mbind res_bind mret res_ret with_ks ks].
  cbn [device_area virt_addr phys_addr protected allocated] in E4. rewrite E4. cbn [mbind res_bind mret res_ret with_ks ks].
  cbn [wrapper_area virt_addr phys_addr protected allocated] in E5. rewrite E5. cbn [mbind res_bind mret res_ret with_ks ks].
  rewrite Hn5. cbn [mbind res_bind mret res_ret with_tfs with_ks ks tfs]. rewrite E6. reflexivity.
Qed.
End call.

(** ** Returning twice *)

(** A frame of the parent's kernel stack is copied to the same place of the child's. *)
Lemma copy_frames_lookup dst src m a f : m !! a = Some f → src ≤ a → a + sizeof_trapframe ≤ src + KSTACK_SIZE →
  copy_frames dst src m !! (a + (dst - src)) = Some f.
Proof.
  intros Ha H1 H2. assert (Inj (=) (=) (λ a : Z, a + (dst - src))) as Hinj by (intros x y; lia).
  unfold copy_frames. apply lookup_union_Some_l.
  rewrite (lookup_kmap (λ a, a + (dst - src))). apply map_lookup_filter_Some. split; [done|]. cbn.
  apply andb_true_iff. rewrite !Z.leb_le. lia.
Qed.

(** In the parent: the state the call leaves. *)
Lemma fork_return_run tf t p n s f : s_curr s = Ok t → threads (ks s) !! p = Some n → tfs s !! tf = Some f →
  fork_return tf (pid t) p s = Ok (with_tfs (<[tf := with_x0 (pid n) f]> (tfs s)) (s_unlock (with_ks
    (with_threads (<[p := with_cxt (child_cxt (cxt t) (kstack_ptr n - kstack_ptr t) (ttbr0_el1 (cxt n))) n]> (threads (ks s))) (ks s)) s))).
Proof.
  intros Ht Hn Hf. unfold fork_return. rewrite Ht. cbn [mbind res_bind]. rewrite Z.eqb_refl. cbn [negb].
  assert (get_thread p (ks s) = Ok n) as -> by (unfold get_thread; by rewrite Hn).
  cbn [mbind res_bind]. unfold on_ks. rewrite (upd_thread_ok _ _ _ n Hn).
  cbn [mbind res_bind mret res_ret with_ks ks]. rewrite (upd_thread_ok _ _ _ _ (lookup_insert_eq _ _ _)).
  cbn [mbind res_bind mret res_ret with_ks ks with_threads threads]. rewrite insert_insert_eq.
  rewrite (upd_thread_ok _ _ _ _ (lookup_insert_eq _ _ _)). cbn [mbind res_bind mret res_ret with_ks ks with_threads threads].
  rewrite insert_insert_eq, (upd_thread_ok _ _ _ _ (lookup_insert_eq _ _ _)).
  cbn [mbind res_bind mret res_ret with_ks ks with_threads threads]. rewrite insert_insert_eq.
  match goal with |- context [get_thread p ?k] => assert (∃ n', get_thread p k = Ok n' ∧ pid n' = pid n) as (n' & -> & Epid) end.
  { eexists. split; [unfold get_thread; cbn; by rewrite lookup_insert_eq|done]. }
  cbn [mbind res_bind]. rewrite Epid. unfold set_x0, upd_tf, get_tf. cbn [s_unlock tfs with_ks]. rewrite Hf. by destruct n.
Qed.

(** The parent's frame stays where it is when its stack is copied to another place. *)
Lemma copy_frames_kept dst src m a f : m !! a = Some f → src ≤ a → a + sizeof_trapframe ≤ src + KSTACK_SIZE →
  src + KSTACK_SIZE ≤ dst ∨ dst + KSTACK_SIZE ≤ src → copy_frames dst src m !! a = Some f.
Proof.
  intros Ha H1 H2 Hd. unfold sizeof_trapframe in *. unfold copy_frames. rewrite lookup_union_r.
  - apply map_lookup_filter_Some. split; [done|]. cbn. apply andb_false_iff. rewrite !Z.leb_gt. unfold sizeof_trapframe. lia.
  - assert (Inj (=) (=) (λ a : Z, a + (dst - src))) as Hinj by (intros x y; lia).
    apply lookup_kmap_None; [done|]. intros b Eb. apply map_lookup_filter_None. right. intros y Hy E.
    cbn [fst] in E. apply andb_true_iff in E. rewrite !Z.leb_le in E. unfold KSTACK_SIZE, sizeof_trapframe in *. lia.
Qed.

Section fork.
Context `{KA : KAlloc alloc} (kl : klayout).

(** C20: with memory and a slot [sys_fork] returns to the parent with the pid of a
    new child in x0 of its frame. The child is a running thread at the head of
    the run queue, with an empty page table and stacks of its own, the parent's
    signal handlers and no pending signal; its registers are those the parent has
    just saved, with the frame and stack pointers moved to the child's kernel
    stack, which holds the parent's frame at the same place, and its own table.
    Each of the parent's areas but the device's and the signal wrapper's is an
    area of the child at the same address with the same rights, in a new object
    that holds a copy of the parent's memory; those two areas are shared. The
    parent keeps its areas and goes on running; no other thread and no other
    trap frame changes. The parent's frame has to be on its kernel stack, an
    object of the heap. *)
Theorem sys_fork_ok s L g l i t t0 vs tf f c : can_fork kl s L g l i t t0 vs → ka_tidy g →
  tfs s !! tf = Some f → kstack_ptr t ≤ tf → tf + sizeof_trapframe ≤ kstack_ptr t + KSTACK_SIZE →
  ka_live L g (kstack_ptr t) c → KSTACK_SIZE ≤ c →
  ∃ s' L' g' n objs, sys_fork kl alloc tf s = Ok s' ∧ forked kl s s' L L' g g' l (thread_at kl i) tf f t t0 n vs objs.
Proof using.
  intros HC Htidy Hf Htf1 Htf2 Hlc Hcs.
  destruct (sys_fork_mid kl s L g l i t t0 vs tf HC) as (s1 & L' & g' & n & objs & E & HF & Hcp & Hd).
  specialize (Hd Htidy c Hlc Hcs). destruct HF as [A1 A2 A3 A4 A5 A6 A7 A8 A9 A10 A11 A12 A13].
  set (p := thread_at kl i) in *. injection A13 as R1 R2 R3 R4 R5 R6 R7.
  set (t1 := with_cxt (saved (cpu (ks s)) (cxt t)) t) in *.
  assert (s_curr s1 = Ok t1) as Ht1 by (unfold s_curr, curr, get_thread; by rewrite R2, A8, lookup_insert_eq).
  assert (threads (ks s1) !! p = Some n) as Hn by (by rewrite A8, lookup_insert_ne, lookup_insert_eq).
  assert (tfs s1 !! tf = Some f) as Hf1 by (rewrite A11; by apply copy_frames_kept).
  pose proof (fork_return_run tf t1 p n s1 f Ht1 Hn Hf1) as Er. change (pid t1) with (pid t) in Er.
  destruct A9 as (N1 & N2 & N3). eexists _, L', g', n, objs. split; [by rewrite E, Er|]. split; try done.
  - by apply ka_lock.
  - cbn. rewrite A8. rewrite (insert_insert_ne _ p) by done. by rewrite insert_insert_eq, insert_insert_ne by done.
  - cbn. rewrite lookup_insert_eq. by rewrite N2.
  - cbn. rewrite lookup_insert_ne, A11; [by apply copy_frames_lookup|]. unfold child_frame. unfold KSTACK_SIZE in Hd. lia.
  - intros a Ha. cbn. by rewrite lookup_insert_ne, A11 by done.
  - exact (f_equal unlock A12).
  - cbn. by rewrite R1, R2, R3, R4, R5, R6, R7.
Qed.
End fork.

(** C21: in the child, whose pid is another one, the call writes its 0 through the
    parent's pointer: it changes x0 of the parent's frame, while the child's own
    frame, the copy it will leave the kernel with, keeps the x0 of the parent's
    call. *)
Theorem fork_return_child tf t n p s f fc : s_curr s = Ok n → pid n ≠ pid t → kstack_ptr n ≠ kstack_ptr t →
  tfs s !! tf = Some f → tfs s !! child_frame tf t n = Some fc →
  ∃ s', fork_return tf (pid t) p s = Ok s' ∧ ks s' = ks s ∧ tfs s' !! tf = Some (with_x0 0 f) ∧ tfs s' !! child_frame tf t n = Some fc.
Proof.
  intros Hn Hp Hs Hf Hfc. eexists. unfold fork_return. rewrite Hn. cbn [mbind res_bind]. rewrite (proj2 (Z.eqb_neq _ _)) by done. cbn [negb].
  unfold set_x0, upd_tf, get_tf. rewrite Hf. split; [reflexivity|]. split; [done|]. cbn. rewrite lookup_insert_eq. split; [done|].
  rewrite lookup_insert_ne; [done|]. unfold child_frame. lia.
Qed.

(** ** Witnesses *)

(** Thread 0 runs with one area and its kernel stack at [kp], and thread 1 is unused. *)
Definition fork_kernel (h : mstate) (rq kp : Z) : kstate :=
  K (TState h rq ∅ ∅ hw_ex) ∅ {[VIRT_BASE + 0xa0000 := area_ex]}
    {[thread_at kl_ex 0 := with_kstack_ptr kp (thread_ex 0 THREAD_RUNNING); thread_at kl_ex 1 := thread_ex 1 THREAD_UNUSED]} 1
    (thread_at kl_ex 0) rq (cxt_ex 7) (thread_at kl_ex 0).

Lemma fork_ex : ∃ s L g kp n, can_fork kl_ex s L g [] 1 (with_kstack_ptr kp (thread_ex 0 THREAD_RUNNING)) (thread_ex 1 THREAD_UNUSED) [area_ex] ∧
  ka_tidy g ∧ tfs s !! (kp + 0x1000) = Some tf_ex ∧ ka_live L g kp n ∧ KSTACK_SIZE ≤ n ∧ cpu (ks s) = cxt_ex 7.
Proof.
  destruct (kernel_ex_tidy 9) as (h & L & g & r & HT & HI & HR & Hr & Hp & HS); [lia|].
  set (c := thread_at kl_ex 0). set (p := thread_at kl_ex 1). set (a := VIRT_BASE + 0xa0000).
  assert (∀ q, q = vma_list c ∨ q = p ∨ q = vma_list p ∨ q = a → ka_static g q ∧ ¬ node L q ∧ ¬ ka_private q) as HS'.
  { intros q Hq. apply HS. unfold a, c, p, thread_at, vma_list, sizeof_thread, kl_ex in *. cbn [threads_base] in *. lia. }
  destruct (HS' (vma_list c)) as (A1 & A2 & A3); [auto|].
  assert (r ≠ vma_list c) as Hrc by (intros ->; apply A2, (node_elem L _ _ _ Hr); by left).
  destruct (ka_static_ring h L g (vma_list c) [a] HI) as (m & HI1).
  { apply NoDup_cons. split; [|apply NoDup_singleton]. intros E%list_elem_of_singleton. revert E. unfold c, a, thread_at, vma_list, sizeof_thread, kl_ex. cbn [threads_base]. lia. }
  { intros q Hq. apply HS'. rewrite elem_of_cons, list_elem_of_singleton in Hq. tauto. }
  set (L1 := <[vma_list c := [a]]> L) in *.
  destruct (ka_alloc (with_lm m h) L1 g KSTACK_SIZE 8 HI1) as
    (kp & n & h2 & L2 & g2 & _ & _ & HI2 & HR2 & Hag & _ & Hn & _ & _ & Hl2 & Hs2 & Ht2); [unfold KSTACK_SIZE; lia|done|].
  assert (∀ q, q = p ∨ q = vma_list p → ka_static g2 q ∧ ¬ node L2 q) as HS2.
  { intros q Hq. destruct (HS' q ltac:(tauto)) as (S1 & S2 & _). destruct (Hs2 q S1) as (_ & S3 & S4). split; [done|]. intros Hx%S4.
    apply node_insert in Hx as [Hx|Hx]; [|done]. rewrite elem_of_cons, list_elem_of_singleton in Hx. revert Hq Hx.
    unfold p, c, a, thread_at, vma_list, sizeof_thread, kl_ex. cbn [threads_base]. lia. }
  exists (sys_of (fork_kernel h2 r kp) (kp + 0x1000) tf_ex), L2, g2, kp, n. split; [|split; [by apply Ht2|split; [apply lookup_singleton_eq|split; [apply Hl2; by right|by split]]]].
  split; cbn [sys_of ks fork_kernel k_heap tm heap vmas threads nxt_pid rq timer_task_head].
  - exact HI2.
  - exact HR2.
  - exists [a]. split; [rewrite Hag by done; apply lookup_insert_eq|]. constructor; [|constructor]. apply lookup_singleton_eq.
  - apply Forall_forall. intros v Hv. apply list_elem_of_filter in Hv as [_ ->%list_elem_of_singleton]. cbn. lia.
  - split; [reflexivity|]. split; [reflexivity|]. split; discriminate.
  - split; [|exact Hrc]. rewrite Hag by done. unfold L1. by rewrite lookup_insert_ne.
  - split; [exact Hp|exact A3].
  - split; [reflexivity|]. split; [lia|discriminate].
  - split; [reflexivity|]. destruct (HS2 p) as [B1 B2], (HS2 (vma_list p)) as [C1 C2]; [auto..|]. by split.
Qed.

(** The call returns 1, and the child starts with the parent's return address and
    x19 on its own stack. *)
Lemma sys_fork_ok_witness : ∃ s s' tf n, sys_fork kl_ex (kmalloc layout_ex) tf s = Ok s' ∧ tfs s' !! tf = Some (with_x0 1 tf_ex) ∧
  threads (ks s') !! thread_at kl_ex 1 = Some n ∧ callee (cxt n) = callee (cxt_ex 7) ∧ lr (cxt n) = lr (cxt_ex 7).
Proof.
  destruct fork_ex as (s & L & g & kp & c & Hs & Ht & Hf & Hl & Hc & Hcpu).
  destruct (sys_fork_ok kl_ex s L g [] 1 (with_kstack_ptr kp (thread_ex 0 THREAD_RUNNING)) (thread_ex 1 THREAD_UNUSED) [area_ex] (kp + 0x1000) tf_ex c Hs Ht Hf)
    as (s' & L' & g' & n & objs & E & HF).
  - cbn. lia.
  - cbn. unfold sizeof_trapframe, KSTACK_SIZE. lia.
  - exact Hl.
  - exact Hc.
  - exists s, s', (kp + 0x1000). eexists. split; [exact E|]. split; [exact (fo_parent_frame _ _ _ _ _ _ _ _ _ _ _ _ _ _ _ _ HF)|].
    split; [rewrite (fo_threads _ _ _ _ _ _ _ _ _ _ _ _ _ _ _ _ HF); apply lookup_insert_eq|].
    cbn. rewrite Hcpu. split; reflexivity.
Defined.

(** The state after a fork in which thread [c] runs. *)
Definition forked_ex (c : Z) (n : thread) : sstate :=
  Sys (K (TState (MState 0 0 ∅ (Lmem ∅ ∅) (LockSt 1 false)) 0 ∅ ∅ hw_ex) ∅ ∅ {[0x1000 := thread_ex 0 THREAD_RUNNING; 0x12b8 := n]} 2 c 0x100 (cxt_ex 7) c)
    {[0x5000 := tf_ex; 0x9000 := tf_ex]} uart_reset (VCore [] [] [] []) ∅.

Lemma fork_return_child_witness : ∃ s', fork_return 0x5000 0 0x12b8 (forked_ex 0x12b8 (with_kstack_ptr 0x4000 (thread_ex 1 THREAD_RUNNING))) = Ok s' ∧
  tfs s' !! 0x9000 = Some tf_ex.
Proof.
  destruct (fork_return_child 0x5000 (thread_ex 0 THREAD_RUNNING) (with_kstack_ptr 0x4000 (thread_ex 1 THREAD_RUNNING)) 0x12b8
    (forked_ex 0x12b8 (with_kstack_ptr 0x4000 (thread_ex 1 THREAD_RUNNING))) tf_ex tf_ex) as (s' & E & _ & _ & Hf).
  - reflexivity.
  - discriminate.
  - discriminate.
  - reflexivity.
  - reflexivity.
  - exists s'. split; [exact E|exact Hf].
Defined.
