(* ===== verification/Exec.v ===== *)
(** The start of a program: [exec_thread] of lib/sched.c, from the new thread to the
    registers it returns to user mode with. *)
From S2P Require Import Prelude Util ListHead Lock Mem CString Malloc Buddy Reserve Heap Alloc KAlloc Ram Mmu PageTable Ordered Timer Thread Sched RunQueue Spawn Areas Fork.
Local Open Scope Z_scope.

(** The areas of a new program with [n] bytes at [data] and its stack at [ustack]. *)
Definition program_areas (kl : klayout) (n data ustack : Z) : list vm_area :=
  [VmArea 0 (VIRT_TO_PHYS data) (round_page n) (Z.lor (Z.lor PROT_R PROT_W) PROT_X) PG_NEED_ALLOC;
   VmArea 0xffffffffb000 (VIRT_TO_PHYS ustack) USTACK_SIZE (Z.lor (Z.lor PROT_R PROT_W) PROT_X) PG_NEED_ALLOC;
   device_area; wrapper_area kl].

Section exec.
Context `{KA : KAlloc alloc} (kl : klayout).
#[local] Existing Instance KAlloc_small.

(** The queue of timers, over the allocator of the kernel. *)
Abbreviation timers_ok := (@timer_inv alloc KAlloc_small).

(** ** The areas *)

Lemma add_program_vmas_run s L g k p n data ustack :
  ka_inv (k_heap s) L g → ka_room g (4 + k) → areas_ok s L p [] → ¬ ka_private (vma_list p) →
  ∃ s' L' g', add_program_vmas kl alloc p n data ustack s = Ok s' ∧ ka_room g' k ∧ ka_inv (k_heap s') L' g' ∧ grown L g L' g' p ∧
    areas_ok s' L' p (program_areas kl n data ustack) ∧ agree_on (λ h, ¬ ka_private h ∧ h ≠ vma_list p) L L' ∧
    lk (k_heap s') = lk (k_heap s) ∧ (∀ q m, ka_live L g q m → ka_live L' g' q m) ∧
    (threads s', kwords s', rq s', cpu s', tpidr_el1 s', nxt_pid s', curr_thread s') = (threads s, kwords s, rq s, cpu s, tpidr_el1 s, nxt_pid s, curr_thread s) ∧
    (bytes (tm s'), tasks (tm s'), timer_task_head (tm s'), hw (tm s')) = (bytes (tm s), tasks (tm s), timer_task_head (tm s), hw (tm s)).
Proof using.
  intros HI HR Ha Hp. unfold add_program_vmas.
  destruct (add_vma_run s L g (3 + k) p 0 n (VIRT_TO_PHYS data) (Z.lor (Z.lor PROT_R PROT_W) PROT_X) PG_NEED_ALLOC [] HI HR Ha Hp) as
    (s1 & L1 & g1 & E1 & HR1 & [I1 A1 _ R1 V1 _ K1 [T1 U1] G1]); [done|]. res_step E1.
  destruct (add_vma_run s1 L1 g1 (2 + k) p 0xffffffffb000 USTACK_SIZE (VIRT_TO_PHYS ustack) (Z.lor (Z.lor PROT_R PROT_W) PROT_X) PG_NEED_ALLOC _ I1 HR1 A1 Hp) as
    (s2 & L2 & g2 & E2 & HR2 & [I2 A2 _ R2 V2 _ K2 [T2 U2] G2]); [done|]. res_step E2.
  destruct (add_vma_run s2 L2 g2 (1 + k) p 0x3C000000 0x3000000 0x3C000000 (Z.lor PROT_R PROT_W) PG_DONT_ALLOC _ I2 HR2 A2 Hp) as
    (s3 & L3 & g3 & E3 & HR3 & [I3 A3 _ R3 V3 _ K3 [T3 U3] G3]); [done|]. res_step E3.
  destruct (add_vma_run s3 L3 g3 k p USER_SIG_WRAPPER_VIRT_ADDR 0x2000 (VIRT_TO_PHYS (sig_handler_wrapper_addr kl)) (Z.lor PROT_R PROT_X) PG_DONT_ALLOC _ I3 HR3 A3 Hp) as
    (s4 & L4 & g4 & E4 & HR4 & [I4 A4 _ R4 V4 _ K4 [T4 U4] G4]); [done|].
  exists s4, L4, g4. split; [exact E4|]. split; [done|]. split; [done|]. split.
  { apply (grown_trans L g L1 g1); [done|done|]. apply (grown_trans L1 g1 L2 g2); [done|done|]. by apply (grown_trans L2 g2 L3 g3). }
  split; [exact A4|]. split.
  { intros h Hh. by rewrite R4, R3, R2, R1. }
  split; [by rewrite K4, K3, K2, K1|]. split; [intros x y Hx; by apply V4, V3, V2, V1|]. split; [|by rewrite U4, U3, U2, U1]. congruence.
Qed.

(** ** The program *)

(** The context a program starts in. *)
Definition program_cxt (c : thread_context) : thread_context :=
  Cxt (callee c) 0xfffffffff000 0 0xfffffffff000 (VIRT_TO_PHYS (ttbr0_el1 c)).

(** What the kernel has when it can run [bs] at [src] as thread [i], with room for [n]
    objects more. *)
Record can_exec (s : kstate) (L : rings) (g : ka_ghost) (l : list Z) (q : list (Z * timer_task)) (i : Z) (t0 : thread) (src : Z) (bs : list Z) (n : nat) : Prop := {
  ce_timers : timers_ok (tm s) L g q;
  ce_tidy : ka_tidy g;
  ce_room : ka_room g (9 + n);
  ce_queue : L !! rq s = Some l ∧ ¬ ka_private (rq s) ∧ rq s ≠ timer_task_head (tm s);
  ce_members : ∀ p, p ∈ l → is_Some (threads s !! p);
  ce_slot : takes_slot kl s i ∧ 0 ≤ nxt_pid s < 2 ^ 31 - 1 ∧ thread_at kl i ≠ 0 ∧ threads s !! thread_at kl i = Some t0 ∧
    slot_free L g (thread_at kl i);
  ce_program : window (k_bytes s) src bs ∧ Z.of_nat (length bs) ≤ 0x40000 ∧ (∀ j, 0 ≤ j < Z.of_nat (length bs) → ka_static g (src + j));
  ce_memory : ram_mapped (k_bytes s);
  ce_string : load8 (k_bytes s) (empty_string_addr kl) = Ok 0 ∧ ka_static g (u64 (empty_string_addr kl));
}.

(** The kernel just before the return to user mode. *)
Record executed (s s' : kstate) (L' : rings) (g g' : ka_ghost) (l : list Z) (q : list (Z * timer_task)) (p : Z) (t0 t : thread) (bs : list Z)
    (r : eret_regs) (n : nat) : Prop := {
  ee_queue : queue_ok s' L' (p :: l);
  ee_running : curr_thread s' = p ∧ tpidr_el1 s' = p ∧ threads s' = <[p := t]> (threads s);
  ee_thread : state t = THREAD_RUNNING ∧ pid t = pid t0 ∧ data_size t = Z.of_nat (length bs) ∧
    sig_handler t = repeat (default_sig_handler_addr kl) 32 ∧ sigcount t = repeat 0 32;
  ee_context : lr (cxt t) = 0 ∧ sp (cxt t) = 0xfffffffff000 ∧ fp (cxt t) = 0xfffffffff000 ∧ 0 ≤ ttbr0_el1 (cxt t) < 2 ^ 64;
  ee_areas : areas_ok s' L' p (program_areas kl (Z.of_nat (length bs)) (data t) (ustack_ptr t));
  ee_program : window (k_bytes s') (data t) bs ∧ same_outside (data t) (Z.of_nat (length bs)) (k_bytes s) (k_bytes s');
  ee_table : ∀ x, 0 ≤ x < 512 → kwords s' !! Mmu.entry (PHYS_TO_VIRT (ttbr0_el1 (cxt t))) x = Some 0;
  ee_timers : ∃ e, timers_ok (tm s') L' g' (enqueue entry_key e q) ∧ armed (enqueue entry_key e q) (hw (tm s')) ∧
    func e.2 = schedule_timer_task_addr kl ∧ expire e.2 = get_expire_tick_from_secs 1 (hw (tm s));
  ee_regs : r = Eret 0 0 0xfffffffff000 (u64 (kstack_ptr t + KSTACK_SIZE)) (ttbr0_el1 (cxt t));
  ee_cpu : cpu s' = with_ttbr0 (ttbr0_el1 (cxt t)) (with_fp_sp (r_sp r) (r_sp r) (cpu s));
  ee_lock : lk (k_heap s') = unlock (lock (lk (k_heap s)));
  ee_room : ka_room g' n;
  ee_objects : Forall (λ m, placed (ka_static g) m.1 m.2 ∧ ∃ c, m.2 ≤ c ∧ ka_live L' g' m.1 c)
    [(PHYS_TO_VIRT (ttbr0_el1 (cxt t)), 0x1000); (ustack_ptr t, USTACK_SIZE); (kstack_ptr t, KSTACK_SIZE); (data t, Z.of_nat (length bs))];
}.

(** The thread [p] of the program before it becomes the running one: [s] with the
    thread and its areas, [m] the memory with the copy of the program. *)
Record loaded (s0 s : kstate) (m : bmem) (L : rings) (g0 g : ka_ghost) (l : list Z) (q : list (Z * timer_task)) (p : Z) (t0 t : thread) (bs : list Z) (n : nat) : Prop := {
  ld_timers : timers_ok (tm s) L g q;
  ld_room : ka_room g (S n);
  ld_objects : Forall (λ m, placed (ka_static g0) m.1 m.2 ∧ ∃ c, m.2 ≤ c ∧ ka_live L g m.1 c)
    [(PHYS_TO_VIRT (VIRT_TO_PHYS (ttbr0_el1 (cxt t))), 0x1000); (ustack_ptr t, USTACK_SIZE); (kstack_ptr t, KSTACK_SIZE); (data t, Z.of_nat (length bs))];
  ld_queue : rq s = rq s0 ∧ L !! rq s0 = Some (p :: l);
  ld_threads : threads s = <[p := t]> (threads s0);
  ld_thread : state t = THREAD_RUNNING ∧ pid t = pid t0 ∧ data_size t = Z.of_nat (length bs) ∧
    sig_handler t = repeat (default_sig_handler_addr kl) 32 ∧ sigcount t = repeat 0 32;
  ld_areas : areas_ok s L p (program_areas kl (Z.of_nat (length bs)) (data t) (ustack_ptr t));
  ld_program : window m (data t) bs ∧ same_outside (data t) (Z.of_nat (length bs)) (k_bytes s0) m ∧
    load8 m (empty_string_addr kl) = load8 (k_bytes s0) (empty_string_addr kl);
  ld_table : ∀ x, 0 ≤ x < 512 → kwords s !! Mmu.entry (PHYS_TO_VIRT (VIRT_TO_PHYS (ttbr0_el1 (cxt t)))) x = Some 0;
  ld_heads : timer_task_head (tm s) = timer_task_head (tm s0) ∧ timer_task_head (tm s0) ≠ vma_list p ∧ ¬ ka_private (vma_list p);
  ld_rest : (cpu s, hw (tm s), lk (k_heap s)) = (cpu s0, hw (tm s0), unlock (lock (lk (k_heap s0))));
}.

Lemma exec_load s L g l q i t0 src bs n : can_exec s L g l q i t0 src bs n →
  ∃ s1 s2 m L' g' t, thread_create kl alloc src (Z.of_nat (length bs)) s = Ok (thread_at kl i, s1) ∧ get_thread (thread_at kl i) s1 = Ok t ∧
    add_program_vmas kl alloc (thread_at kl i) (Z.of_nat (length bs)) (data t) (ustack_ptr t) s1 = Ok s2 ∧
    memcpy (k_bytes s2) (data t) src (Z.of_nat (length bs)) = Ok m ∧ loaded s s2 m L' g g' l q (thread_at kl i) t0 t bs n.
Proof using KA.
  intros [HT Hti HR (Hrq & Hrp & Hrt) _ (Hslot & Hnp & Hne & Ht0 & Hfree) (Hw & Hlen & Hst) HM [Hes Hes']].
  pose proof HT as [HI Hhp Hhr Htk Hord]. set (p := thread_at kl i) in *.
  destruct (sl_out _ _ _ Hfree) as [Hout1 Hout2].
  assert (¬ ka_private (vma_list p)) as Hpp by (intros Hx; by apply Hout2, (ka_private_node _ _ _ _ HI)).
  assert (∀ h l', L !! h = Some l' → h ≠ vma_list p) as Hv
    by (intros h l' Hh E; apply Hout2; rewrite <- E; apply (node_elem L _ _ _ Hh); by left).
  pose proof (Hv _ _ Hhr) as Hhv. pose proof (Hv _ _ Hrq) as Hrv.
  destruct (thread_create_run kl s L g l i (5 + n) t0 src (Z.of_nat (length bs)) HI HR Hrq Hrp Hslot Hnp Hne Ht0 Hfree) as
    (s1 & L1 & g1 & t & E1 & [I1 Q1 V1 A1 T1 (S1 & S2 & S3) _ (G1 & G2 & _) O1 _ Z1 K1 R1 _ M1 P1] & HR1 & _); [lia|].
  destruct (P1 Hti) as [_ P]. pose proof P as PF. rewrite !Forall_cons in P. destruct P as (Pt & _ & _ & Pd & _). injection R1 as Erq _ _ Ecp _ Eby.
  destruct (add_program_vmas_run s1 L1 g1 (S n) p (Z.of_nat (length bs)) (Thread.data t) (ustack_ptr t) I1 HR1) as
    (s2 & L2 & g2 & E2 & HR2 & I2 & _ & V2 & A2 & K2 & W2 & R2 & M2); [exists []; split; [exact V1|constructor]|done|].
  injection R2 as Et2 Ew2 Eq2 Ec2 _ _ _. injection M2 as Mb Mt Mh Mw.
  assert (k_bytes s2 = k_bytes s) as Eb2 by (unfold k_bytes in *; by rewrite Mb).
  assert (timer_task_head (tm s2) = timer_task_head (tm s)) as Eh by (rewrite Mh, M1; done).
  assert (PHYS_TO_VIRT (VIRT_TO_PHYS (ttbr0_el1 (cxt t))) = ttbr0_el1 (cxt t)) as Ept.
  { apply PHYS_TO_VIRT_TO_PHYS. destruct Pt as (Pt1 & Pt2 & _). pose proof ram_end. unfold VIRT_BASE in *. cbn in *. lia. }
  destruct (program_copied (k_bytes s2) (ka_static g) (Thread.data t) src bs (empty_string_addr kl)) as (m & E3 & Hw3 & Ho3 & Hs3);
    [by rewrite Eb2|exact Pd|by rewrite Eb2|exact Hlen|exact Hst|exact Hes'|].
  exists s1, s2, m, L2, g2, t. split; [exact E1|]. split; [unfold get_thread; by rewrite T1, lookup_insert_eq|].
  split; [exact E2|]. split; [exact E3|]. split.
  - split; [exact I2|by rewrite Eh| | |done].
    + rewrite Eh, A2 by done. rewrite A1; [done|]. split; [done|]. split; [congruence|done].
    + intros x y Hx. rewrite Mt, M1. by apply Htk.
  - exact HR2.
  - rewrite Ept. destruct O1 as [_ O1]. rewrite Forall_forall in O1, PF |- *. intros o Ho. split; [by apply PF|].
    destruct (O1 o Ho) as [(c & Hc & Hl) _]. exists c. split; [done|by apply W2].
  - rewrite Eq2, Erq. split; [done|]. rewrite A2 by done. by rewrite <- Erq.
  - by rewrite Et2, T1.
  - done.
  - exact V2.
  - rewrite Eb2 in Ho3, Hs3. done.
  - intros y Hy. rewrite Ept, Ew2. by apply Z1.
  - done.
  - by rewrite Ec2, Ecp, Mw, M1, K2, K1.
Qed.

Lemma exec_thread_run garbage s L g l q i t0 src bs n : can_exec s L g l q i t0 src bs n →
  ∃ r s' L' g' t, exec_thread kl alloc garbage src (Z.of_nat (length bs)) s = Ok (r, s') ∧
    executed s s' L' g g' l q (thread_at kl i) t0 t bs r n.
Proof using KA.
  intros HC. destruct (exec_load _ _ _ _ _ _ _ _ _ _ HC) as (s1 & s2 & m & L2 & g2 & t & E1 & Et & E2 & E3 &
    [HT HR HO [Eq Hq] Eth Hth Hv (Hw & Ho & Hes) Hz (Eh & Hhv & Hpp) [= Ec Ehw Elk]]).
  destruct HC as [_ _ _ (_ & Hrp & Hrt) Hmem _ (_ & Hlen & _) _ [Hes0 _]]. set (p := thread_at kl i) in *.
  set (t1 := with_cxt (with_ttbr0 (VIRT_TO_PHYS (ttbr0_el1 (cxt t))) (cxt t)) t).
  set (t2 := with_cxt (with_lr 0 (with_fp_sp 0xfffffffff000 0xfffffffff000 (cxt t1))) t1).
  set (s3 := with_threads (<[p := t2]> (threads s2)) (with_k_bytes m s2)).
  set (s4 := with_tm (with_hw (timer_enable (hw (tm s3))) (tm s3)) (with_curr_thread p s3)).
  assert (timers_ok (tm s4) L2 g2 q) as HT4 by (destruct HT as [T1 T2 T3 T4 T5]; split; done).
  destruct (@add_timer_task_run alloc KAlloc_small garbage (tm s4) L2 g2 q TIMER_BY_SESC 1 (schedule_timer_task_addr kl) (empty_string_addr kl) HT4) as
    (x & e & m5 & L5 & g5 & E5 & HT5 & F5 & X5 & Arm & K5 & A5 & [= B5 H5] & Bud & Us); [exact (ka_room_one _ _ HR)|rewrite <- Hes0; exact Hes|].
  pose (r := Eret 0 0 0xfffffffff000 (u64 (kstack_ptr t + KSTACK_SIZE)) (ttbr0_el1 (cxt t2))).
  exists r, (with_tpidr_el1 p (with_cpu (with_ttbr0 (ttbr0_el1 (cxt t2)) (with_fp_sp (r_sp r) (r_sp r) (cpu s4))) (with_tm m5 s4))), L5, g5, t2.
  change (timer_task_head (tm s4)) with (timer_task_head (tm s2)) in A5. rewrite Eh in A5. split.
  - assert (upd_thread p (λ t, with_cxt (with_ttbr0 (VIRT_TO_PHYS (ttbr0_el1 (cxt t))) (cxt t)) t) (with_k_bytes m s2) =
      Ok (with_threads (<[p := t1]> (threads s2)) (with_k_bytes m s2))) as U1
      by (refine (upd_thread_ok p (λ t, with_cxt (with_ttbr0 (VIRT_TO_PHYS (ttbr0_el1 (cxt t))) (cxt t)) t) (with_k_bytes m s2) t _);
          change (threads s2 !! p = Some t); rewrite Eth; apply lookup_insert_eq).
    assert (upd_thread p (λ t, with_cxt (with_lr 0 (with_fp_sp 0xfffffffff000 0xfffffffff000 (cxt t))) t)
      (with_threads (<[p := t1]> (threads s2)) (with_k_bytes m s2)) = Ok s3) as U2.
    { rewrite (upd_thread_ok p _ _ t1) by apply lookup_insert_eq. cbn [with_threads threads]. by rewrite insert_insert_eq. }
    assert (get_thread p (with_tm m5 s4) = Ok t2) as Et5 by (change (load (<[p := t2]> (threads s2) !! p) = Ok t2); by rewrite lookup_insert_eq).
    unfold exec_thread. res_apply E1. res_apply Et. rewrite u32_small by lia. res_apply E2. res_apply E3. cbv zeta.
    res_apply U1. res_apply U2. res_apply E5. res_apply Et5. reflexivity.
  - split; [|split; [done|split; [done|cbn; by rewrite Eth, insert_insert_eq]]|done|split; [done|split; [done|split; [done|apply u64_range]]]| | |exact Hz| |done|cbn; by rewrite Ec| |by apply Bud|].
    + split; cbn.
      * exact (ka_lists _ _ _ (tm_heap _ _ _ _ HT5)).
      * rewrite Eq. by rewrite A5.
      * apply elem_of_cons. by left.
      * intros y [->|Hy]%elem_of_cons; [by rewrite lookup_insert_eq|]. rewrite Eth, insert_insert_eq.
        apply lookup_insert_is_Some'. right. by apply Hmem.
      * by rewrite lookup_insert_eq.
    + destruct Hv as (ps & Hps & Hf). exists ps. split; [|exact Hf]. rewrite A5; [done|]. split; [done|]. by apply not_eq_sym.
    + change (window (bytes m5) (Thread.data t) bs ∧ same_outside (Thread.data t) (Z.of_nat (length bs)) (k_bytes s) (bytes m5)). rewrite B5. done.
    + exists (x, e). split; [exact HT5|]. split; [exact Arm|]. split; [exact F5|]. cbn. rewrite X5. cbn. by rewrite Ehw.
    + change (lk (heap m5) = unlock (lock (lk (k_heap s)))). by rewrite K5.
    + eapply Forall_impl; [exact HO|]. intros o [Hpl (c & Hc & Hl)]. split; [exact Hpl|]. exists c. split; [done|by apply Us].
Qed.

(** C3: [exec_thread] starts a program. With a free slot and memory for the nine
    objects it needs, it returns to user mode at address 0 on the stack that ends at
    0xfffffffff000, with interrupts on there, as the new thread of the free slot, at
    the head of the run queue and in TPIDR_EL1: the memory of the thread holds the
    program, byte for byte, and no other memory has changed; the four areas of the
    thread are its text, its stack, the devices and the signal wrapper; its table is
    empty; the signal handlers are the default ones; and a task waits that reschedules
    a second from now, behind the earlier ones. No other thread changes, the
    interrupt lock is balanced. *)
Theorem exec_thread_ok garbage s L g l q i t0 src bs n : can_exec s L g l q i t0 src bs n →
  ∃ r s' L' g' t, exec_thread kl alloc garbage src (Z.of_nat (length bs)) s = Ok (r, s') ∧
    executed s s' L' g g' l q (thread_at kl i) t0 t bs r n.
Proof using KA. apply exec_thread_run. Qed.
End exec.

(** ** A program *)

Definition kl_exec : klayout := KLayout (VIRT_BASE + 0x90000) 0x80300 0x80400 0x80500 0x80600 (VIRT_BASE + 0x80100).

(** A kernel with an empty run queue that can run any [bs]. *)
Lemma can_exec_ex bs n : Forall (λ b, 0 ≤ b < 256) bs → Z.of_nat (length bs) ≤ 0x40000 → (n ≤ 900)%nat →
  ∃ s L g t0, can_exec (alloc := kmalloc layout_ex) kl_exec s L g [] [] 0 t0 (VIRT_BASE + 0xa0000) bs n.
Proof.
  intros Hbs Hlen Hn. destruct (kalloc_ex_tidy (9 + n)) as (h & L & g & Hti & HI & HR & _ & HS); [lia|].
  set (r1 := VIRT_BASE + 0x80000). set (r2 := VIRT_BASE + 0x80010). set (p := VIRT_BASE + 0x90000).
  destruct (ram_fill (bytes_mem (VIRT_BASE + 0xa0000) bs)) as (m & HM & Hsub & Hz).
  { intros a b (i & _ & Hi)%bytes_mem_inv. rewrite Forall_lookup in Hbs. by apply (Hbs i). }
  assert (∀ q, VIRT_BASE + 0x80000 ≤ q < VIRT_BASE + 0xf0000 → ka_static g q ∧ ¬ node L q ∧ ¬ ka_private q) as Hst.
  { intros q Hq. by destruct (HS q Hq) as (S & P & N). }
  destruct (ka_static_ring h L g r1 [] HI) as (m1 & HI1); [repeat constructor; apply not_elem_of_nil| |].
  { intros q ->%list_elem_of_singleton. apply Hst. unfold r1. lia. }
  assert (∀ q, VIRT_BASE + 0x80001 ≤ q < VIRT_BASE + 0xf0000 → ka_static g q ∧ ¬ node (<[r1 := []]> L) q ∧ ¬ ka_private q) as Hst1.
  { intros q Hq. destruct (Hst q) as (S & N & P); [lia|]. split; [done|]. split; [|done]. intros [Hx|Hx]%node_insert; [|done].
    apply list_elem_of_singleton in Hx. unfold r1 in Hx. lia. }
  destruct (ka_static_ring _ _ g r2 [] HI1) as (m2 & HI2); [repeat constructor; apply not_elem_of_nil| |].
  { intros q ->%list_elem_of_singleton. apply Hst1. unfold r2. lia. }
  exists (K (TState (with_lm m2 (with_lm m1 h)) r2 ∅ m hw_ex) ∅ ∅ {[p := thread_ex 0 THREAD_UNUSED]} 0 r1 r1 (cxt_ex 0) r1),
    (<[r2 := []]> (<[r1 := []]> L)), g, (thread_ex 0 THREAD_UNUSED). split.
  - split; [exact HI2|apply (Hst r2); unfold r2; lia|exact (lookup_insert_eq _ _ _)|intros ? ? []%not_elem_of_nil|constructor].
  - exact Hti.
  - exact HR.
  - change (rq (K _ _ _ _ _ _ _ _ _)) with r1. split; [|split; [apply (Hst r1); unfold r1; lia|discriminate]].
    rewrite lookup_insert_ne by discriminate. apply lookup_insert_eq.
  - intros q []%not_elem_of_nil.
  - split; [reflexivity|]. split; [split; [discriminate|reflexivity]|]. split; [discriminate|]. split; [apply lookup_singleton_eq|].
    assert (∀ q, p ≤ q < VIRT_BASE + 0xf0000 → ka_static g q ∧ ¬ node (<[r2 := []]> (<[r1 := []]> L)) q) as H.
    { intros q Hq. destruct (Hst1 q) as (S & N & _); [unfold p in Hq; lia|]. split; [done|]. intros [Hx|Hx]%node_insert; [|done].
      apply list_elem_of_singleton in Hx. unfold p, r2 in *. lia. }
    destruct (H (thread_at kl_exec 0)) as [A1 A2]; [unfold p, thread_at, kl_exec, sizeof_thread; cbn [threads_base]; lia|].
    destruct (H (vma_list (thread_at kl_exec 0))) as [B1 B2]; [unfold p, vma_list, thread_at, kl_exec, sizeof_thread; cbn [threads_base]; lia|].
    split; [exact (conj A1 B1)|exact (conj A2 B2)].
  - split; [|split; [lia|]].
    + apply (window_weaken _ _ _ _ Hsub). apply bytes_mem_window; [unfold VIRT_BASE; lia|unfold VIRT_BASE; lia|exact Hbs].
    + intros j Hj. apply HS. lia.
  - exact HM.
  - assert (m !! (VIRT_BASE + 0x80100) = Some 0) as Hm.
    { apply Hz; [unfold FRAMES_COUNT; lia|]. destruct (bytes_mem _ _ !! _) as [b|] eqn:E; [|done]. apply bytes_mem_inv in E as (i & E & _). lia. }
    change (load8 m (VIRT_BASE + 0x80100) = Ok 0 ∧ ka_static g (u64 (VIRT_BASE + 0x80100))). unfold load8.
    rewrite u64_small by (unfold VIRT_BASE; lia). rewrite Hm. split; [reflexivity|]. apply HS. lia.
Qed.

Lemma exec_thread_ok_witness : ∃ r s s', exec_thread kl_exec (kmalloc layout_ex) (λ _, 0) (VIRT_BASE + 0xa0000) 4 s = Ok (r, s') ∧
  r_elr r = 0 ∧ curr_thread s' = VIRT_BASE + 0x90000.
Proof.
  destruct (can_exec_ex [1; 2; 3; 4] 0) as (s & L & g & t0 & HC); [repeat constructor; lia|discriminate|lia|].
  destruct (exec_thread_ok kl_exec (λ _, 0) s L g [] [] 0 t0 (VIRT_BASE + 0xa0000) [1; 2; 3; 4] 0 HC) as (r & s' & L' & g' & t & E & HE).
  exists r, s, s'. destruct HE as [_ (Hc & _) _ _ _ _ _ _ Hr _ _ _ _]. split; [exact E|]. split; [by rewrite Hr|exact Hc].
Defined.
