(* ===== verification/Mmap.v ===== *)
(** [sys_mmap] of lib/syscall.c: where a new area goes, and when the search ends. *)
From S2P Require Import Prelude Util ListHead Lock Mem Malloc Buddy Reserve Heap Alloc KAlloc Ram PageAlloc Mmu PageTable Uart Mmio Timer Thread Sched RunQueue Spawn Areas Syscall Signal Ordered Exec.
Local Open Scope Z_scope.

(** The end of the address range [sys_mmap] searches. *)
Definition MMAP_END : Z := 0xfffffffff000.

Definition area_end (v : vm_area) : Z := virt_addr v + area_size v.
Definition area_range (v : vm_area) : Prop := 0 ≤ virt_addr v ∧ 0 ≤ area_size v ∧ area_end v < 2 ^ 63.

(** [len] bytes from [addr] meet no area. *)
Definition fits (vs : list vm_area) (addr len : Z) : Prop := Forall (λ v, addr + len ≤ virt_addr v ∨ area_end v ≤ addr) vs.

(** There is a place for [len] bytes within the range. *)
Definition gap (vs : list vm_area) (len g : Z) : Prop := 0 ≤ g ∧ g mod 0x1000 = 0 ∧ g + len < MMAP_END ∧ fits vs g len.

(** The lowest page from [lo] on where [len] bytes meet no area. *)
Definition first_fit (vs : list vm_area) (len lo a : Z) : Prop :=
  lo ≤ a ∧ a mod 0x1000 = 0 ∧ fits vs a len ∧ ∀ g, lo ≤ g < a → g mod 0x1000 = 0 → ¬ fits vs g len.

Lemma round_page_spec x : 0 ≤ x < 2 ^ 63 → x ≤ round_page x < x + 0x1000 ∧ round_page x mod 0x1000 = 0.
Proof.
  intros Hx. rewrite round_page_eq by lia. pose proof (Z.div_mod (x + 0xfff) 0x1000 ltac:(lia)).
  pose proof (Z.mod_pos_bound (x + 0xfff) 0x1000 ltac:(lia)). split; [lia|]. rewrite Z.mul_comm. by apply Z_mod_mult.
Qed.

Lemma round_page_le x g : 0 ≤ x ≤ g → x < 2 ^ 63 → g mod 0x1000 = 0 → round_page x ≤ g.
Proof.
  intros Hx Hg Hm. rewrite round_page_eq by lia. apply Z.mod_divide in Hm as [c ->]; [|lia].
  assert ((x + 0xfff) / 0x1000 ≤ c); [|lia]. apply Z.lt_succ_r, Z.div_lt_upper_bound; lia.
Qed.

Lemma round_page_id x : 0 ≤ x < 2 ^ 63 → x mod 0x1000 = 0 → round_page x = x.
Proof. intros Hx Hm. pose proof (round_page_le x x ltac:(lia) ltac:(lia) Hm). pose proof (round_page_spec x Hx). lia. Qed.

Lemma overlaps_false v addr len : area_range v → 0 ≤ addr < 2 ^ 63 → 0 ≤ len < 2 ^ 63 →
  vma_overlaps addr len v = false ↔ addr + len ≤ virt_addr v ∨ area_end v ≤ addr.
Proof.
  intros (H1 & H2 & H3) Ha Hl. unfold area_end in *. unfold vma_overlaps. rewrite !u64_small by lia.
  rewrite negb_false_iff, orb_true_iff, !Z.leb_le. done.
Qed.

(** How many areas end behind [addr]. *)
Definition above (vs : list vm_area) (addr : Z) : nat := length (filter (λ v, addr < area_end v) vs).

Lemma above_le vs addr : (above vs addr ≤ length vs)%nat.
Proof. apply length_filter. Qed.

Lemma above_less vs v addr : v ∈ vs → addr < area_end v → (above vs (area_end v) < above vs addr)%nat.
Proof.
  unfold above. intros Hv Ha. induction vs as [|w vs IH]; [by apply not_elem_of_nil in Hv|].
  rewrite !filter_cons. apply elem_of_cons in Hv as [<-|Hv].
  - rewrite decide_False, decide_True by lia. simpl. apply Nat.lt_succ_r. clear IH. induction vs as [|w vs IH]; [done|].
    rewrite !filter_cons. repeat case_decide; simpl; lia.
  - specialize (IH Hv). repeat case_decide; simpl; lia.
Qed.

Section mmap.
Context (alloc : Z → mstate → res (Z * mstate)).

(** The call for an address and a length that are final. *)
Definition mmap_place (tf addr len prot : Z) (s : sstate) : res sstate :=
  '(p, s) ← s_alloc alloc (u32 len) s;
  s ← on_ks (add_vma alloc (curr_thread (ks s)) addr len (VIRT_TO_PHYS p) (u64 prot) 1) s;
  set_x0 tf addr s.

Lemma mmap_step fuel tf addr len prot s L vs :
  lists_ok (k_lm (ks s)) L → areas_ok (ks s) L (curr_thread (ks s)) vs →
  let a := round_page (mmap_start addr len) in let n := round_page len in
  sys_mmap alloc (S fuel) tf addr len prot s =
    match find (vma_overlaps a n) vs with
    | Some v => sys_mmap alloc fuel tf (u64 (area_end v)) n prot s
    | None => mmap_place tf a n prot s
    end.
Proof.
  intros Hok Ha a n. destruct (area_search (vma_overlaps a n) (ks s) L _ vs Hok Ha) as (pos & E & Hpos).
  cbn [sys_mmap]. fold n a. rewrite E. cbn [mbind res_bind]. destruct (find (vma_overlaps a n) vs) as [v|].
  - destruct Hpos as [Hne Hv]. rewrite (proj2 (Z.eqb_neq _ _) Hne). cbn [negb]. rewrite Hv. done.
  - by rewrite Hpos, Z.eqb_refl.
Qed.

Section search.
Context (tf prot : Z) (s : sstate) (L : rings) (vs : list vm_area) (Hok : lists_ok (k_lm (ks s)) L)
  (Ha : areas_ok (ks s) L (curr_thread (ks s)) vs) (Hvs : Forall area_range vs).

Lemma no_overlap_fits a n : 0 ≤ a < 2 ^ 63 → 0 ≤ n < 2 ^ 63 → find (vma_overlaps a n) vs = None ↔ fits vs a n.
Proof using Hvs.
  intros H1 H2. unfold fits. rewrite Forall_forall. split.
  - intros Hf v Hv. apply overlaps_false; [by eapply Forall_forall in Hvs|done|done|].
    apply list_elem_of_In in Hv. by apply (find_none _ _ Hf).
  - intros Hf. destruct (find _ vs) as [v|] eqn:E; [|done]. apply find_some in E as [Hv E]. apply list_elem_of_In in Hv.
    assert (area_range v) as Hr by by eapply Forall_forall in Hvs.
    rewrite (proj2 (overlaps_false v a n Hr H1 H2)) in E; [done|by apply Hf].
Qed.

Lemma overlap_end a n v : 0 ≤ a < 2 ^ 63 → 0 ≤ n < 2 ^ 63 → find (vma_overlaps a n) vs = Some v →
  v ∈ vs ∧ a < area_end v < 2 ^ 63 ∧ ∀ g, fits vs g n → a ≤ g → area_end v ≤ g.
Proof using Hvs.
  intros H1 H2 [Hv Ho]%find_some. apply list_elem_of_In in Hv.
  assert (area_range v) as Hr by by eapply Forall_forall in Hvs.
  assert (¬ (a + n ≤ virt_addr v ∨ area_end v ≤ a)) as Hno.
  { intros Hx. apply overlaps_false in Hx; [congruence|done..]. }
  split; [done|]. split; [destruct Hr as (_ & _ & ?); lia|]. intros g Hg Hle. eapply Forall_forall in Hg; [|exact Hv]. simpl in Hg. lia.
Qed.

(** The place the search from the hint [h] leads to: the first one behind the hint,
    or, with no gap behind it, the first one of the address space. *)
Definition chosen (h n a : Z) : Prop := first_fit vs n h a ∨ (∀ g, h ≤ g → ¬ gap vs n g) ∧ first_fit vs n 0 a.

(** A turn that meets an area goes on behind it without missing a place. *)
Lemma chosen_behind h e n gp a : 0 ≤ e < 2 ^ 63 → gap vs n gp → h ≤ e → (∀ g, fits vs g n → h ≤ g → e ≤ g) →
  chosen (round_page (mmap_start e n)) n a → mmap_start e n = e ∨ mmap_start e n = 0 ∧ MMAP_END ≤ e + n → chosen h n a.
Proof using.
  intros He Hgp Hhe Hmiss Hc Hms. pose proof (round_page_spec e He) as [Hr _].
  assert (∀ g, fits vs g n → g mod 0x1000 = 0 → h ≤ g → round_page e ≤ g) as Hmiss'.
  { intros g Hf Hm Hg. apply round_page_le; [split; [lia|by apply Hmiss]|lia|done]. }
  destruct Hms as [Ems|[Ems Hend]]; rewrite Ems in Hc.
  - destruct Hc as [(A1 & A2 & A3 & A4)|[Hno H0]].
    + left. split; [lia|]. split; [done|]. split; [done|]. intros g Hg Hm Hf.
      apply (A4 g); [|done..]. specialize (Hmiss' g Hf Hm ltac:(lia)). lia.
    + right. split; [|done]. intros g Hg Hgap. apply (Hno g); [|done]. destruct Hgap as (G1 & G2 & G3 & G4).
      by apply Hmiss'.
  - change (round_page 0) with 0 in Hc. right. split.
    + intros g Hg (G1 & G2 & G3 & G4). specialize (Hmiss g G4 Hg). lia.
    + destruct Hc as [|[_ ?]]; done.
Qed.

(** With a gap at [gp], the search ends at the place it should. *)
Lemma mmap_search gp len0 n : n = round_page len0 → 0 ≤ len0 < 2 ^ 63 → gap vs n gp → ∀ fuel addr len, len = len0 ∨ len = n →
  0 ≤ addr < 2 ^ 63 → (above vs addr + (if decide (addr ≤ gp)%Z then 0 else S (length vs)) < fuel)%nat →
  ∃ a, sys_mmap alloc fuel tf addr len prot s = mmap_place tf a n prot s ∧ chosen (round_page (mmap_start addr len)) n a ∧
    fits vs a n ∧ 0 ≤ a ∧ a mod 0x1000 = 0 ∧ a + n ≤ 2 ^ 48.
Proof using Hok Ha Hvs.
  intros En Hlen0 Hgp. pose proof Hgp as (Hg0 & Hgm & Hge & Hgf). pose proof (round_page_spec len0 Hlen0) as [Hn Hnm]. rewrite <- En in Hn, Hnm.
  unfold MMAP_END in Hge.
  induction fuel as [|fuel IH]; intros addr len Hlen Haddr Hfuel; [lia|].
  assert (round_page len = n ∧ 0 ≤ len ≤ n) as [Ern Hlenn].
  { destruct Hlen as [->| ->]; [lia|]. rewrite round_page_id by lia. lia. }
  set (a0 := mmap_start addr len). set (a := round_page a0).
  assert (a0 = addr ∧ addr + len < 0xfffffffff000 ∨ a0 = 0 ∧ gp < addr) as Ha0.
  { unfold a0, mmap_start. rewrite u64_small by lia. destruct (Z.leb_spec 0xfffffffff000 (len + addr)); [right|left]; lia. }
  assert (0 ≤ a0 < 2 ^ 62) as Ha0r by lia. destruct (round_page_spec a0) as [Hra Hram]; [lia|]. fold a in Hra, Hram.
  rewrite (mmap_step fuel tf addr len prot s L vs Hok Ha). rewrite Ern. fold a0 a.
  destruct (find (vma_overlaps a n) vs) as [v|] eqn:Ef.
  - destruct (overlap_end a n v) as (Hv & He & Hle); [lia|lia|done|]. rewrite u64_small by lia.
    destruct (IH (area_end v) n) as (r & E & Hch & Hrest); [by right|lia| |].
    + pose proof (above_le vs (area_end v)) as Hal. destruct Ha0 as [[E Hlt]|[E Hgt]].
      * assert (addr < area_end v) as Hlt' by lia. pose proof (above_less vs v addr Hv Hlt') as Hdec.
        destruct (decide (addr ≤ gp)) as [Hag|Hag].
        -- assert (area_end v ≤ gp) as Heg. { apply Hle; [done|]. unfold a. rewrite E. apply round_page_le; lia. }
           rewrite decide_True by done. lia.
        -- case_decide; lia.
      * rewrite (decide_False (P := (addr ≤ gp)%Z)) in Hfuel by lia.
        assert (area_end v ≤ gp) as Heg. { apply Hle; [done|]. unfold a. rewrite E. apply round_page_le; lia. }
        rewrite decide_True by done. lia.
    + exists r. split; [exact E|]. split; [|exact Hrest].
      apply (chosen_behind a (area_end v) n gp); [lia|done|lia|exact Hle|exact Hch|].
      unfold mmap_start, MMAP_END. rewrite u64_small by lia. destruct (Z.leb_spec 0xfffffffff000 (n + area_end v)); [right|left]; lia.
  - assert (fits vs a n) as Hfa by (apply no_overlap_fits; [lia..|done]).
    exists a. split; [done|]. split; [left; split; [lia|]; split; [done|]; split; [done|lia]|]. split; [done|]. split; [lia|]. split; [done|].
    apply Z.mod_divide in Hnm as [cn ->]; [|lia]. apply Z.mod_divide in Hram as [ca Eca]; [|lia]. lia.
Qed.
End search.
End mmap.

(** ** The call *)

Section call.
Context `{KA : KAlloc alloc}.

Lemma s_alloc_ok s L g n k : ka_inv (k_heap (ks s)) L g → 0 ≤ n ≤ 0x40000 → ka_room g (S k) →
  ∃ p c h L' g', s_alloc alloc n s = Ok (p, with_ks (with_k_heap h (ks s)) s) ∧ lk h = lk (k_heap (ks s)) ∧ ka_inv h L' g' ∧ ka_room g' k ∧
    agree_on (λ h, ¬ ka_private h) L L' ∧ ¬ node L' p ∧ n ≤ c ∧ (n ≤ 0x200 → c ≤ 0x200) ∧ (∀ c', ¬ ka_live L g p c') ∧
    (∀ q m, ka_live L' g' q m ↔ ka_live L g q m ∨ (q = p ∧ m = c)) ∧ (∀ q, ka_static g q → q ≠ p ∧ ka_static g' q ∧ (node L' q → node L q)).
Proof.
  intros HI Hn HR. destruct (k_alloc_ok (ks s) L g n k HI Hn HR) as (p & c & h & L' & g' & E & H).
  exists p, c, h, L', g'. split; [|exact H]. unfold s_alloc. by rewrite E.
Qed.

(** C17: [sys_mmap] returns when there is a gap (within twice as many turns as there
    are areas) and takes the first place behind the hint: with [h] the hint
    rounded up to a page (or 0, when the request from the hint would reach the
    end of the range), the address is the lowest page from [h] on where the
    request meets no area, or the lowest page at all when no gap is left behind
    [h]. The new area is the running thread's last, is backed by fresh memory of
    its length and ends below 2^48; its address is the result. *)
Theorem sys_mmap_ok s L g k gp tf addr len prot vs f :
  ka_inv (k_heap (ks s)) L g → ka_room g (S (S k)) → areas_ok (ks s) L (curr_thread (ks s)) vs →
  ¬ ka_private (vma_list (curr_thread (ks s))) → Forall area_range vs → tfs s !! tf = Some f →
  0 ≤ addr < 2 ^ 63 → 0 ≤ len → round_page len ≤ 0x40000 → len ≤ 0x40000 → gap vs (round_page len) gp →
  ∃ a p s' L' g', sys_mmap alloc (2 * length vs + 2) tf addr len prot s = Ok s' ∧
    (let h := round_page (mmap_start addr len) in
     first_fit vs (round_page len) h a ∨ (∀ g, h ≤ g → ¬ gap vs (round_page len) g) ∧ first_fit vs (round_page len) 0 a) ∧
    areas_ok (ks s') L' (curr_thread (ks s')) (vs ++ [VmArea a (VIRT_TO_PHYS p) (round_page len) (u64 prot) 1]) ∧
    fits vs a (round_page len) ∧ 0 ≤ a ∧ a mod 0x1000 = 0 ∧ a + round_page len ≤ 2 ^ 48 ∧
    (∃ c, round_page len ≤ c ∧ ka_live L' g' p c ∧ ∀ c', ¬ ka_live L g p c') ∧
    tfs s' = <[tf := with_x0 a f]> (tfs s) ∧ ka_inv (k_heap (ks s')) L' g' ∧ ka_room g' k ∧
    threads (ks s') = threads (ks s) ∧ curr_thread (ks s') = curr_thread (ks s).
Proof.
  intros HI HR Ha Hp Hvs Hf Haddr Hlen Hbig Hlb Hgap. set (n := round_page len) in *.
  destruct (round_page_spec len) as [Hn Hnm]; [lia|]. fold n in Hn, Hnm.
  destruct (mmap_search alloc tf prot s L vs (ka_lists _ _ _ HI) Ha Hvs gp len n eq_refl ltac:(lia) Hgap (2 * length vs + 2) addr len) as
    (a & E & Hch & Hfit & Ha0 & Ham & Haend); [by left|done|pose proof (above_le vs addr); case_decide; lia|].
  destruct (s_alloc_ok s L g n (S k) HI) as (p & c & h & L1 & g1 & E1 & Hlk & HI1 & HR1 & Hag & Hnn & Hc & _ & Hnl & Hl & Hs); [lia|done|].
  set (s1 := with_ks (with_k_heap h (ks s)) s) in *.
  assert (areas_ok (ks s1) L1 (curr_thread (ks s1)) vs) as Ha1.
  { destruct Ha as (ps & Hps & Hvs'). exists ps. split; [|exact Hvs']. exact (eq_trans (Hag _ Hp) Hps). }
  destruct (add_vma_run (ks s1) L1 g1 k (curr_thread (ks s1)) a n (VIRT_TO_PHYS p) (u64 prot) 1 vs HI1 HR1 Ha1 Hp ltac:(lia)) as
    (k2 & L2 & g2 & E2 & HR2 & [HI2 Ha2 _ _ Hl2 _ _ [Hr2 _] _]). injection Hr2 as Ht _ _ _ Hc2 _ _.
  exists a, p, (with_tfs (<[tf := with_x0 a f]> (tfs s)) (with_ks k2 s1)), L2, g2. split; [|split; [exact Hch|]]; [|split_and!; try done].
  - rewrite E. unfold mmap_place. rewrite u32_small by lia. rewrite E1. cbn [mbind res_bind]. unfold on_ks. rewrite E2. cbn [mbind res_bind mret res_ret].
    unfold set_x0, upd_tf, get_tf. assert (tfs (with_ks k2 s1) !! tf = Some f) as -> by exact Hf. done.
  - cbn [with_tfs with_ks ks]. rewrite Hc2. rewrite round_page_id in Ha2 by lia. exact Ha2.
  - exists c. split; [done|]. split; [apply Hl2, Hl; by right|done].
Qed.

End call.

(** ** Witnesses *)

(** A thread with the areas that every program gets. *)
Lemma mmap_ex : ∃ s L g, ka_inv (k_heap (ks s)) L g ∧ ka_room g 2 ∧
  areas_ok (ks s) L (curr_thread (ks s)) (program_areas kl_exec 0x4000 (VIRT_BASE + 0x800000) (VIRT_BASE + 0x900000)) ∧
  ¬ ka_private (vma_list (curr_thread (ks s))) ∧ tfs s !! 0x5000 = Some tf_ex.
Proof.
  destruct (running_ex 6) as (s & L & g & HI & HR & Ha & Hp & Hc & _); [lia|].
  destruct (add_program_vmas_run kl_exec s L g 2 (VIRT_BASE + 0x90000) 0x4000 (VIRT_BASE + 0x800000) (VIRT_BASE + 0x900000) HI HR Ha Hp)
    as (s' & L' & g' & _ & HR' & HI' & _ & Ha' & _ & _ & _ & Hr & _). injection Hr as _ _ _ _ _ _ Er.
  exists (sys_of s' 0x5000 tf_ex), L', g'. cbn [sys_of ks tfs]. rewrite Er, Hc.
  split; [exact HI'|]. split; [exact HR'|]. split; [exact Ha'|]. split; [exact Hp|reflexivity].
Qed.

Lemma program_areas_range : Forall area_range (program_areas kl_exec 0x4000 (VIRT_BASE + 0x800000) (VIRT_BASE + 0x900000)).
Proof. repeat (constructor; [split; [|split]; vm_compute; discriminate || reflexivity|]). constructor. Qed.

(** A request with its hint in the middle of the program gets the page behind it. *)
Lemma sys_mmap_ok_witness : ∃ s s', sys_mmap (kmalloc layout_ex) 10 0x5000 0x1000 0x1800 3 s = Ok s' ∧
  tfs s' !! 0x5000 = Some (with_x0 0x4000 tf_ex).
Proof.
  destruct mmap_ex as (s & L & g & HI & HR & Ha & Hp & Hf).
  destruct (sys_mmap_ok s L g 0 0x4000 0x5000 0x1000 0x1800 3 _ tf_ex HI HR Ha Hp program_areas_range Hf) as (a & p & s' & _ & _ & E & Hch & _ & Hfit & Ha0 & Ham & _ & _ & Et & _).
  - lia.
  - lia.
  - vm_compute. discriminate.
  - lia.
  - split; [lia|]. split; [reflexivity|]. split; [vm_compute; reflexivity|]. repeat (constructor; [vm_compute; (left; discriminate) || (right; discriminate)|]). constructor.
  - exists s, s'. split; [exact E|]. rewrite Et, lookup_insert_eq. f_equal. f_equal.
    assert (fits (program_areas kl_exec 0x4000 (VIRT_BASE + 0x800000) (VIRT_BASE + 0x900000)) 0x4000 (round_page 0x1800)) as H4.
    { repeat (constructor; [vm_compute; (left; discriminate) || (right; discriminate)|]). constructor. }
    apply Forall_cons in Hfit as [Hf0 _]. change (a + 0x2000 ≤ 0 ∨ 0x4000 ≤ a) in Hf0.
    destruct Hch as [(_ & _ & _ & Hmin)|[Hno _]].
    + destruct (decide (a = 0x4000)) as [|Hne]; [done|]. exfalso. apply (Hmin 0x4000); [change (round_page (mmap_start 0x1000 0x1800)) with 0x1000; lia|reflexivity|exact H4].
    + exfalso. apply (Hno 0x4000); [vm_compute; discriminate|]. split; [lia|]. split; [reflexivity|]. split; [reflexivity|exact H4].
Defined.

