(* ===== verification/SysExec.v ===== *)
(** [sys_exec] of lib/syscall.c: the running thread gives back what its program
    owns and becomes the program of a file of the archive. *)
From S2P Require Import Prelude Util ListHead Lock Mem CString Malloc Buddy Reserve Heap Alloc KAlloc Ram KFree Mmu PageTable Cpio Uart Mmio Timer Thread Sched RunQueue Spawn Areas Reap Syscall Signal Fork Exec.
Local Open Scope Z_scope.

Section exec_call.
Context {alloc : Z → mstate → res (Z * mstate)} {free : Z → mstate → res mstate} {KA : KAlloc alloc} {KF : KFree alloc free}.

(** ** The memory of the old program *)

(** What can be given back still can be after an allocation. *)
Lemma freeable_later s s' L L' g g' v o : ka_inv s L g → ka_inv s' L' g' → agree_on (λ h, ¬ ka_private h) L L' → ¬ ka_private v →
  (∀ q m, ka_live L g q m → ka_live L' g' q m) → freeable (delete v L) g o → freeable (delete v L') g' o.
Proof using.
  intros HI HI' Ha Hv Hl [Ho Hal Hc]. assert (∀ M, agree_on ka_private M (delete v M)) as Hd.
  { intros M h Hh. rewrite lookup_delete_ne; [done|]. by intros <-. }
  assert (ka_live L' g' o.1 o.2) as Ho'.
  { apply Hl. apply (ka_live_agree (delete v L)); [|done]. symmetry. apply Hd. }
  split; [by apply (ka_live_agree L')|done|]. intros q Hq Hw. destruct Hq as [Hq|Hq]; [|by apply (Hc q); [right|]].
  pose proof (ka_lists _ _ _ HI') as Hok. pose proof Hq as (h & l & [Hne Hh]%lookup_delete_Some & Hin).
  destruct (kf_nodes s' L' g' o.1 o.2 q HI' Ho' Hw) as [(h' & l' & Hp & Hh' & Hin')|[Hm|[Hp [l' Hh']]]];
    [by eapply node_delete| |by apply (Hc q); [right|]|].
  - assert (h = h') as <- by (by eapply (lo_disj _ _ Hok)). apply (Hc q); [left|done]. exists h, l. rewrite lookup_delete_ne by done.
    by rewrite <- Ha.
  - apply (Hc q); [left|done]. destruct (ka_private_node _ _ _ _ HI Hp) as (h2 & l2 & Hh2 & Hin2). exists h2, l2.
    rewrite lookup_delete_ne; [done|]. intros <-. assert (v = q) as <-; [|done].
    apply (lo_disj _ _ Hok v q l2 l' q); [by rewrite Ha|done|done|by left].
Qed.

(** The heap [h] once the record [r] of the file is allocated and the objects [os] of
    the thread with the ring [v] have been given back. *)
Record emptied (h0 : mstate) (L0 : rings) (g0 : ka_ghost) (v : Z) (os : list (Z * Z)) (k : nat) (h : mstate) (L : rings) (g : ka_ghost) (r c : Z) : Prop := {
  em_inv : ka_inv h L g;
  em_room : ka_room g k;
  em_tidy : ka_tidy g;
  em_lock : lk h = lk h0;
  em_ring : L !! v = Some [];
  em_rings : agree_on (λ h, ¬ ka_private h ∧ h ≠ v) L0 L;
  em_live : ∀ q m, ka_live L g q m ↔ ka_live L0 g0 q m ∧ q ∉ os.*1 ∨ q = r ∧ m = c;
  em_static : ∀ q, ka_static g0 q → (∀ o, o ∈ os → ¬ kf_within o.1 o.2 q) → ka_static g q;
  em_record : c ≤ 0x200 ∧ (∀ n, ¬ ka_live L0 g0 r n) ∧ ¬ client_node L r ∧ ¬ ka_private r;
}.

(** The areas [vs] of the thread [t] with the records [ps], and the objects [os] that
    they are: nothing else lies in them, and what is below them stays in use. *)
Record owns_program (s : kstate) (L : rings) (g : ka_ghost) (t : Z) (ps : list Z) (vs : list vm_area) (os : list (Z * Z)) : Prop := {
  op_ring : L !! vma_list t = Some ps;
  op_areas : Forall2 (λ p v, vmas s !! p = Some v) ps vs;
  op_objects : os.*1 = area_objects ps vs ∧ NoDup os.*1;
  op_free : Forall (freeable (delete (vma_list t) L) g) os;
  op_propped : Forall (λ o, propped (λ q m, ka_live L g q m ∧ q ∉ os.*1) o.1 o.2) os;
  op_head : ka_static g (vma_list t) ∧ ¬ ka_private (vma_list t) ∧ ∀ o, o ∈ os → ¬ kf_within o.1 o.2 (vma_list t);
}.

Lemma exec_empty s L g k t ps vs os n : ka_inv (k_heap s) L g → ka_tidy g → ka_room g (S k) → owns_program s L g t ps vs os → 0 ≤ n ≤ 0x200 →
  ∃ r c h1 pos h2 L2 g2, k_alloc alloc n s = Ok (r, with_k_heap h1 s) ∧ get_next (lm h1) (vma_list t) = Ok pos ∧
    free_vmas free (ring_fuel (lm h1)) (vma_list t) pos (with_k_heap h1 s) = Ok (with_k_heap h2 s) ∧
    emptied (k_heap s) L g (vma_list t) os k (with_lm (INIT_LIST_HEAD (lm h2) (vma_list t)) h2) L2 g2 r c.
Proof using KF.
  intros HI HT HR [Hps Hvs [Hos Hnd] Hfr Hpr (Hs & Hv & Hw)] Hn. set (v := vma_list t) in *.
  destruct (k_alloc_placed s L g n k HI) as (r & c & h1 & L1 & g1 & (E1 & K1 & I1 & R1 & A1 & N1 & _ & C1 & F1 & V1 & S1) & T1); [lia|done|].
  destruct (T1 HT) as [HT1 _]. pose proof (ka_lists _ _ _ I1) as Hok1. assert (L1 !! v = Some ps) as Hps1 by (by rewrite A1).
  pose proof (get_next_ok _ _ _ [] _ Hok1 Hps1) as En. cbn [last default from_option] in En.
  assert (agree_on ka_private L1 (delete v L1)) as Had by (intros h Hh; rewrite lookup_delete_ne; [done|]; by intros <-).
  assert (ka_inv h1 (delete v L1) g1) as I1'.
  { replace h1 with (with_lm (lm h1) h1) by (by destruct h1). apply (ka_client h1 L1); [done|by apply lists_ok_delete|done|].
    intros q Hq. left. by eapply node_delete. }
  assert (Forall (freeable (delete v L1) g1) os) as Hfr1.
  { eapply Forall_impl; [exact Hfr|]. intros o. apply (freeable_later (k_heap s) h1); [done..|]. intros q m Hq. apply V1. by left. }
  pose proof (lo_nodup _ _ Hok1 _ _ Hps1) as [Hvn Hpnd]%NoDup_cons. pose proof (lo_ring _ _ Hok1 _ _ Hps1) as Hring.
  assert (ListHead.path (lm h1) (ps ++ [v])) as Hpath by (clear -Hring; destruct ps; [done|apply Hring]).
  destruct (free_vmas_run h1 (delete v L1) g1 v ps vs (with_k_heap h1 s) (delete v L1) g1 [] os (ring_fuel (lm h1))) as
    (h2 & L2 & g2 & E2 & [G1 G2 G3 G4 G5 G6 G7 _ G9]);
    [exact I1'|exact (frees_nil _ _ _ I1')|exact Hvs|exact Hpath|exact Hos|exact Hfr1|exact Hnd|exact Hvn|by apply nodes_fuel, (λ x Hx, path_next _ _ _ x Hpath Hx)|].
  assert (¬ node L2 v) as Hnv.
  { intros [Hx|[Hx|Hx]]%G7; [by apply (node_delete_out _ _ _ _ v Hok1 Hps1); [left|]|by eapply kf_static_meta in Hx|].
    apply list_elem_of_fmap in Hx as (o & Eo & Ho). apply (Hw o Ho). rewrite Eo. rewrite Forall_forall in Hfr1.
    by apply (kf_self h1 (delete v L1) g1), Hfr1. }
  exists r, c, h1, (after v ps), h2, (<[v := []]> L2), g2. split; [done|]. split; [done|]. split; [exact E2|].
  assert (ka_static g2 v) as Hs2 by (apply G6; [by apply S1|done]).
  assert (agree_on ka_private L2 (<[v := []]> L2)) as Hai by (intros h Hh; rewrite lookup_insert_ne; [done|]; by intros <-). split.
  - apply (ka_set_ring h2 L2 g2); [done|done|by apply INIT_LIST_HEAD_head; [eapply ka_lists|]|].
    intros q [->|[]%not_elem_of_nil]%elem_of_cons. by right; left.
  - by apply G3.
  - apply (G9 (λ q m, ka_live L g q m ∧ q ∉ os.*1)); [|done|done]. intros q m [Hq1 Hq2]. split; [|done].
    apply (ka_live_agree L1); [done|]. apply V1. by left.
  - by rewrite <- K1.
  - by rewrite lookup_insert_eq.
  - intros h [Hh1 Hh2]. by rewrite lookup_insert_ne, G4, lookup_delete_ne, A1 by done.
  - intros q m. assert (ka_live (<[v := []]> L2) g2 q m ↔ ka_live L2 g2 q m) as -> by (split; apply ka_live_agree; [by symmetry|done]).
    rewrite G5. assert (ka_live (delete v L1) g1 q m ↔ ka_live L1 g1 q m) as -> by (split; apply ka_live_agree; [by symmetry|done]).
    rewrite V1. cbn [app]. split; [tauto|]. intros [?|[-> ->]]; [tauto|]. split; [by right|]. intros (o & Er & Ho)%list_elem_of_fmap.
    rewrite Forall_forall in Hfr. apply (F1 o.2). rewrite Er. apply (ka_live_agree (delete v L)); [|by apply Hfr].
    intros h Hh. rewrite lookup_delete_ne; [done|]. by intros <-.
  - intros q Hq Hout. apply G6; [by apply S1|done].
  - split; [apply C1; lia|]. split; [done|]. split; [|intros Hp; by eapply N1, ka_private_node]. intros (h & l & Hh & Hl & Hq). destruct (decide (h = v)) as [->|Hne].
    + rewrite lookup_insert_eq in Hl. simplify_eq. apply elem_of_cons in Hq as [->|[]%not_elem_of_nil]. by destruct (S1 v Hs).
    + rewrite lookup_insert_ne, G4, lookup_delete_ne in Hl by done. by apply N1, (node_elem L1 h l).
Qed.

(** ** The new program *)

(** The heap and memory once [bs] is copied from [src] to the new object [d] and the
    stack [u] is allocated. *)
Record filled (b : bmem) (h : mstate) (L : rings) (g : ka_ghost) (bs : list Z) (k : nat)
    (b' : bmem) (h' : mstate) (L' : rings) (g' : ka_ghost) (d cd u cu : Z) : Prop := {
  fi_inv : ka_inv h' L' g';
  fi_room : ka_room g' k;
  fi_lock : lk h' = lk h;
  fi_rings : agree_on (λ h, ¬ ka_private h) L L';
  fi_live : ∀ q m, ka_live L' g' q m ↔ ka_live L g q m ∨ (q = d ∧ m = cd) ∨ (q = u ∧ m = cu);
  fi_fresh : ∀ q m, ka_live L g q m → q ≠ d ∧ q ≠ u;
  fi_sizes : Z.of_nat (length bs) ≤ cd ∧ USTACK_SIZE ≤ cu;
  fi_placed : placed (ka_static g) d (Z.of_nat (length bs)) ∧ placed (ka_static g) u USTACK_SIZE;
  fi_bytes : window b' d bs ∧ same_outside d (Z.of_nat (length bs)) b b';
}.

Lemma exec_fill b h L g src bs k : ka_inv h L g → ka_tidy g → ka_room g (2 + k) → ram_mapped b → window b src bs →
  Z.of_nat (length bs) ≤ 0x40000 → (∀ j, 0 ≤ j < Z.of_nat (length bs) → ka_static g (src + j)) →
  ∃ d cd h1 b' u cu h2 L2 g2, alloc (Z.of_nat (length bs)) h = Ok (d, h1) ∧ memcpy b d src (Z.of_nat (length bs)) = Ok b' ∧
    alloc USTACK_SIZE h1 = Ok (u, h2) ∧ filled b h L g bs k b' h2 L2 g2 d cd u cu.
Proof using KA.
  intros HI HT HR HM Hw Hlen Hst.
  destruct (ka_alloc h L g (Z.of_nat (length bs)) (1 + k) HI) as (d & cd & h1 & L1 & g1 & E1 & K1 & I1 & R1 & A1 & _ & D1 & _ & F1 & V1 & S1 & T1); [lia|done|].
  destruct (T1 HT) as [HT1 P1]. destruct (program_copy b (ka_static g) d src bs HM P1 Hw Hlen Hst) as (b' & E2 & Hw2 & Ho2).
  destruct (ka_alloc h1 L1 g1 USTACK_SIZE k I1) as (u & cu & h2 & L2 & g2 & E3 & K2 & I2 & R2 & A2 & _ & D2 & _ & F2 & V2 & _ & T2);
    [unfold USTACK_SIZE; lia|done|]. destruct (T2 HT1) as [_ (P2 & P2' & P2'' & P2''')].
  exists d, cd, h1, b', u, cu, h2, L2, g2. split; [done|]. split; [done|]. split; [done|]. split; try done.
  - by rewrite K2.
  - by transitivity L1.
  - intros q m. rewrite V2, V1. tauto.
  - intros q m Hq. split; intros ->; [by apply (F1 m)|]. apply (F2 m), V1. by left.
  - split; [done|]. split; [done|]. split; [done|]. split; [|done]. intros q Hq. by apply P2'', S1.
Qed.

(** ** The call *)

Context (kl : klayout) (cpio_ramfs : Z).

Lemma on_ks_run f s k : f (ks s) = Ok k → on_ks f s = Ok (with_ks k s).
Proof using. intros E. unfold on_ks. by rewrite E. Qed.

Lemma s_alloc_run n s p h : alloc n (k_heap (ks s)) = Ok (p, h) → s_alloc alloc n s = Ok (p, with_ks (with_k_heap h (ks s)) s).
Proof using. intros E. unfold s_alloc, k_alloc. by rewrite E. Qed.

Lemma upd_curr_run f s t M : threads (ks s) = <[curr_thread (ks s) := t]> M →
  upd_curr f s = Ok (with_ks (with_threads (<[curr_thread (ks s) := f t]> M) (ks s)) s).
Proof using.
  intros E. apply on_ks_run. rewrite (upd_thread_ok _ _ _ t) by (by rewrite E, lookup_insert_eq). by rewrite E, insert_insert_eq.
Qed.

Definition program_thread (d n u : Z) (t : thread) : thread := reset_thread_signals kl (with_ustack_ptr u (with_data d n t)).
Definition program_frame (f : trapframe) : trapframe := Tf (<[0%nat := 0]> (tf_x f)) (spsr_el1 f) 0 0xfffffffff000.

(** The running thread [t] can become the program [f_data f], with room for [k] more
    objects: the archive has the file at [src]; neither it nor the root table lies in
    the memory of the old program; and the next record of a file is not the first bin
    of a page. *)
Record can_replace (s : sstate) (L : rings) (g : ka_ghost) (t : thread) (ps : list Z) (vs : list vm_area) (os : list (Z * Z))
    (fs : list file) (tr : file) (cs : list Z) (name src : Z) (bs : list Z) (k : nat) : Prop := {
  cr_heap : ka_inv (k_heap (ks s)) L g ∧ ka_tidy g ∧ ka_room g (7 + k);
  cr_thread : threads (ks s) !! curr_thread (ks s) = Some t;
  cr_owns : owns_program (ks s) L g (curr_thread (ks s)) ps vs os;
  cr_table : ∃ used root T, tree_ok used (kwords (ks s)) root T ∧ 0 ≤ root < FRAMES_COUNT ∧ ttbr0_el1 (cxt t) = 0x1000 * root;
  cr_archive : archive_ok fs tr ∧ window (k_bytes (ks s)) cpio_ramfs (archive fs tr) ∧ in_memory cpio_ramfs (length (archive fs tr)) ∧
    Forall (λ f, Z.of_nat (length (f_name f)) < 2 ^ 32) fs;
  cr_file : cstring (user_ptr (ks s) name) cs ∧ file_at cpio_ramfs fs cs = Some (src, Z.of_nat (length bs)) ∧
    window (k_bytes (ks s)) src bs ∧ Z.of_nat (length bs) ≤ 0x40000;
  cr_apart : ∀ j, 0 ≤ j < Z.of_nat (length bs) → ka_static g (src + j) ∧ ∀ o, o ∈ os → ¬ kf_within o.1 o.2 (src + j);
  cr_memory : ram_mapped (k_bytes (ks s));
  cr_record : ∀ r h, alloc sizeof_cpio_file_info (k_heap (ks s)) = Ok (r, h) → r mod 0x1000 ≠ 0;
}.

(** The kernel after the call, with the program at [d] and its stack at [u]. *)
Record replaced (s s' : sstate) (L L' : rings) (g g' : ka_ghost) (tf : Z) (f : trapframe) (t : thread) (os : list (Z * Z)) (bs : list Z)
    (d u : Z) (k : nat) : Prop := {
  re_heap : ka_inv (k_heap (ks s')) L' g' ∧ ka_room g' k ∧ lk (k_heap (ks s')) = lk (k_heap (ks s));
  re_thread : threads (ks s') = <[curr_thread (ks s) := program_thread d (Z.of_nat (length bs)) u t]> (threads (ks s));
  re_areas : areas_ok (ks s') L' (curr_thread (ks s)) (program_areas kl (Z.of_nat (length bs)) d u);
  re_rings : agree_on (λ h, ¬ ka_private h ∧ h ≠ vma_list (curr_thread (ks s))) L L';
  re_kept : ∀ q m, ka_live L g q m → q ∉ os.*1 → ka_live L' g' q m;
  re_used : ∀ q m, ka_live L' g' q m → ka_live L g q m ∧ q ∉ os.*1 ∨ q = d ∨ q = u ∨
    ∃ ps', L' !! vma_list (curr_thread (ks s)) = Some ps' ∧ q ∈ ps';
  re_objects : Forall (λ o, (∃ c, o.2 ≤ c ∧ ka_live L' g' o.1 c) ∧
    placed (λ q, ka_static g q ∧ ∀ o', o' ∈ os → ¬ kf_within o'.1 o'.2 q) o.1 o.2) [(d, Z.of_nat (length bs)); (u, USTACK_SIZE)];
  re_program : window (k_bytes (ks s')) d bs ∧ same_outside d (Z.of_nat (length bs)) (k_bytes (ks s)) (k_bytes (ks s'));
  re_table : ∀ x, 0 ≤ x < 512 → kwords (ks s') !! Mmu.entry (PHYS_TO_VIRT (ttbr0_el1 (cxt t))) x = Some 0;
  re_words : ∀ a, (∀ x, 0 ≤ x < 512 → a ≠ Mmu.entry (PHYS_TO_VIRT (ttbr0_el1 (cxt t))) x) → kwords (ks s') !! a = kwords (ks s) !! a;
  re_frame : tfs s' = <[tf := program_frame f]> (tfs s);
  re_rest : (rq (ks s'), curr_thread (ks s'), cpu (ks s'), tpidr_el1 (ks s'), nxt_pid (ks s'), ser s', box s') =
      (rq (ks s), curr_thread (ks s), cpu (ks s), tpidr_el1 (ks s), nxt_pid (ks s), ser s, box s) ∧
    (tasks (tm (ks s')), timer_task_head (tm (ks s')), hw (tm (ks s'))) = (tasks (tm (ks s)), timer_task_head (tm (ks s)), hw (tm (ks s)));
}.

(** The call from the areas of the new program on. *)
Definition exec_tail (tf size cfi : Z) (s : sstate) : res sstate :=
  t ← s_curr s;
  s ← on_ks (add_program_vmas kl alloc (curr_thread (ks s)) size (data t) (ustack_ptr t)) s;
  s ← upd_curr (reset_thread_signals kl) s;
  s ← upd_tf tf program_frame s;
  on_ks (k_free free cfi) s.

Record finished (k k' : kstate) (L : rings) (g : ka_ghost) (L' : rings) (g' : ka_ghost) (t : thread) (size r : Z) (n : nat) : Prop := {
  fn_heap : ka_inv (k_heap k') L' g' ∧ ka_room g' n ∧ lk (k_heap k') = lk (k_heap k);
  fn_threads : threads k' = <[curr_thread k := reset_thread_signals kl t]> (threads k);
  fn_areas : areas_ok k' L' (curr_thread k) (program_areas kl size (data t) (ustack_ptr t));
  fn_rings : agree_on (λ h, ¬ ka_private h ∧ h ≠ vma_list (curr_thread k)) L L';
  fn_kept : ∀ q m, ka_live L g q m → q ≠ r → ka_live L' g' q m;
  fn_used : ∀ q m, ka_live L' g' q m → ka_live L g q m ∧ q ≠ r ∨ ∃ ps, L' !! vma_list (curr_thread k) = Some ps ∧ q ∈ ps;
  fn_rest : (rq k', curr_thread k', cpu k', tpidr_el1 k', nxt_pid k', kwords k') = (rq k, curr_thread k, cpu k, tpidr_el1 k, nxt_pid k, kwords k) ∧
    (bytes (tm k'), tasks (tm k'), timer_task_head (tm k'), hw (tm k')) = (bytes (tm k), tasks (tm k), timer_task_head (tm k), hw (tm k));
}.

Lemma exec_tail_run s L g t tf f size r c n : ka_inv (k_heap (ks s)) L g → ka_room g (4 + n) →
  L !! vma_list (curr_thread (ks s)) = Some [] → ¬ ka_private (vma_list (curr_thread (ks s))) →
  threads (ks s) !! curr_thread (ks s) = Some t → get_tf tf s = Ok f →
  ka_live L g r c → c ≤ 0x200 → ¬ client_node L r → ¬ ka_private r → r mod 0x1000 ≠ 0 →
  ∃ k' L' g', exec_tail tf size r s = Ok (with_tfs (<[tf := program_frame f]> (tfs s)) (with_ks k' s)) ∧
    finished (ks s) k' L g L' g' t size r n.
Proof using KF.
  intros HI HR Hv Hpv Ht Hf Hl Hc Hn Hp Hal. set (v := curr_thread (ks s)) in *.
  destruct (add_program_vmas_run kl (ks s) L g n v size (data t) (ustack_ptr t) HI HR) as
    (k1 & L1 & g1 & E1 & R1 & I1 & G1 & Ha1 & N1 & K1 & U1 & [= Q1 Q2 Q3 Q4 Q5 Q6 Q7] & [= Y1 Y2 Y3 Y4]); [exists []; split; [done|constructor]|done|].
  pose proof (U1 _ _ Hl) as Hl1. assert (¬ client_node L1 r) as Hn1 by (intros Hx; by eapply Hn, (grown_client L g L1 g1 v r c)).
  destruct (kf_free (k_heap k1) L1 g1 r c I1 Hl1) as (h2 & L2 & g2 & E2 & K2 & I2 & R2 & N2 & U2 & _); [done| |].
  { intros q Hq Hw. destruct (kf_small _ _ _ _ _ _ I1 Hl1 Hc Hw) as [Hm Hq']. destruct Hq as [Hq|Hq]; [|done].
    specialize (Hq' Hq) as ->. by destruct (kf_nodes _ _ _ _ _ _ I1 Hl1 Hw Hq) as [?|[?|[? _]]]. }
  set (k2 := with_threads (<[v := reset_thread_signals kl t]> (threads (ks s))) k1).
  exists (with_k_heap h2 k2), L2, g2. split.
  - unfold exec_tail. assert (s_curr s = Ok t) as Ec by (unfold s_curr, curr, get_thread; fold v; by rewrite Ht).
    res_apply Ec. res_apply (on_ks_run _ s _ E1).
    assert (upd_curr (reset_thread_signals kl) (with_ks k1 s) = Ok (with_ks k2 s)) as Er.
    { rewrite (upd_curr_run _ _ t (threads (ks s))); cbn [with_ks ks]; [unfold k2, v; by rewrite Q7|]. by rewrite Q7, Q1, insert_id. }
    res_apply Er. assert (upd_tf tf program_frame (with_ks k2 s) = Ok (with_tfs (<[tf := program_frame f]> (tfs s)) (with_ks k2 s))) as Et.
    { unfold upd_tf. change (get_tf tf (with_ks k2 s)) with (get_tf tf s). by rewrite Hf. }
    res_apply Et. refine (on_ks_run _ (with_tfs _ (with_ks k2 s)) _ _). unfold k_free. change (k_heap (ks _)) with (k_heap k1). by rewrite E2.
  - split; cbn.
    + split; [done|]. split; [by apply R2|]. by rewrite K2, K1.
    + done.
    + destruct Ha1 as (ps & Hps & Hf1). exists ps. split; [by rewrite N2|exact Hf1].
    + intros h [Hh1 Hh2]. by rewrite N2, N1.
    + intros q m Hq Hne. apply U2. split; [by apply U1|done].
    + intros q m [Hq Hne]%U2. destruct G1 as (ps & new & H1 & H2 & _ & H4). apply H4 in Hq as [Hq|Hq]; [by left|right].
      exists (ps ++ new). split; [by rewrite N2|]. apply elem_of_app. by right.
    + by rewrite Q2, Q3, Q4, Q5, Q6, Q7, Y1, Y2, Y3, Y4.
Qed.

(** The call up to there: [k5] is the kernel with the new program in place. *)
Lemma exec_front s t fs tr cs tf name src (bs : list Z) r h1 pos h2 d h3 b u h4 m used root T :
  let c := curr_thread (ks s) in
  let h2' := with_lm (INIT_LIST_HEAD (lm h2) (vma_list c)) h2 in
  let k4 := with_threads (<[c := with_ustack_ptr u (with_data d (Z.of_nat (length bs)) t)]> (threads (ks s))) (with_k_bytes b (with_k_heap h4 (ks s))) in
  let k5 := K (with_heap h4 (tm k4)) (words m) (vmas k4) (threads k4) (nxt_pid k4) (curr_thread k4) (rq k4) (cpu k4) (tpidr_el1 k4) in
  threads (ks s) !! c = Some t → archive_ok fs tr → window (k_bytes (ks s)) cpio_ramfs (archive fs tr) →
  in_memory cpio_ramfs (length (archive fs tr)) → Forall (λ f, Z.of_nat (length (f_name f)) < 2 ^ 32) fs →
  cstring (user_ptr (ks s) name) cs → file_at cpio_ramfs fs cs = Some (src, Z.of_nat (length bs)) → Z.of_nat (length bs) ≤ 0x40000 → r ≠ 0 →
  k_alloc alloc sizeof_cpio_file_info (ks s) = Ok (r, with_k_heap h1 (ks s)) → get_next (lm h1) (vma_list c) = Ok pos →
  free_vmas free (ring_fuel (lm h1)) (vma_list c) pos (with_k_heap h1 (ks s)) = Ok (with_k_heap h2 (ks s)) →
  alloc (Z.of_nat (length bs)) h2' = Ok (d, h3) → memcpy (k_bytes (ks s)) d src (Z.of_nat (length bs)) = Ok b → alloc USTACK_SIZE h3 = Ok (u, h4) →
  tree_ok used (kwords (ks s)) root T → 0 ≤ root < FRAMES_COUNT → ttbr0_el1 (cxt t) = 0x1000 * root →
  clear_table (PHYS_TO_VIRT (ttbr0_el1 (cxt t))) (Mm h4 (kwords (ks s))) = Ok m → mm_heap m = h4 →
  sys_exec kl alloc free cpio_ramfs tf name s =
    exec_tail tf (Z.of_nat (length bs)) r (with_ks k5 (with_infos (<[r := (src, Z.of_nat (length bs))]> (infos s)) s)).
Proof using.
  intros c h2' k4 k5 Ht A1 A2 A3 A4 F1 F2 F4 Hr E1 E2 E3 E4 E5 E6 Htree Hroot Ett E7 M1.
  set (s1 := with_infos (<[r := (src, Z.of_nat (length bs))]> (infos s)) s).
  assert (cpio_traverse (s_alloc alloc) store_info (mem_fuel (k_bytes (ks s))) (k_bytes (ks s)) cpio_ramfs (user_ptr (ks s) name) None s =
    Ok (Info r, with_ks (with_k_heap h1 (ks s)) s1)) as E0.
  { rewrite (cpio_traverse_found (s_alloc alloc) store_info None _ _ fs tr _ cs s src (Z.of_nat (length bs))) by done.
    unfold Cpio.deliver, s_alloc. by rewrite E1. }
  unfold sys_exec. res_apply E0. cbn [found_ptr]. rewrite (proj2 (Z.eqb_neq r 0)) by done. cbv zeta.
  res_apply E2. res_apply (on_ks_run _ (with_ks (with_k_heap h1 (ks s)) s1) _ E3).
  assert (load (infos s1 !! r) = Ok (src, Z.of_nat (length bs))) as El by (cbn; by rewrite lookup_insert_eq). res_apply El.
  res_apply (upd_curr_run (λ t, with_data (data t) (Z.of_nat (length bs)) t) (with_ks (with_k_heap h2' (ks s)) s1) t (threads (ks s)) (eq_sym (insert_id _ _ _ Ht))).
  rewrite u32_small by lia. set (t1 := with_data (data t) (Z.of_nat (length bs)) t).
  set (ka := with_threads (<[c := t1]> (threads (ks s))) (with_k_heap h2' (ks s))).
  res_apply (s_alloc_run (Z.of_nat (length bs)) (with_ks ka s1) _ _ E4).
  res_apply (upd_curr_run (λ t, with_data d (data_size t) t) (with_ks (with_k_heap h3 ka) s1) t1 (threads (ks s)) eq_refl).
  res_apply E5. cbv zeta. set (t2 := with_data d (Z.of_nat (length bs)) t1).
  set (kb := with_k_bytes b (with_threads (<[c := t2]> (threads (ks s))) (with_k_heap h3 ka))).
  res_apply (s_alloc_run USTACK_SIZE (with_ks kb s1) _ _ E6).
  res_apply (upd_curr_run (with_ustack_ptr u) (with_ks (with_k_heap h4 kb) s1) t2 (threads (ks s)) eq_refl).
  assert (s_curr (with_ks k4 s1) = Ok (with_ustack_ptr u t2)) as Ec by (unfold s_curr, curr, get_thread; cbn; by rewrite lookup_insert_eq).
  res_apply Ec. assert (run_mm (free_pages free (ttbr0_el1 (cxt t)) 0) k4 = Ok k4) as Ef.
  { unfold run_mm. change (Mm (k_heap k4) (kwords k4)) with (Mm h4 (kwords (ks s))). rewrite Ett.
    by rewrite (free_pages_run free used (Mm h4 (kwords (ks s))) root T Htree Hroot). }
  res_apply (on_ks_run _ (with_ks k4 s1) _ Ef).
  assert (run_mm (clear_table (PHYS_TO_VIRT (ttbr0_el1 (cxt t)))) k4 = Ok k5) as Ez.
  { unfold run_mm. change (Mm (k_heap k4) (kwords k4)) with (Mm h4 (kwords (ks s))). rewrite E7. cbn [mbind res_bind mret res_ret]. by rewrite M1. }
  res_apply (on_ks_run _ (with_ks k4 s1) _ Ez). reflexivity.
Qed.

Lemma exec_replaced s L g t ps vs os fs tr cs tf name src bs f k :
  can_replace s L g t ps vs os fs tr cs name src bs k → get_tf tf s = Ok f →
  ∃ s' L' g' d u, sys_exec kl alloc free cpio_ramfs tf name s = Ok s' ∧ replaced s s' L L' g g' tf f t os bs d u k.
Proof using KF.
  intros [(HI & HT & HR) Ht Ho (used & root & T & Htree & Hroot & Ett) (A1 & A2 & A3 & A4) (F1 & F2 & F3 & F4) Hap HM Hrec] Hf.
  pose proof (op_head _ _ _ _ _ _ _ Ho) as (_ & Hpv & _).
  destruct (exec_empty (ks s) L g (6 + k) _ ps vs os sizeof_cpio_file_info HI HT HR Ho) as (r & cr & h1 & pos & h2 & L2 & g2 & E1 & E2 & E3 &
    [I2 R2 T2 K2 V2 N2 U2 S2 (C1 & C2 & C3 & C4)]); [unfold sizeof_cpio_file_info; lia|].
  assert (r mod 0x1000 ≠ 0) as Hal by (pose proof E1 as ([r' h'] & Er & [= <- _])%bind_Ok; by eapply Hrec).
  destruct (exec_fill (k_bytes (ks s)) _ L2 g2 src bs (4 + k) I2 T2 R2 HM F3 F4) as
    (d & cd & h3 & b & u & cu & h4 & L4 & g4 & E4 & E5 & E6 & [I4 R4 K4 N4 U4 Fr [Z1 Z2] [P1 P2] [W1 W2]]); [intros j Hj; by apply S2; apply Hap|].
  destruct (clear_table_ok (PHYS_TO_VIRT (ttbr0_el1 (cxt t))) (Mm h4 (kwords (ks s)))) as (m & E7 & M1 & M2 & M3).
  pose proof (exec_front s t fs tr cs tf name src bs r h1 pos h2 d h3 b u h4 m used root T Ht A1 A2 A3 A4 F1 F2 F4 ltac:(by intros ->)
    E1 E2 E3 E4 E5 E6 Htree Hroot Ett E7 M1) as EF. cbv zeta in EF.
  match type of EF with _ = exec_tail _ _ _ ?x => set (s5 := x) in EF end.
  destruct (exec_tail_run s5 L4 g4 (with_ustack_ptr u (with_data d (Z.of_nat (length bs)) t)) tf f (Z.of_nat (length bs)) r cr k I4 R4) as
    (k' & L' & g' & EG & [(I5 & R5 & K5) X1 X2 X3 X4 X5 [X6 X7]]);
    [by rewrite N4|done|exact (lookup_insert_eq _ _ _)|done|apply U4; left; apply U2; by right|done|by intros Hx%(client_node_agree _ _ _ N4)|done|done|].
  rewrite EF, EG. pose proof (Fr r cr ltac:(apply U2; by right)) as [Hrd Hru].
  assert (∀ q m, ka_live L2 g2 q m ∧ q ≠ r ↔ ka_live L g q m ∧ q ∉ os.*1) as Hold.
  { intros q n. rewrite U2. split; [by intros [[?|[-> _]] ?]|]. intros [Hq Hno]. split; [by left|]. intros ->. by apply (C2 n). }
  eexists _, L', g', d, u. split; [reflexivity|]. split; cbn.
  - split; [done|]. split; [done|]. cbn in K5. by rewrite K5, K4, K2.
  - rewrite X1. cbn. by rewrite insert_insert_eq.
  - exact X2.
  - intros h [Hh1 Hh2]. rewrite X3, N4, N2; done.
  - intros q n Hq Hno. destruct (proj2 (Hold q n) (conj Hq Hno)) as [Hq2 Hne]. apply X4; [|done]. apply U4. by left.
  - intros q n [[[Hq|[[-> _]|[-> _]]]%U4 Hne]|Hq]%X5; [left; by apply Hold|by auto|by auto|]. right. right. by right.
  - assert (∀ p n, placed (ka_static g2) p n → placed (λ q, ka_static g q ∧ ∀ o, o ∈ os → ¬ kf_within o.1 o.2 q) p n) as Hpl.
    { intros p n (H1 & H2 & H3 & H4). split; [done|]. split; [done|]. split; [|done]. intros q [Hq1 Hq2]. by apply H3, S2. }
    constructor; [|constructor; [|constructor]]; (split; [|by apply Hpl]).
    + exists cd. split; [done|]. apply X4; [|done]. apply U4. right. by left.
    + exists cu. split; [done|]. apply X4; [|done]. apply U4. right. by right.
  - cbn in X7. injection X7 as Y1 _ _ _. change (window (bytes (tm k')) d bs ∧ same_outside d (Z.of_nat (length bs)) (k_bytes (ks s)) (bytes (tm k'))). by rewrite Y1.
  - cbn in X6. injection X6 as _ _ _ _ _ Y. intros x Hx. rewrite Y. by apply M2.
  - cbn in X6. injection X6 as _ _ _ _ _ Y. intros a Ha. rewrite Y. by apply M3.
  - done.
  - cbn in X6, X7. injection X6 as -> -> -> -> -> _. by injection X7 as _ -> -> ->.
Qed.
(** C5: [sys_exec] of a file in the archive turns the running thread into its program.
    The memory of the areas of the old program and the areas are given back and
    everything else in use stays in use; the thread has new memory that holds the
    contents of the file and a new stack, both apart from what the kernel keeps
    fixed, the four areas of a program with an empty table, the default signal
    handlers, and it returns to user mode at address 0 with the stack pointer at
    0xfffffffff000 and x0 = 0. No other memory changes, nor any other thread, the run
    queue or the timers. The heap must be as the boot leaves it and stay so: below each
    object that is given back, where that is the upper half of a block, something
    stays in use. The record that the search for the file allocates and the small
    objects that are given back must not be the first bin of a page. *)
Theorem sys_exec_ok s L g t ps vs os fs tr cs tf name src bs f k :
  can_replace s L g t ps vs os fs tr cs name src bs k → get_tf tf s = Ok f →
  ∃ s' L' g' d u, sys_exec kl alloc free cpio_ramfs tf name s = Ok s' ∧ replaced s s' L L' g g' tf f t os bs d u k.
Proof using KF. apply exec_replaced. Qed.
End exec_call.

(** ** A thread with one area of memory *)

Lemma owner_ex : let v := vma_list (VIRT_BASE + 0x90000) in ∃ h L (g : kernel_ghost) a p,
  (ka_inv h L g ∧ ka_tidy g ∧ ka_room g 8) ∧ L !! v = Some [p] ∧ a ≠ p ∧ PHYS_TO_VIRT (VIRT_TO_PHYS a) = a ∧ ¬ ka_private v ∧
  Forall (freeable (delete v L) g) [(a, 0x40000); (p, 64)] ∧ (∀ live, Forall (λ o, propped live o.1 o.2) [(a, 0x40000); (p, 64)]) ∧
  (∀ q, VIRT_BASE + 0x80000 ≤ q < VIRT_BASE + 0xf0000 → ka_static g q ∧ ∀ o, o ∈ [(a, 0x40000); (p, 64)] → ¬ kf_within o.1 o.2 q) ∧
  ∀ r h', kmalloc layout_ex sizeof_cpio_file_info h = Ok (r, h') → r mod 0x1000 ≠ 0.
Proof.
  intros v. destruct (kalloc_ex_fresh 10) as (h0 & L0 & g0 & [HT0 HG0] & HI0 & HR0 & _ & HS); [lia|].
  destruct (kmalloc_clear layout_ex layout_ex_ok h0 L0 g0 0x40000 HI0 ltac:(lia) (ka_room_one _ _ HR0)) as
    (a & c & h1 & L1 & g1 & _ & _ & HI1 & Hl1 & _ & (-> & HG1 & HT1 & HR1) & Hclr & Hst).
  specialize (HT1 HT0). specialize (HR1 9%nat HR0). change (kmalloc_size 0x40000) with 0x40000 in *. destruct g1 as [B1 G1]. cbn [snd] in HG1. rewrite HG0 in HG1.
  destruct (kmalloc_first_bin layout_ex layout_ex_ok h1 L1 B1 G1 48 HI1) as (p & h2 & L2 & B2 & G2 & _ & Hal & _ & HI2 & HGr & Hnp & Hown & Hcls);
    [by eapply big_blocks_can; [exact (ka_room_one _ _ HR1)|]|lia|intros x; by rewrite HG1, lookup_empty|].
  change (binsize (bin_order 48)) with 64 in Hown. change (bin_order 48) with 1 in Hcls. set (g2 := (B2, G2) : kernel_ghost).
  assert (ka_inv h2 L2 g2) as HK2 by exact HI2.
  assert (∀ q m, ka_live L1 (B1, G1) q m → ka_live L2 g2 q m) as Hmono.
  { intros q m Hq. apply (kernel_live_iff _ h2 L2 g2 q m HI2), Hown. left. exact (proj1 (kernel_live_iff _ h1 L1 (B1, G1) q m HI1) Hq). }
  assert (ka_live L2 g2 p 64) as Hlp by (apply (kernel_live_iff _ h2 L2 g2 p 64 HI2), Hown; by right).
  assert (∀ q, VIRT_BASE + 0x80000 ≤ q < VIRT_BASE + 0xf0000 → ka_static g2 q ∧ ¬ node L2 q ∧ ¬ ka_private q ∧ ¬ kf_within a 0x40000 q ∧ ¬ kf_within p 64 q) as Hreg.
  { intros q Hq. destruct (HS q Hq) as (S & P & N), (Hst q S) as (S' & W & N'). assert (ka_static g2 q) as S2 by exact (grow_static _ _ _ _ _ _ _ q HGr S').
    split; [done|]. split; [|split; [done|split; [done|]]].
    - intros Hx. by apply N, N', (static_node _ h1 h2 L1 L2 (B1, G1) g2 q HI1 HI2 (hg_client _ _ _ _ _ _ _ HGr) S2).
    - by apply (small_static layout_ex h2 L2 g2 p 64 q HI2 Hlp). }
  destruct (Hreg v) as (Sv & Nv & Pv & _); [unfold v, vma_list; lia|].
  destruct (@ka_static_ring _ KAlloc_ex h2 L2 g2 v [] HK2) as (m1 & HK3); [repeat constructor; apply not_elem_of_nil|by intros q ->%list_elem_of_singleton|].
  assert (p ≠ v) as Hpv 
    by (intros ->; exact (small_static layout_ex h2 L2 g2 v 64 v HI2 Hlp ltac:(done) Sv (heap_self layout_ex h2 L2 g2 v 64 HI2 Hlp))).
  destruct (list_add_tail_ok m1 (<[v := []]> L2) v [] [] p (ka_lists _ _ _ HK3) (lookup_insert_eq _ _ _)) as (m2 & _ & Hok2).
  { intros [Hx|Hx]%node_insert; [|done]. apply list_elem_of_singleton in Hx. done. }
  rewrite insert_insert_eq in Hok2. cbn [app] in Hok2.
  assert (ka_inv (with_lm m2 h2) (<[v := [p]]> L2) g2) as HK4.
  { apply (@ka_set_ring _ KAlloc_ex h2 L2 g2 m2 v [p] HK2 Pv Hok2).
    intros q Hq. rewrite !elem_of_cons in Hq. destruct Hq as [->|[->|[]%not_elem_of_nil]]; [by right; left|]. right. right. by exists 64. }
  destruct (live_page layout_ex h1 L1 (B1, G1) a 0x40000 HI1 Hl1) as (x & _ & Hx & Ha).
  assert (a = page_addr x) as Eax.
  { destruct Ha as [(k & _ & Hk & En & _)|(u & _ & _ & _ & Ea & _)]; [pose proof (binsize_small k Hk); lia|done]. }
  exists (with_lm m2 h2), (<[v := [p]]> L2), g2, a, p.
  split; [split; [exact HK4|split; [exact (hg_aligned _ _ _ _ _ _ _ HGr HT1)|by eapply big_blocks_grow]]|].
  split; [apply lookup_insert_eq|]. split.
  { intros <-. apply Hal. rewrite Eax. apply Z.mod_divide; [done|]. apply page_addr_divide. }
  split; [apply PHYS_TO_VIRT_TO_PHYS; rewrite Eax; unfold page_addr, FRAMES_COUNT in *; change FRAME_START with 0xffff000000000000; lia|]. split; [exact Pv|].
  split; [rewrite delete_insert_eq; constructor; [|constructor; [|constructor]]|split; [|split]].
  - apply (@freeable_later _ _ KAlloc_ex KFree_ex h1 h2 L1 L2 (B1, G1) g2 v _ HI1 HK2 (hg_client _ _ _ _ _ _ _ HGr) Pv Hmono).
    split; cbn [fst snd]; [|lia|intros q [Hq|Hq]; apply Hclr; [left; by eapply node_delete|by right]].
    apply (ka_live_agree L1); [|exact Hl1]. intros h Hh. rewrite lookup_delete_ne; [done|]. by intros <-.
  - split; cbn [fst snd]; [|done|].
    + apply (ka_live_agree L2); [|exact Hlp]. intros h Hh. rewrite lookup_delete_ne; [done|]. by intros <-.
    + intros q Hq Hw. destruct (heap_small layout_ex h2 L2 g2 p 64 q HI2 Hlp ltac:(lia) Hw) as [Hm Hn].
      destruct Hq as [Hq|Hq]; [|done]. apply node_delete in Hq. by rewrite (Hn Hq) in Hq.
  - intros live. constructor; [|constructor; [|constructor]]; cbn [fst snd].
    + exact (max_propped layout_ex h1 L1 (B1, G1) live a HI1 HT1 Hl1).
    + unfold propped. lia.
  - intros q Hq. destruct (Hreg q Hq) as (S & _ & _ & W1 & W2). split; [exact S|].
    intros o [->|[->|[]%not_elem_of_nil]%elem_of_cons]%elem_of_cons; [exact W1|exact W2].
  - intros r h' E. destruct (kmalloc_first_bin layout_ex layout_ex_ok (with_lm m2 h2) (<[v := [p]]> L2) B2 G2 sizeof_cpio_file_info HK4) as
      (r' & s' & L' & B' & G' & E' & Hr & _).
    + eapply big_blocks_can; [|done]. eapply (big_blocks_grow layout_ex _ _ _ _ _ _ 8 HGr). exact HR1.
    + unfold sizeof_cpio_file_info. lia.
    + intros y Hy. apply Hcls in Hy as [Hy|Hy]; [by rewrite HG1, lookup_empty in Hy|done].
    + rewrite E' in E. by injection E as <- _.
Qed.

Definition exec_mem : bmem := bytes_mem (VIRT_BASE + 0xa0000) (archive [file_ex] trailer_ex) ∪ bytes_mem (VIRT_BASE + 0xb0000) [97; 0].

Lemma exec_mem_ok : map_Forall (λ _ b, 0 ≤ b < 256) exec_mem ∧ bytes_mem (VIRT_BASE + 0xa0000) (archive [file_ex] trailer_ex) ⊆ exec_mem ∧
  exec_mem !! (VIRT_BASE + 0xb0000) = Some 97 ∧ exec_mem !! (VIRT_BASE + 0xb0001) = Some 0.
Proof.
  assert (∀ x, VIRT_BASE + 0xb0000 ≤ x → bytes_mem (VIRT_BASE + 0xa0000) (archive [file_ex] trailer_ex) !! x = None) as Hno.
  { intros x Hx. destruct (bytes_mem _ _ !! x) as [b|] eqn:E; [|done]. apply bytes_mem_inv in E as (i & -> & Hi).
    apply lookup_lt_Some in Hi. change (length (archive [file_ex] trailer_ex)) with 240%nat in Hi. lia. }
  split; [|split; [apply map_union_subseteq_l|split; [unfold exec_mem; rewrite lookup_union_r by (apply Hno; lia); exact (bytes_mem_lookup (VIRT_BASE + 0xb0000) [97; 0] 0 97 eq_refl)|
    unfold exec_mem; rewrite lookup_union_r by (apply Hno; lia); exact (bytes_mem_lookup (VIRT_BASE + 0xb0000) [97; 0] 1 0 eq_refl)]]].
  intros x b [Hx|[_ Hx]]%lookup_union_Some_raw; apply bytes_mem_inv in Hx as (i & _ & Hi).
  - assert (Forall (λ b, 0 ≤ b < 256) (archive [file_ex] trailer_ex)) as HF by (apply (bool_decide_unpack _); vm_compute; done).
    rewrite Forall_lookup in HF. by apply (HF i).
  - assert (Forall (λ b, 0 ≤ b < 256) [97; 0]) as HF by (repeat constructor; lia). rewrite Forall_lookup in HF. by apply (HF i).
Qed.

#[local] Opaque zero_table exec_mem.

Lemma exec_name k : exec_mem ⊆ k_bytes k → cstring (user_ptr k (VIRT_BASE + 0xb0000)) [97].
Proof.
  destruct exec_mem_ok as (_ & _ & M3 & M4). intros Hsub. split; [|repeat constructor; lia]. intros [|[|[|i]]] b Hi; cbn in Hi.
  - injection Hi as <-. change (load8 (k_bytes k) (VIRT_BASE + 0xb0000) = Ok 97). unfold load8. rewrite u64_small by (unfold VIRT_BASE; lia).
    by rewrite (lookup_weaken _ _ _ _ M3 Hsub).
  - injection Hi as <-. change (load8 (k_bytes k) (VIRT_BASE + 0xb0001) = Ok 0). unfold load8. rewrite u64_small by (unfold VIRT_BASE; lia).
    by rewrite (lookup_weaken _ _ _ _ M4 Hsub).
  - discriminate.
  - discriminate.
Qed.

(** Thread 1 runs, with one area, and asks for the file "a". *)
Lemma can_replace_ex : ∃ s L (g : kernel_ghost) ps vs os,
  can_replace (KF := KFree_ex) (VIRT_BASE + 0xa0000) s L g (thread_ex 1 THREAD_RUNNING) ps vs os
    [file_ex] trailer_ex [97] (VIRT_BASE + 0xb0000) (VIRT_BASE + 0xa0070) [104; 105] 0 ∧ get_tf 0x5000 s = Ok tf_ex.
Proof.
  destruct owner_ex as (h & L & g & a & p & (HI & HT & HR) & Hv & Hne & Ea & Hpv & Hfr & Hpr & Hreg & Hrec).
  destruct exec_mem_ok as (M1 & M2 & _). destruct (ram_fill exec_mem M1) as (m & HM & Hsub & _).
  set (c := VIRT_BASE + 0x90000) in *. set (v := VmArea 0 (VIRT_TO_PHYS a) 0x40000 7 PG_NEED_ALLOC).
  set (k := K (TState h 0 ∅ m hw_ex) zero_table {[p := v]} {[c := thread_ex 1 THREAD_RUNNING]} 2 c 0 (cxt_ex 0) c).
  exists (sys_of k 0x5000 tf_ex), L, g, [p], [v], [(a, 0x40000); (p, 64)].
  assert (window m (VIRT_BASE + 0xa0000) (archive [file_ex] trailer_ex)) as Hw.
  { apply (window_weaken exec_mem); [exact Hsub|]. apply (window_weaken _ _ _ _ M2). apply bytes_mem_window; [unfold VIRT_BASE; lia|vm_compute; discriminate|].
    apply (bool_decide_unpack _); vm_compute; done. }
  assert (file_at (VIRT_BASE + 0xa0000) [file_ex] [97] = Some (VIRT_BASE + 0xa0070, 2)) as Hf by (vm_compute; reflexivity).
  split; [|unfold get_tf, sys_of; cbn; by rewrite lookup_singleton_eq]. split.
  - split; [exact HI|]. split; [exact HT|]. by do 1 apply ka_room_less.
  - exact (lookup_singleton_eq _ _).
  - split.
    + exact Hv.
    + constructor; [exact (lookup_singleton_eq _ _)|constructor].
    + split; [unfold area_objects, v; cbn; by rewrite Ea|]. cbn. apply NoDup_cons. split; [intros E%list_elem_of_singleton; exact (Hne E)|apply NoDup_singleton].
    + exact Hfr.
    + apply Hpr.
    + destruct (Hreg (vma_list c)) as [S W]; [unfold c, vma_list; lia|]. exact (conj S (conj Hpv W)).
  - exists (λ _, True), 0, {[ [] := 0 ]}. split; [exact zero_table_ok|]. split; [unfold FRAMES_COUNT; lia|reflexivity].
  - split; [exact archive_ex_ok|]. split; [exact Hw|]. split; [split; [unfold VIRT_BASE; lia|split; [reflexivity|vm_compute; discriminate]]|].
    repeat constructor.
  - split; [|split; [exact Hf|split; [|cbn; lia]]].
    + exact (exec_name k Hsub).
    + destruct (file_at_data m [file_ex] trailer_ex _ _ _ _ archive_ex_ok (win_bytes _ _ _ Hw) Hf) as (f & Hin & _ & _ & Hd).
      apply list_elem_of_singleton in Hin as ->. split; [exact Hd|]. unfold VIRT_BASE. cbn. lia.
  - intros j Hj. cbn in Hj. apply Hreg. lia.
  - exact HM.
  - exact Hrec.
Qed.

Lemma sys_exec_ok_witness : ∃ s s', sys_exec kl_exec (kmalloc layout_ex) (kfree layout_ex) (VIRT_BASE + 0xa0000) 0x5000 (VIRT_BASE + 0xb0000) s = Ok s' ∧
  tfs s' !! 0x5000 = Some (program_frame tf_ex).
Proof.
  destruct can_replace_ex as (s & L & g & ps & vs & os & HC & Hf).
  destruct (sys_exec_ok (KF := KFree_ex) kl_exec (VIRT_BASE + 0xa0000) s L g _ ps vs os _ _ _ 0x5000 _ _ _ tf_ex 0 HC Hf) as (s' & L' & g' & d & u & E & HR).
  exists s, s'. split; [exact E|]. rewrite (re_frame _ _ _ _ _ _ _ _ _ _ _ _ _ _ _ HR). apply lookup_insert_eq.
Defined.
