(* ===== verification/Paging.v ===== *)
(** Demand paging of a program: after [exec_thread] the first access to a page of
    the program faults, and [handle_abort] makes its bytes appear. *)
From S2P Require Import Prelude Util ListHead Lock Mem CString Malloc Buddy Reserve Heap Alloc KAlloc Ram PageAlloc Mmu PageTable Ordered Uart Mmio Timer Thread Sched RunQueue Spawn Areas Syscall Signal Fork Exec.
Local Open Scope Z_scope.

(** Where the tables map an address, the program reads the byte that is there. *)
Lemma user_load_mapped k root va pa b : ttbr0_el1 (cpu k) = 0x1000 * root → 0 ≤ va < 2 ^ 48 →
  translate PHYS_TO_VIRT (kwords k) (0x1000 * root) va = Some pa → load8 (k_bytes k) (PHYS_TO_VIRT pa) = Ok b → user_load k va = Ok b.
Proof.
  intros Er Hva Ht Hb. unfold user_load, mem_addr. rewrite u64_small by lia. rewrite (proj2 (Z.ltb_lt _ _)) by lia.
  unfold user_desc. rewrite Er, Ht. unfold translate in Ht. destruct (hw_walk _ _ 4 0 _ va) as [[d lv]|]; [|done]. exact Hb.
Qed.

Section paging.
Context (ly : layout) (Hly : layout_ok ly) (kl : klayout).
#[local] Instance paging_KAlloc : KAlloc (kmalloc ly) := kmalloc_KAlloc ly Hly.
#[local] Instance paging_PageAlloc : PageAlloc (kmalloc ly) := kmalloc_PageAlloc ly Hly.

(** An object of at least a page is a page of its own, and is not free. *)
Lemma page_object s L (g : kernel_ghost) p n : heap_inv ly s L g.1 g.2 → kernel_live ly L g p n → 0x1000 ≤ n →
  ∃ i, p = page_addr i ∧ 0 ≤ i < FRAMES_COUNT ∧ ¬ free_frame g.1 i.
Proof using.
  intros HI [Hc Ho] Hn. destruct Ho as [q k Hq|i v [Hb Hg]].
  - destruct Hq as [(i & j & Hi & _) _]. destruct (binsize_cases k (Hc _ _ Hi)) as [(_ & E & _)|[(_ & E & _)|[(_ & E & _)|[(_ & E & _)|(_ & E & _)]]]]; lia.
  - exists i. split; [done|]. destruct (po_range _ (bi_part _ _ _ _ (hp_buddy _ _ _ _ _ HI)) _ _ _ Hb) as [Hr _].
    split; [done|]. apply (owned_not_free ly s L g.1 g.2 i (0x1000 * 2 ^ v) HI Hr). by constructor.
Qed.

(** The tables of a thread that is about to run. *)
Lemma executed_space s s' L (g g' : kernel_ghost) l q p t0 t bs r n : executed kl s s' L g g' l q p t0 t bs r (S n) →
  ∃ root, 0 ≤ root < FRAMES_COUNT ∧ ttbr0_el1 (cxt t) = 0x1000 * root ∧
    space_ok (Mm (k_heap s') (kwords s')) ((L, g'.1, g'.2) : pa_ghost) (3 + 0) root {[ [] := root ]}.
Proof using.
  intros [Q _ _ (_ & _ & _ & Hr) _ _ Hz (e & HT & _) _ _ _ HR HO]. pose proof (tm_heap _ _ _ _ HT) as HI.
  apply Forall_cons in HO as [[_ (c & Hc & Hl)] _]. destruct (page_object _ L g' _ c HI Hl Hc) as (root & Ep & Hroot & Hf).
  cbn [fst] in Ep. exists root. split; [done|].
  assert (ttbr0_el1 (cxt t) = 0x1000 * root) as Et.
  { rewrite <- (VIRT_TO_PHYS_TO_VIRT _ Hr), Ep. by apply page_phys. }
  split; [done|]. split; [exact HI| |].
  - apply big_blocks_room; [exact (bi_part _ _ _ _ (hp_buddy _ _ _ _ _ HI))|exact (ka_room_one _ _ HR)|lia].
  - apply fresh_tree; [done|exact Hf|]. rewrite <- Ep. exact Hz.
Qed.

(** C4: A program of at most 256 KiB reads its own bytes if its memory starts on a
    page, which it does above 512 bytes. After [exec_thread] nothing is mapped;
    the translation fault of an access to any byte of the program makes
    [handle_abort] map the page of that byte, and then every address of that
    page reads the byte at its offset from the start of the page in which the
    program's memory begins: the byte of the file when the memory starts there
    (a program of at most 512 bytes lives in a bin and need not). The running
    thread, the memory and the areas are as before. *)
Theorem page_in_ok s s' L (g g' : kernel_ghost) l q p t0 t bs r n iss va :
  executed kl s s' L g g' l q p t0 t bs r (S n) → translation_fault iss = true →
  Z.of_nat (length bs) ≤ 0x40000 → 0 ≤ va < Z.of_nat (length bs) →
  ∃ s2, handle_abort (kmalloc ly) va iss s' = Ok s2 ∧ (threads s2, vmas s2, curr_thread s2, k_bytes s2) = (threads s', vmas s', curr_thread s', k_bytes s') ∧
    (∀ va' b, va' / 0x1000 = va / 0x1000 → load8 (k_bytes s') (data t - data t mod 0x1000 + va') = Ok b → user_load s2 va' = Ok b) ∧
    (data t mod 0x1000 = 0 →
      ∀ i b, bs !! i = Some b → Z.of_nat i / 0x1000 = va / 0x1000 → user_load s2 (Z.of_nat i) = Ok b) ∧
    (0x200 < Z.of_nat (length bs) → data t mod 0x1000 = 0).
Proof using Hly.
  intros HE Hiss Hlen Hva. destruct (executed_space _ _ _ _ _ _ _ _ _ _ _ _ _ HE) as (root & Hroot & Et & HS).
  destruct HE as [Q (Hc & _ & Hth) _ _ Ha [Hw _] _ _ _ Hcpu _ _ HO].
  rewrite !Forall_cons in HO. destruct HO as (_ & _ & _ & [(P1 & P2 & _ & P4) _] & _). cbn [fst snd] in P1, P2, P4.
  pose proof ram_end as He. assert (VIRT_TO_PHYS (data t) = data t - VIRT_BASE) as Ep.
  { unfold VIRT_TO_PHYS, VIRT_BASE, FRAMES_COUNT in *. rewrite u64_small; lia. }
  assert ((data t - VIRT_BASE) mod 0x1000 = data t mod 0x1000) as Em by (rewrite Zminus_mod, Z.sub_0_r; by rewrite Z.mod_mod by lia).
  pose proof (Z.mod_pos_bound (data t) 0x1000 ltac:(lia)) as Hm0. pose proof (Z.mod_le (data t - VIRT_BASE) 0x1000 ltac:(lia) ltac:(lia)) as Hm1.
  set (text := VmArea 0 (VIRT_TO_PHYS (data t)) (round_page (Z.of_nat (length bs))) (Z.lor (Z.lor PROT_R PROT_W) PROT_X) PG_NEED_ALLOC).
  assert (vma_hit va text = true) as Hit.
  { unfold vma_hit. cbn [text virt_addr area_size]. rewrite round_page_eq by lia.
    pose proof (Z.div_mod (Z.of_nat (length bs) + 0xfff) 0x1000 ltac:(lia)). pose proof (Z.mod_pos_bound (Z.of_nat (length bs) + 0xfff) 0x1000 ltac:(lia)).
    rewrite u64_small by lia. apply andb_true_iff. split; apply Z.leb_le; lia. }
  destruct (@handle_abort_run _ paging_PageAlloc va iss s' L ((L, g'.1, g'.2) : @pa_ghost _ paging_PageAlloc) 0 root {[ [] := root ]} (program_areas kl (Z.of_nat (length bs)) (data t) (ustack_ptr t)) text t)
    as (s2 & g2 & T2 & E & _ & _ & Htr & [= R1 R2 R3 R4 R5 _]).
  - exact (qu_lists _ _ _ Q).
  - by rewrite Hc.
  - unfold program_areas. cbn [find]. fold text. by rewrite Hit.
  - exact Hiss.
  - unfold curr, get_thread. by rewrite Hc, Hth, lookup_insert_eq.
  - exact Et.
  - exact Hroot.
  - exact HS.
  - done.
  - done.
  - cbn. rewrite Ep. lia.
  - lia.
  - cbn. rewrite Ep. unfold VIRT_BASE, FRAMES_COUNT in *. lia.
  - assert (∀ va' b, va' / 0x1000 = va / 0x1000 → load8 (k_bytes s') (data t - data t mod 0x1000 + va') = Ok b → user_load s2 va' = Ok b) as Hread.
    { intros va' b Hpg Hb. pose proof (Z.div_mod va 0x1000 ltac:(lia)). pose proof (Z.mod_pos_bound va 0x1000 ltac:(lia)).
      pose proof (Z.div_mod va' 0x1000 ltac:(lia)). pose proof (Z.mod_pos_bound va' 0x1000 ltac:(lia)).
      assert (0 ≤ va / 0x1000) by (apply Z.div_pos; lia). assert (0 ≤ va' < 2 ^ 48) as Hr by lia.
      apply (user_load_mapped _ root _ (data t - VIRT_BASE - data t mod 0x1000 + va')).
      - rewrite R4, Hcpu. exact Et.
      - exact Hr.
      - rewrite Htr by done. rewrite decide_True by done. cbn [text virt_addr phys_addr]. rewrite Ep, Em. f_equal. lia.
      - rewrite R5, <- Hb. f_equal. unfold PHYS_TO_VIRT. unfold VIRT_BASE, FRAMES_COUNT in *. rewrite u64_small; lia. }
    exists s2. split; [exact E|]. split; [congruence|]. split; [exact Hread|]. split; [|exact P4].
    intros Hal i b Hi Hpg. apply Hread; [done|]. rewrite Hal, Z.sub_0_r. exact (win_load _ _ _ _ _ Hw Hi).
Qed.
End paging.

(** A program of 4096 bytes and an instruction fetch. *)
Lemma page_in_ok_witness : ∃ s s2, handle_abort (kmalloc layout_ex) 0x123 6 s = Ok s2 ∧ user_load s2 0x456 = Ok 7.
Proof.
  destruct (can_exec_ex (replicate 4096 7) 1) as (s & L & g & t0 & HC); [apply Forall_replicate; lia|rewrite length_replicate; lia|lia|].
  destruct (exec_thread_run kl_exec (λ _, 0) s L g [] [] 0 t0 (VIRT_BASE + 0xa0000) (replicate 4096 7) 1 HC) as (r & s' & L' & g' & t & _ & HE).
  destruct (page_in_ok layout_ex layout_ex_ok kl_exec s s' L' g g' [] [] (thread_at kl_exec 0) t0 t (replicate 4096 7) r 0 6 0x123 HE) as (s2 & E & _ & _ & Hb & Hal).
  - reflexivity.
  - rewrite length_replicate. lia.
  - rewrite length_replicate. lia.
  - exists s', s2. split; [exact E|]. rewrite length_replicate in Hal. apply (Hb (Hal ltac:(lia)) 0x456%nat 7); [apply lookup_replicate_2; lia|reflexivity].
Defined.
