(* ===== verification/Kill.v ===== *)
(** The dispatcher of system calls, and the calls that kill threads or send
    signals, with what they do not check. *)
From S2P Require Import Prelude Util ListHead Lock Mem Malloc Heap KAlloc Mmu Cpio Uart Mmio Timer Thread Sched RunQueue Spawn Areas Syscall Signal.
Local Open Scope Z_scope.
(** Thread [pid] of the array is in use. *)
Definition in_use (kl : klayout) (s : sstate) (pid : Z) (t : thread) : Prop :=
  threads (ks s) !! thread_at kl pid = Some t ∧ state t ≠ THREAD_UNUSED.

Section syscalls.
Context (kl : klayout) (alloc : Z → mstate → res (Z * mstate)) (free : Z → mstate → res mstate)
  (cpio_ramfs mbox_addr : Z) (answer : Z → list Z → list Z).
Abbreviation handler := (syscall_handler kl alloc free cpio_ramfs mbox_addr answer).

(** The state in which a system call runs: interrupts on. *)
Definition interrupts_on (s : sstate) : sstate :=
  with_ks (with_k_heap (with_lk (enable_el1_interrupt (lk (k_heap (ks s)))) (k_heap (ks s))) (ks s)) s.

(** The test of the number. *)
Lemma syscall_test fuel tf s f x8 : get_tf tf s = Ok f → length (tf_x f) = 31%nat → tf_x f !! 8%nat = Some x8 →
  (s32 x8 < 0 ∨ 12 < s32 x8 → handler fuel tf s = Ok (interrupts_on s)) ∧ (s32 x8 = 12 → handler fuel tf s = Fault).
Proof using.
  intros Hf Hl H8. assert (∀ i, (i < 31)%nat → ∃ x, tf_x f !! i = Some x) as Hx.
  { intros i Hi. apply lookup_lt_is_Some. lia. }
  destruct (Hx 0%nat) as [x0 E0]; [lia|]. destruct (Hx 1%nat) as [x1 E1]; [lia|]. destruct (Hx 2%nat) as [x2 E2]; [lia|].
  pose proof (s32_range x8) as Hr. unfold syscall_handler. fold (interrupts_on s).
  assert (get_tf tf (interrupts_on s) = Ok f) as -> by exact Hf. cbn [mbind res_bind]. unfold arg.
  rewrite H8, E0, E1, E2. cbn [load mbind res_bind]. change (ARRAY_SIZE _) with 12. split.
  - intros Hn. assert (12 < u64 (s32 x8)) as Hlt; [|by rewrite (proj2 (Z.ltb_lt _ _) Hlt)].
    destruct Hn as [Hn|Hn]; [|rewrite u64_small; lia]. unfold u64. rewrite <- (Z.mod_add _ 1) by lia. rewrite Z.mod_small; lia.
  - intros ->. reflexivity.
Qed.

(** a number outside the table, negative ones included, is ignored, but for 12,
    the first one behind its end: the comparison lets it pass and the handler is
    read from behind the table. *)
Theorem syscall_number_bounds fuel tf s f x8 : get_tf tf s = Ok f → length (tf_x f) = 31%nat → tf_x f !! 8%nat = Some x8 →
  (s32 x8 < 0 ∨ 12 < s32 x8 → handler fuel tf s = Ok (interrupts_on s)) ∧ (s32 x8 = 12 → handler fuel tf s = Fault).
Proof using. apply syscall_test. Qed.

(** ** kill_pid *)

(** [sys_kill_pid] refuses pids out of range, unused threads and the idle thread
    with the lock balanced and no other effect; the last pid is out of range for
    it although [thread_create] gives it out. *)
Theorem sys_kill_pid_refuses pid s : lock_wf (lk (k_heap (ks s))) →
  (pid < 0 ∨ PID_MAX ≤ pid ∨ (0 ≤ pid < PID_MAX ∧ (∃ t, threads (ks s) !! thread_at kl pid = Some t ∧ (state t = THREAD_UNUSED ∨ pid = 0)))) →
  sys_kill_pid kl pid s = Ok (s_unlock (s_lock s)) ∧ threads (ks (s_unlock (s_lock s))) = threads (ks s) ∧
  lock_counter (lk (k_heap (ks (s_unlock (s_lock s))))) = lock_counter (lk (k_heap (ks s))).
Proof using.
  intros Hlk Hp. split; [|split; [done|]].
  - unfold sys_kill_pid. destruct Hp as [Hp|[Hp|(Hp & t & Et & Hu)]].
    + by rewrite (proj2 (Z.ltb_lt _ _) Hp), orb_true_r.
    + by rewrite (proj2 (Z.leb_le _ _) Hp).
    + rewrite (proj2 (Z.leb_gt _ _)), (proj2 (Z.ltb_ge _ _)) by lia. cbn [orb]. unfold get_thread.
      change (threads (ks (s_lock s))) with (threads (ks s)). rewrite Et. cbn [load mbind res_bind mret res_ret].
      destruct Hu as [Hu| ->]; [by rewrite (proj2 (Z.eqb_eq _ _) Hu)|]. by destruct (state t =? THREAD_UNUSED).
  - change (lk (k_heap (ks (s_unlock (s_lock s))))) with (unlock (lock (lk (k_heap (ks s))))). by rewrite unlock_lock.
Qed.

(** C19: any other thread with a pid below [PID_MAX] becomes a zombie at once, whoever
    asks, and the caller gives the processor to the next thread that can still run; all others stay as
    runnable as they were. *)
Theorem sys_kill_pid_ok pid s L l r p t : queue_ok (ks s) L l → rotation r l (curr_thread (ks s)) →
  0 < pid < PID_MAX → in_use kl s pid t →
  find (λ q, is_runnable (ks s) q && negb (bool_decide (q = thread_at kl pid))) r = Some p →
  ∃ s', sys_kill_pid kl pid s = Ok s' ∧ queue_ok (ks s') L l ∧ curr_thread (ks s') = p ∧
    (state <$> threads (ks s') !! thread_at kl pid = Some THREAD_ZOMBIE) ∧
    ∀ q, is_runnable (ks s') q = is_runnable (ks s) q && negb (bool_decide (q = thread_at kl pid)).
Proof using.
  intros HQ Hr Hp [Et Hu] Hf. destruct (kill_schedule (ks s) L l r p _ t HQ Hr Et Hf) as (k & E & HQ' & Hc & _ & Hz & Hrun).
  exists (with_ks k s). split; [|done]. unfold sys_kill_pid.
  rewrite (proj2 (Z.leb_gt _ _)), (proj2 (Z.ltb_ge _ _)) by lia. cbn [orb]. unfold get_thread at 1.
  change (threads (ks (s_lock s))) with (threads (ks s)). rewrite Et. cbn [load mbind res_bind mret res_ret].
  rewrite (proj2 (Z.eqb_neq _ _) Hu), (proj2 (Z.eqb_neq pid 0)) by lia.
  apply bind_Ok in E as (k1 & E1 & E2).
  assert (on_ks (upd_thread (thread_at kl pid) (with_state THREAD_ZOMBIE)) (s_lock s) = Ok (with_ks k1 (s_lock s))) as E3.
  { unfold on_ks. change (ks (s_lock s)) with (k_lock (ks s)). by rewrite E1. }
  res_apply E3. unfold on_ks. change (ks (s_unlock (with_ks k1 (s_lock s)))) with (k_unlock k1). by rewrite E2.
Qed.

(** ** kill *)

(** [sys_kill] makes exactly one more instance of the signal pending for exactly
    that thread. *)
Theorem sys_kill_ok pid signum s t n : 0 ≤ pid < PID_MAX → in_use kl s pid t →
  sigcount t !! Z.to_nat signum = Some n → 0 ≤ n < 2 ^ 31 - 1 →
  ∃ s', sys_kill kl pid signum s = Ok s' ∧ tfs s' = tfs s ∧ curr_thread (ks s') = curr_thread (ks s) ∧
    threads (ks s') = <[thread_at kl pid := with_sigcount (<[Z.to_nat signum := n + 1]> (sigcount t)) t]> (threads (ks s)) ∧
    lk (k_heap (ks s')) = unlock (lock (lk (k_heap (ks s)))).
Proof using.
  intros Hp [Et Hu] Hn Hb. eexists. split.
  - unfold sys_kill. rewrite (proj2 (Z.leb_gt _ _)) by lia. rewrite (proj2 (Z.leb_le _ _)) by lia. cbn [require mbind res_bind].
    unfold get_thread. change (threads (ks (s_lock s))) with (threads (ks s)). rewrite Et. cbn [load mbind res_bind mret res_ret].
    rewrite (proj2 (Z.eqb_neq _ _) Hu), Hn. cbn [load mbind res_bind]. unfold on_ks.
    rewrite (upd_thread_ok _ _ _ t) by exact Et. rewrite s32_small by lia. reflexivity.
  - done.
Qed.

(** [sys_kill] checks neither that the pid is not negative nor the signal number:
    both index outside their arrays. *)
Theorem sys_kill_unchecked pid signum s : 
  (pid < 0 → sys_kill kl pid signum s = Fault) ∧
  (∀ t, 0 ≤ pid < PID_MAX → in_use kl s pid t →
    length (sigcount t) = 32%nat → 32 ≤ signum → sys_kill kl pid signum s = Fault).
Proof using.
  unfold sys_kill. split.
  - intros Hp. rewrite (proj2 (Z.leb_gt PID_MAX pid)) by (unfold PID_MAX; lia). by rewrite (proj2 (Z.leb_gt 0 pid)) by lia.
  - intros t Hp [Et Hu] Hl Hs. rewrite (proj2 (Z.leb_gt _ _)) by lia. rewrite (proj2 (Z.leb_le _ _)) by lia. cbn [require mbind res_bind].
    unfold get_thread. change (threads (ks (s_lock s))) with (threads (ks s)). rewrite Et. cbn [load mbind res_bind mret res_ret].
    rewrite (proj2 (Z.eqb_neq _ _) Hu). by rewrite (lookup_ge_None_2 (sigcount t)) by lia.
Qed.

(** ** exec *)

Lemma on_ks_infos f s s' : on_ks f s = Ok s' → infos s' = infos s.
Proof using. unfold on_ks. intros (k & _ & [= <-])%bind_Ok. done. Qed.

(** [sys_exec] of a name that is not in the archive does not report an error: the
    -1 is taken for a record, and after the areas of the thread have been freed
    the kernel reads the record at -1. *)
Theorem sys_exec_missing tf name s s1 :
  cpio_traverse (s_alloc alloc) store_info (mem_fuel (k_bytes (ks s))) (k_bytes (ks s)) cpio_ramfs (user_ptr (ks s) name) None s = Ok (NotFound, s1) →
  infos s1 !! u64 (-1) = None →
  ∀ s', sys_exec kl alloc free cpio_ramfs tf name s ≠ Ok s'.
Proof using.
  intros E Hi s' H. unfold sys_exec in H. rewrite E in H. cbn [mbind res_bind found_ptr] in H.
  change (u64 (-1) =? 0) with false in H. cbv iota zeta in H.
  apply bind_Ok in H as (pos & _ & H). apply bind_Ok in H as (s2 & E2 & H). apply on_ks_infos in E2.
  apply bind_Ok in H as (x & Hx & _). apply load_Ok in Hx. cbn [with_ks infos] in Hx. rewrite E2, Hi in Hx. discriminate.
Qed.
End syscalls.

(** ** Witnesses *)

(** Threads 0, 1 and 2 of the array, all queued; thread 0 runs. *)
Definition kl_small : klayout := KLayout 0x1000 0x80300 0x80400 0x80500 0x80600 0x100.
Definition three_lists : lmem :=
  __list_add (__list_add (__list_add (INIT_LIST_HEAD (Lmem ∅ ∅) 0x100) 0x1570 0x100 0x100) 0x12b8 0x100 0x1570) 0x1000 0x100 0x12b8.
Definition three_threads : kstate :=
  K (TState (MState 0 0 ∅ three_lists (LockSt 0 true)) 0 ∅ ∅ hw_ex) ∅ ∅
    {[0x1000 := thread_ex 0 THREAD_RUNNING; 0x12b8 := thread_ex 1 THREAD_RUNNING; 0x1570 := thread_ex 2 THREAD_RUNNING]}
    3 0x1000 0x100 (cxt_ex 7) 0x1000.
Definition three_state : sstate := sys_of three_threads 0x5000 tf_ex.

Lemma three_queue : queue_ok (ks three_state) {[0x100 := [0x1000; 0x12b8; 0x1570]]} [0x1000; 0x12b8; 0x1570].
Proof.
  split; [|done|set_solver| |by eexists].
  - assert (∀ m l new, lists_ok m {[0x100 := l]} → new ∉ 0x100 :: l →
      lists_ok (__list_add m new 0x100 (after 0x100 l)) {[0x100 := new :: l]}) as Hadd.
    { intros m l new Hok Hn.
      assert (<[0x100 := new :: l]> {[0x100 := l]} =@{gmap Z (list Z)} {[0x100 := new :: l]}) as <- by apply insert_singleton_eq.
      apply (list_insert_ok _ _ 0x100 [] l new); [done|by rewrite lookup_singleton_eq|].
      intros (h & l' & [<- <-]%lookup_singleton_Some & Hx). done. }
    apply (Hadd _ [0x12b8; 0x1570]); [|set_solver]. apply (Hadd _ [0x1570]); [|set_solver].
    apply (Hadd _ []); [|set_solver].
    apply (INIT_LIST_HEAD_head _ ∅); [by split; intros *; rewrite lookup_empty|].
    intros (h & l & H & _). by rewrite lookup_empty in H.
  - intros p. rewrite !elem_of_cons, elem_of_nil. intros [->|[->|[->|[]]]]; by eexists.
Qed.

Lemma three_rotation : rotation [0x12b8; 0x1570; 0x1000] [0x1000; 0x12b8; 0x1570] (curr_thread (ks three_state)).
Proof. by exists [], [0x12b8; 0x1570]. Qed.

Lemma no_alloc_lock : lock_wf (lk (k_heap (ks three_state))).
Proof. split; [split; [discriminate|reflexivity]|discriminate]. Qed.

Lemma syscall_number_bounds_witness :
  syscall_handler kl_small (λ _ _, Fault) (λ _ _, Fault) 0 0 (λ _ l, l) 1 0x5000 (sys_of three_threads 0x5000 (Tf (<[8%nat := 12]> (repeat 0 31)) 0 0 0)) = Fault.
Proof.
  apply (syscall_number_bounds kl_small (λ _ _, Fault) (λ _ _, Fault) 0 0 (λ _ l, l) 1 0x5000 _ (Tf (<[8%nat := 12]> (repeat 0 31)) 0 0 0) 12); reflexivity.
Defined.

Lemma sys_kill_pid_refuses_witness : sys_kill_pid kl_small 0 three_state = Ok (s_unlock (s_lock three_state)).
Proof.
  destruct (sys_kill_pid_refuses kl_small 0 three_state no_alloc_lock) as [E _]; [|exact E].
  right. right. split; [split; [discriminate|reflexivity]|]. exists (thread_ex 0 THREAD_RUNNING). split; [reflexivity|by right].
Defined.

Lemma sys_kill_pid_ok_witness : ∃ s', sys_kill_pid kl_small 1 three_state = Ok s' ∧ curr_thread (ks s') = 0x1570.
Proof.
  destruct (sys_kill_pid_ok kl_small 1 three_state _ _ _ 0x1570 (thread_ex 1 THREAD_RUNNING) three_queue three_rotation) as (s' & E & _ & H & _).
  - split; reflexivity.
  - split; [reflexivity|discriminate].
  - reflexivity.
  - exists s'. split; [exact E|exact H].
Defined.

Lemma sys_kill_ok_witness : ∃ s', sys_kill kl_small 2 9 three_state = Ok s'.
Proof.
  destruct (sys_kill_ok kl_small 2 9 three_state (thread_ex 2 THREAD_RUNNING) 0) as (s' & E & _).
  - split; [discriminate|reflexivity].
  - split; [reflexivity|discriminate].
  - reflexivity.
  - split; [discriminate|reflexivity].
  - exists s'. exact E.
Defined.

(** An archive without files at a kernel address, which is also the name. *)
Definition empty_archive : sstate := sys_of (with_k_bytes (bytes_mem (2 ^ 48) [48; 0]) three_threads) 0x5000 tf_ex.

Lemma sys_exec_missing_witness : ∀ s', sys_exec kl_small (λ _ _, Fault) (λ _ _, Fault) (2 ^ 48) 0x5000 (2 ^ 48) empty_archive ≠ Ok s'.
Proof.
  apply (sys_exec_missing kl_small (λ _ _, Fault) (λ _ _, Fault) (2 ^ 48) 0x5000 (2 ^ 48) empty_archive empty_archive).
  - vm_compute. reflexivity.
  - reflexivity.
Defined.
