(* ===== verification/Typed.v ===== *)
(** The thread table keeps its shape: every entry of the kernel preserves it,
    whatever it does to the rest of the state. *)
From S2P Require Import Prelude Util ListHead Lock Mem CString Malloc Mmu Cpio Uart Mmio Timer Thread Sched RunQueue Spawn Areas Syscall Signal Kill.
Local Open Scope Z_scope.

(** An entry of the array: at the place of its pid, in one of the three states,
    with arrays of 32 handlers and counters. *)
Record thread_typed (kl : klayout) (p : Z) (t : thread) : Prop := {
  ty_pid : p = thread_at kl (pid t) ∧ 0 ≤ pid t ≤ PID_MAX;
  ty_state : state t = THREAD_RUNNING ∨ state t = THREAD_ZOMBIE ∨ state t = THREAD_UNUSED;
  ty_handlers : length (sig_handler t) = 32%nat;
  ty_counts : length (sigcount t) = 32%nat ∧ Forall (λ c, - 2 ^ 31 ≤ c < 2 ^ 31) (sigcount t);
}.

Definition kernel_typed (kl : klayout) (s : kstate) : Prop := map_Forall (thread_typed kl) (threads s).

Create HintDb typed.

(** ** Operations that leave the threads alone *)

Section typed.
Context (kl : klayout) (alloc : Z → mstate → res (Z * mstate)) (free : Z → mstate → res mstate).
Abbreviation typed := (kernel_typed kl).

Lemma typed_same s s' : threads s' = threads s → typed s → typed s'.
Proof using. unfold kernel_typed. by intros ->. Qed.

Lemma k_alloc_typed n s p s' : k_alloc alloc n s = Ok (p, s') → typed s → typed s'.
Proof using. unfold k_alloc. intros H Hs. apply bind_Ok in H as ([q h] & _ & H). injection H as <- <-. exact Hs. Qed.
Lemma k_free_typed p s s' : k_free free p s = Ok s' → typed s → typed s'.
Proof using. unfold k_free. intros H Hs. res_inv. subst s'. exact Hs. Qed.
Lemma run_mm_typed f s s' : run_mm f s = Ok s' → typed s → typed s'.
Proof using. unfold run_mm. intros H Hs. res_inv. subst s'. exact Hs. Qed.
Lemma add_vma_typed t v n p r a s s' : add_vma alloc t v n p r a s = Ok s' → typed s → typed s'.
Proof using.
  unfold add_vma. intros H Hs. apply bind_Ok in H as ([q s1] & E & H). apply bind_Ok in H as (m & _ & H). injection H as <-.
  change (typed s1). by eapply k_alloc_typed.
Qed.

Lemma free_vmas_typed fuel h : ∀ pos s s', free_vmas free fuel h pos s = Ok s' → typed s → typed s'.
Proof using.
  induction fuel as [|fuel IH]; intros pos s s' H Hs; [done|]. cbn [free_vmas] in H.
  destruct (pos =? h); [res_inv; by subst s'|]. apply bind_Ok in H as (v & _ & H). apply bind_Ok in H as (s1 & E1 & H).
  apply bind_Ok in H as (q & _ & H). apply bind_Ok in H as (s2 & E2 & H). apply (IH _ _ _ H), (k_free_typed _ _ _ E2).
  destruct (negb _); [by apply (k_free_typed _ _ _ E1)|]. injection E1 as <-. exact Hs.
Qed.

(** What a state leads to through a loop of [n] turns. *)
Lemma for_loop_after {St} (P : Z → St → Prop) f n : ∀ i (s s' : St), (∀ j s s', f j s = Ok s' → P j s → P (j + 1) s') →
  for_loop n i f s = Ok s' → P i s → P (i + Z.of_nat n) s'.
Proof using.
  induction n as [|n IH]; intros i s s' Hf H Hs.
  - injection H as <-. by replace (i + Z.of_nat 0) with i by lia.
  - cbn [for_loop] in H. apply bind_Ok in H as (s1 & E & H). replace (i + Z.of_nat (S n)) with (i + 1 + Z.of_nat n) by lia.
    apply (IH _ _ _ Hf H). by apply (Hf _ _ _ E).
Qed.

(** Loops preserve what their bodies preserve. *)
Lemma list_for_each_keeps {St} (mem : St → lmem) (P : St → Prop) (body : Z → St → res (flow St)) fuel h s x s' :
  (∀ x s f, body x s = Ok f → P s → match f with Next _ s' | Break _ s' => P s' end) →
  list_for_each mem fuel h body s = Ok (x, s') → P s → P s'.
Proof using.
  intros Hb H Hs. unfold list_for_each in H. apply bind_Ok in H as (pos & _ & H). revert pos s H Hs.
  induction fuel as [|fuel IH]; intros pos s H Hs; [done|]. cbn [list_for_each_from] in H.
  destruct (list_is_head pos h); [by injection H as _ <-|]. apply bind_Ok in H as (f & E & H). pose proof (Hb _ _ _ E Hs) as Hf.
  destruct f as [q s1|q s1]; [|by injection H as _ <-]. apply bind_Ok in H as (r & _ & H). by apply (IH _ _ H).
Qed.

Lemma for_loop_keeps {St} (P : St → Prop) f n : ∀ i (s s' : St), (∀ i s s', f i s = Ok s' → P s → P s') →
  for_loop n i f s = Ok s' → P s → P s'.
Proof using.
  induction n as [|n IH]; intros i s s' Hf H Hs; [by injection H as <-|]. cbn [for_loop] in H. apply bind_Ok in H as (s1 & E & H).
  apply (IH _ _ _ Hf H). by apply (Hf _ _ _ E).
Qed.

(** ** Operations on threads *)

Lemma upd_thread_typed p f s s' : upd_thread p f s = Ok s' → (∀ t, thread_typed kl p t → thread_typed kl p (f t)) → typed s → typed s'.
Proof using.
  unfold upd_thread, get_thread. intros H Hf Hs. res_inv. subst s'. intros q t. cbn. rewrite lookup_insert_Some.
  intros [[<- <-]|[_ Hq]]; [|by apply Hs]. by apply Hf, Hs.
Qed.

(** A change of the fields the invariant does not look at. *)
Definition same_type (f : thread → thread) : Prop := ∀ t,
  (pid (f t), state (f t), sig_handler (f t), sigcount (f t)) = (pid t, state t, sig_handler t, sigcount t).
Lemma same_type_typed f p t : same_type f → thread_typed kl p t → thread_typed kl p (f t).
Proof using. intros Hf [H1 H2 H3 H4]. specialize (Hf t). injection Hf as E1 E2 E3 E4. split; congruence. Qed.

Lemma with_state_typed x p t : x = THREAD_RUNNING ∨ x = THREAD_ZOMBIE ∨ x = THREAD_UNUSED → thread_typed kl p t → thread_typed kl p (with_state x t).
Proof using. intros Hx [H1 H2 H3 H4]. by split. Qed.
Lemma with_sig_handler_typed l p t : length l = 32%nat → thread_typed kl p t → thread_typed kl p (with_sig_handler l t).
Proof using. intros Hl [H1 H2 H3 H4]. by split. Qed.
Lemma with_sigcount_typed l p t : length l = 32%nat → Forall (λ c, - 2 ^ 31 ≤ c < 2 ^ 31) l → thread_typed kl p t → thread_typed kl p (with_sigcount l t).
Proof using. intros Hl Hf [H1 H2 H3 H4]. by split. Qed.
Lemma set_count_typed i c p t : thread_typed kl p t → thread_typed kl p (with_sigcount (<[i := s32 c]> (sigcount t)) t).
Proof using.
  intros Ht. destruct (ty_counts _ _ _ Ht) as [Hl Hf]. apply with_sigcount_typed; [by rewrite length_insert| |done].
  apply Forall_insert; [done|]. apply s32_range.
Qed.

Lemma switch_to_typed p q s s' : switch_to p q s = Ok s' → typed s → typed s'.
Proof using.
  unfold switch_to. intros H Hs. apply bind_Ok in H as (s1 & E & H). res_inv. subst s'.
  apply (typed_same s1); [done|]. apply (upd_thread_typed _ _ _ _ E); [|done]. intros t. by apply same_type_typed.
Qed.

Lemma schedule_typed s s' : schedule s = Ok s' → typed s → typed s'.
Proof using.
  unfold schedule. intros H Hs. apply bind_Ok in H as (p & _ & H). apply (switch_to_typed _ _ _ _ H). exact Hs.
Qed.

Lemma zombie_typed p t : thread_typed kl p t → thread_typed kl p (with_state THREAD_ZOMBIE t).
Proof using. apply with_state_typed. auto. Qed.

Lemma thread_exit_typed s s' : thread_exit s = Ok s' → typed s → typed s'.
Proof using.
  unfold thread_exit. intros H Hs. apply bind_Ok in H as (s1 & E & H). apply (schedule_typed _ _ H).
  change (typed s1). apply (upd_thread_typed _ _ _ _ E); [apply zombie_typed|exact Hs].
Qed.

(** Changes of the state the threads are not part of. *)
Lemma typed_k_heap h s : typed s → typed (with_k_heap h s).
Proof using. done. Qed.
Lemma typed_k_lm m s : typed s → typed (with_k_lm m s).
Proof using. done. Qed.
Lemma typed_k_bytes b s : typed s → typed (with_k_bytes b s).
Proof using. done. Qed.
Lemma typed_tm x s : typed s → typed (with_tm x s).
Proof using. done. Qed.
Lemma typed_lock s : typed s → typed (k_lock s).
Proof using. done. Qed.
Lemma typed_unlock s : typed s → typed (k_unlock s).
Proof using. done. Qed.
Lemma typed_curr_thread p s : typed s → typed (with_curr_thread p s).
Proof using. done. Qed.
Lemma typed_rq p s : typed s → typed (with_rq p s).
Proof using. done. Qed.
Lemma typed_nxt_pid n s : typed s → typed (with_nxt_pid n s).
Proof using. done. Qed.
Lemma typed_cpu c s : typed s → typed (with_cpu c s).
Proof using. done. Qed.
Lemma typed_tpidr p s : typed s → typed (with_tpidr_el1 p s).
Proof using. done. Qed.
End typed.

(** Run through the statements of a function that returned. *)
Ltac statements :=
  repeat match goal with
  | H : mret _ = Ok _ |- _ => injection H as H; subst
  | H : Ok _ = Ok _ |- _ => injection H as H; subst
  | H : Fault = Ok _ |- _ => discriminate H
  | H : (let (_, _) := ?x in _) = Ok _ |- _ => destruct x; cbv beta iota in H
  | H : (_ ≫= _) = Ok _ |- _ => apply bind_Ok in H; let x := fresh "x" in let E := fresh "E" in destruct H as (x & E & H)
  | H : (if ?b then _ else _) = Ok _ |- _ => destruct b
  end.

(** Carry the invariant through the states the statements returned, one by one. *)
Ltac carry kl :=
  repeat match goal with
  | E : _ = Ok (_, ?s) |- _ => assert (kernel_typed kl s) by eauto 6 with typed; clear E
  | E : _ = Ok ?s |- _ => assert (kernel_typed kl s) by eauto 6 with typed; clear E
  end; eauto 6 with typed.

#[export] Hint Resolve typed_k_heap typed_k_lm typed_k_bytes typed_tm typed_lock typed_unlock typed_curr_thread typed_rq typed_nxt_pid
  typed_cpu typed_tpidr zombie_typed set_count_typed : typed.
#[export] Hint Resolve k_alloc_typed k_free_typed run_mm_typed add_vma_typed free_vmas_typed upd_thread_typed switch_to_typed schedule_typed
  thread_exit_typed : typed.
#[export] Hint Extern 1 (thread_typed _ _ _ → thread_typed _ _ _) => apply same_type_typed; intros ?; reflexivity : typed.
#[export] Hint Extern 2 (∀ _, thread_typed _ _ _ → thread_typed _ _ _) => intros ?; cbv beta : typed.

Section entries.
Context (kl : klayout) (alloc : Z → mstate → res (Z * mstate)) (free : Z → mstate → res mstate).
Abbreviation typed := (kernel_typed kl).

Lemma reset_typed p t : thread_typed kl p t → thread_typed kl p (with_sigcount (repeat 0 (Z.to_nat SIG_MAX))
  (with_sig_handler (repeat (default_sig_handler_addr kl) (Z.to_nat SIG_MAX)) t)).
Proof using.
  intros Ht. apply with_sigcount_typed; [done| |by apply with_sig_handler_typed].
  apply Forall_forall. intros c Hc%list_elem_of_In%repeat_spec. lia.
Qed.
Hint Resolve reset_typed : typed.
Hint Extern 3 (thread_typed _ _ (with_state _ _)) => apply with_state_typed; [auto|] : typed.

Lemma thread_create_typed start size s p s' : thread_create kl alloc start size s = Ok (p, s') → typed s → typed s'.
Proof using.
  unfold thread_create. intros H Hs. statements; carry kl.
Qed.
Hint Resolve thread_create_typed : typed.

Lemma reap_typed p s s' : reap free p s = Ok s' → typed s → typed s'.
Proof using. unfold reap. intros H Hs. statements; carry kl. Qed.
Hint Resolve reap_typed : typed.

Lemma kill_zombies_typed s s' : kill_zombies free s = Ok s' → typed s → typed s'.
Proof using.
  unfold kill_zombies. intros H Hs. apply bind_Ok in H as ([q s1] & E & H). injection H as <-. apply typed_unlock.
  apply (list_for_each_keeps k_lm typed _ _ _ _ _ _) with (2 := E); [|by apply typed_lock].
  intros p s2 f Hf Hs2. statements; carry kl.
Qed.
Hint Resolve kill_zombies_typed : typed.

Lemma idle_turn_typed s s' : idle_turn free s = Ok s' → typed s → typed s'.
Proof using. unfold idle_turn. intros H Hs. statements; carry kl. Qed.

(** A search of the areas changes nothing. *)
Lemma area_search_typed (b : vm_area → bool) fuel h s q s' :
  list_for_each k_lm fuel h (λ p s, v ← load (vmas s !! p); mret (if b v then Break p s else Next p s)) s = Ok (q, s') → typed s → typed s'.
Proof using. apply (list_for_each_keeps k_lm typed). intros p s2 f Hf Hs2. statements. by destruct (b _). Qed.
Hint Resolve area_search_typed : typed.

Lemma handle_abort_typed far iss s s' : handle_abort alloc far iss s = Ok s' → typed s → typed s'.
Proof using. unfold handle_abort. intros H Hs. statements; carry kl. Qed.

Lemma add_program_vmas_typed p size d u s s' : add_program_vmas kl alloc p size d u s = Ok s' → typed s → typed s'.
Proof using. unfold add_program_vmas. intros H Hs. statements; carry kl. Qed.
Hint Resolve add_program_vmas_typed : typed.

Lemma exec_thread_typed garbage d n s r s' : exec_thread kl alloc garbage d n s = Ok (r, s') → typed s → typed s'.
Proof using. unfold exec_thread. intros H Hs. statements; carry kl. Qed.

Lemma fork_area_typed c p s s' : fork_area alloc c p s = Ok s' → typed s → typed s'.
Proof using. unfold fork_area. intros H Hs. statements; carry kl. Qed.
Hint Resolve fork_area_typed : typed.

Lemma store_cxt_typed p s s' : store_cxt p s = Ok s' → typed s → typed s'.
Proof using. unfold store_cxt. intros H Hs. carry kl. Qed.
Hint Resolve store_cxt_typed : typed.

Lemma user_store_typed a v s s' : user_store a v s = Ok s' → typed s → typed s'.
Proof using. unfold user_store. intros H Hs. statements; carry kl. Qed.
Hint Resolve user_store_typed : typed.
End entries.
#[export] Hint Resolve reset_typed thread_create_typed reap_typed kill_zombies_typed area_search_typed add_program_vmas_typed
  fork_area_typed store_cxt_typed user_store_typed : typed.
#[export] Hint Extern 3 (thread_typed _ _ (with_state _ _)) => apply with_state_typed; [auto|] : typed.

(** ** System calls *)

Section calls.
Context (kl : klayout) (alloc : Z → mstate → res (Z * mstate)) (free : Z → mstate → res mstate).
Context (cpio_ramfs : Z) (mbox_addr : Z) (answer : Z → list Z → list Z).
Abbreviation ktyped := (kernel_typed kl).

(** An operation on the kernel that preserves the invariant. *)
Definition keeps (f : kstate → res kstate) : Prop := ∀ k k', f k = Ok k' → ktyped k → ktyped k'.

Lemma on_ks_typed f s s' : on_ks f s = Ok s' → keeps f → ktyped (ks s) → ktyped (ks s').
Proof using. unfold on_ks. intros H Hf Hs. apply bind_Ok in H as (k & E & H). injection H as <-. by apply (Hf _ _ E). Qed.

Lemma s_alloc_typed n s p s' : s_alloc alloc n s = Ok (p, s') → ktyped (ks s) → ktyped (ks s').
Proof using. unfold s_alloc. intros H Hs. apply bind_Ok in H as ([q k] & E & H). injection H as _ <-. by apply (k_alloc_typed kl _ _ _ _ _ E). Qed.

Lemma s_curr_typed s t : s_curr s = Ok t → ktyped (ks s) → thread_typed kl (curr_thread (ks s)) t.
Proof using. unfold s_curr, curr, get_thread. intros H%load_Ok Hs. by apply Hs. Qed.

Lemma upd_curr_typed f s s' : upd_curr f s = Ok s' → (∀ p t, thread_typed kl p t → thread_typed kl p (f t)) → ktyped (ks s) → ktyped (ks s').
Proof using.
  unfold upd_curr. intros H Hf. apply (on_ks_typed _ _ _ H). intros k k' E. apply (upd_thread_typed _ _ _ _ _ E). apply Hf.
Qed.

Lemma set_x0_typed tf v s s' : set_x0 tf v s = Ok s' → ktyped (ks s) → ktyped (ks s').
Proof using. unfold set_x0, upd_tf. intros H Hs. by statements. Qed.
Lemma upd_tf_typed tf f s s' : upd_tf tf f s = Ok s' → ktyped (ks s) → ktyped (ks s').
Proof using. unfold upd_tf. intros H Hs. by statements. Qed.

Lemma reset_signals_typed p t : thread_typed kl p t → thread_typed kl p (reset_thread_signals kl t).
Proof using. intros Ht. by apply (reset_typed kl p (with_sigcheck 0 t)), (same_type_typed _ _ _ _). Qed.

Lemma traverse_typed fuel m name n : ∀ now s f s',
  cpio_traverse_from (s_alloc alloc) store_info fuel m name n None now s = Ok (f, s') → ktyped (ks s) → ktyped (ks s').
Proof using.
  induction fuel as [|fuel IH]; intros now s f s' H Hs; [done|]. cbn [cpio_traverse_from] in H. apply bind_Ok in H as (h & _ & H).
  destruct h; [by injection H as _ <-|by injection H as _ <-|]. apply bind_Ok in H as (len & _ & H). apply bind_Ok in H as (b & _ & H).
  destruct b; [|by apply (IH _ _ _ _ H)]. apply bind_Ok in H as ([q s1] & E & H). injection H as _ <-. by apply (s_alloc_typed _ _ _ _ E).
Qed.

Hint Extern 1 (keeps _) => intros ? ? ? ? : typed.
Hint Resolve on_ks_typed s_alloc_typed upd_curr_typed set_x0_typed upd_tf_typed reset_signals_typed : typed.

Lemma with_infos_typed m s : ktyped (ks s) → ktyped (ks (with_infos m s)).
Proof using. done. Qed.
Lemma with_ks_typed k s : ktyped k → ktyped (ks (with_ks k s)).
Proof using. done. Qed.
Lemma with_tfs_typed m s : ktyped (ks s) → ktyped (ks (with_tfs m s)).
Proof using. done. Qed.
Lemma s_lock_typed s : ktyped (ks s) → ktyped (ks (s_lock s)).
Proof using. done. Qed.
Lemma s_unlock_typed s : ktyped (ks s) → ktyped (ks (s_unlock s)).
Proof using. done. Qed.
Hint Resolve with_infos_typed with_ks_typed with_tfs_typed s_lock_typed s_unlock_typed : typed.

Ltac carry_s :=
  repeat match goal with
  | E : _ = Ok (_, ?s) |- _ => assert (ktyped (ks s)) by eauto 6 with typed; clear E
  | E : _ = Ok ?s |- _ => assert (ktyped (ks s)) by eauto 6 with typed; clear E
  end; eauto 6 with typed.

Lemma sys_exec_typed tf name s s' : sys_exec kl alloc free cpio_ramfs tf name s = Ok s' → ktyped (ks s) → ktyped (ks s').
Proof using.
  unfold sys_exec, cpio_traverse. intros H Hs. apply bind_Ok in H as ([f s1] & E & H). apply bind_Ok in E as (len & _ & E).
  apply (traverse_typed _ _ _ _ _ _ _ _ E) in Hs. clear E. destruct (found_ptr f =? 0); [by injection H as <-|].
  statements; carry_s.
Qed.

Lemma fork_return_typed tf pp n s s' : fork_return tf pp n s = Ok s' → ktyped (ks s) → ktyped (ks s').
Proof using. unfold fork_return. intros H Hs. statements; carry_s. Qed.
Hint Resolve fork_return_typed : typed.

Lemma fork_areas_typed c fuel h s x s' :
  list_for_each k_lm fuel h (λ pos k, k ← fork_area alloc c pos k; mret (Next pos k)) s = Ok (x, s') → ktyped s → ktyped s'.
Proof using.
  apply (list_for_each_keeps k_lm ktyped). intros p s2 f Hf Hs2. apply bind_Ok in Hf as (k & E & Hf). injection Hf as <-.
  by apply (fork_area_typed _ _ _ _ _ _ E).
Qed.

Lemma sys_fork_typed tf s s' : sys_fork kl alloc tf s = Ok s' → ktyped (ks s) → ktyped (ks s').
Proof using.
  unfold sys_fork. intros H Hs. apply bind_Ok in H as (t & Et & H). apply (s_curr_typed _ _) in Et as Ht; [|exact Hs].
  apply bind_Ok in H as ([n k] & E & H). apply (thread_create_typed kl alloc _ _ _ _ _ E) in Hs as Hs1. clear E Hs Et.
  apply bind_Ok in H as (s1 & E & H). apply (on_ks_typed _ _ _ E) in Hs1.
  2: { intros k1 k2 Hk Hk1. apply (upd_thread_typed _ _ _ _ _ Hk); [|done]. intros u. apply with_sig_handler_typed, Ht. }
  clear E. apply bind_Ok in H as (s2 & E & H). apply (on_ks_typed _ _ _ E) in Hs1.
  2: { intros k1 k2 Hk Hk1. apply bind_Ok in Hk as ([x k3] & Hk & Hk3). injection Hk3 as <-. by apply (fork_areas_typed _ _ _ _ _ _ Hk). }
  clear E. statements; carry_s.
Qed.

Lemma sys_kill_pid_typed p s s' : sys_kill_pid kl p s = Ok s' → ktyped (ks s) → ktyped (ks s').
Proof using. unfold sys_kill_pid. intros H Hs. apply bind_Ok in H as (b & _ & H). statements; carry_s. Qed.

Lemma sys_signal_typed n h s s' : sys_signal n h s = Ok s' → ktyped (ks s) → ktyped (ks s').
Proof using.
  unfold sys_signal. intros H Hs. destruct (SIG_MAX <=? n); [by injection H as <-|]. apply (upd_curr_typed _ _ _ H); [|done].
  intros q t Ht. apply with_sig_handler_typed; [|done]. rewrite length_insert. apply Ht.
Qed.

Lemma sys_kill_typed p n s s' : sys_kill kl p n s = Ok s' → ktyped (ks s) → ktyped (ks s').
Proof using.
  unfold sys_kill. intros H Hs. apply bind_Ok in H as (b & _ & H). destruct b; [by injection H as <-|].
  apply bind_Ok in H as (t & Et & H). apply load_Ok in Et. pose proof (Hs _ _ Et) as Ht.
  apply bind_Ok in H as (c & _ & H). apply bind_Ok in H as (s1 & E & H). injection H as <-.
  apply (on_ks_typed _ _ _ E); [|exact Hs]. intros k k' Ek Hk. apply (upd_thread_typed _ _ _ _ _ Ek); [|done]. intros u Hu.
  destruct (ty_counts _ _ _ (set_count_typed _ (Z.to_nat n) (c + 1) _ _ Ht)) as [H1 H2]. by apply with_sigcount_typed.
Qed.

Lemma sys_mmap_typed fuel tf : ∀ addr len prot s s', sys_mmap alloc fuel tf addr len prot s = Ok s' → ktyped (ks s) → ktyped (ks s').
Proof using.
  induction fuel as [|fuel IH]; intros addr len prot s s' H Hs; [done|]. cbn [sys_mmap] in H. apply bind_Ok in H as ([q k] & _ & H).
  destruct (negb _).
  - apply bind_Ok in H as (v & _ & H). by apply (IH _ _ _ _ _ H).
  - statements; carry_s.
Qed.

Lemma uart_loop_typed n buf (f : Z → sstate → res sstate) : (∀ i s s', f i s = Ok s' → ktyped (ks s) → ktyped (ks s')) →
  ∀ s s', for_loop n buf f s = Ok s' → ktyped (ks s) → ktyped (ks s').
Proof using. intros Hf s s' H. by apply (for_loop_keeps (λ s, ktyped (ks s)) f n buf s s' Hf H). Qed.

Lemma sys_mbox_call_typed ch mb s s' : sys_mbox_call mbox_addr answer ch mb s = Ok s' → ktyped (ks s) → ktyped (ks s').
Proof using.
  unfold sys_mbox_call. intros H Hs. apply bind_Ok in H as (l & _ & H). apply bind_Ok in H as (n & _ & H). apply bind_Ok in H as (u & _ & H).
  apply bind_Ok in H as (bs & _ & H). apply bind_Ok in H as ([r v] & _ & H). apply bind_Ok in H as (s1 & E & H). injection H as <-.
  apply s_unlock_typed, (on_ks_typed _ _ _ E); [|exact Hs]. intros k k' Hk. apply (for_loop_keeps ktyped _ _ _ _ _) with (2 := Hk).
  intros i k1 k2 H1 Hk1. apply bind_Ok in H1 as (c & _ & H1). by apply (user_store_typed _ _ _ _ _ H1).
Qed.

Lemma syscall_handler_typed fuel tf s s' :
  syscall_handler kl alloc free cpio_ramfs mbox_addr answer fuel tf s = Ok s' → ktyped (ks s) → ktyped (ks s').
Proof using.
  unfold syscall_handler. set (s0 := with_ks _ s). intros H Hs. assert (ktyped (ks s0)) as Hs0 by exact Hs. clearbody s0. clear Hs.
  apply bind_Ok in H as (f & _ & H). apply bind_Ok in H as (x8 & _ & H). apply bind_Ok in H as (x0 & _ & H).
  apply bind_Ok in H as (x1 & _ & H). apply bind_Ok in H as (x2 & _ & H). cbv zeta in H.
  destruct (ARRAY_SIZE _ <? _); [by injection H as <-|]. apply bind_Ok in H as (call & Hc & H).
  apply load_Ok, list_elem_of_lookup_2 in Hc. unfold syscall_table in Hc. rewrite !elem_of_cons in Hc.
  destruct Hc as [->|[->|[->|[->|[->|[->|[->|[->|[->|[->|[->|[->|[]%not_elem_of_nil]]]]]]]]]]]].
  - unfold sys_getpid in H. apply bind_Ok in H as (t & _ & H). by apply (set_x0_typed _ _ _ _ H).
  - apply bind_Ok in H as (s1 & E & H). apply (set_x0_typed _ _ _ _ H), (uart_loop_typed _ _ _) with (2 := E); [|done].
    intros i s2 s3 H1 Hs2. apply bind_Ok in H1 as ([c u] & _ & H1). apply bind_Ok in H1 as (k & Ek & H1). injection H1 as <-.
    by apply (user_store_typed _ _ _ _ _ Ek).
  - apply bind_Ok in H as (s1 & E & H). apply (set_x0_typed _ _ _ _ H), (uart_loop_typed _ _ _) with (2 := E); [|done].
    intros i s2 s3 H1 Hs2. apply bind_Ok in H1 as (c & _ & H1). by injection H1 as <-.
  - by apply (sys_exec_typed _ _ _ _ H).
  - by apply (sys_fork_typed _ _ _ H).
  - apply (on_ks_typed _ _ _ H); [|done]. intros k k'. apply thread_exit_typed.
  - by apply (sys_mbox_call_typed _ _ _ _ H).
  - by apply (sys_kill_pid_typed _ _ _ H).
  - by apply (sys_signal_typed _ _ _ _ H).
  - by apply (sys_kill_typed _ _ _ _ H).
  - by apply (sys_mmap_typed _ _ _ _ _ _ _ H).
  - unfold sys_sigret in H. apply bind_Ok in H as (t & _ & H). by injection H as <-.
Qed.

(** ** Signals *)

Definition out_typed (o : sig_out) : Prop := match o with Finished s | Handler _ _ s | Gone s => ktyped (ks s) end.

Lemma run_sig_typed tf n s o : run_sig kl tf n s = Ok o → ktyped (ks s) → out_typed o.
Proof using.
  unfold run_sig, default_sig_handler. intros H Hs. apply bind_Ok in H as (t & _ & H). apply bind_Ok in H as (h & _ & H).
  apply bind_Ok in H as (s1 & E & H). apply (upd_curr_typed _ _ _ E) in Hs; [|eauto with typed]. destruct (h =? _).
  - apply bind_Ok in H as (s2 & E2 & H). apply bind_Ok in E2 as (u & _ & E2). apply (sys_kill_pid_typed _ _ _ E2) in Hs.
    injection H as <-. by destruct (curr_thread _ =? _).
  - apply bind_Ok in H as (f & _ & H). by injection H as <-.
Qed.

Lemma sig_test_typed tf i s o : sig_test kl tf i s = Ok o → ktyped (ks s) → out_typed o.
Proof using.
  unfold sig_test. intros H Hs. apply bind_Ok in H as (t & _ & H). apply bind_Ok in H as (c & _ & H).
  destruct (0 <? c); [|by injection H as <-]. apply bind_Ok in H as (s1 & E & H). apply (run_sig_typed _ _ _ _ H), s_unlock_typed.
  apply (upd_curr_typed _ _ _ E); [|exact Hs]. intros p u. apply set_count_typed.
Qed.

Lemma sig_turns_typed tf n : ∀ i s o, sig_turns kl n tf i s = Ok o → ktyped (ks s) → out_typed o.
Proof using.
  induction n as [|n IH]; intros i s o H Hs; cbn [sig_turns] in H.
  - apply bind_Ok in H as (s1 & E & H). injection H as <-. apply s_unlock_typed, (upd_curr_typed _ _ _ E); [eauto with typed|exact Hs].
  - apply bind_Ok in H as (s1 & E & H). apply (upd_curr_typed _ _ _ E) in Hs; [|eauto with typed].
    apply bind_Ok in H as (o1 & E1 & H). apply (sig_test_typed _ _ _ _ E1) in Hs. destruct o1; [by apply (IH _ _ _ H)|by injection H as <-..].
Qed.

Lemma check_sig_typed tf s o : check_sig kl tf s = Ok o → ktyped (ks s) → out_typed o.
Proof using.
  unfold check_sig. intros H Hs. apply bind_Ok in H as (t & _ & H). destruct (negb _); [by injection H as <-|].
  apply bind_Ok in H as (s1 & E & H). apply (sig_turns_typed _ _ _ _ _ H), s_unlock_typed, (upd_curr_typed _ _ _ E); [eauto with typed|exact Hs].
Qed.

Lemma sig_resume_typed tf i s o : sig_resume kl tf i s = Ok o → ktyped (ks s) → out_typed o.
Proof using.
  unfold sig_resume, sys_sigret. intros H Hs. apply bind_Ok in H as (s1 & E & H). apply bind_Ok in E as (t & _ & E). injection E as <-.
  apply bind_Ok in H as (o1 & E1 & H). apply (sig_test_typed _ _ _ _ E1) in Hs. destruct o1; [by apply (sig_turns_typed _ _ _ _ _ H)|by injection H as <-..].
Qed.

(** ** The kernel as a whole *)

Definition out_state (o : sig_out) : sstate := match o with Finished s | Handler _ _ s | Gone s => s end.

(** One entry into the kernel: a system call, a fault, a turn of the idle thread,
    a switch by the timer, the start of a program, a check for signals and the
    return of a handler; or user mode, which cannot write to the threads. *)
Inductive kernel_step : sstate → sstate → Prop :=
| step_syscall fuel tf s s' : syscall_handler kl alloc free cpio_ramfs mbox_addr answer fuel tf s = Ok s' → kernel_step s s'
| step_abort far iss s s' : on_ks (handle_abort alloc far iss) s = Ok s' → kernel_step s s'
| step_idle s s' : on_ks (idle_turn free) s = Ok s' → kernel_step s s'
| step_schedule s s' : on_ks schedule s = Ok s' → kernel_step s s'
| step_exec garbage d n r s k : exec_thread kl alloc garbage d n (ks s) = Ok (r, k) → kernel_step s (with_ks k s)
| step_signals tf s o : check_sig kl tf s = Ok o → kernel_step s (out_state o)
| step_return tf i s o : sig_resume kl tf i s = Ok o → kernel_step s (out_state o)
| step_user s s' : threads (ks s') = threads (ks s) → kernel_step s s'.

(** C22: whatever sequence of entries the kernel goes through, its table of threads
    keeps its type: every entry sits at the place of its pid, is running, a zombie
    or unused, and has 32 handlers and 32 counters that are [int]s. *)
Theorem threads_typed s s' : ktyped (ks s) → rtc kernel_step s s' → ktyped (ks s').
Proof using.
  intros Hs H. induction H as [s|s s1 s2 H _ IH]; [done|]. apply IH. clear IH.
  destruct H as [fuel tf s s' H|far iss s s' H|s s' H|s s' H|garbage d n r s k H|tf s o H|tf i s o H|s s' H].
  - by apply (syscall_handler_typed _ _ _ _ H).
  - apply (on_ks_typed _ _ _ H); [|done]. intros k k'. apply handle_abort_typed.
  - apply (on_ks_typed _ _ _ H); [|done]. intros k k'. apply idle_turn_typed.
  - apply (on_ks_typed _ _ _ H); [|done]. intros k k'. apply schedule_typed.
  - by apply (exec_thread_typed _ _ _ _ _ _ _ _ H).
  - apply (check_sig_typed _ _ _ H) in Hs. by destruct o.
  - apply (sig_resume_typed _ _ _ _ H) in Hs. by destruct o.
  - by apply (typed_same _ _ _ H).
Qed.

(** The array as the program is loaded: 32 handlers and counters in each entry. *)
Definition blank (s : kstate) : Prop := map_Forall (λ p t, ∃ i, 0 ≤ i ≤ PID_MAX ∧ p = thread_at kl i ∧
  length (sig_handler t) = 32%nat ∧ length (sigcount t) = 32%nat ∧ Forall (λ c, - 2 ^ 31 ≤ c < 2 ^ 31) (sigcount t)) (threads s).

Lemma thread_at_inj i j : thread_at kl i = thread_at kl j → i = j.
Proof using. unfold thread_at, sizeof_thread. lia. Qed.

(** [init_threads] gives every entry its type. *)
Lemma init_threads_typed s s' : init_threads kl alloc s = Ok s' → blank s → ktyped s'.
Proof using.
  unfold init_threads. intros H Hs. apply bind_Ok in H as ([p s1] & E & H). assert (blank s1) as Hs1.
  { unfold k_alloc in E. apply bind_Ok in E as ([q h] & _ & E). by injection E as _ <-. }
  clear E Hs. apply bind_Ok in H as (s2 & E & H).
  assert (ktyped s2) as Hs2.
  { set (P := λ i s, blank s ∧ ∀ j t, 0 ≤ j < i → threads s !! thread_at kl j = Some t → pid t = j ∧ state t = THREAD_UNUSED).
    apply (for_loop_after P) in E.
    - destruct E as [Hb Hi]. intros q t Hq. destruct (Hb q t Hq) as (i & Hi1 & -> & H1 & H2 & H3).
      destruct (Hi i t) as [E1 E2]; [change (Z.of_nat (Z.to_nat (PID_MAX + 1))) with (PID_MAX + 1); lia|done|].
      split; [by rewrite E1|auto|done|done].
    - clear. intros j s s' E [Hb Hi]. unfold upd_thread, get_thread in E. statements.
      apply load_Ok in E, E1. cbn in E1. rewrite lookup_insert_eq in E1. injection E1 as <-.
      destruct (Hb _ _ E) as (i & Hi1 & Ei & H1). apply thread_at_inj in Ei as <-. split.
      + intros q t. cbn. rewrite insert_insert_eq, lookup_insert_Some. intros [[<- <-]|[_ Hq]]; [|by apply Hb]. by exists j.
      + intros k t Hk. cbn. rewrite insert_insert_eq, lookup_insert_Some. intros [[Hkj%thread_at_inj <-]|[Hne Hq]]; [by subst k|].
        apply Hi; [|done]. assert (k ≠ j) by congruence. lia.
    - split; [exact Hs1|]. intros j t Hj. lia. }
  apply bind_Ok in H as ([q s3] & E3 & H). injection H as <-. by apply (thread_create_typed _ _ _ _ _ _ _ E3).
Qed.
End calls.

(** ** Witness *)

(** Thread 0 of three sends signal 9 to thread 2. *)
Definition kill_frame : trapframe := Tf (<[8%nat := 9]> (<[0%nat := 2]> (<[1%nat := 9]> (repeat 0 31)))) 0 0x100 0xfffffffff000.

Lemma three_typed : kernel_typed kl_small three_threads.
Proof.
  intros p t Ht. unfold three_threads in Ht. cbn [threads] in Ht.
  assert (p = thread_at kl_small 0 ∧ t = thread_ex 0 THREAD_RUNNING ∨ p = thread_at kl_small 1 ∧ t = thread_ex 1 THREAD_RUNNING ∨
    p = thread_at kl_small 2 ∧ t = thread_ex 2 THREAD_RUNNING) as H.
  { rewrite !lookup_insert_Some, lookup_singleton_Some in Ht. naive_solver. }
  assert (Forall (λ c, - 2 ^ 31 ≤ c < 2 ^ 31) (repeat 0 32)) as Hc.
  { apply Forall_forall. intros c Hc%list_elem_of_In%repeat_spec. lia. }
  destruct H as [[-> ->]|[[-> ->]|[-> ->]]]; (split; [split; [reflexivity|split; discriminate]|by left|reflexivity|by split]).
Qed.

Lemma threads_typed_witness : ∃ s', syscall_handler kl_small (λ _ _, Fault) (λ _ _, Fault) 0 0 (λ _ l, l) 1 0x5000 (sys_of three_threads 0x5000 kill_frame) = Ok s' ∧
  kernel_typed kl_small (ks s').
Proof.
  assert (∃ s', syscall_handler kl_small (λ _ _, Fault) (λ _ _, Fault) 0 0 (λ _ l, l) 1 0x5000 (sys_of three_threads 0x5000 kill_frame) = Ok s') as [s' E].
  { eexists. vm_compute. reflexivity. }
  exists s'. split; [exact E|].
  apply (threads_typed kl_small (λ _ _, Fault) (λ _ _, Fault) 0 0 (λ _ l, l) (sys_of three_threads 0x5000 kill_frame)); [exact three_typed|].
  apply rtc_once. eapply step_syscall. exact E.
Defined.
