(* ===== verification/Except.v ===== *)
(** lib/except.c: the handlers of the exception vectors, and what ties the timer,
    the UART, the queue of interrupt work, the scheduler and the signals
    together. *)
From S2P Require Import Prelude Util ListHead Lock Mem CString Malloc Heap Mmu Cpio Uart Mmio Alloc Ordered Event Timer Thread Sched RunQueue Syscall Signal Kill.
Local Open Scope Z_scope.

Definition newline : string := String (Ascii.ascii_of_nat 10) EmptyString.

(** ** The callbacks of timer.c that print *)

Definition timer_message : string := String.append "is timer interrput, current time: %ds" newline.
(** Both callbacks have the same body. *)
Definition timer_alert_callback (args : Z) (s : tstate) : res (list Z) :=
  _ ← require (negb (cntfrq_el0 (hw s) =? 0));
  o1 ← uart_printf 200 (lit timer_message) [VInt (s32 (cntpct_el0 (hw s) / cntfrq_el0 (hw s)))];
  o2 ← uart_printf (3 + mem_fuel (bytes s)) (lit (String.append "%s" newline)) [VStr (at_mem (bytes s) args)];
  mret (o1 ++ o2).
Definition two_sec_callback (args : Z) (s : tstate) : res (list Z) := timer_alert_callback args s.

(** ** Exceptions nobody expects *)

(** [switch (type % 4)] *)
Definition type_text (type : Z) : string :=
  if type mod 4 =? 0 then "Synchronous %d: " else if type mod 4 =? 1 then "IRQ %d: "
  else if type mod 4 =? 2 then "FIQ %d: " else "SError %d: ".
(** [switch (esr >> 26)] *)
Definition class_text (c : Z) : string :=
  if c =? 0x00 then "Unknown" else if c =? 0x01 then "Trapped WFI/WFE" else if c =? 0x0e then "Illegal execution"
  else if c =? 0x15 then "System call" else if c =? 0x20 then "Instruction abort, lower EL"
  else if c =? 0x21 then "Instruction abort, same EL" else if c =? 0x22 then "Instruction alignment fault"
  else if c =? 0x24 then "Data abort, lower EL" else if c =? 0x25 then "Data abort, same EL"
  else if c =? 0x26 then "Stack alignment fault" else if c =? 0x2c then "Floating point" else "Unknown".
(** [switch ((esr >> 2) & 0x3)] and [switch (esr & 0x3)] *)
Definition cause_text (c : Z) : string :=
  if c =? 0 then "Address size fault" else if c =? 1 then "Translation fault" else if c =? 2 then "Access flag fault" else "Permission fault".
Definition level_text (l : Z) : string :=
  if l =? 0 then " at level 0" else if l =? 1 then " at level 1" else if l =? 2 then " at level 2" else " at level 3".

Definition puts (s : string) : res (list Z) := uart_puts (S (String.length s)) (lit s).

(** What [inv_handler] prints before it loops for ever. *)
Definition inv_handler (type esr elr spsr far : Z) : res (list Z) :=
  o1 ← uart_printf 50 (lit (String.append (type_text type) newline)) [VInt (s32 type)];
  o2 ← puts ": ";
  o3 ← puts (class_text (Z.shiftr esr 26));
  o4 ← (if (Z.shiftr esr 26 =? 0x24) || (Z.shiftr esr 26 =? 0x25) then
          a ← puts ", "; b ← puts (cause_text (Z.land (Z.shiftr esr 2) 3)); c ← puts (level_text (Z.land esr 3)); mret (a ++ b ++ c)
        else mret []);
  o5 ← puts (String.append ":" (String.append newline "  ESR_EL1 "));
  o6 ← uart_putX esr;
  o7 ← puts " ELR_EL1 ";
  o8 ← uart_putX elr;
  o9 ← puts (String.append newline " SPSR_EL1 ");
  o10 ← uart_putX spsr;
  o11 ← puts " FAR_EL1 ";
  o12 ← uart_putX far;
  o13 ← puts newline;
  mret (o1 ++ o2 ++ o3 ++ o4 ++ o5 ++ o6 ++ o7 ++ o8 ++ o9 ++ o10 ++ o11 ++ o12 ++ o13).

(** ** The handlers *)

Definition DATA_ABORT_LOWER : Z := 0x24.
Definition INS_ABORT_LOWER : Z := 0x20.
(** The fields of [esr_el1_t]. *)
Definition esr_iss (esr : Z) : Z := Z.land esr (Z.ones 25).
Definition esr_ec (esr : Z) : Z := Z.land (Z.shiftr esr 26) 0x3f.

(** The globals of event.c without the heap, which is the kernel's. *)
Record evq := Evq { ev_head : Z; ev_priority : Z; ev_events : gmap Z irq_event }.
(** The addresses of the functions that become events or callbacks. *)
Record handlers := Handlers { timer_handler_addr : Z; uart_w_addr : Z; uart_r_addr : Z; two_sec_addr : Z; timer_alert_addr : Z }.
(** What the device registers read: CNTP_CTL_EL0, CORE0_INTERRUPT_SOURCE (twice),
    IRQ_PENDING_1 and AUX_MU_IIR (twice). *)
Record irq_sources := Sources { src_ctl : Z; src_core_timer : Z; src_pending : Z; src_core_gpu : Z; src_iir_w : Z; src_iir_r : Z }.
Definition IRQ_PENDING_1_AUX_INT : Z := Z.shiftl 1 29.
Definition INTERRUPT_SOURCE_GPU : Z := Z.shiftl 1 8.
Definition INTERRUPT_SOURCE_PNSIRQ : Z := Z.shiftl 1 1.

Section handlers.
Context (kl : klayout) (hs : handlers) (alloc : Z → mstate → res (Z * mstate)) (free : Z → mstate → res mstate).
Context (cpio_ramfs : Z) (mbox_addr : Z) (answer : Z → list Z → list Z) (garbage : Z → Z).

Definition sync_el0_handler (fuel : nat) (far_el1 tf esr : Z) (s : sstate) : res sstate :=
  if (esr_ec esr =? DATA_ABORT_LOWER) || (esr_ec esr =? INS_ABORT_LOWER) then on_ks (handle_abort alloc far_el1 (esr_iss esr)) s
  else syscall_handler kl alloc free cpio_ramfs mbox_addr answer fuel tf s.

(** The call of a timer callback; the text of the printing ones is dropped. *)
Definition timer_callback (f a : Z) (t : tstate) : res tstate :=
  if f =? schedule_timer_task_addr kl then
    add_timer_task alloc garbage TIMER_BY_TICK (Z.shiftr (cntfrq_el0 (hw t)) 5) (schedule_timer_task_addr kl) (empty_string_addr kl) t
  else if (f =? two_sec_addr hs) || (f =? timer_alert_addr hs) then _ ← timer_alert_callback a t; mret t
  else Fault.

(** The queue on the kernel's heap, and back. *)
Definition ev_open (q : evq) (s : sstate) : estate := EState (k_heap (ks s)) (ev_head q) (ev_priority q) (ev_events q).
Definition ev_close (e : estate) : evq := Evq (irq_event_head e) (curr_priority e) (events e).
Definition ev_kernel (e : estate) (s : sstate) : sstate := with_ks (with_k_heap (Event.heap e) (ks s)) s.

(** The call of the function of an event. *)
Definition event_call (f : Z) (x : estate * sstate) : res (estate * sstate) :=
  let '(e, s) := x in
  let s := ev_kernel e s in
  if f =? timer_handler_addr hs then
    t ← timer_handler timer_callback (tm (ks s));
    let s := with_ks (with_tm t (ks s)) s in mret (ev_open (ev_close e) s, s)
  else if f =? uart_w_addr hs then u ← uart_interrupt_w_handler (ser s); mret (e, with_ser u s)
  else if f =? uart_r_addr hs then u ← uart_interrupt_r_handler (ser s); mret (e, with_ser u s)
  else Fault.

(** [add_irq_event(f, prio); run_irq_event();] *)
Definition deferred (fuel : nat) (f prio : Z) (x : evq * sstate) : res (evq * sstate) :=
  let '(q, s) := x in
  e ← add_irq_event alloc f prio (ev_open q s);
  '(e, s) ← run_irq_event event_call fuel (e, s);
  mret (ev_close e, ev_kernel e s).

Definition on_hw (f : timer_hw → timer_hw) (s : sstate) : sstate := with_ks (with_tm (with_hw (f (hw (tm (ks s)))) (tm (ks s))) (ks s)) s.

Definition irq_timer (fuel : nat) (x : evq * sstate) : res (evq * sstate) :=
  let '(q, s) := x in
  '(q, s) ← deferred fuel (timer_handler_addr hs) 0 (q, on_hw timer_disable s);
  mret (q, on_hw timer_enable s).

Definition irq_uart (fuel : nat) (src : irq_sources) (x : evq * sstate) : res (evq * sstate) :=
  if negb (Z.land (src_pending src) IRQ_PENDING_1_AUX_INT =? 0) && negb (Z.land (src_core_gpu src) INTERRUPT_SOURCE_GPU =? 0) then
    '(q, s) ← (if negb (Z.land (src_iir_w src) 2 =? 0)
               then deferred fuel (uart_w_addr hs) 1 (x.1, with_ser (disable_uart_w_interrupt (ser x.2)) x.2) else mret x);
    if negb (Z.land (src_iir_r src) 4 =? 0)
    then deferred fuel (uart_r_addr hs) 1 (q, with_ser (disable_uart_r_interrupt (ser s)) s) else mret (q, s)
  else mret x.

(** How [irq_handler] ends for the interrupted thread: it goes on to its return and
    the signals, or another thread runs until it is scheduled again and goes on
    with [irq_rest]. *)
Inductive irq_out : Type :=
| Returned (o : sig_out) (q : evq)
| Switched (q : evq) (s : sstate).

(** The handler from the UART on. *)
Definition irq_rest (fuel : nat) (src : irq_sources) (tf : Z) (x : evq * sstate) : res irq_out :=
  '(q, s) ← irq_uart fuel src x;
  f ← get_tf tf s;
  o ← (if Z.land (spsr_el1 f) 0xc =? 0 then check_sig kl tf s else mret (Finished s));
  mret (Returned o q).

Definition irq_handler (fuel : nat) (src : irq_sources) (tf : Z) (x : evq * sstate) : res irq_out :=
  if negb (Z.land (src_ctl src) 4 =? 0) && negb (Z.land (src_core_timer src) INTERRUPT_SOURCE_PNSIRQ =? 0) then
    '(q, s) ← irq_timer fuel x;
    p ← get_next (k_lm (ks s)) (rq (ks s));
    p ← get_next (k_lm (ks s)) p;
    if negb (p =? rq (ks s)) then
      s' ← on_ks schedule s;
      if curr_thread (ks s') =? curr_thread (ks s) then irq_rest fuel src tf (q, s') else mret (Switched q s')
    else irq_rest fuel src tf (q, s)
  else irq_rest fuel src tf x.
End handlers.

(** ** Exceptions from user mode *)

(** any exception from user mode but an abort is taken for a system call, whatever
    its class; when x8 is not the number of one, the handler changes nothing but
    the interrupt mask, and the thread goes back to the instruction that caused
    the exception. *)
Theorem sync_unknown_ignored kl alloc free cpio_ramfs mbox_addr answer fuel far tf esr s f x8 :
  esr_ec esr ≠ DATA_ABORT_LOWER → esr_ec esr ≠ INS_ABORT_LOWER →
  get_tf tf s = Ok f → length (tf_x f) = 31%nat → tf_x f !! 8%nat = Some x8 → s32 x8 < 0 ∨ ARRAY_SIZE (syscall_table kl alloc free cpio_ramfs mbox_addr answer fuel) < s32 x8 →
  ∃ s', sync_el0_handler kl alloc free cpio_ramfs mbox_addr answer fuel far tf esr s = Ok s' ∧ get_tf tf s' = Ok f ∧
    threads (ks s') = threads (ks s) ∧ curr_thread (ks s') = curr_thread (ks s).
Proof.
  intros H1 H2 Hf Hl H8 Hn. exists (interrupts_on s). split; [|done]. unfold sync_el0_handler.
  rewrite (proj2 (Z.eqb_neq _ _) H1), (proj2 (Z.eqb_neq _ _) H2). cbn [orb]. by apply (syscall_test _ _ _ _ _ _ fuel tf s f x8).
Qed.

(** ** Interrupts *)

(** The UART is what asks for the interrupt. *)
Definition uart_source (src : irq_sources) : Prop :=
  Z.land (src_pending src) IRQ_PENDING_1_AUX_INT ≠ 0 ∧ Z.land (src_core_gpu src) INTERRUPT_SOURCE_GPU ≠ 0.

Section interrupts.
Context `{SA : SmallAlloc alloc}.

(** The dispatcher on a queue with one event. *)
Lemma run_one_event {W} (call : Z → estate * W → res (estate * W)) s L g p e w :
  event_inv s L g [(p, e)] → priority e < curr_priority s → 0 ≤ curr_priority s < 2 ^ 31 → lk (Event.heap s) = unlock (lock (lk (Event.heap s))) →
  ∃ s1 L1, event_inv s1 L1 g [] ∧ agree_on (λ h, h ≠ irq_event_head s) L L1 ∧ irq_event_head s1 = irq_event_head s ∧
    lk (Event.heap s1) = lk (Event.heap s) ∧
    ∀ s2 L2 g2 w', call (Event.func e) (s1, w) = Ok (s2, w') → event_inv s2 L2 g2 [] →
      run_irq_event call 2 (s, w) = Ok (with_curr_priority (curr_priority s) s2, w') ∧
      event_inv (with_curr_priority (curr_priority s) s2) L2 g2 [].
Proof using SA.
  intros HE Hp Hc Hlk. pose proof HE as [HI Hh Hr Hm Ho Hw].
  pose proof (list_empty_ok _ _ _ _ (sa_lists _ _ _ HI) Hr) as Ee.
  pose proof (get_next_ok _ _ _ [] _ (sa_lists _ _ _ HI) Hr) as En. simpl in En.
  destruct (list_del_entry_ok (lm (Event.heap s)) L (irq_event_head s) [] p [] (sa_lists _ _ _ HI) Hr) as (m & Ed & Hok & _).
  set (s1 := event_unlock (with_curr_priority (priority e) (with_event_lm m (event_lock s)))).
  exists s1, (<[irq_event_head s := []]> L).
  assert (event_inv s1 (<[irq_event_head s := []]> L) g []) as HE1.
  { split; simpl; [|done|by rewrite lookup_insert_eq|by intros ?? ?%not_elem_of_nil|constructor|by rewrite <- Hlk].
    apply sa_lock, (sa_insert_ring (with_lk (lock (lk (Event.heap s))) (Event.heap s)) L); [by apply sa_lock|done|done|].
    intros x Hx. left. apply (node_elem L _ _ x Hr). set_solver. }
  split; [exact HE1|]. split; [intros h Hne; by rewrite lookup_insert_ne|]. split; [done|].
  split; [by rewrite Hlk|]. intros s2 L2 g2 w' Ec [I2 A2 R2 M2 O2 K2].
  assert (with_curr_priority (u64 (s32 (curr_priority s))) s2 = with_curr_priority (curr_priority s) s2) as Ep
    by (autorewrite with words; done).
  split; [|by split]. cbn [run_irq_event]. unfold event_lm. res_step Ee. simpl. res_step En. rewrite (Hm p e) by set_solver. simpl.
  rewrite (proj2 (Z.leb_gt _ _)) by done. unfold event_lm. simpl. res_step Ed. fold s1. rewrite Ec. cbn [mbind res_bind].
  rewrite Ep. pose proof (list_empty_ok _ _ _ _ (sa_lists _ _ _ I2) R2) as Ee2. unfold event_lm.
  cbn [with_curr_priority Event.heap irq_event_head]. res_step Ee2. done.
Qed.

(** [add_irq_event(f, prio); run_irq_event();] with an empty queue. *)
Lemma deferred_ok kl hs garbage q s L g f prio :
  event_inv (ev_open q s) L g [] → sa_room L g sizeof_irq_event → prio < ev_priority q → 0 ≤ ev_priority q < 2 ^ 31 →
  ∃ e1 L1 g1, event_inv e1 L1 g1 [] ∧ agree_on (λ h, ¬ sa_private h ∧ h ≠ ev_head q) L L1 ∧ irq_event_head e1 = ev_head q ∧
    lk (Event.heap e1) = unlock (lock (lk (k_heap (ks s)))) ∧ (∀ k, sa_budget g (S k) → sa_budget g1 k) ∧
    ∀ e2 L2 g2 s', event_call kl hs alloc garbage f (e1, s) = Ok (e2, s') → event_inv e2 L2 g2 [] →
      let e3 := with_curr_priority (ev_priority q) e2 in
      deferred kl hs alloc garbage 2 f prio (q, s) = Ok (ev_close e3, ev_kernel e3 s') ∧
      event_inv (ev_open (ev_close e3) (ev_kernel e3 s')) L2 g2 [].
Proof using SA.
  intros HE Hroom Hp Hq.
  destruct (add_irq_event_inv _ L g [] f prio HE Hroom) as (p & s1 & L1 & g1 & E1 & HE1 & Hh1 & Hc1 & Hk1 & Ha1 & _ & _ & Hbud).
  cbn [enqueue] in HE1. cbn [ev_open curr_priority irq_event_head Event.heap] in *.
  destruct (run_one_event (event_call kl hs alloc garbage) s1 L1 g1 p (IrqEvent f prio) s HE1) as (e1 & L2 & HE2 & Ha2 & Hh2 & Hk2 & Hrun).
  { by rewrite Hc1. }
  { by rewrite Hc1. }
  { rewrite Hk1. symmetry. apply unlock_lock_idem, (ev_lock _ _ _ _ HE). }
  exists e1, L2, g1. split; [exact HE2|]. split; [|split; [congruence|split; [by rewrite Hk2|split; [done|]]]].
  { intros h [H1 H2]. rewrite Ha2 by congruence. apply Ha1. by split. }
  intros e2 L3 g3 s' Ec HE3. cbn [Event.func priority] in Hrun. destruct (Hrun e2 L3 g3 s' Ec HE3) as [Er HE4]. rewrite Hc1 in Er, HE4. split.
  - unfold deferred. rewrite E1. cbn [mbind res_bind]. rewrite Er. reflexivity.
  - unfold ev_open, ev_close, ev_kernel. cbn. by destruct HE4.
Qed.

(** The same with a handler of the UART. *)
Lemma deferred_uart kl hs garbage q s L g f prio u k :
  event_inv (ev_open q s) L g [] → sa_budget g (S k) → prio < ev_priority q → 0 ≤ ev_priority q < 2 ^ 31 →
  (∀ e s1, ser s1 = ser s → event_call kl hs alloc garbage f (e, s1) = Ok (e, with_ser u (ev_kernel e s1))) →
  ∃ q' s' L' g', deferred kl hs alloc garbage 2 f prio (q, s) = Ok (q', s') ∧ event_inv (ev_open q' s') L' g' [] ∧ sa_budget g' k ∧
    ev_priority q' = ev_priority q ∧ ser s' = u ∧
    threads (ks s') = threads (ks s) ∧ hw (tm (ks s')) = hw (tm (ks s)) ∧ tfs s' = tfs s.
Proof using SA.
  intros HE HB Hp Hq Hcall. assert (sa_room L g sizeof_irq_event) as Hroom by (apply (sa_budget_room _ _ _ k); [unfold sizeof_irq_event; lia|done]).
  destruct (deferred_ok kl hs garbage q s L g f prio HE Hroom Hp Hq) as (e1 & L1 & g1 & HE1 & _ & _ & _ & HB1 & H).
  destruct (H e1 L1 g1 _ (Hcall e1 s eq_refl) HE1) as [E HE2]. eexists _, _, L1, g1. split; [exact E|]. split; [exact HE2|]. by split; [apply HB1|].
Qed.

(** The UART's part of the handler. *)
Lemma irq_uart_run kl hs garbage src q s L g :
  event_inv (ev_open q s) L g [] → sa_budget g 2 → ev_priority q = initial_priority → uart_inv (ser s) → uart_source src →
  uart_w_addr hs ≠ timer_handler_addr hs ∧ uart_r_addr hs ≠ timer_handler_addr hs ∧ uart_r_addr hs ≠ uart_w_addr hs →
  (Z.land (src_iir_r src) 4 ≠ 0 → rx (ser s) ≠ []) →
  ∃ q' s' L' g' u, irq_uart kl hs alloc garbage 2 src (q, s) = Ok (q', s') ∧ event_inv (ev_open q' s') L' g' [] ∧ ev_priority q' = initial_priority ∧
    (if Z.land (src_iir_w src) 2 =? 0 then u = ser s else w_served (ser s) u) ∧
    (if Z.land (src_iir_r src) 4 =? 0 then ser s' = u else r_served u (ser s')) ∧
    threads (ks s') = threads (ks s) ∧ hw (tm (ks s')) = hw (tm (ks s)) ∧ tfs s' = tfs s.
Proof using SA.
  intros HE HB Hpr Hu [Hs1 Hs2] (Ha1 & Ha2 & Ha3) Hr. unfold irq_uart. rewrite (proj2 (Z.eqb_neq _ _) Hs1), (proj2 (Z.eqb_neq _ _) Hs2). cbn [negb andb fst snd].
  assert (0 ≤ ev_priority q < 2 ^ 31 ∧ 1 < ev_priority q) as [Hq1 Hq2] by (rewrite Hpr; unfold initial_priority; lia).
  assert (∃ q1 s1 L1 g1, (if negb (Z.land (src_iir_w src) 2 =? 0)
      then deferred kl hs alloc garbage 2 (uart_w_addr hs) 1 (q, with_ser (disable_uart_w_interrupt (ser s)) s) else mret (q, s)) = Ok (q1, s1) ∧
      event_inv (ev_open q1 s1) L1 g1 [] ∧ sa_budget g1 1 ∧ ev_priority q1 = ev_priority q ∧ uart_inv (ser s1) ∧ rx (ser s1) = rx (ser s) ∧
      (if Z.land (src_iir_w src) 2 =? 0 then ser s1 = ser s else w_served (ser s) (ser s1)) ∧
      threads (ks s1) = threads (ks s) ∧ hw (tm (ks s1)) = hw (tm (ks s)) ∧ tfs s1 = tfs s) as
    (q1 & s1 & L1 & g1 & E1 & HE1 & HB1 & Hp1 & Hu1 & Hrx & Hw & Hth1 & Hhw1 & Htf1).
  { destruct (Z.eqb_spec (Z.land (src_iir_w src) 2) 0) as [Hw|Hw]; cbn [negb].
    - exists q, s, L, g. assert (sa_budget g 1) as HB1 by (by apply sa_budget_less). done.
    - destruct (w_handler_served (ser s) Hu) as (u & Eu & Hsv).
      destruct (deferred_uart kl hs garbage q (with_ser (disable_uart_w_interrupt (ser s)) s) L g (uart_w_addr hs) 1 u 1 HE HB Hq2 Hq1) as
        (q' & s' & L' & g' & E & HE' & HB' & Hp' & Hser & H).
      { intros e s1 Es. unfold event_call. rewrite (proj2 (Z.eqb_neq _ _) Ha1), Z.eqb_refl. change (ser (ev_kernel e s1)) with (ser s1). rewrite Es. cbn [with_ser ser]. by rewrite Eu. }
      exists q', s', L', g'. rewrite Hser. pose proof Hsv as (I & _ & _ & [= _ Erx] & _). done. }
  rewrite E1. cbn [mbind res_bind]. destruct (Z.eqb_spec (Z.land (src_iir_r src) 4) 0) as [Hrb|Hrb]; cbn [negb].
  - exists q1, s1, L1, g1, (ser s1). split; [done|]. split; [done|]. split; [congruence|]. done.
  - destruct (r_handler_served (ser s1) Hu1) as (u & Eu & Hsv); [rewrite Hrx; by apply Hr|].
    destruct (deferred_uart kl hs garbage q1 (with_ser (disable_uart_r_interrupt (ser s1)) s1) L1 g1 (uart_r_addr hs) 1 u 0 HE1 HB1) as
      (q' & s' & L' & g' & E & HE' & _ & Hp' & Hser & Hth & Hhw & Htf); [lia|lia| |].
    { intros e s2 Es. unfold event_call. rewrite (proj2 (Z.eqb_neq _ _) Ha2), (proj2 (Z.eqb_neq _ _) Ha3), Z.eqb_refl.
      change (ser (ev_kernel e s2)) with (ser s2). rewrite Es. cbn [with_ser ser]. by rewrite Eu. }
    exists q', s', L', g', (ser s1). split; [done|]. split; [done|]. split; [congruence|]. rewrite Hser. split; [done|]. split; [done|].
    cbn [with_ser ks tfs] in *. split; [congruence|]. split; congruence.
Qed.

End interrupts.

(** ** Witnesses *)

(** An alignment fault with 100 in x8. *)
Lemma sync_unknown_ignored_witness : ∃ s', sync_el0_handler kl_small (λ _ _, Fault) (λ _ _, Fault) 0 0 (λ _ l, l) 1 0 0x5000 (Z.shiftl 0x22 26)
    (sys_of three_threads 0x5000 (Tf (<[8%nat := 100]> (repeat 0 31)) 0 0 0)) = Ok s'.
Proof.
  destruct (sync_unknown_ignored kl_small (λ _ _, Fault) (λ _ _, Fault) 0 0 (λ _ l, l) 1 0 0x5000 (Z.shiftl 0x22 26)
    (sys_of three_threads 0x5000 (Tf (<[8%nat := 100]> (repeat 0 31)) 0 0 0)) (Tf (<[8%nat := 100]> (repeat 0 31)) 0 0 0) 100) as (s' & E & _).
  - discriminate.
  - discriminate.
  - reflexivity.
  - reflexivity.
  - reflexivity.
  - right. reflexivity.
  - exists s'. exact E.
Defined.

Definition handlers_ex : handlers := Handlers 0x80800 0x80900 0x80a00 0x80b00 0x80c00.

