(* ===== verification/Preempt.v ===== *)
(** Preemption: the interrupt of the core timer, from the queue of interrupt work
    over the task that reschedules to the switch to the next thread. *)
From S2P Require Import Prelude Util ListHead Lock Mem CString Malloc Heap Mmu Cpio Uart Mmio Alloc KAlloc Ordered Event Timer Thread Sched RunQueue Spawn Syscall Signal Kill Except.
Local Open Scope Z_scope.

Section preempt.
Context `{SA : SmallAlloc alloc} (kl : klayout) (hs : handlers) (garbage : Z → Z).

(** The time at which the next rescheduling is due. *)
Definition next_tick (h : timer_hw) : Z := u64 (get_expire_tick_from_secs 0 h + Z.shiftr (cntfrq_el0 h) 5).

(** A queue of timers whose first task reschedules. *)
Record tick_due (t : tstate) (L : rings) (g : sa_ghost) (x : Z) (task : timer_task) (q : list Timer.entry) : Prop := {
  td_inv : timer_inv t L g ((x, task) :: q);
  td_task : Timer.func task = schedule_timer_task_addr kl;
  td_string : load8 (bytes t) (empty_string_addr kl) = Ok 0;
}.

(** [timer_handler] takes the task out of the queue and puts the next one in. *)
Lemma tick_ok t L g x task q : tick_due t L g x task q → sa_budget g 1 →
  ∃ y next t' L' g', timer_handler (timer_callback kl hs alloc garbage) t = Ok t' ∧
    timer_inv t' L' g' (enqueue Timer.entry_key (y, next) q) ∧ armed (enqueue Timer.entry_key (y, next) q) (hw t') ∧
    Timer.func next = schedule_timer_task_addr kl ∧ expire next = next_tick (hw t) ∧ lk (heap t') = lk (heap t) ∧
    agree_on (λ h, ¬ sa_private h ∧ h ≠ timer_task_head t) L L'.
Proof using.
  intros [HT Hf Hs] HR. pose proof (timer_empty _ _ _ _ HT) as Ee. destruct (timer_pop _ _ _ _ _ _ HT) as (m & En & Ed & Hm & HT1).
  destruct (add_timer_task_run garbage (with_timer_lm m t) _ g q TIMER_BY_TICK (Z.shiftr (cntfrq_el0 (hw t)) 5)
    (schedule_timer_task_addr kl) (empty_string_addr kl) HT1) as (y & next & t2 & L2 & g2 & E & HT2 & Hn & Hx & Harm & Hk & Ha & _);
    [by apply (sa_budget_room _ _ _ 0); [unfold sizeof_timer_task; lia|]|exact Hs|].
  pose proof (timer_empty _ _ _ _ HT2) as Ee2.
  assert (∃ e q', enqueue Timer.entry_key (y, next) q = e :: q') as (e & q' & Eq).
  { destruct (enqueue_split Timer.entry_key (y, next) q) as ([|z q1] & q2 & _ & -> & _); simpl; eauto. }
  rewrite Eq in *. exists y, next, (with_hw (set_timer_interrupt_by_tick (Timer.entry_key e) (hw t2)) t2), L2, g2. rewrite Eq.
  split; [|split; [by apply timer_inv_hw|split; [by intros e' [= <-]|split; [done|split; [exact Hx|split; [exact Hk|]]]]]].
  - unfold timer_handler. res_apply Ee. cbn [negb bool_decide]. res_apply En. unfold do_timer_task. res_apply Ed.
    change (tasks (with_timer_lm m t)) with (tasks t). rewrite Hm. res_apply (eq_refl (Ok task)). unfold timer_callback at 1.
    rewrite Hf, Z.eqb_refl. res_apply E. rewrite Ee2. cbn [mbind res_bind]. rewrite bool_decide_eq_false_2 by done. cbn [negb].
    res_apply (first_expire_ok _ _ _ _ _ HT2). reflexivity.
  - intros h [Hh1 Hh2]. rewrite Ha by done. by rewrite lookup_insert_ne.
Qed.

(** The kernel of a thread that a tick interrupts: the queues of interrupt work and
    of timers, in rings of their own, and the run queue [l]. *)
Record interrupted (q : evq) (s : sstate) (L : rings) (g : sa_ghost) (x : Z) (task : timer_task) (ts : list Timer.entry) (l : list Z) : Prop := {
  in_events : event_inv (ev_open q s) L g [];
  in_priority : ev_priority q = initial_priority;
  in_timers : tick_due (tm (ks s)) L g x task ts;
  in_budget : sa_budget g 2;
  in_queue : queue_ok (ks s) L l ∧ ¬ sa_private (rq (ks s));
  in_apart : NoDup [rq (ks s); timer_task_head (tm (ks s)); ev_head q];
}.

(** Up to the end of [timer_enable()]: only the timers and the lock have changed. *)
Lemma irq_timer_ok q s L g x task ts l : interrupted q s L g x task ts l →
  ∃ q' t' L' g' y next, irq_timer kl hs alloc garbage 2 (q, s) = Ok (q', with_ks (with_tm t' (ks s)) s) ∧
    event_inv (ev_open q' (with_ks (with_tm t' (ks s)) s)) L' g' [] ∧ ev_priority q' = ev_priority q ∧
    timer_inv t' L' g' (enqueue Timer.entry_key (y, next) ts) ∧ armed (enqueue Timer.entry_key (y, next) ts) (hw t') ∧
    Timer.func next = schedule_timer_task_addr kl ∧ expire next = next_tick (hw (tm (ks s))) ∧
    queue_ok (with_tm t' (ks s)) L' l ∧ lk (heap t') = unlock (lock (lk (k_heap (ks s)))) ∧ cntp_ctl_el0 (hw t') = 1.
Proof using.
  intros [HE Hpr [HT Hf Hs] HB [[Q1 Q2 Q3 Q4 Q5] Hrq] Hnd].
  rewrite !NoDup_cons, !not_elem_of_cons in Hnd. destruct Hnd as ((N1 & N2 & _) & (N3 & _) & _).
  set (s0 := on_hw timer_disable s).
  destruct (deferred_ok kl hs garbage q s0 L g (timer_handler_addr hs) 0 HE) as (e1 & L1 & g1 & HE1 & Ha1 & Hh1 & Hk1 & Hb1 & Hrun);
    [apply (sa_budget_room _ _ _ 1); [unfold sizeof_irq_event; lia|exact HB]|rewrite Hpr; unfold initial_priority; lia|rewrite Hpr; unfold initial_priority; lia|].
  pose proof HE1 as [I1 P1 R1 _ _ K1]. pose proof HT as [I0 P0 R0 M0 O0]. set (s1 := ev_kernel e1 s0).
  destruct (tick_ok (tm (ks s1)) L1 g1 x task ts) as (y & next & t' & L2 & g2 & E & HT2 & Harm & Hn & Hx & Hk2 & Ha2); [|by apply Hb1|].
  { split; [|exact Hf|exact Hs]. split; [exact I1|exact P0| |exact M0|exact O0]. change (L1 !! timer_task_head (tm (ks s)) = Some ((x, task) :: ts).*1). by rewrite Ha1. }
  set (s2 := with_ks (with_tm t' (ks s1)) s1). set (e2 := ev_open (ev_close e1) s2).
  assert (event_inv e2 L2 g2 []) as HE2.
  { split; [exact (tm_heap _ _ _ _ HT2)|exact P1| |by intros ?? ?%not_elem_of_nil|constructor|].
    - change (L2 !! irq_event_head e1 = Some []). rewrite Ha2; [exact R1|]. rewrite Hh1. split; [by rewrite <- Hh1|by apply not_eq_sym].
    - change (lock_wf (lk (heap t'))). rewrite Hk2. exact K1. }
  destruct (Hrun e2 L2 g2 s2) as [Ed HE3].
  { unfold event_call. fold s1. rewrite Z.eqb_refl. res_apply E. reflexivity. }
  { exact HE2. }
  exists (ev_close (with_curr_priority (ev_priority q) e2)), (with_hw (timer_enable (hw t')) (with_heap (heap t') t')), L2, g2, y, next.
  split; [|split; [|split; [done|split; [|split; [exact Harm|split; [exact Hn|split; [exact Hx|split; [|split; [|done]]]]]]]]].
  - unfold irq_timer. fold s0. res_apply Ed. reflexivity.
  - destruct HE3. by split.
  - destruct HT2. by split.
  - split; [exact (sa_lists _ _ _ (tm_heap _ _ _ _ HT2))| |exact Q3|exact Q4|exact Q5].
    change (L2 !! rq (ks s) = Some l). rewrite Ha2 by done. by rewrite Ha1.
  - cbn. rewrite Hk2. exact Hk1.
Qed.

(** C6: A tick of the core timer preempts the running thread. In the kernel of any
    thread, with another one that can run next in the ring, [irq_handler] runs
    the task that reschedules and ends with the next thread on the processor, with
    its registers; the interrupted thread's are in its context, and every thread stays in
    the queue in the same state. The next rescheduling waits in the queue of
    timers, a 32nd of a second from now, behind the earlier tasks; the timer is on
    and armed for the first of them, no interrupt work is left, and the lock is balanced. *)
Theorem irq_timer_preempts src tf q s L g x task ts a b l r c : interrupted q s L g x task ts (a :: b :: l) →
  Z.land (src_ctl src) 4 ≠ 0 → Z.land (src_core_timer src) INTERRUPT_SOURCE_PNSIRQ ≠ 0 →
  rotation r (a :: b :: l) (curr_thread (ks s)) → find (is_runnable (ks s)) r = Some c → c ≠ curr_thread (ks s) →
  ∃ q' s' t' L' g' y next, irq_handler kl hs alloc garbage 2 src tf (q, s) = Ok (Switched q' s') ∧
    scheduled (with_tm t' (ks s)) (ks s') L' (a :: b :: l) c ∧ (∀ p, is_runnable (ks s') p = is_runnable (ks s) p) ∧
    event_inv (ev_open q' s') L' g' [] ∧ ev_priority q' = initial_priority ∧
    timer_inv (tm (ks s')) L' g' (enqueue Timer.entry_key (y, next) ts) ∧
    armed (enqueue Timer.entry_key (y, next) ts) (hw (tm (ks s'))) ∧ cntp_ctl_el0 (hw (tm (ks s'))) = 1 ∧
    Timer.func next = schedule_timer_task_addr kl ∧ expire next = next_tick (hw (tm (ks s))) ∧
    lk (k_heap (ks s')) = unlock (lock (lk (k_heap (ks s)))).
Proof using.
  intros HI Hc1 Hc2 Hr Hc Hne.
  destruct (irq_timer_ok q s L g x task ts (a :: b :: l) HI) as (q' & t' & L' & g' & y & next & E & HE & Hpr & HT & Harm & Hn & Hx & HQ & Hk & Hct).
  destruct (schedule_run (with_tm t' (ks s)) L' (a :: b :: l) r c HQ Hr Hc) as (k' & Es & HS).
  pose proof (lo_nodup _ _ (qu_lists _ _ _ HQ) _ _ (qu_ring _ _ _ HQ)) as Hnd.
  assert (lock_wf (lk (k_heap (ks s)))) as Hwf by exact (ev_lock _ _ _ _ (in_events _ _ _ _ _ _ _ _ HI)).
  exists q', (with_ks k' s), t', L', g', y, next. split.
  - unfold irq_handler. rewrite (proj2 (Z.eqb_neq _ _) Hc1), (proj2 (Z.eqb_neq _ _) Hc2). cbn [negb andb]. res_apply E.
    res_apply (get_next_ok _ _ _ [] (a :: b :: l) (qu_lists _ _ _ HQ) (qu_ring _ _ _ HQ)).
    res_apply (get_next_ok _ _ _ [a] (b :: l) (qu_lists _ _ _ HQ) (qu_ring _ _ _ HQ)).
    cbn [after]. rewrite (proj2 (Z.eqb_neq b _)) by (intros ->; apply NoDup_cons in Hnd as [Hnd _]; set_solver). cbn [negb].
    assert (on_ks schedule (with_ks (with_tm t' (ks s)) s) = Ok (with_ks k' s)) as Eo by (unfold on_ks; res_apply Es; reflexivity).
    res_apply Eo. cbn [with_ks ks]. rewrite (sc_curr _ _ _ _ _ HS), (proj2 (Z.eqb_neq _ _)) by exact Hne. reflexivity.
  - pose proof (sc_rest _ _ _ _ _ HS) as [= Et _ _ _ _]. cbn [with_ks ks].
    set (k := unlock (lock (lk (heap t')))). assert (tm k' = with_heap (with_lk k (heap t')) t') as -> by (rewrite Et; reflexivity).
    split; [exact HS|]. split; [intros p; exact (scheduled_runnable _ _ _ _ _ p HS)|]. split.
    { destruct HE as [E1 E2 E3 E4 E5 E6]. split; [|exact E2|exact E3|exact E4|exact E5|].
      - unfold ev_open, k_heap. cbn [with_ks ks Event.heap]. rewrite Et. exact (sa_lock _ _ _ _ E1).
      - unfold ev_open, k_heap. cbn [with_ks ks Event.heap]. rewrite Et. exact (lock_wf_balanced _ E6). }
    split; [rewrite Hpr; exact (in_priority _ _ _ _ _ _ _ _ HI)|]. split.
    { destruct HT as [T1 T2 T3 T4 T5]. split; [by apply sa_lock|exact T2|exact T3|exact T4|exact T5]. }
    split; [exact Harm|]. split; [exact Hct|]. split; [exact Hn|]. split; [exact Hx|].
    unfold k_heap. cbn [with_ks ks]. rewrite Et. change (unlock (lock (lk (heap t'))) = unlock (lock (lk (k_heap (ks s))))).
    rewrite Hk. by apply unlock_lock_idem.
Qed.
End preempt.

(** ** A tick *)

(** Two threads, the first of which runs, with one task in the queue of timers. *)
Lemma tick_ex : ∃ q s L g x task, interrupted (alloc := kmalloc layout_ex) kl_ex q s L g x task [] [VIRT_BASE + 0x90000; VIRT_BASE + 0x91000] ∧
  curr_thread (ks s) = VIRT_BASE + 0x90000 ∧ (∀ p, is_runnable (ks s) p = bool_decide (p ∈ [VIRT_BASE + 0x90000; VIRT_BASE + 0x91000])).
Proof.
  set (a := VIRT_BASE + 0x90000). set (b := VIRT_BASE + 0x91000). set (r1 := VIRT_BASE + 0x80000).
  set (r2 := VIRT_BASE + 0x80010). set (x := VIRT_BASE + 0x80020). set (r3 := VIRT_BASE + 0x80040).
  destruct (kalloc_ex 2) as (h & L & g & HI & HR & Hk & HS); [lia|].
  assert (∀ q, q ∈ [r1; a; b; r2; x; r3] → ka_static g q ∧ ¬ node L q ∧ ¬ ka_private q) as Hst.
  { intros q Hq. destruct (HS q) as (S & P & N); [|done]. unfold r1, r2, r3, a, b, x in Hq. set_unfold in Hq. lia. }
  destruct (ka_static_ring h L g r1 [a; b] HI) as (m1 & HI1); [by apply (bool_decide_unpack (NoDup _)); vm_compute|intros q Hq; apply Hst; set_solver|].
  destruct (ka_static_ring _ _ g r2 [x] HI1) as (m2 & HI2); [by apply (bool_decide_unpack (NoDup _)); vm_compute| |].
  { intros q Hq. destruct (Hst q) as (S & N & P); [set_solver|]. split; [done|]. split; [|done].
    intros [Hx|Hx]%node_insert; [|done]. unfold r1, r2, a, b, x in *. set_unfold in Hq. set_unfold in Hx. lia. }
  destruct (ka_static_ring _ _ g r3 [] HI2) as (m3 & HI3); [by apply (bool_decide_unpack (NoDup _)); vm_compute| |].
  { intros q Hq. destruct (Hst q) as (S & N & P); [set_solver|]. split; [done|]. split; [|done].
    intros [Hx|[Hx|Hx]%node_insert]%node_insert; [| |done]; unfold r1, r2, r3, a, b, x in *; set_unfold in Hq; set_unfold in Hx; lia. }
  set (task := TimerTask 0x80600 500 0).
  set (k := K (TState (with_lm m3 (with_lm m2 (with_lm m1 h))) r2 {[x := task]} {[0x100 := 0]} hw_ex) ∅ ∅
    {[a := thread_ex 0 THREAD_RUNNING; b := thread_ex 1 THREAD_RUNNING]} 2 a r1 (cxt_ex 0) a).
  exists (Evq r3 initial_priority ∅), (Sys k ∅ uart_reset (VCore [] [] [] []) ∅), (<[r3 := []]> (<[r2 := [x]]> (<[r1 := [a; b]]> L))), g, x, task.
  split; [split|split; [done|]].
  - split; [exact HI3|exact (proj2 (proj2 (Hst r3 ltac:(set_solver))))|apply lookup_insert_eq|by intros ?? ?%not_elem_of_nil|constructor|exact Hk].
  - done.
  - split; [|done|done]. split; [exact HI3|exact (proj2 (proj2 (Hst r2 ltac:(set_solver))))| | |].
    + change (timer_task_head (tm (ks _))) with r2. rewrite lookup_insert_ne by discriminate. apply lookup_insert_eq.
    + intros p t Hp%list_elem_of_singleton. injection Hp as -> ->. apply lookup_singleton_eq.
    + repeat constructor.
  - exact HR.
  - split; [|exact (proj2 (proj2 (Hst r1 ltac:(set_solver))))]. split; [exact (ka_lists _ _ _ HI3)| |by left| |by eexists].
    + change (rq (ks _)) with r1. rewrite !lookup_insert_ne by discriminate. apply lookup_insert_eq.
    + intros p Hp. set_unfold in Hp. destruct Hp as [->|[->|[]]]; by eexists.
  - apply (bool_decide_unpack (NoDup _)). vm_compute. exact I.
  - intros p. unfold is_runnable. cbn [ks threads]. subst k. cbn [threads]. destruct (decide (p = a)) as [->|Ha]; [by rewrite lookup_insert_eq|].
    rewrite lookup_insert_ne by done. destruct (decide (p = b)) as [->|Hb]; [by rewrite lookup_singleton_eq|].
    rewrite lookup_singleton_ne by done. rewrite bool_decide_eq_false_2; [done|]. set_solver.
Qed.

Lemma irq_timer_preempts_witness : ∃ s q s' q', irq_handler kl_ex handlers_ex (kmalloc layout_ex) (λ _, 0) 2 (Sources 5 2 0 0 0 0) 0x5000 (q, s) =
    Ok (Switched q' s') ∧ curr_thread (ks s) = VIRT_BASE + 0x90000 ∧ curr_thread (ks s') = VIRT_BASE + 0x91000.
Proof.
  destruct tick_ex as (q & s & L & g & x & task & HI & Hc & Hrun).
  destruct (irq_timer_preempts kl_ex handlers_ex (λ _, 0) (Sources 5 2 0 0 0 0) 0x5000 q s L g x task [] (VIRT_BASE + 0x90000) (VIRT_BASE + 0x91000) []
    [VIRT_BASE + 0x91000; VIRT_BASE + 0x90000] (VIRT_BASE + 0x91000) HI) as (q' & s' & t' & L' & g' & y & next & E & HS & _).
  - discriminate.
  - discriminate.
  - rewrite Hc. by exists [], [VIRT_BASE + 0x91000].
  - cbn [find]. by rewrite Hrun.
  - by rewrite Hc.
  - exists s, q, s', q'. split; [exact E|]. split; [exact Hc|exact (sc_curr _ _ _ _ _ HS)].
Defined.
