(* ===== verification/Shell.v ===== *)
(** lib/shell.c: the line editor and the commands of the kernel shell. *)
From S2P Require Import Prelude Util ListHead Lock Mem CString Malloc Mmu Cpio Uart Ramfs Mmio Timer Thread Sched RunQueue Syscall Except.
Local Open Scope Z_scope.

Definition CMD_PREFIX : string := "> ".
Definition CURSOR_OFFSET : Z := 1.
Definition CMD_MAX_LEN : Z := 256.
Definition char_string (c : nat) : string := String (Ascii.ascii_of_nat c) EmptyString.
Definition ESCAPE_STR : string := String.append (char_string 0x1b) "[".
Definition crlf : string := String.append (char_string 13) (char_string 10).

(** Output over the busy-waiting UART. *)
Definition emit (o : list Z) (s : sstate) : sstate := with_ser (with_tx (tx (ser s) ++ o) (ser s)) s.
Definition put_string (t : string) (s : sstate) : res sstate := o ← puts t; mret (emit o s).
Definition getc (s : sstate) : res (Z * sstate) := '(c, u) ← uart_getc (ser s); mret (c, with_ser u s).
Definition read (s : sstate) : res (Z * sstate) := '(c, u) ← uart_read (ser s); mret (c, with_ser u s).
Definition on_bytes (f : bmem → res bmem) (s : sstate) : res sstate := b ← f (k_bytes (ks s)); mret (with_ks (with_k_bytes b (ks s)) s).

Section shell.
(** The two arrays of [CMD_MAX_LEN] bytes. *)
Context (cmd prev_cmd : Z).

Definition flush_line (line_prefix : string) (prefix_len cursor : Z) (s : sstate) : res sstate :=
  let fuel := (4 + (16 + String.length line_prefix + mem_fuel (k_bytes (ks s))))%nat in
  o1 ← uart_printf fuel (lit "%s%s%s") [VStr (lit (String.append ESCAPE_STR (String.append "2K" (char_string 13)))); VStr (lit line_prefix); VStr (at_mem (k_bytes (ks s)) cmd)];
  o2 ← uart_printf fuel (lit "%s%dG") [VStr (lit ESCAPE_STR); VInt (s32 (cursor + prefix_len + CURSOR_OFFSET))];
  mret (emit (o1 ++ o2) s).

(** What a turn of the loop of [get_line] does next: [continue], go on to
    [flush_line], or return. *)
Inductive turn : Type :=
| Continue (idx len : Z)
| Flush (idx len : Z)
| Return (len : Z).

(** The keys that arrive as an escape sequence, behind the bracket. *)
Definition escape_key (idx len : Z) (s : sstate) : res (turn * sstate) :=
  '(c, s) ← getc s;
  if c =? 0x31 then '(r, s) ← read s; mret (Flush (if r =? 0x7e then 0 else idx) len, s)
  else if c =? 0x33 then
    '(r, s) ← getc s;
    if (r =? 0x7e) && negb (idx =? len) then s ← on_bytes (λ m, strdel m cmd idx) s; mret (Flush idx (u64 (len - 1)), s)
    else mret (Flush idx len, s)
  else if c =? 0x34 then '(r, s) ← read s; mret (Flush (if r =? 0x7e then len else idx) len, s)
  else if c =? 0x41 then
    n ← strlen (mem_fuel (k_bytes (ks s))) (at_mem (k_bytes (ks s)) prev_cmd);
    s ← on_bytes (λ m, memcpy m cmd prev_cmd CMD_MAX_LEN) s;
    mret (Flush n n, s)
  else if c =? 0x43 then
    if idx <? len then s ← put_string ESCAPE_STR s; mret (Flush (idx + 1) len, with_ser (uart_send c (ser s)) s) else mret (Flush idx len, s)
  else if c =? 0x44 then
    if 0 <? idx then s ← put_string ESCAPE_STR s; mret (Flush (idx - 1) len, with_ser (uart_send c (ser s)) s) else mret (Flush idx len, s)
  else if c =? 0x46 then mret (Flush len len, s)
  else if c =? 0x48 then mret (Flush 0 len, s)
  else mret (Flush idx len, s).

Definition get_line_turn (idx len : Z) (s : sstate) : res (turn * sstate) :=
  '(c, s) ← getc s;
  if (c =? 0x08) || (c =? 0x7f) then
    if idx =? 0 then mret (Continue idx len, s)
    else s ← on_bytes (λ m, strdel m cmd (idx - 1)) s; mret (Flush (idx - 1) (u64 (len - 1)), s)
  else if c =? 0x1b then
    '(c, s) ← getc s;
    if negb (c =? 0x5b) then mret (Continue idx len, s) else escape_key idx len s
  else if c =? 0x1 then mret (Flush 0 len, s)
  else if c =? 0x5 then mret (Flush len len, s)
  else if c =? 0xb then
    s ← on_bytes (for_loop (Z.to_nat (len - idx)) idx (λ i m, store8 m (cmd + i) 0)) s;
    mret (Flush idx idx, s)
  else if c =? 0x0a then
    s ← on_bytes (λ m, store8 m (cmd + len) 0) s;
    s ← put_string crlf s;
    mret (Return len, s)
  else if len <? CMD_MAX_LEN then
    s ← on_bytes (λ m, strins m cmd c idx) s; mret (Flush (u64 (idx + 1)) (u64 (len + 1)), s)
  else mret (Flush idx len, s).

(** [fuel] turns of [while (1)]. *)
Fixpoint get_line_loop (fuel : nat) (line_prefix : string) (idx len : Z) (s : sstate) : res (Z * sstate) :=
  match fuel with
  | O => Fuel
  | S fuel =>
      '(t, s) ← get_line_turn idx len s;
      match t with
      | Continue idx len => get_line_loop fuel line_prefix idx len s
      | Flush idx len =>
          s ← flush_line line_prefix (Z.of_nat (String.length line_prefix)) idx s;
          get_line_loop fuel line_prefix idx len s
      | Return len => mret (len, s)
      end
  end.

Definition get_line (fuel : nat) (line_prefix : string) (s : sstate) : res (Z * sstate) :=
  s ← put_string line_prefix s; get_line_loop fuel line_prefix 0 0 s.

(** ** The commands *)

Context (kl : klayout) (hs : handlers) (alloc : Z → mstate → res (Z * mstate)) (free : Z → mstate → res mstate).
Context (cpio_ramfs : Z) (mbox_addr : Z) (answer : Z → list Z → list Z) (garbage : Z → Z).

(** A command ends with the next prompt, or with the [eret] into a program. The
    registers of the watchdog are kept beside the state of the kernel. *)
Inductive outcome : Type :=
| Prompt (s : sstate) (d : mmio)
| Started (r : eret_regs) (s : sstate).

Definition mem_string (s : sstate) (p : Z) : cptr := at_mem (k_bytes (ks s)) p.
Definition equals (s : sstate) (t : string) : res bool := c ← strcmp 20 (mem_string s cmd) (lit t); mret (c =? 0).
Definition starts (s : sstate) (t : string) : res bool := c ← strncmp (mem_string s cmd) (lit t) (Z.of_nat (String.length t)); mret (c =? 0).

Definition print_sysinfo (s : sstate) : res sstate :=
  '(revision, v) ← get_board_revision mbox_addr answer (box s);
  '(addr, memsize, v) ← get_arm_memory mbox_addr answer v;
  o ← uart_printf 200 (lit (String.append "%s%x%s%x%s%x" newline))
        [VStr (lit "This raspi board revision is:"); VInt revision; VStr (lit ", start address is: "); VInt addr; VStr (lit ", memory size: "); VInt memsize];
  mret (emit o (with_box v s)).

(** [allocate_test] of malloc.c. *)
Definition allocate_test (s : sstate) : res sstate :=
  o ← uart_printf 20 (lit "%x") [VInt (Z.land 0x4200 (Z.lnot 0xfff))];
  let s := emit o s in
  let kmalloc := s_alloc alloc in
  let kfree p := on_ks (k_free free p) in
  '(p1, s) ← kmalloc 0x1000 s; '(p5, s) ← kmalloc 0x1001 s; '(p2, s) ← kmalloc 0x4000 s; '(p3, s) ← kmalloc 0x8000 s; '(p4, s) ← kmalloc 0x3000 s;
  s ← kfree p1 s; s ← kfree p5 s; s ← kfree p2 s; s ← kfree p3 s; s ← kfree p4 s;
  '(bin1, s) ← kmalloc 32 s;
  s ← on_bytes (λ m, m ← store8 m bin1 0x61; m ← store8 m (bin1 + 1) 0x0a; store8 m (bin1 + 2) 0) s;
  '(bin2, s) ← kmalloc 30 s;
  o1 ← uart_printf 20 (lit (String.append "%x, %x" newline)) [VInt bin1; VInt bin2];
  o2 ← uart_printf (20 + mem_fuel (k_bytes (ks s))) (lit (String.append "%s, %s" newline)) [VStr (mem_string s bin1); VStr (mem_string s bin2)];
  let s := emit (o1 ++ o2) s in
  '(bin3, s) ← kmalloc 64 s; s ← kfree bin2 s; '(bin2, s) ← kmalloc 69 s; '(bin4, s) ← kmalloc 256 s; s ← kfree bin4 s;
  '(bin4, s) ← kmalloc 222 s; '(bin5, s) ← kmalloc 763 s; '(bin6, s) ← kmalloc 500 s;
  s ← kfree bin1 s; s ← kfree bin2 s; s ← kfree bin3 s; s ← kfree bin4 s; s ← kfree bin5 s; kfree bin6 s.

(** The search for the arguments of "timer": the first two blanks; the second one
    is overwritten. The pointers are 0 when there is none. *)
Fixpoint timer_args (fuel : nat) (c secs : Z) (s : sstate) : res (Z * Z * sstate) :=
  match fuel with
  | O => Fuel
  | S fuel =>
      b ← load8 (k_bytes (ks s)) c;
      if b =? 0 then mret (secs, 0, s)
      else if b =? 0x20 then
        if secs =? 0 then timer_args fuel (u64 (c + 1)) (u64 (c + 1)) s
        else s ← on_bytes (λ m, store8 m c 0) s; mret (secs, u64 (c + 1), s)
      else timer_args fuel (u64 (c + 1)) secs s
  end.

Definition timer_command (s : sstate) : res sstate :=
  '(secs, msg, s) ← timer_args (mem_fuel (k_bytes (ks s))) cmd 0 s;
  if negb (msg =? 0) then
    n ← atoi (mem_fuel (k_bytes (ks s))) (mem_string s secs);
    t ← add_timer_task alloc garbage TIMER_BY_SESC (u64 n) (timer_alert_addr hs) msg (tm (ks s));
    mret (with_ks (with_tm t (ks s)) s)
  else put_string (String.append "Timer args error" newline) s.

(** The callback that starts a program, and the traversal with it. *)
Definition cpio_exec (data size : Z) (x : sstate * option eret_regs) : res (sstate * option eret_regs) :=
  '(r, k) ← exec_thread kl alloc garbage data size (ks x.1); mret (with_ks k x.1, Some r).
Definition traverse_exec (name : cptr) (s : sstate) : res (found * (sstate * option eret_regs)) :=
  cpio_traverse (λ n x, '(p, s) ← s_alloc alloc n x.1; mret (p, (s, x.2))) (λ p a n x, (store_info p a n x.1, x.2))
    (mem_fuel (k_bytes (ks s))) (k_bytes (ks s)) cpio_ramfs name (Some cpio_exec) (s, None).

Definition file_command (fuel : nat) (s : sstate) (d : mmio) (run : sstate → res (found * (sstate * option eret_regs))) : res outcome :=
  s ← on_bytes (λ m, memset m cmd 0 CMD_MAX_LEN) s;
  '(_, s) ← get_line fuel "File name: " s;
  '(f, (s, r)) ← run s;
  match r with
  | Some r => mret (Started r s)
  | None =>
      s ← (match f with NotFound => put_string (String.append "Error: file not exist" newline) s | _ => mret s end);
      mret (Prompt s d)
  end.

(** [cpio_catfile] as the callback of the traversal. *)
Definition traverse_cat (s : sstate) : res (found * (sstate * option eret_regs)) :=
  '(f, o) ← cpio_traverse (λ _ _, Fault) (λ _ _ _ o, o) (mem_fuel (k_bytes (ks s))) (k_bytes (ks s)) cpio_ramfs (mem_string s cmd)
      (Some (cpio_catfile (k_bytes (ks s)))) [];
  mret (f, (emit o s, None)).

Definition help_text : string :=
  String.concat newline (map (λ x : string * string, String.append x.1 (String.append (char_string 9) x.2))
    [("help", ": print this help menu"); ("hello", ": print Hello World!"); ("sysinfo", ": show board info"); ("ls", ": list cpio root files");
     ("cat", ": read cpio file content"); ("timer", ": set timer, timer <seconds> <message>"); ("exec", ": excute cpio file");
     ("reboot", ": reboot rpi"); ("clear", String.append ": clear screen" newline)]%string).

Definition parse_command (fuel : nat) (s : sstate) (d : mmio) : res outcome :=
  n ← strlen (mem_fuel (k_bytes (ks s))) (mem_string s cmd);
  if n =? 0 then mret (Prompt s d)
  else
    s ← on_bytes (λ m, trim m cmd) s;
    s ← on_bytes (λ m, memcpy m prev_cmd cmd CMD_MAX_LEN) s;
    b ← equals s "help"; if (b : bool) then s ← put_string help_text s; mret (Prompt s d) else
    b ← equals s "hello"; if (b : bool) then s ← put_string (String.append "Hello World!" newline) s; mret (Prompt s d) else
    b ← equals s "ls"; if (b : bool) then o ← cpio_ls (mem_fuel (k_bytes (ks s))) (k_bytes (ks s)) cpio_ramfs; mret (Prompt (emit o s) d) else
    b ← starts s "preempt"; if (b : bool) then mret (Prompt s d) else
    b ← starts s "allocator"; if (b : bool) then s ← allocate_test s; mret (Prompt s d) else
    b ← starts s "timer"; if (b : bool) then s ← timer_command s; mret (Prompt s d) else
    b ← equals s "exec"; if (b : bool) then file_command fuel s d (λ s, traverse_exec (mem_string s cmd) s) else
    b ← equals s "cat"; if (b : bool) then file_command fuel s d traverse_cat else
    b ← equals s "sysinfo"; if (b : bool) then s ← print_sysinfo s; mret (Prompt s d) else
    b ← equals s "reboot"; if (b : bool) then mret (Prompt s (reboot 1 d)) else
    b ← equals s "clear";
    if (b : bool) then s ← put_string (String.append ESCAPE_STR (String.append "2J" (String.append (char_string 0x1b) "[H"))) s; mret (Prompt s d) else
    o ← uart_printf (4 + (30 + mem_fuel (k_bytes (ks s)))) (lit (String.append "%s: command not found" newline)) [VStr (mem_string s cmd)];
    mret (Prompt (emit o s) d).

(** One turn of [shell], and the text before the first one. *)
Definition shell_turn (fuel : nat) (s : sstate) (d : mmio) : res outcome :=
  '(_, s) ← get_line fuel CMD_PREFIX s;
  o ← parse_command fuel s d;
  match o with
  | Prompt s d => s ← on_bytes (λ m, memset m cmd 0 CMD_MAX_LEN) s; mret (Prompt s d)
  | Started _ _ => mret o
  end.
Definition shell_start (s : sstate) : res sstate := s ← put_string (String.append "Welcome to ssrtw shell" newline) s; print_sysinfo s.
End shell.

(** ** The line editor as an editor *)

(** What the user types, with the bytes it arrives as. *)
Inductive key : Type := Char (c : Z) | Backspace | Delete | ArrowLeft | ArrowRight | Home | End_ | CtrlA | CtrlE | CtrlK | ArrowDown.
Definition key_bytes (k : key) : list Z :=
  match k with
  | Char c => [c]
  | Backspace => [0x7f]
  | Delete => [0x1b; 0x5b; 0x33; 0x7e]
  | ArrowLeft => [0x1b; 0x5b; 0x44]
  | ArrowRight => [0x1b; 0x5b; 0x43]
  | Home => [0x1b; 0x5b; 0x48]
  | End_ => [0x1b; 0x5b; 0x46]
  | CtrlA => [0x01]
  | CtrlE => [0x05]
  | CtrlK => [0x0b]
  | ArrowDown => [0x1b; 0x5b; 0x42]
  end.
(** The characters that stand for themselves. *)
Definition plain (c : Z) : Prop := 0 < c < 256 ∧ c ∉ [0x08; 0x7f; 0x1b; 0x01; 0x05; 0x0b; 0x0a; 0x0d].

(** The text on both sides of the cursor, after a key. *)
Definition edit (k : key) (x : list Z * list Z) : list Z * list Z :=
  let '(l, r) := x in
  match k with
  | Char c => (l ++ [c], r)
  | Backspace => (removelast l, r)
  | Delete => (l, tail r)
  | ArrowLeft => match last l with Some c => (removelast l, c :: r) | None => (l, r) end
  | ArrowRight => match r with c :: r => (l ++ [c], r) | [] => (l, r) end
  | Home | CtrlA => ([], l ++ r)
  | End_ | CtrlE => (l ++ r, [])
  | CtrlK => (l, [])
  | ArrowDown => (l, r)
  end.
Definition text (x : list Z * list Z) : list Z := x.1 ++ x.2.

Section editor.
Context (cmd prev_cmd : Z) (line_prefix : string).

(** The buffer holds the line, and zeros behind it. *)
Definition buffer (m : bmem) (cs : list Z) : Prop :=
  window m cmd (cs ++ repeat 0 (256 - length cs)) ∧ Forall (λ c, 0 < c < 256) cs ∧ (length cs ≤ 255)%nat.

Lemma window_app m a xs ys : window m a (xs ++ ys) ↔ window m a xs ∧ window m (a + Z.of_nat (length xs)) ys ∧ 0 ≤ a.
Proof using.
  split.
  - intros [Hm [Ha Hr]]. rewrite length_app in Hr. destruct (mem_bytes_app _ _ _ _ Hm) as [H1 H2].
    split; [split; [done|lia]|]. split; [split; [done|lia]|done].
  - intros ([[H1 H1'] Hr1] & [[H2 H2'] Hr2] & Ha). split; [split|].
    + apply bytes_at_app. split; [done|]. intros i b Hi. specialize (H2 i b Hi). unfold shift_ptr, at_mem in *.
      by replace (a + (Z.of_nat (length xs) + Z.of_nat i)) with (a + Z.of_nat (length xs) + Z.of_nat i) by lia.
    + by apply Forall_app.
    + rewrite length_app. lia.
Qed.

Lemma window_same m m' a bs b n : window m a bs → same_outside b n m m' → a + Z.of_nat (length bs) ≤ b ∨ b + n ≤ a → window m' a bs.
Proof using.
  intros Hw Hs Hd. pose proof Hw as [[_ Hb] [Ha Hr]]. apply win_intro; [done|done|done|]. intros i x Hi.
  pose proof (lookup_lt_Some _ _ _ Hi). rewrite (Hs _) by lia. by apply (win_lookup _ _ _ _ _ Hw).
Qed.

Lemma buffer_split m cs : (length cs ≤ 255)%nat → Forall (λ c, 0 < c < 256) cs →
  buffer m cs ↔ window m cmd (cs ++ [0]) ∧ window m (cmd + Z.of_nat (S (length cs))) (repeat 0 (255 - length cs)).
Proof using.
  intros Hl Hc. unfold buffer. replace (256 - length cs)%nat with (S (255 - length cs)) by lia. cbn [repeat].
  rewrite (cons_middle 0 cs), app_assoc, (window_app m cmd (cs ++ [0])), length_app, Nat.add_1_r. split.
  - intros ((H1 & H2 & _) & _ & _). done.
  - intros [H1 H2]. split; [|done]. split; [done|]. split; [done|]. apply H1.
Qed.

Lemma buffer_cstring m cs : buffer m cs → cstring (at_mem m cmd) cs.
Proof using.
  intros (Hw & Hc & Hl). replace (256 - length cs)%nat with (S (255 - length cs)) in Hw by lia. by eapply win_cstring.
Qed.

Lemma buffer_strins m l r c : buffer m (l ++ r) → plain c → (length (l ++ r) < 255)%nat →
  ∃ m', strins m cmd c (Z.of_nat (length l)) = Ok m' ∧ buffer m' (l ++ c :: r) ∧ same_outside cmd 256 m m'.
Proof using.
  intros HB [Hc _] Hl. pose proof HB as (_ & Hf & _).
  apply buffer_split in HB as [H1 H2]; [|lia|done].
  destruct (strins_ok m cmd (l ++ r) (length l) c H1 Hf) as (m' & E & Hw & Hs); [rewrite length_app; lia|lia|].
  rewrite take_app_length, drop_app_length, u8_small in Hw by lia.
  assert (length (l ++ c :: r) = S (length (l ++ r))) as El by (rewrite !length_app; simpl; lia).
  exists m'. split; [exact E|]. split; [|intros x Hx; apply Hs; lia].
  assert (Forall (λ c, 0 < c < 256) (l ++ c :: r)) as Hf' by (apply Forall_app in Hf as [? ?]; apply Forall_app; split; [done|by constructor]).
  apply (window_same m m' _ _ _ _ ) with (2 := Hs) in H2; [|lia].
  split; [|split; [done|lia]]. apply window_app. split; [exact Hw|]. rewrite El. split; [|apply H1].
  replace (256 - S (length (l ++ r)))%nat with (255 - length (l ++ r))%nat by lia. exact H2.
Qed.

Lemma buffer_strdel m cs pos : buffer m cs → (pos < length cs)%nat →
  ∃ m', strdel m cmd (Z.of_nat pos) = Ok m' ∧ buffer m' (delete pos cs) ∧ same_outside cmd 256 m m'.
Proof using.
  intros HB Hp. pose proof HB as (_ & Hf & Hl). apply buffer_split in HB as [H1 H2]; [|done|done].
  destruct (strdel_ok m cmd cs pos H1 Hf Hp) as (m' & E & Hw & Hs); [lia|].
  exists m'. split; [exact E|]. split; [|intros x Hx; apply Hs; lia].
  assert (length (delete pos cs) = (length cs - 1)%nat) as El by (rewrite length_delete; [lia|by apply lookup_lt_is_Some]).
  apply (window_same m m' _ _ _ _ ) with (2 := Hs) in H2; [|lia].
  split; [|split; [by apply Forall_delete|lia]].
  assert (repeat 0 (256 - length (delete pos cs)) = [0; 0] ++ repeat 0 (255 - length cs)) as ->.
  { rewrite El. by replace (256 - (length cs - 1))%nat with (S (S (255 - length cs))) by lia. }
  rewrite app_assoc. apply window_app. split; [exact Hw|]. rewrite length_app, El. cbn [length].
  split; [|apply H1]. by replace (length cs - 1 + 2)%nat with (S (length cs)) by lia.
Qed.

Lemma buffer_kill m l r : buffer m (l ++ r) →
  ∃ m', for_loop (length r) (Z.of_nat (length l)) (λ i m, store8 m (cmd + i) 0) m = Ok m' ∧ buffer m' l ∧ same_outside cmd 256 m m'.
Proof using.
  revert m r. intros m r (Hw & Hf & Hl). apply Forall_app in Hf as [Hf Hfr]. rewrite length_app in Hl.
  destruct (for_loop_inv (λ i m', ∃ r1 r2, r = r1 ++ r2 ∧ i = Z.of_nat (length l + length r1) ∧
      window m' cmd (l ++ repeat 0 (length r1) ++ r2 ++ repeat 0 (256 - length (l ++ r))) ∧ same_outside cmd 256 m m')
    (λ i m, store8 m (cmd + i) 0) (length r) (Z.of_nat (length l)) m) as (m' & E & r1 & r2 & Er & Ei & Hw' & Hs).
  - exists [], r. split; [done|]. split; [simpl; lia|]. split; [by rewrite <- app_assoc in Hw|done].
  - intros j m1 Hj (r1 & r2 & -> & -> & Hw1 & Hs1). rewrite length_app in *. destruct r2 as [|c r2]; [simpl in Hj; lia|].
    destruct (win_store m1 cmd _ (length l + length r1) 0 Hw1) as (m2 & E2 & Hw2 & Hs2).
    { rewrite !length_app, repeat_length. simpl. lia. }
    exists m2. split; [exact E2|]. exists (r1 ++ [c]), r2. split; [by rewrite <- app_assoc|]. rewrite length_app. split; [simpl; lia|].
    split.
    + rewrite insert_app_r in Hw2. rewrite insert_app_r_alt in Hw2 by (rewrite repeat_length; lia).
      rewrite repeat_length, Nat.sub_diag in Hw2. cbn [app list_insert insert] in Hw2. rewrite repeat_app, <- app_assoc. exact Hw2.
    + intros x Hx. rewrite Hs2; [by apply Hs1|]. rewrite ?length_app, ?repeat_length, ?length_app. simpl in *. lia.
  - exists m'. split; [exact E|]. split; [|done].
    assert (length r1 = length r) as Elen by lia. apply (f_equal length) in Er as Er'. rewrite length_app in Er'.
    destruct r2; [|simpl in Er'; lia]. rewrite app_nil_l in Hw'. split; [|split; [done|lia]].
    rewrite <- repeat_app in Hw'. rewrite length_app in Hw'. by replace (256 - length l)%nat with (length r1 + (256 - (length l + length r)))%nat by lia.
Qed.

(** In [get_line], with input [rest] to come and the line [cs] in the buffer;
    nothing else of the kernel has changed since [s0]. *)
Record editing (s0 s : sstate) (rest cs : list Z) : Prop := {
  ed_rx : rx (ser s) = rest;
  ed_buffer : buffer (k_bytes (ks s)) cs;
  ed_outside : same_outside cmd 256 (k_bytes (ks s0)) (k_bytes (ks s));
  ed_kernel : with_k_bytes ∅ (ks s) = with_k_bytes ∅ (ks s0);
}.

Lemma editing_emit s0 s rest cs o : editing s0 s rest cs → editing s0 (emit o s) rest cs.
Proof using. by intros []. Qed.

Lemma editing_getc s0 s c rest cs : editing s0 s (c :: rest) cs → c ≠ 0x0d →
  ∃ s1, getc s = Ok (c, s1) ∧ editing s0 s1 rest cs.
Proof using.
  intros [Hr Hb Ho Hk] Hc. exists (with_ser (with_rx rest (ser s)) s). split; [|by split].
  unfold getc, uart_getc, wait_data_ready, aux_mu_io_read. rewrite Hr. cbn. by rewrite (proj2 (Z.eqb_neq _ _) Hc).
Qed.

Lemma editing_bytes s0 s rest cs f m' cs' : editing s0 s rest cs → f (k_bytes (ks s)) = Ok m' → buffer m' cs' →
  same_outside cmd 256 (k_bytes (ks s)) m' → ∃ s1, on_bytes f s = Ok s1 ∧ editing s0 s1 rest cs'.
Proof using.
  intros [Hr Hb Ho Hk] Ef Hb' Ho'. exists (with_ks (with_k_bytes m' (ks s)) s). split; [unfold on_bytes; by rewrite Ef|].
  split; [done|exact Hb'|by transitivity (k_bytes (ks s))|exact Hk].
Qed.

Lemma removelast_delete (l : list Z) c r : removelast (l ++ [c]) ++ r = delete (length l) ((l ++ [c]) ++ r).
Proof using.
  rewrite removelast_last, <- app_assoc, delete_take_drop. cbn [app]. rewrite take_app_length.
  replace (S (length l)) with (length (l ++ [c])) by (rewrite length_app; simpl; lia). by rewrite (cons_middle c l r), (app_assoc l [c] r), drop_app_length.
Qed.

Definition cursor_of (x : list Z * list Z) : Z := Z.of_nat (length x.1).
Definition length_of (x : list Z * list Z) : Z := Z.of_nat (length (text x)).

(** The keys a line of at most 255 characters takes. *)
Definition key_ok (k : key) (x : list Z * list Z) : Prop :=
  match k with Char c => plain c ∧ (length (text x) < 255)%nat | _ => True end.

Definition next_turn (t : turn) (x : list Z * list Z) : Prop :=
  t = Flush (cursor_of x) (length_of x) ∨ t = Continue (cursor_of x) (length_of x).

Ltac take_byte H := let s1 := fresh "s" in let E := fresh "E" in let H1 := fresh "H" in
  destruct (editing_getc _ _ _ _ _ H ltac:(discriminate)) as (s1 & E & H1); rewrite E; clear E H;
  cbn [mbind res_bind Z.eqb Pos.eqb orb negb andb].

Lemma turn_here k x s0 s1 rest t : editing s0 s1 rest (text (edit k x)) → next_turn t (edit k x) →
  ∃ t' s', Ok (t, s1) = Ok (t', s') ∧ editing s0 s' rest (text (edit k x)) ∧ next_turn t' (edit k x).
Proof using. intros H1 H2. by exists t, s1. Qed.

(** One key is one turn. *)
Lemma char_turn c x s0 s rest : editing s0 s (c :: rest) (text x) → plain c → (length (text x) < 255)%nat →
  ∃ t s1, get_line_turn cmd prev_cmd (cursor_of x) (length_of x) s = Ok (t, s1) ∧ editing s0 s1 rest (text (edit (Char c) x)) ∧ next_turn t (edit (Char c) x).
Proof using.
  destruct x as [l r]. unfold text. cbn [fst snd edit]. intros HE Hc Hl. pose proof Hc as [Hc0 Hni]. rewrite !not_elem_of_cons in Hni.
  destruct Hni as (N1 & N2 & N3 & N4 & N5 & N6 & N7 & N8 & _).
  destruct (editing_getc _ _ _ _ _ HE N8) as (s1 & E & H1).
  destruct (buffer_strins _ _ _ _ (ed_buffer _ _ _ _ H1) Hc Hl) as (m' & Em & Hb & Ho).
  destruct (editing_bytes _ _ _ _ (λ m, strins m cmd c (Z.of_nat (length l))) _ _ H1 Em Hb Ho) as (s2 & E2 & H2).
  exists (Flush (cursor_of (l ++ [c], r)) (length_of (l ++ [c], r))), s2. split; [|split; [|by left]].
  - unfold get_line_turn. rewrite E. cbn [mbind res_bind]. unfold length_of, cursor_of, text. cbn [fst snd].
    rewrite (proj2 (Z.eqb_neq c 0x08)), (proj2 (Z.eqb_neq c 0x7f)), (proj2 (Z.eqb_neq c 0x1b)), (proj2 (Z.eqb_neq c 0x1)), (proj2 (Z.eqb_neq c 0x5)),
      (proj2 (Z.eqb_neq c 0xb)), (proj2 (Z.eqb_neq c 0x0a)) by done. cbn [orb].
    rewrite (proj2 (Z.ltb_lt _ CMD_MAX_LEN)) by (unfold CMD_MAX_LEN; lia). rewrite E2. cbn [mbind res_bind mret res_ret].
    rewrite !length_app in *. cbn [length]. rewrite !u64_small by lia. do 3 f_equal; lia.
  - cbn [fst snd]. by rewrite <- app_assoc.
Qed.

Lemma backspace_turn x s0 s rest : editing s0 s (0x7f :: rest) (text x) →
  ∃ t s1, get_line_turn cmd prev_cmd (cursor_of x) (length_of x) s = Ok (t, s1) ∧ editing s0 s1 rest (text (edit Backspace x)) ∧ next_turn t (edit Backspace x).
Proof using.
  destruct x as [l r]. unfold text. cbn [fst snd edit]. intros HE. unfold get_line_turn. take_byte HE.
  destruct l as [|c l _] using rev_ind.
  - exists (Continue 0 (Z.of_nat (length r))), s1. split; [done|]. split; [done|by right].
  - unfold cursor_of, length_of, text. cbn [fst snd]. rewrite (proj2 (Z.eqb_neq (Z.of_nat (length (l ++ [c]))) 0)) by (rewrite length_app; simpl; lia).
    destruct (buffer_strdel _ _ (length l) (ed_buffer _ _ _ _ H)) as (m' & Em & Hb & Ho); [rewrite !length_app; simpl; lia|].
    replace (Z.of_nat (length (l ++ [c])) - 1) with (Z.of_nat (length l)) by (rewrite length_app; simpl; lia).
    destruct (editing_bytes _ _ _ _ (λ m, strdel m cmd (Z.of_nat (length l))) _ _ H Em Hb Ho) as (s2 & E2 & H2). rewrite E2. cbn [mbind res_bind mret res_ret].
    pose proof (ed_buffer _ _ _ _ H) as (_ & _ & Hl). rewrite !length_app in Hl. simpl in Hl.
    eexists _, s2. split; [done|]. rewrite removelast_delete. split; [done|]. left. unfold cursor_of, length_of, text. cbn [fst snd].
    rewrite removelast_last, !length_app, u64_small by (simpl; lia). f_equal. simpl. lia.
Qed.

Lemma delete_turn x s0 s rest : editing s0 s (key_bytes Delete ++ rest) (text x) →
  ∃ t s1, get_line_turn cmd prev_cmd (cursor_of x) (length_of x) s = Ok (t, s1) ∧ editing s0 s1 rest (text (edit Delete x)) ∧ next_turn t (edit Delete x).
Proof using.
  destruct x as [l r]. unfold text. cbn [fst snd edit key_bytes app]. intros HE. unfold get_line_turn. take_byte HE. take_byte H. unfold escape_key. take_byte H0. take_byte H.
  unfold cursor_of, length_of, text. cbn [fst snd]. destruct r as [|c r].
  - rewrite app_nil_r in *. rewrite Z.eqb_refl. cbn [negb]. eexists _, s4. split; [done|]. cbn [tail]. rewrite app_nil_r. split; [done|]. left. unfold cursor_of, length_of, text. cbn [fst snd]. by rewrite app_nil_r.
  - rewrite (proj2 (Z.eqb_neq (Z.of_nat (length l)) _)) by (rewrite length_app; simpl; lia). cbn [negb].
    destruct (buffer_strdel _ _ (length l) (ed_buffer _ _ _ _ H0)) as (m' & Em & Hb & Ho); [rewrite !length_app; simpl; lia|].
    destruct (editing_bytes _ _ _ _ (λ m, strdel m cmd (Z.of_nat (length l))) _ _ H0 Em Hb Ho) as (s5 & E2 & H2). rewrite E2. cbn [mbind res_bind mret res_ret].
    pose proof (ed_buffer _ _ _ _ H0) as (_ & _ & Hl). rewrite !length_app in Hl. simpl in Hl.
    eexists _, s5. split; [done|]. rewrite delete_middle in H2. split; [done|]. left. unfold cursor_of, length_of, text. cbn [fst snd tail].
    rewrite !length_app, u64_small by (simpl; lia). f_equal. simpl. lia.
Qed.

Lemma kill_turn x s0 s rest : editing s0 s (0x0b :: rest) (text x) →
  ∃ t s1, get_line_turn cmd prev_cmd (cursor_of x) (length_of x) s = Ok (t, s1) ∧ editing s0 s1 rest (text (edit CtrlK x)) ∧ next_turn t (edit CtrlK x).
Proof using.
  destruct x as [l r]. unfold text. cbn [fst snd edit key_bytes app]. intros HE. unfold get_line_turn. take_byte HE.
  unfold cursor_of, length_of, text. cbn [fst snd]. destruct (buffer_kill _ _ _ (ed_buffer _ _ _ _ H)) as (m' & Em & Hb & Ho).
  replace (Z.to_nat (Z.of_nat (length (l ++ r)) - Z.of_nat (length l))) with (length r) by (rewrite length_app; lia).
  destruct (editing_bytes _ _ _ _ (for_loop (length r) (Z.of_nat (length l)) (λ i m, store8 m (cmd + i) 0)) _ _ H Em Hb Ho) as (s2 & E2 & H2).
  rewrite E2. cbn [mbind res_bind mret res_ret]. eexists _, s2. split; [done|]. rewrite app_nil_r. split; [done|]. left.
  unfold cursor_of, length_of, text. cbn [fst snd]. by rewrite app_nil_r.
Qed.

Lemma key_turn k x s0 s rest : editing s0 s (key_bytes k ++ rest) (text x) → key_ok k x →
  ∃ t s1, get_line_turn cmd prev_cmd (cursor_of x) (length_of x) s = Ok (t, s1) ∧ editing s0 s1 rest (text (edit k x)) ∧ next_turn t (edit k x).
Proof using.
  intros HE Hk. destruct k; cbn [key_bytes app] in HE.
  1: by apply char_turn; [|apply Hk..].
  1: by apply backspace_turn.
  1: by apply delete_turn.
  7: by apply kill_turn.
  all: unfold get_line_turn; take_byte HE; try (take_byte H; unfold escape_key; take_byte H0).
  all: destruct x as [l r]; unfold cursor_of, length_of, text in *; cbn [fst snd edit] in *.
  - destruct l as [|c l _] using rev_ind; cbn [length app] in *.
    + eexists _, s3. split; [done|]. split; [done|by left].
    + rewrite (proj2 (Z.ltb_lt 0 _)) by (rewrite length_app; simpl; lia). rewrite last_snoc, removelast_last. unfold put_string.
      change (puts ESCAPE_STR) with (Ok [0x1b; 0x5b] : res (list Z)). cbn [mbind res_bind mret res_ret fst snd]. rewrite <- app_assoc in *.
      eexists _, _. split; [done|]. split; [by destruct H|]. left. unfold cursor_of, length_of, text. cbn [fst snd].
      f_equal; rewrite ?length_app; simpl; lia.
  - destruct r as [|c r].
    + assert ((Z.of_nat (length l) <? Z.of_nat (length (l ++ []))) = false) as E by (apply Z.ltb_ge; rewrite app_nil_r; done). rewrite E. eexists _, s3. split; [done|]. split; [done|by left].
    + rewrite (proj2 (Z.ltb_lt _ _)) by (rewrite length_app; simpl; lia). unfold put_string.
      change (puts ESCAPE_STR) with (Ok [0x1b; 0x5b] : res (list Z)). cbn [mbind res_bind mret res_ret fst snd]. rewrite <- app_assoc in *.
      eexists _, _. split; [done|]. split; [by destruct H|]. left. unfold cursor_of, length_of, text. cbn [fst snd].
      f_equal; rewrite ?length_app; simpl; lia.
  - eexists _, s3. split; [done|]. split; [done|by left].
  - eexists _, s3. split; [done|]. split; [by rewrite app_nil_r|]. left. unfold cursor_of, length_of, text. cbn [fst snd]. by rewrite app_nil_r.
  - eexists _, s1. split; [done|]. split; [done|by left].
  - eexists _, s1. split; [done|]. split; [by rewrite app_nil_r|]. left. unfold cursor_of, length_of, text. cbn [fst snd]. by rewrite app_nil_r.
  - eexists _, s3. split; [done|]. split; [done|by left].
Qed.

(** The bytes of the prompt. *)
Definition prompt_bytes : list Z := removelast (lit_bytes line_prefix).
Context (Hprompt : Forall (λ c, 0 < c < 256) prompt_bytes).

Lemma prompt_length : length prompt_bytes = String.length line_prefix.
Proof using.
  unfold prompt_bytes, lit_bytes. rewrite removelast_last, length_map. clear. by induction line_prefix as [|a p IH]; simpl; [|rewrite IH].
Qed.

(** [flush_line] writes the whole line behind the prompt, then sends the cursor to
    its column. *)
Lemma flush_ok cursor s cs : buffer (k_bytes (ks s)) cs →
  flush_line cmd line_prefix (Z.of_nat (String.length line_prefix)) cursor s =
    Ok (emit (([0x1b; 0x5b; 0x32; 0x4b; 0x0d] ++ flat_map uart_puts_byte prompt_bytes ++ flat_map uart_puts_byte cs) ++
              ([0x1b; 0x5b] ++ uart_puti (s32 (cursor + Z.of_nat (String.length line_prefix) + CURSOR_OFFSET)) ++ [0x47])) s).
Proof using Hprompt.
  intros HB. unfold flush_line. set (fuel := (16 + String.length line_prefix + mem_fuel (k_bytes (ks s)))%nat).
  pose proof (printf_ok [FStr (lit (String.append ESCAPE_STR (String.append "2K" (char_string 13)))) [0x1b; 0x5b; 0x32; 0x4b; 0x0d];
    FStr (lit line_prefix) prompt_bytes; FStr (at_mem (k_bytes (ks s)) cmd) cs] fuel (lit "%s%s%s") []) as H1.
  pose proof (printf_ok [FStr (lit ESCAPE_STR) [0x1b; 0x5b]; FInt (s32 (cursor + Z.of_nat (String.length line_prefix) + CURSOR_OFFSET)); FChar 0x47]
    fuel (lit "%s%dG") []) as H2.
  cbn [flat_map fmt_args fmt_out app length plus] in H1, H2. cbn [Init.Nat.add]. fold fuel. rewrite H1, H2; clear H1 H2.
  - cbn [mbind res_bind mret res_ret flat_map app]. do 3 f_equal. rewrite !app_nil_r. reflexivity.
  - apply (lit_cstring "%s%dG"). repeat constructor; lia.
  - constructor; [|constructor; [exact I|constructor; [simpl; lia|constructor]]].
    split; [apply (lit_cstring ESCAPE_STR); repeat constructor; lia|]. simpl. lia.
  - apply (lit_cstring "%s%s%s"). repeat constructor; lia.
  - constructor; [|constructor; [|constructor; [|constructor]]]; split.
    + apply (lit_cstring (String.append ESCAPE_STR (String.append "2K" (char_string 13)))). repeat constructor; lia.
    + simpl. lia.
    + by apply lit_cstring.
    + rewrite prompt_length. lia.
    + by apply buffer_cstring.
    + pose proof (bytes_at_size _ _ _ (proj1 (buffer_cstring _ _ HB))) as Hs. rewrite length_app in Hs. simpl in Hs.
      destruct HB as (_ & _ & Hl). specialize (Hs ltac:(lia)). unfold fuel, mem_fuel. lia.
Qed.

Fixpoint keys_ok (keys : list key) (x : list Z * list Z) : Prop :=
  match keys with [] => True | k :: keys => key_ok k x ∧ keys_ok keys (edit k x) end.

(** Return ends the line. *)
Lemma enter_turn x s0 s rest : editing s0 s (0x0d :: rest) (text x) →
  ∃ s1, get_line_turn cmd prev_cmd (cursor_of x) (length_of x) s = Ok (Return (length_of x), s1) ∧ editing s0 s1 rest (text x).
Proof using.
  intros [Hr Hb Ho Hk]. unfold get_line_turn, getc, uart_getc, wait_data_ready, aux_mu_io_read. rewrite Hr. cbn.
  pose proof Hb as (Hw & Hf & Hl). replace (256 - length (text x))%nat with (S (255 - length (text x))) in Hw by lia.
  destruct (win_store _ cmd _ (length (text x)) 0 Hw) as (m2 & E2 & Hw2 & Hs2); [rewrite length_app; simpl; lia|].
  rewrite list_insert_id in Hw2 by (cbn [repeat]; by rewrite list_lookup_middle).
  assert (length (text x ++ repeat 0 (S (255 - length (text x)))) = 256%nat) as El by (rewrite length_app, repeat_length; lia).
  rewrite El in Hs2. unfold on_bytes, length_of. cbn. rewrite E2. cbn. eexists _. split; [done|]. split.
  - done.
  - split; [|done]. by replace (256 - length (text x))%nat with (S (255 - length (text x))) by lia.
  - cbn. transitivity (k_bytes (ks s)); [done|]. intros a Ha. apply Hs2. lia.
  - exact Hk.
Qed.

Lemma loop_ok keys : ∀ x s0 s rest, editing s0 s (flat_map key_bytes keys ++ 0x0d :: rest) (text x) → keys_ok keys x →
  ∃ s1, get_line_loop cmd prev_cmd (S (length keys)) line_prefix (cursor_of x) (length_of x) s =
      Ok (length_of (foldl (λ x k, edit k x) x keys), s1) ∧
    editing s0 s1 rest (text (foldl (λ x k, edit k x) x keys)).
Proof using Hprompt.
  induction keys as [|k keys IH]; intros x s0 s rest HE Hok.
  - destruct (enter_turn x _ _ _ HE) as (s1 & E & H1). exists s1. split; [|done]. cbn [get_line_loop length]. rewrite E. done.
  - destruct Hok as [Hk Hks]. cbn [flat_map] in HE. rewrite <- app_assoc in HE.
    destruct (key_turn k x _ _ _ HE Hk) as (t & s1 & E & H1 & Ht). cbn [length foldl].
    change (get_line_loop cmd prev_cmd (S (S (length keys)))) with (get_line_loop cmd prev_cmd (S (length (k :: keys)))).
    cbn [get_line_loop]. rewrite E. cbn [mbind res_bind]. destruct Ht as [-> | ->].
    + rewrite (flush_ok _ _ _ (ed_buffer _ _ _ _ H1)). cbn [mbind res_bind]. apply (IH _ _ _ _ (editing_emit _ _ _ _ _ H1) Hks).
    + apply (IH _ _ _ _ H1 Hks).
Qed.

(** C24: [get_line] is a line editor. From an empty buffer, whatever keys are typed
    (characters, Backspace, Delete, both arrows, Home, End, Ctrl+A, Ctrl+E and
    Ctrl+K, each arriving as its escape sequence) while the line stays within 255
    characters, and then Return: [get_line] consumes exactly these bytes and
    returns the length of the text that the abstract editor with a cursor
    computes, its buffer holds this text followed by zeros up to its end, every
    other byte of memory and the rest of the kernel are untouched, and it needs one
    turn of its loop for each key. The key that brings back the last line is left
    out, and so is what is printed meanwhile. *)
Theorem get_line_ok keys s rest : buffer (k_bytes (ks s)) [] → keys_ok keys ([], []) →
  rx (ser s) = flat_map key_bytes keys ++ 0x0d :: rest →
  let x := foldl (λ x k, edit k x) ([], []) keys in
  ∃ s', get_line cmd prev_cmd (S (length keys)) line_prefix s = Ok (Z.of_nat (length (text x)), s') ∧
    rx (ser s') = rest ∧ buffer (k_bytes (ks s')) (text x) ∧
    same_outside cmd 256 (k_bytes (ks s)) (k_bytes (ks s')) ∧ with_k_bytes ∅ (ks s') = with_k_bytes ∅ (ks s).
Proof using Hprompt.
  intros HB Hok Hrx x. unfold get_line, put_string, puts.
  assert (∀ s', editing s s' (flat_map key_bytes keys ++ 0x0d :: rest) (text ([], [])) →
    ∃ s1, get_line_loop cmd prev_cmd (S (length keys)) line_prefix 0 0 s' = Ok (length_of x, s1) ∧ editing s s1 rest (text x)) as Hrun.
  { intros s' HE. exact (loop_ok keys ([], []) s s' rest HE Hok). }
  rewrite (uart_puts_ok prompt_bytes); [|by apply lit_cstring|rewrite prompt_length; lia].
  cbn [mbind res_bind mret res_ret].
  destruct (Hrun (emit (flat_map uart_puts_byte prompt_bytes) s)) as (s1 & E & []); [by split|].
  rewrite E. exists s1. done.
Qed.

Lemma on_bytes_ok f s m' : f (k_bytes (ks s)) = Ok m' → on_bytes f s = Ok (with_ks (with_k_bytes m' (ks s)) s).
Proof using. intros E. unfold on_bytes. by rewrite E. Qed.

(** The 256th character of a line leaves the buffer without a terminating NUL
    (so that the redrawing of the line reads past it), and Return then stores the
    NUL behind the end of [cmd], over the byte [b] of whatever is there. *)
Theorem full_line_overflows cs c s rest b : buffer (k_bytes (ks s)) cs → length cs = 255%nat → plain c →
  rx (ser s) = c :: 0x0d :: rest → 0 ≤ cmd < 2 ^ 64 - 256 → k_bytes (ks s) !! (cmd + 256) = Some b →
  ∃ s1 s2, get_line_turn cmd prev_cmd 255 255 s = Ok (Flush 256 256, s1) ∧
    (∀ i, (i < 256)%nat → ∃ b, k_bytes (ks s1) !! (cmd + Z.of_nat i) = Some b ∧ b ≠ 0) ∧
    get_line_turn cmd prev_cmd 256 256 s1 = Ok (Return 256, s2) ∧
    k_bytes (ks s2) !! (cmd + 256) = Some 0.
Proof using.
  intros HB Hl Hc Hrx Hcmd Hb. pose proof Hc as [Hc0 Hni]. pose proof HB as (_ & Hf & _). rewrite !not_elem_of_cons in Hni.
  destruct Hni as (N1 & N2 & N3 & N4 & N5 & N6 & N7 & N8 & _).
  apply buffer_split in HB as [H1 _]; [|lia|done].
  destruct (strins_ok (k_bytes (ks s)) cmd cs (length cs) c H1 Hf) as (m' & E & Hw & Ho); [lia..|].
  rewrite firstn_all, drop_all, u8_small in Hw by lia. rewrite Hl in E, Ho. rewrite <- (Ho (cmd + 256)) in Hb by lia.
  set (s1 := with_ks (with_k_bytes m' (ks s)) (with_ser (with_rx (0x0d :: rest) (ser s)) s)).
  set (s2 := with_ks (with_k_bytes (<[cmd + 256 := 0]> m') (ks s)) (emit [0x0d; 0x0d; 0x0a] (with_ser (with_rx rest (ser s)) s))).
  exists s1, s2. split; [|split; [|split]].
  - assert (getc s = Ok (c, with_ser (with_rx (0x0d :: rest) (ser s)) s)) as Eg.
    { unfold getc, uart_getc, wait_data_ready, aux_mu_io_read. rewrite Hrx. cbn. by rewrite (proj2 (Z.eqb_neq c 0x0d)). }
    unfold get_line_turn. rewrite Eg. cbn [mbind res_bind].
    rewrite (proj2 (Z.eqb_neq c 0x08)), (proj2 (Z.eqb_neq c 0x7f)), (proj2 (Z.eqb_neq c 0x1b)), (proj2 (Z.eqb_neq c 0x1)), (proj2 (Z.eqb_neq c 0x5)),
      (proj2 (Z.eqb_neq c 0xb)), (proj2 (Z.eqb_neq c 0x0a)) by done. cbn [orb]. change (255 <? CMD_MAX_LEN) with true. cbv iota.
    rewrite (on_bytes_ok _ _ m') by exact E. reflexivity.
  - intros i Hi. assert (Forall (λ c, 0 < c < 256) (cs ++ [c])) as Hf' by (apply Forall_app; split; [done|by constructor]).
    destruct (lookup_lt_is_Some_2 (cs ++ [c]) i) as [x Hx]; [rewrite length_app; simpl; lia|].
    exists x. split; [by apply (win_lookup _ _ _ _ _ Hw)|]. rewrite Forall_lookup in Hf'. specialize (Hf' _ _ Hx). lia.
  - unfold get_line_turn. change (getc s1) with (Ok (0x0a, with_ser (with_rx rest (ser s)) s1) : res (Z * sstate)).
    cbn [mbind res_bind Z.eqb Pos.eqb orb].
    rewrite (on_bytes_ok _ _ (<[cmd + 256 := 0]> m')); [reflexivity|].
    unfold store8, load8. change (k_bytes (ks (with_ser (with_rx rest (ser s)) s1))) with m'. rewrite u64_small by lia. rewrite Hb. reflexivity.
  - change (<[cmd + 256 := 0]> m' !! (cmd + 256) = Some 0). by rewrite lookup_insert_eq.
Qed.

End editor.

(** "ac", an arrow to the left, "b" and Return, from the prompt. *)
Definition typed_keys : list key := [Char 97; Char 99; ArrowLeft; Char 98].
Definition shell_ex : sstate :=
  Sys (with_k_bytes (bytes_mem 0x1000 (repeat 0 256)) (K (TState (MState 0 0 ∅ (Lmem ∅ ∅) (LockSt 1 false)) 0 ∅ ∅ hw_ex) ∅ ∅ ∅ 0 0 0 (cxt_ex 0) 0))
    ∅ (with_rx (flat_map key_bytes typed_keys ++ [0x0d]) uart_reset) (VCore [] [] [] []) ∅.

Lemma get_line_ok_witness : ∃ s', get_line 0x1000 0x2000 5 CMD_PREFIX shell_ex = Ok (3, s') ∧ buffer 0x1000 (k_bytes (ks s')) [97; 98; 99].
Proof.
  destruct (get_line_ok 0x1000 0x2000 CMD_PREFIX ltac:(repeat constructor; lia) typed_keys shell_ex []) as (s' & E & _ & Hb & _).
  - split; [|split; [constructor|simpl; lia]]. apply bytes_mem_window; [lia|simpl; lia|apply Forall_forall; intros c Hc; apply list_elem_of_In, repeat_spec in Hc as ->; lia].
  - assert (∀ c, 96 < c < 100 → plain c) as Hp by (intros c Hc; split; [lia|rewrite !not_elem_of_cons; repeat split; try lia; by intros ?%elem_of_nil]).
    simpl. repeat split; try (apply Hp; lia); simpl; lia.
  - reflexivity.
  - exists s'. split; [exact E|exact Hb].
Defined.

Lemma full_line_overflows_witness : ∃ s, let cs := repeat 97 255 in
  buffer 0x1000 (k_bytes (ks s)) cs ∧ rx (ser s) = [97; 0x0d] ∧
  ∃ s1 s2, get_line_turn 0x1000 0x2000 255 255 s = Ok (Flush 256 256, s1) ∧ get_line_turn 0x1000 0x2000 256 256 s1 = Ok (Return 256, s2) ∧
    k_bytes (ks s) !! 0x1100 = Some 7 ∧ k_bytes (ks s2) !! 0x1100 = Some 0.
Proof.
  set (m := bytes_mem 0x1000 (repeat 97 255 ++ [0; 7])).
  set (s := with_ser (with_rx [97; 0x0d] uart_reset) (with_ks (with_k_bytes m (ks shell_ex)) shell_ex)).
  exists s. intros cs. assert (window m 0x1000 (repeat 97 255 ++ [0; 7])) as Hw.
  { apply bytes_mem_window; [lia|simpl; lia|]. repeat (apply Forall_cons; split; [lia|]). constructor. }
  assert (buffer 0x1000 (k_bytes (ks s)) cs) as HB.
  { split; [|split; [|simpl; lia]].
    - change (window m 0x1000 (repeat 97 255 ++ [0])). pose proof (window_app m 0x1000 (repeat 97 255 ++ [0]) [7]) as [H _]. rewrite <- app_assoc in H. apply (H Hw).
    - repeat (apply Forall_cons; split; [lia|]). constructor. }
  destruct (full_line_overflows 0x1000 0x2000 cs 97 s [] 7 HB) as (s1 & s2 & E1 & _ & E2 & E3).
  - reflexivity.
  - split; [lia|]. rewrite !not_elem_of_cons. repeat split; try lia. apply not_elem_of_nil.
  - reflexivity.
  - lia.
  - apply (win_lookup m 0x1000 _ 256 7 Hw). reflexivity.
  - split; [exact HB|]. split; [reflexivity|]. exists s1, s2. split; [exact E1|]. split; [exact E2|]. split; [|exact E3].
    apply (win_lookup m 0x1000 _ 256 7 Hw). reflexivity.
Defined.
