(* ===== verification/Main.v ===== *)
(** kernel/main.c: the boot of the kernel, which puts the state of every component
    together, and the start of its first program. *)
From S2P Require Import Prelude Util ListHead Lock Mem CString Dtb DtbWalk Malloc Buddy Reserve Heap Alloc KAlloc Ram Mmu Cpio Mmio Ordered Uart Event Timer Thread Sched RunQueue Spawn Areas Exec Syscall Kill Typed Except Shell.
Local Open Scope Z_scope.

(** The whole machine: threads, memory and UART; the queue of interrupt work; the
    device registers [uart_init] and the interrupt controller use; the globals of
    the initramfs. *)
Record machine := Machine { core : sstate; work : evq; dev : mmio; initrd : ramfs }.

(** The name of the program [main] starts. *)
Definition first_program : string := "vm.img".

Section main.
Context (kl : klayout) (ly : layout) (raw : Z → frame) (garbage : Z → Z).

(** [init_threads] to [timer_enable]. *)
Definition start_components (alloc : Z → mstate → res (Z * mstate)) (x : evq * sstate) : res (evq * sstate) :=
  let '(q, s) := x in
  k ← init_threads kl alloc (ks s);
  t ← init_timer_list alloc (tm k);
  let s := with_ks (with_tm t k) s in
  e ← init_irq_event alloc (ev_open q s);
  mret (ev_close e, on_hw timer_enable (ev_kernel e s)).

(** [main] up to [timer_enable]. *)
Definition setup (dtb : Z) (x : machine) : res machine :=
  let dtb_addr := PHYS_TO_VIRT dtb in
  let s := core x in
  let m := k_bytes (ks s) in
  d ← uart_init (dev x);
  g ← fdt_traverse m dtb_addr (fdt_callback_initramfs m) (initrd x);
  h ← init_allocator ly raw (λ cb, dtb_reserve_mem m dtb_addr cb) (cpio_ramfs g) (cpio_ramfs_end g) (k_heap (ks s));
  let h := with_lk (enable_el1_interrupt (lk h)) h in
  d ← enable_uart_interrupt d;
  '(q, s) ← start_components (kmalloc ly) (work x, with_ks (with_k_heap h (ks s)) s);
  mret (Machine s q d g).

(** The program starts, or [main] returns when there is none. *)
Definition main (dtb : Z) (x : machine) : res (machine * option eret_regs) :=
  x ← setup dtb x;
  '(_, (s, r)) ← traverse_exec kl (kmalloc ly) (cpio_ramfs (initrd x)) garbage (lit first_program) (core x);
  mret (Machine s (work x) (dev x) (initrd x), r).
End main.

(** ** A new list head *)

Section client.
Context `{KA : KAlloc alloc}.

Lemma ka_new_ring s L g n k : ka_inv s L g → 0 ≤ n ≤ 0x200 → ka_room g (S k) →
  ∃ p h L' g', alloc n s = Ok (p, h) ∧ lk h = lk s ∧ ka_inv (with_lm (INIT_LIST_HEAD (lm h) p) h) L' g' ∧ ka_room g' k ∧
    ¬ ka_private p ∧ L' !! p = Some [] ∧ agree_on (λ q, ¬ ka_private q ∧ q ≠ p) L L' ∧
    (∀ q l, ¬ ka_private q → L !! q = Some l → q ≠ p) ∧
    (∀ q, ka_static g q → q ≠ p ∧ ka_static g' q ∧ (node L' q → node L q)) ∧ (ka_tidy g → ka_tidy g').
Proof.
  intros HI Hn HR. destruct (ka_alloc _ _ _ n k HI ltac:(lia) HR) as
    (p & c & h & L1 & g1 & E & Hk & HI1 & HR1 & Ha & Hnn & _ & Hsmall & _ & Hlive & Hstatic & Htidy).
  assert (¬ ka_private p) as Hp by (intros Hp; by apply Hnn, (ka_private_node _ _ _ _ HI1)).
  exists p, h, (<[p := []]> L1), g1. split_and!; [done|done| |done|done|by rewrite lookup_insert_eq| | | |by intros [? _]%Htidy].
  - apply ka_set_ring; [done|done| |].
    + apply INIT_LIST_HEAD_head; [by eapply ka_lists|done].
    + intros q [->|Hq]%elem_of_cons; [|by apply not_elem_of_nil in Hq]. right. right. exists c. split; [apply Hsmall; lia|].
      apply Hlive. by right.
  - intros q [Hq Hne]. rewrite lookup_insert_ne by done. by apply Ha.
  - intros q l Hq Hl ->. apply Hnn. apply (node_elem L1 p l); [by rewrite Ha|by left].
  - intros q Hq. destruct (Hstatic q Hq) as (H1 & H2 & H3). split; [done|]. split; [done|].
    intros [Hx|Hx]%node_insert; [|by apply H3]. apply elem_of_cons in Hx as [->|Hx]; [done|by apply not_elem_of_nil in Hx].
Qed.

(** Two of them, apart from each other and from the rings there were. *)
Lemma ka_two_rings s L g n1 n2 k : ka_inv s L g → 0 ≤ n1 ≤ 0x200 → 0 ≤ n2 ≤ 0x200 → ka_room g (2 + k) →
  ∃ p h q h' L' g', alloc n1 s = Ok (p, h) ∧ alloc n2 (with_lm (INIT_LIST_HEAD (lm h) p) h) = Ok (q, h') ∧
    ka_inv (with_lm (INIT_LIST_HEAD (lm h') q) h') L' g' ∧ lk h' = lk s ∧ ¬ ka_private p ∧ ¬ ka_private q ∧ p ≠ q ∧
    L' !! p = Some [] ∧ L' !! q = Some [] ∧ (∀ r l, ¬ ka_private r → L !! r = Some l → L' !! r = Some l ∧ r ≠ p ∧ r ≠ q) ∧
    (∀ r, ka_static g r → ka_static g' r ∧ (node L' r → node L r)) ∧ (ka_tidy g → ka_tidy g') ∧ ka_room g' k.
Proof.
  intros HI H1 H2 HR. destruct (ka_new_ring s L g n1 (S k) HI H1 HR) as (p & h & L1 & g1 & E & Hk & HI1 & HR1 & Hp & Hring & Ha & Hd & Hs1 & HT1).
  destruct (ka_new_ring _ L1 g1 n2 k HI1 H2 HR1) as (q & h' & L2 & g2 & E2 & Hk2 & HI2 & HR2 & Hq & Hring2 & Ha2 & Hd2 & Hs2 & HT2).
  assert (p ≠ q) as Hpq by (by apply (Hd2 p [])). exists p, h, q, h', L2, g2.
  split; [done|]. split; [done|]. split; [done|]. split; [by rewrite Hk2|]. split; [done|]. split; [done|]. split; [done|].
  split; [by rewrite Ha2|]. split; [done|]. split; [|split; [|split; [by intros ?%HT1%HT2|done]]].
  - intros r l Hr Hl. assert (r ≠ p) as N1 by (by apply (Hd r l)).
    assert (L1 !! r = Some l) as Hl1 by (by rewrite Ha). assert (r ≠ q) as N2 by (by apply (Hd2 r l)). split; [by rewrite Ha2|done].
  - intros r Hr. destruct (Hs1 r Hr) as (_ & S1 & N1). destruct (Hs2 r S1) as (_ & S2 & N2). split; [done|]. intros Hx. by apply N1, N2.
Qed.
End client.

(** ** The threads *)

Section threads.
Context (kl : klayout) `{KA : KAlloc alloc}.

Definition unused_slot (i : Z) (t : thread) : thread := with_state THREAD_UNUSED (with_pid i t).

(** The loop of [init_threads], [i] turns in, from the threads [T0]. *)
Definition slots_set (T0 : gmap Z thread) (i : Z) (T : gmap Z thread) : Prop :=
  ∀ j, 0 ≤ j ≤ PID_MAX → ∃ t, T0 !! thread_at kl j = Some t ∧ T !! thread_at kl j = Some (if j <? i then unused_slot j t else t).

Lemma slots_loop s : (∀ i, 0 ≤ i ≤ PID_MAX → is_Some (threads s !! thread_at kl i)) →
  ∃ T, for_loop (Z.to_nat (PID_MAX + 1)) 0 (λ i s,
        s ← upd_thread (thread_at kl i) (with_pid i) s;
        upd_thread (thread_at kl i) (with_state THREAD_UNUSED) s) s = Ok (with_threads T s) ∧
    slots_set (threads s) (PID_MAX + 1) T.
Proof using.
  intros Hall. destruct (for_loop_inv (λ i s', ∃ T, s' = with_threads T s ∧ slots_set (threads s) i T)
    (λ i s, s ← upd_thread (thread_at kl i) (with_pid i) s; upd_thread (thread_at kl i) (with_state THREAD_UNUSED) s)
    (Z.to_nat (PID_MAX + 1)) 0 s) as (s' & E & T & -> & HT).
  - exists (threads s). split; [by destruct s|]. intros j Hj. destruct (Hall j Hj) as [t Ht]. exists t. split; [done|].
    by rewrite (proj2 (Z.ltb_ge j 0)) by lia.
  - intros j s1 Hj (T & -> & HT). rewrite Z2Nat.id in Hj by (unfold PID_MAX; lia).
    destruct (HT j) as (t & Ht & Hj'); [lia|]. rewrite Z.ltb_irrefl in Hj'.
    unfold upd_thread, get_thread. cbn [with_threads threads]. rewrite Hj'. cbn [load mbind res_bind mret res_ret with_threads threads].
    rewrite lookup_insert_eq. cbn [load mbind res_bind mret res_ret]. eexists. split; [reflexivity|].
    eexists. split; [reflexivity|]. intros i Hi. rewrite insert_insert_eq. destruct (decide (i = j)) as [->|Hne].
    + exists t. split; [done|]. rewrite lookup_insert_eq. by rewrite (proj2 (Z.ltb_lt j _)) by lia.
    + destruct (HT i Hi) as (t' & Ht' & Hi'). exists t'. split; [done|]. rewrite lookup_insert_ne by (intros Hc%thread_at_inj; lia).
      rewrite Hi'. destruct (Z.ltb_spec i j), (Z.ltb_spec i (j + 1)); (done || lia).
  - exists T. split; [exact E|]. by rewrite Z2Nat.id in HT by (unfold PID_MAX; lia).
Qed.

(** Every entry of the array from [i] on is outside every list. *)
Definition slots_free (i : Z) (L : rings) (g : ka_ghost) : Prop :=
  ∀ j, i ≤ j ≤ PID_MAX → thread_at kl j ≠ 0 ∧ slot_free L g (thread_at kl j).

Lemma slots_keep i L g L' g' : slots_free i L g → (∀ j q, i ≤ j ≤ PID_MAX → q = thread_at kl j ∨ q = vma_list (thread_at kl j) →
  ka_static g q → ka_static g' q ∧ (node L' q → node L q)) → slots_free i L' g'.
Proof using.
  intros Hs Hk j Hj. destruct (Hs j Hj) as [Hne [[S1 S2] [N1 N2]]]. split; [done|].
  destruct (Hk j (thread_at kl j) Hj (or_introl eq_refl) S1) as [S1' N1'], (Hk j _ Hj (or_intror eq_refl) S2) as [S2' N2'].
  split; [done|]. split; [intros Hx; by apply N1, N1'|intros Hx; by apply N2, N2'].
Qed.

(** One thread, [idle], in the run queue and on the processor. *)
Record idle_only (s : kstate) (L : rings) : Prop := {
  io_queue : queue_ok s L [thread_at kl 0];
  io_curr : curr_thread s = thread_at kl 0 ∧ tpidr_el1 s = thread_at kl 0 ∧ nxt_pid s = 1;
  io_idle : ∃ t, threads s !! thread_at kl 0 = Some t ∧ state t = THREAD_RUNNING ∧ pid t = 0 ∧ lr (cxt t) = idle_addr kl;
  io_areas : L !! vma_list (thread_at kl 0) = Some [];
  io_slots : ∀ i, 0 < i ≤ PID_MAX → ∃ t, threads s !! thread_at kl i = Some t ∧ state t = THREAD_UNUSED ∧ pid t = i;
}.

Lemma init_threads_ok s L g k b : ka_inv (k_heap s) L g → ka_room g (S (4 + k)) → lk (k_heap s) = LockSt 0 b →
  (∀ i, 0 ≤ i ≤ PID_MAX → is_Some (threads s !! thread_at kl i)) → slots_free 0 L g →
  ∃ s' L' g', init_threads kl alloc s = Ok s' ∧ ka_inv (k_heap s') L' g' ∧ ka_room g' k ∧ idle_only s' L' ∧
    ¬ ka_private (rq s') ∧ lk (k_heap s') = LockSt 0 true ∧ k_bytes s' = k_bytes s ∧ slots_free 1 L' g' ∧ (ka_tidy g → ka_tidy g') ∧ (∀ q, ka_static g q → ka_static g' q).
Proof using.
  intros HI HR Hlk Hall Hsf. destruct (Hsf 0) as [Hne [[Hs1 Hs2] [Ho1 Ho2]]]; [done|]. unfold init_threads.
  destruct (ka_new_ring (k_heap (with_nxt_pid 0 (k_lock s))) L g sizeof_list_head (4 + k)) as
    (p & h & L1 & g1 & E & Hk & HI1 & HR1 & Hp & Hring & Ha & Hhead & Hst & Hti); [by apply ka_lock|by unfold sizeof_list_head|done|].
  unfold k_alloc. rewrite E. cbn [mbind res_bind mret res_ret].
  set (s1 := with_k_lm (INIT_LIST_HEAD (lm h) p) (with_rq p (with_k_heap h (with_nxt_pid 0 (k_lock s))))).
  destruct (slots_loop s1) as (T & ET & HT); [exact Hall|].
  match goal with |- context [for_loop ?n ?i ?f ?x] => change (for_loop n i f x) with (for_loop n i f s1) end.
  rewrite ET. cbn [mbind res_bind].
  destruct (HT 0) as (t0 & Ht0 & HT0); [unfold PID_MAX; lia|].
  destruct (thread_create_run kl (with_threads T s1) L1 g1 [] 0 k (unused_slot 0 t0) (idle_addr kl) 0x4000) as
    (s2 & L2 & g2 & t & E2 & HC & HR2 & Hn2); [exact HI1|exact HR1|exact Hring|exact Hp|done|done|exact Hne|exact HT0| |lia|].
  { destruct (Hst _ Hs1) as (_ & S1 & N1), (Hst _ Hs2) as (_ & S2 & N2). split; [done|]. split; [intros Hx; by apply Ho1, N1|intros Hx; by apply Ho2, N2]. }
  rewrite E2. cbn [mbind res_bind mret res_ret].
  destruct HC as [C1 C2 C3 C4 C5 [C6 [C7 C8]] [C9 _] C10 C11 C12 C13 C14 C15 C16 _ C17]. injection C15 as R1 R2 R3 R4 R5 R6.
  eexists _, L2, g2. split; [reflexivity|]. split; [by apply ka_lock|]. split; [done|]. split; [|split; [change (¬ ka_private (rq s2)); rewrite R1; exact Hp|split; [|split; [exact R6|split; [|split; [by intros [? _]%Hti%C17|by intros q (_ & (? & _)%C16 & _)%Hst]]]]]].
  - split.
    + split; [exact (ka_lists _ _ _ C1)|exact C2|by apply list_elem_of_singleton|..]; cbn [k_unlock with_k_heap with_tm with_tpidr_el1 with_curr_thread threads tpidr_el1]; rewrite C5.
      * intros q ->%list_elem_of_singleton. by rewrite lookup_insert_eq.
      * by rewrite lookup_insert_eq.
    + split; [done|]. split; [done|]. exact Hn2.
    + exists t. split; [cbn; by rewrite C5, lookup_insert_eq|]. split; [done|]. split; [by rewrite C7|done].
    + exact C3.
    + intros i Hi. destruct (HT i) as (ti & _ & HTi); [lia|]. rewrite (proj2 (Z.ltb_lt i _)) in HTi by lia.
      exists (unused_slot i ti). split; [|done]. cbn. rewrite C5, lookup_insert_ne; [exact HTi|]. intros Hc%thread_at_inj. lia.
  - change (unlock (lk (k_heap s2)) = LockSt 0 true). rewrite C14.
    change (unlock (unlock (lock (lk h))) = LockSt 0 true). rewrite Hk. change (unlock (unlock (lock (lock (lk (k_heap s))))) = LockSt 0 true).
    by rewrite Hlk.
  - apply (slots_keep 1 L g); [intros j Hj; apply Hsf; lia|]. intros j q Hj Hq Hq0. destruct (Hst q Hq0) as (_ & S1 & N1), (C16 q S1) as (S2 & N2).
    split; [done|]. intros Hx. destruct (N2 Hx) as [Hy|Hy]; [by apply N1|]. exfalso. unfold vma_list, thread_at, sizeof_thread in *. lia.
Qed.

(** All that [main] starts, in one heap. *)
Record started (q : evq) (s : sstate) (L : rings) (g : ka_ghost) : Prop := {
  st_heap : ka_inv (k_heap (ks s)) L g;
  st_threads : idle_only (ks s) L;
  st_timers : L !! timer_task_head (tm (ks s)) = Some [];
  st_events : L !! ev_head q = Some [];
  st_heads : ¬ ka_private (rq (ks s)) ∧ ¬ ka_private (timer_task_head (tm (ks s))) ∧ ¬ ka_private (ev_head q);
  st_apart : NoDup [rq (ks s); timer_task_head (tm (ks s)); ev_head q];
  st_on : lk (k_heap (ks s)) = LockSt 0 true ∧ cntp_ctl_el0 (hw (tm (ks s))) = 1;
  st_slots : slots_free 1 L g;
}.

Lemma start_components_ok q s L g k b : ka_inv (k_heap (ks s)) L g → ka_room g (7 + k) → lk (k_heap (ks s)) = LockSt 0 b →
  (∀ i, 0 ≤ i ≤ PID_MAX → is_Some (threads (ks s) !! thread_at kl i)) → slots_free 0 L g → blank kl (ks s) →
  ∃ q' s' L' g', start_components kl alloc (q, s) = Ok (q', s') ∧ started q' s' L' g' ∧ kernel_typed kl (ks s') ∧ k_bytes (ks s') = k_bytes (ks s) ∧
    (ka_tidy g → ka_tidy g') ∧ ka_room g' k ∧ (∀ p, ka_static g p → ka_static g' p).
Proof using.
  intros HI HR Hlk Hall Hsf Hbl. pose proof (proj2 (Hsf 0 ltac:(done))) as Hfree.
  destruct (init_threads_ok (ks s) L g (2 + k) b HI HR Hlk Hall Hsf) as (k' & L1 & g1 & E1 & HI1 & HR1 & [HQ Hcurr Hidle Hvm Hslots] & Hrq & Hk1 & Hb1 & Hsl & Ht1 & Hs1).
  assert (kernel_typed kl k') as Hty by (apply (init_threads_typed kl _ _ _ E1 Hbl)).
  unfold start_components. rewrite E1. cbn [mbind res_bind].
  destruct (ka_two_rings (k_heap k') L1 g1 sizeof_list_head sizeof_irq_event k HI1) as
    (p & h2 & r & h3 & L3 & g3 & E2 & E3 & HI3 & Hk3 & Hp & Hq & Hpq & Rp & Rq & Hkeep & Hstat & Ht3 & HR3); [by unfold sizeof_list_head|by unfold sizeof_irq_event|done|].
  unfold init_timer_list. change (heap (tm k')) with (k_heap k'). rewrite E2. cbn [mbind res_bind mret res_ret].
  unfold init_irq_event. match goal with |- context [alloc sizeof_irq_event ?h] => change h with (with_lm (INIT_LIST_HEAD (lm h2) p) h2) end.
  rewrite E3. cbn [mbind res_bind mret res_ret].
  destruct (Hkeep _ _ Hrq (qu_ring _ _ _ HQ)) as (Q3 & N2 & N3).
  assert (¬ ka_private (vma_list (thread_at kl 0))) as Hpv by (intros Hp'; by apply (proj2 (sl_out _ _ _ Hfree)), (ka_private_node _ _ _ _ HI)).
  destruct (Hkeep _ _ Hpv Hvm) as (V3 & _ & _).
  rewrite Hk1 in Hk3. eexists _, _, L3, g3. split; [reflexivity|]. split; [|split; [exact Hty|split; [exact Hb1|split; [by intros ?%Ht1%Ht3|split; [exact HR3|by intros y (? & _)%Hs1%Hstat]]]]].
  split; [exact HI3| |exact Rp|exact Rq|exact (conj Hrq (conj Hp Hq))| |exact (conj Hk3 eq_refl)|].
  - destruct HQ as [_ _ C3 C4 C5]. split; [|exact Hcurr|exact Hidle|exact V3|exact Hslots].
    split; [exact (ka_lists _ _ _ HI3)|exact Q3|exact C3|exact C4|exact C5].
  - change (NoDup [rq k'; p; r]). rewrite !NoDup_cons, !elem_of_cons, !elem_of_nil. naive_solver constructor.
  - apply (slots_keep 1 L1 g1 _ _ Hsl). intros j y _ _. apply Hstat.
Qed.
End threads.

(** ** The boot *)

Section boot.
Context (kl : klayout) (ly : layout) (Hly : layout_ok ly).
#[local] Instance boot_KAlloc : KAlloc (kmalloc ly) := kmalloc_KAlloc ly Hly.
#[local] Instance boot_SmallAlloc : SmallAlloc (kmalloc ly) := kmalloc_SmallAlloc ly Hly.

(** [k] chunks of 64 pages that no reservation touches. *)
Definition boot_space (rs : list (Z * Z)) (k : nat) : Prop :=
  Forall (λ r, page_down r.1 < page_up r.2) rs ∧
  ∃ l, length l = k ∧ NoDup l ∧ Forall (λ j, (0 ≤ j < FRAMES_COUNT ∧ j mod 64 = 0) ∧
    ∀ x, j ≤ x < j + 64 → Forall (λ r, ¬ in_range x r) rs) l.
Definition boot_top : Z := align_up (u64 (heap_start ly + FRAMES_COUNT * sizeof_frame)) 0x10.

(** Data of the kernel's image or of the initramfs that the allocator does not use. *)
Definition fixed_data (cpio : Z * Z) (p : Z) : Prop :=
  (kernel_start ly ≤ p < kernel_end ly ∨ cpio.1 ≤ p < cpio.2) ∧ ¬ alloc_node ly p.

(** What the boot finds: cleared globals with the whole array of threads in the
    kernel's image, interrupts off, the registers of the UART, and a device tree at
    [h] with one memory reservation and an initramfs, which leave room. *)
Record bootable (h : Z) (x : machine) (res_ cpio : Z * Z) : Prop := {
  bo_heap : heap_top (k_heap (ks (core x))) = heap_start ly ∧ lk (k_heap (ks (core x))) = LockSt 0 false;
  bo_regs : ∃ e r v, regs (dev x) !! AUX_ENABLE = Some e ∧ regs (dev x) !! GPFSEL1 = Some r ∧ regs (dev x) !! IRQs1 = Some v ∧
    0 ≤ e < 2 ^ 32 ∧ 0 ≤ r < 2 ^ 32;
  bo_tree : ∃ off names items name_of, device_tree (k_bytes (ks (core x))) h off names items ∧
    Forall (named (k_bytes (ks (core x))) (h + names) name_of) items ∧
    foldl (found_ramfs name_of) (initrd x) items = Ramfs cpio.1 cpio.2;
  bo_reserve : ∃ start size, dtb_reserves (k_bytes (ks (core x))) h start size ∧ res_ = (PHYS_TO_VIRT start, u64 (PHYS_TO_VIRT start + size));
  bo_ranges : range_ok res_ ∧ range_ok cpio;
  bo_space : boot_space (boot_ranges ly res_ cpio boot_top) 17;
  bo_threads : blank kl (ks (core x)) ∧ ∀ i, 0 ≤ i ≤ PID_MAX → is_Some (threads (ks (core x)) !! thread_at kl i);
  bo_image : ∀ i, 0 ≤ i ≤ PID_MAX → thread_at kl i ≠ 0 ∧ fixed_data cpio (thread_at kl i) ∧ fixed_data cpio (vma_list (thread_at kl i));
}.

(** What it leaves: the invariants of every component, in one heap. *)
Record booted (cpio : Z * Z) (x : machine) (L : rings) (g : blocks * carving) : Prop := {
  bd_heap : heap_inv ly (k_heap (ks (core x))) L g.1 g.2;
  bd_threads : idle_only kl (ks (core x)) L;
  bd_typed : kernel_typed kl (ks (core x));
  bd_timers : timer_inv (tm (ks (core x))) L g [];
  bd_events : event_inv (ev_open (work x) (core x)) L g [];
  bd_apart : NoDup [rq (ks (core x)); timer_task_head (tm (ks (core x))); ev_head (work x)];
  bd_on : lk (k_heap (ks (core x))) = LockSt 0 true ∧ cntp_ctl_el0 (hw (tm (ks (core x)))) = 1;
  bd_slots : slots_free kl 1 L g;
  bd_aligned : aligned g.1;
  bd_room : big_blocks g.1 10;
  bd_heads : ¬ alloc_head ly (rq (ks (core x)));
  bd_fixed : ∀ p, fixed_data cpio p → kernel_static ly g p;
}.

Lemma uart_init_irqs d d' v : regs d !! IRQs1 = Some v → uart_init d = Ok d' → regs d' !! IRQs1 = Some v.
Proof using.
  intros Hv E. unfold uart_init in E. apply bind_Ok in E as (e & _ & E). apply bind_Ok in E as (r & _ & E). injection E as <-.
  unfold reg_write. cbn [regs]. by rewrite !lookup_insert_ne by done.
Qed.

Lemma image_static s L B p res_ cpio : heap_inv ly s L B ∅ → fixed_data cpio p →
  (∀ x, free_frame B x ↔ 0 ≤ x < FRAMES_COUNT ∧ Forall (λ r, ¬ in_range x r) (boot_ranges ly res_ cpio (heap_top s))) →
  (∀ p, node L p → alloc_node ly p) → kernel_static ly (B, ∅) p ∧ ¬ node L p.
Proof using.
  intros HI [Hp Hna] HF HN. split; [|intros Hx; by apply Hna, HN]. split.
  - intros j Hj ->. apply Hna. right. right. by exists j.
  - intros x _ Hin. split; [|apply lookup_empty]. intros [_ Hf]%HF.
    destruct Hp as [Hp|Hp]; apply (in_page_in_range _ _ _ _ Hp) in Hin;
    unfold boot_ranges in Hf; rewrite !Forall_cons in Hf; tauto.
Qed.

Lemma boot_room s B res_ cpio k : boot_space (boot_ranges ly res_ cpio (heap_top s)) k →
  (Forall (λ r, page_down r.1 < page_up r.2) (boot_ranges ly res_ cpio (heap_top s)) →
    ∀ j, 0 ≤ j < FRAMES_COUNT → j mod 64 = 0 →
    (∀ x, j ≤ x < j + 64 → Forall (λ r, ¬ in_range x r) (boot_ranges ly res_ cpio (heap_top s))) → B !! j = Some (MAXORDER, Avail)) →
  big_blocks B k.
Proof using.
  intros [Hne (l & Hl & Hnd & Hf)] HW. exists l. split; [done|]. split; [done|]. eapply Forall_impl; [exact Hf|].
  intros j [[Hj Hm] Hx]. by apply HW.
Qed.

Lemma setup_run raw dtb x res_ cpio : (∀ i, val (raw i) = 0) → bootable (PHYS_TO_VIRT dtb) x res_ cpio →
  ∃ x' L g, setup kl ly raw dtb x = Ok x' ∧ booted cpio x' L g ∧ initrd x' = Ramfs cpio.1 cpio.2 ∧
    k_bytes (ks (core x')) = k_bytes (ks (core x)).
Proof using.
  intros Hraw [[Htop Hlk] (e & r & v & Re & Rr & Rv & Ee & Er) (off & names & items & name_of & HD & HN & HF)
    (start & size & HR & ->) [Hr1 Hr2] Hsp [Hbl Hall] Hi].
  destruct (uart_init_ok _ _ _ Re Rr Ee Er) as (d & _ & Ed & _).
  pose proof (initramfs_run _ _ _ _ _ _ (initrd x) HD HN) as Eg. rewrite HF in Eg.
  destruct (init_heap_ok ly Hly raw Hraw (k_heap (ks (core x))) (λ cb, dtb_reserve_mem (k_bytes (ks (core x))) (PHYS_TO_VIRT dtb) cb)
    (PHYS_TO_VIRT start, u64 (PHYS_TO_VIRT start + size)) cpio) as (h & L & B & Eh & HI & HA & Hk & Ht & HFF & HW & HNN);
    [exact Htop|rewrite Hlk; by split|exact Hr1|exact Hr2|intros s1; exact (dtb_reserve_mem_ok _ _ _ _ _ _ HR)|].
  rewrite Hlk in Hk. set (h1 := with_lk (enable_el1_interrupt (lk h)) h).
  assert (big_blocks B 17) as HB by (refine (boot_room _ _ _ _ _ _ HW); by rewrite Ht).
  assert (slots_free kl 0 L ((B, ∅) : kernel_ghost)) as Hsf.
  { intros i Hpid. destruct (Hi i Hpid) as (Hne & Hi0 & Hi1).
    destruct (image_static _ _ _ _ _ _ HI Hi0 HFF HNN) as [S0 N0], (image_static _ _ _ _ _ _ HI Hi1 HFF HNN) as [S1 N1].
    split; [exact Hne|exact (Build_slot_free _ _ _ _ _ (conj S0 S1) (conj N0 N1))]. }
  destruct (@start_components_ok kl _ boot_KAlloc (work x) (with_ks (with_k_heap h1 (ks (core x))) (core x)) L ((B, ∅) : kernel_ghost) 10 true) as
    (q & s & L' & g & E & HS & Hty & Hb & Hal & HR9 & Hfx);
    [exact (heap_lock ly _ _ _ _ _ HI)|exact HB|change (LockSt (lock_counter (lk h)) true = LockSt 0 true); rewrite Hk; reflexivity|
     exact Hall|exact Hsf|exact Hbl|].
  assert (enable_uart_interrupt d = Ok (reg_write IRQs1 (Z.lor v (Z.shiftl 1 29)) d)) as Ei
    by (unfold enable_uart_interrupt, reg_read; by rewrite (uart_init_irqs _ _ _ Rv Ed)).
  exists (Machine s q (reg_write IRQs1 (Z.lor v (Z.shiftl 1 29)) d) (Ramfs cpio.1 cpio.2)), L', g.
  split; [|split; [|split; [reflexivity|exact Hb]]].
  { unfold setup. cbv zeta. res_apply Ed. res_apply Eg. res_apply Eh. res_apply Ei. res_apply E. reflexivity. }
  destruct HS as [S2 S3 S4 S5 (S6 & S7 & S8) S9 S10 S11]. split; [exact S2|exact S3|exact Hty| | |exact S9|exact S10|exact S11|by apply Hal|exact HR9|exact S6|].
  - split; [exact S2|exact S7|exact S4|intros ? ? []%not_elem_of_nil|constructor].
  - split; [exact S2|exact S8|exact S5|intros ? ? []%not_elem_of_nil|constructor|]. change (lock_wf (lk (k_heap (ks s)))). rewrite (proj1 S10).
    split; [split; [done|reflexivity]|intros Hc; inversion Hc].
  - intros y Hy. apply Hfx. by apply (image_static _ _ _ _ _ _ HI Hy HFF HNN).
Qed.

(** C2: The boot puts the kernel together. From cleared globals, with a device tree
    that gives a memory reservation and an initramfs and leaves seventeen large chunks
    of memory, [main] reaches its end: the heap satisfies its invariant, the idle
    thread is the only one in the run queue and runs, every other slot is unused,
    the table of threads is well-formed, the queues of timers and of interrupt work
    are empty and apart, the address of the initramfs is the device tree's,
    interrupts are on, no lock is held and the timer counts. The memory behind the
    kernel image that becomes the frame array must have zeros in its [val] fields:
    [init_allocator] sets few of them, and the start-up code clears only .bss. *)
Theorem setup_ok raw dtb x res_ cpio : (∀ i, val (raw i) = 0) → bootable (PHYS_TO_VIRT dtb) x res_ cpio →
  ∃ x' L g, setup kl ly raw dtb x = Ok x' ∧ booted cpio x' L g ∧ initrd x' = Ramfs cpio.1 cpio.2 ∧
    k_bytes (ks (core x')) = k_bytes (ks (core x)).
Proof using Hly. apply setup_run. Qed.

(** ** The first program *)

(** [cpio_traverse] with [cpio_exec] runs the first file with the name. *)
Lemma traverse_exec_run garbage base name cs s fs tr : archive_ok fs tr → window (k_bytes (ks s)) base (archive fs tr) →
  in_memory base (length (archive fs tr)) → cstring name cs → Z.of_nat (length cs) < 2 ^ 32 →
  Forall (λ f, Z.of_nat (length (f_name f)) < 2 ^ 32) fs → (length cs < mem_fuel (k_bytes (ks s)))%nat →
  traverse_exec kl (kmalloc ly) base garbage name s =
    match file_at base fs cs with
    | Some (data, size) => x ← cpio_exec kl (kmalloc ly) garbage data size (s, None); mret (Called, x)
    | None => Ok (NotFound, (s, None))
    end.
Proof using.
  intros Har Hw Hin Hs Hl Hn Hf. unfold traverse_exec, cpio_traverse, strlen.
  rewrite (strlen_from_ok cs) by (done || lia). rewrite Z.add_0_l. cbn [mbind res_bind].
  rewrite (cpio_traverse_from_ok _ _ _ _ name cs tr (s, None) fs base); [done|done|apply Hw|done|done|done| |done].
  by apply (archive_fuel _ base fs tr).
Qed.

(** The initramfs is an archive with a first program, for which the kernel has room,
    and the empty string is where the linker put it. *)
Record has_program (x : machine) (cpio : Z * Z) (fs : list file) (tr : file) (src size : Z) : Prop := {
  hp_archive : archive_ok fs tr ∧ window (k_bytes (ks (core x))) cpio.1 (archive fs tr) ∧
    in_memory cpio.1 (length (archive fs tr)) ∧ cpio.1 + Z.of_nat (length (archive fs tr)) ≤ cpio.2;
  hp_names : Forall (λ f, Z.of_nat (length (f_name f)) < 2 ^ 32) fs;
  hp_file : file_at cpio.1 fs (chars first_program) = Some (src, size) ∧ size ≤ 0x40000;
  hp_apart : ∀ p, cpio.1 ≤ p < cpio.2 → ¬ alloc_node ly p;
  hp_memory : ram_mapped (k_bytes (ks (core x)));
  hp_string : load8 (k_bytes (ks (core x))) (empty_string_addr kl) = Ok 0 ∧ fixed_data cpio (u64 (empty_string_addr kl));
}.

(** The kernel after the boot can run the program. *)
Lemma booted_can_exec x cpio L g fs tr src f : booted cpio x L g → has_program x cpio fs tr src (Z.of_nat (length (f_data f))) →
  mem_bytes (k_bytes (ks (core x))) src (f_data f) →
  ∃ t0, can_exec kl (ks (core x)) L (g : kernel_ghost) [thread_at kl 0] [] 1 t0 src (f_data f) 1.
Proof using.
  intros [B1 B2 B3 B4 B5 B6 B7 B8 B9 B10 B11 B12] [(P1 & P1' & P1'' & P1''') P2 [P3 P3'] P4 P5 [P6 P7]] Hm.
  destruct B2 as [Q (Qc & Qt & Qn) Qi Qv Qs]. destruct (Qs 1) as (t0 & Ht0 & Hst & _); [unfold PID_MAX; lia|]. exists t0.
  destruct (B8 1) as [Hne Hfree]; [unfold PID_MAX; lia|].
  assert (Forall (λ f, file_ok f) fs) as Hok by (destruct P1 as [H _]; by eapply Forall_impl; [exact H|intros ? []]).
  destruct (file_at_range fs tr _ _ _ _ Hok P3) as (R1 & R2 & R3). destruct P1'' as (A1 & _ & A3).
  assert (rq (ks (core x)) ≠ timer_task_head (tm (ks (core x)))) as Hrt.
  { intros E. rewrite E in B6. apply NoDup_cons in B6 as [Hn _]. apply Hn. by left. }
  split.
  - destruct B4 as [T1 T2 T3 T4 T5]. split; [exact T1|exact T2|exact T3|exact T4|exact T5].
  - exact B9.
  - exact B10.
  - split; [exact (qu_ring _ _ _ Q)|]. split; [exact B11|exact Hrt].
  - intros p Hp. by apply (qu_threads _ _ _ Q).
  - split; [unfold takes_slot; rewrite Qn; reflexivity|]. rewrite Qn. split; [lia|]. split; [exact Hne|]. split; [exact Ht0|exact Hfree].
  - split; [split; [exact Hm|lia]|]. split; [exact P3'|]. intros j Hj. apply B12. split; [right; lia|apply P4; lia].
  - exact P5.
  - split; [exact P6|by apply B12].
Qed.

(** C1: The kernel boots into its first program. When, besides, the initramfs holds an
    archive with a file named "vm.img", [main] leaves the kernel as [setup] does and
    starts the first such file: it returns to user mode as thread 1, at the head of
    the run queue before the idle thread, with the contents of the file as its
    memory at address 0, its stack, an empty table, and a timer that will reschedule.
    The file may have 256 KiB ([has_program]); as for [setup_ok], the memory of the
    frame array must have zeros in its [val] fields. *)
Theorem main_ok raw garbage dtb x res_ cpio fs tr src size : (∀ i, val (raw i) = 0) →
  bootable (PHYS_TO_VIRT dtb) x res_ cpio → has_program x cpio fs tr src size →
  ∃ f x1 L1 g1 x' r L' g' t0 t, f ∈ fs ∧ f_name f = chars first_program ∧ setup kl ly raw dtb x = Ok x1 ∧ booted cpio x1 L1 g1 ∧
    main kl ly raw garbage dtb x = Ok (x', Some r) ∧
    executed kl (ks (core x1)) (ks (core x')) L' (g1 : kernel_ghost) (g' : kernel_ghost) [thread_at kl 0] [] (thread_at kl 1) t0 t (f_data f) r 1.
Proof using Hly.
  intros Hraw Hb Hp. destruct (setup_run raw dtb x res_ cpio Hraw Hb) as (x1 & L1 & g1 & E1 & HB & Ei & Ek).
  pose proof Hp as [(P1 & P1' & P1'' & P1''') P2 [P3 P3'] P4 P5 P6].
  destruct (file_at_data _ fs tr _ _ _ _ P1 (win_bytes _ _ _ P1') P3) as (f & Hin & Hname & -> & Hm).
  assert (has_program x1 cpio fs tr src (Z.of_nat (length (f_data f)))) as Hp1 by (split; rewrite ?Ek; done).
  rewrite <- Ek in Hm. destruct (booted_can_exec x1 cpio L1 g1 fs tr src f HB Hp1 Hm) as (t0 & HC).
  destruct (exec_thread_run kl garbage _ _ _ _ _ _ _ _ _ _ HC) as (r & k & L' & g' & t & E2 & HE).
  exists f, x1, L1, g1, (Machine (with_ks k (core x1)) (work x1) (dev x1) (initrd x1)), r, L', g', t0, t.
  split; [exact Hin|]. split; [exact Hname|]. split; [exact E1|]. split; [exact HB|]. split; [|exact HE].
  unfold main. res_apply E1. rewrite Ei. cbn [cpio_ramfs].
  rewrite (traverse_exec_run garbage cpio.1 (lit first_program) (chars first_program) (core x1) fs tr); [|done|by rewrite Ek|done| |done|done|].
  - rewrite P3. unfold cpio_exec. change ((core x1, None).1) with (core x1). res_step E2. reflexivity.
  - apply lit_cstring. repeat constructor; lia.
  - unfold mem_fuel. rewrite Ek. pose proof (win_size _ _ _ P1') as Hsz. unfold archive in Hsz.
    destruct P1 as [_ [Htr _]]. rewrite length_app, (entry_length tr Htr) in Hsz. unfold data_offset in Hsz.
    change (length (chars first_program)) with 6%nat. lia.
Qed.
End boot.

(** ** A boot *)

(** A kernel image of 25 MB, with room for the array of threads. *)
Definition layout_big : layout := {|
  kernel_start := VIRT_BASE + 0x80000; kernel_end := VIRT_BASE + 0x1800000; heap_start := VIRT_BASE + 0x1800000;
  free_list := VIRT_BASE + 0x17f0000; bin_list := VIRT_BASE + 0x17f1000;
|}.

Lemma layout_big_ok : layout_ok layout_big.
Proof. split; vm_compute; try done; by (split; intros ?) || (left; intros ?). Qed.

Definition threads_blank : gmap Z thread :=
  list_to_map ((λ i, (thread_at kl_exec i, thread_ex 0 0)) <$> seqZ 0 (PID_MAX + 1)).

Lemma threads_blank_lookup p t : threads_blank !! p = Some t ↔ t = thread_ex 0 0 ∧ ∃ i, 0 ≤ i ≤ PID_MAX ∧ p = thread_at kl_exec i.
Proof.
  unfold threads_blank. rewrite <- elem_of_list_to_map.
  - rewrite list_elem_of_fmap. setoid_rewrite elem_of_seqZ. split.
    + intros (i & [= -> ->] & Hi). split; [done|]. exists i. split; [lia|done].
    + intros (-> & i & Hi & ->). exists i. split; [done|lia].
  - rewrite <- list_fmap_compose. apply NoDup_fmap_2_strong; [|apply NoDup_seqZ].
    intros x y _ _. unfold compose, thread_at, sizeof_thread. cbn [fst]. lia.
Qed.

#[local] Opaque threads_blank tree_ex.

Definition machine_ex (m : bmem) : machine := Machine
  (Sys (K (TState (MState (heap_start layout_big) 0 ∅ (Lmem ∅ ∅) (LockSt 0 false)) 0 ∅ m (TimerHw 62500000 0 0 0 0)) ∅ ∅ threads_blank 0 0 0 (cxt_ex 0) 0)
    ∅ uart_reset (VCore [] [] [] []) ∅)
  (Evq 0 initial_priority ∅) (Mmio {[AUX_ENABLE := 0; GPFSEL1 := 0; IRQs1 := 0]} []) (Ramfs 0 0).

Definition ramfs_ex : Z * Z := (PHYS_TO_VIRT 0x8000000, PHYS_TO_VIRT 0x8001000).
Definition reserved_ex : Z * Z := (PHYS_TO_VIRT 0, u64 (PHYS_TO_VIRT 0 + 0x1000)).

Lemma tree_ex_reserves : dtb_reserves tree_ex tree_base 0 0x1000.
Proof.
  split; [by apply (tree_ex_bytes 0)|]. exists (be32 40), (be32 0 ++ be32 0), (be32 0 ++ be32 0x1000).
  split; [done|]. split; [done|]. split; [done|]. split; [by apply (tree_ex_bytes 16)|]. split; [done|]. split; [done|].
  split; [by apply (tree_ex_bytes 40)|done].
Qed.

(** The pages from 0x10000 on are free in the example. *)
Lemma boot_space_ex x : 0x10000 ≤ x < 0x20000 → Forall (λ r, ¬ in_range x r) (boot_ranges layout_big reserved_ex ramfs_ex (boot_top layout_big)).
Proof.
  intros Hx. assert (page_addr x = 0xffff000000000000 + 0x1000 * x) as Ex by exact eq_refl.
  unfold boot_ranges. repeat (apply Forall_cons_2; [unfold in_range; rewrite Ex; cbn [fst snd reserved_ex ramfs_ex];
    match goal with |- ¬ (page_down ?a ≤ _ < page_up ?b) =>
      let v := eval vm_compute in (page_down a) in let w := eval vm_compute in (page_up b) in
      change (page_down a) with v; change (page_up b) with w end; lia|]).
  by apply Forall_nil_2.
Qed.

Lemma tree_weaken m m' h off names items : m ⊆ m' → device_tree m h off names items → device_tree m' h off names items.
Proof. intros Hm []. by split; try (apply (mem_bytes_weaken m); done). Qed.

Lemma named_weaken m m' names name_of items : m ⊆ m' → Forall (named m names name_of) items → Forall (named m' names name_of) items.
Proof.
  intros Hm Hf. eapply Forall_impl; [exact Hf|]. intros [] H; try done. destruct H as [[H1 H2] H3]. split; [split; [by apply (bytes_at_weaken m)|done]|done].
Qed.

Lemma reserves_weaken m m' h a n : m ⊆ m' → dtb_reserves m h a n → dtb_reserves m' h a n.
Proof.
  intros Hm [H1 (ob & ab & zb & L1 & L2 & L3 & M1 & R1 & R2 & M2 & V)]. split; [by apply (mem_bytes_weaken m)|].
  exists ob, ab, zb. do 3 (split; [done|]). split; [by apply (mem_bytes_weaken m)|]. split; [done|]. split; [done|].
  split; [by apply (mem_bytes_weaken m)|done].
Qed.

Lemma machine_ex_bootable m : tree_ex ⊆ m → bootable kl_exec layout_big (PHYS_TO_VIRT 0x8200000) (machine_ex m) reserved_ex ramfs_ex.
Proof.
  intros Hm. split.
  - split; reflexivity.
  - exists 0, 0, 0. done.
  - exists 56, (56 + Z.of_nat (length (struct_bytes items_ex))), items_ex, name_ex. split; [exact (tree_weaken _ _ _ _ _ _ Hm tree_ex_ok)|]. split; [exact (named_weaken _ _ _ _ _ Hm tree_ex_named)|reflexivity].
  - exists 0, 0x1000. split; [exact (reserves_weaken _ _ _ _ _ Hm tree_ex_reserves)|reflexivity].
  - split; vm_compute; repeat split; discriminate.
  - split; [repeat (apply Forall_cons_2; [vm_compute; reflexivity|]); by apply Forall_nil_2|].
    exists ((λ j, 0x10000 + 64 * j) <$> seqZ 0 17). split; [done|]. split.
    + apply NoDup_fmap_2; [intros x y; lia|apply NoDup_seqZ].
    + apply Forall_forall. intros x (j & -> & Hj)%list_elem_of_fmap. apply elem_of_seqZ in Hj. split.
      * split; [unfold FRAMES_COUNT; lia|]. rewrite <- Z.add_mod_idemp_l by lia. rewrite Z.mul_comm, Z.mod_add by lia. done.
      * intros x Hx. apply boot_space_ex. lia.
  - split.
    + intros p t Ht. change (threads_blank !! p = Some t) in Ht. apply threads_blank_lookup in Ht as (-> & i & Hi & ->). exists i. split; [done|]. split; [done|]. split; [done|]. split; [done|].
      repeat constructor; done.
    + intros i Hi. exists (thread_ex 0 0). change (threads_blank !! thread_at kl_exec i = Some (thread_ex 0 0)). apply threads_blank_lookup. split; [done|]. by exists i.
  - intros i Hi. unfold PID_MAX in Hi. assert (∀ p, VIRT_BASE + 0x90000 ≤ p < VIRT_BASE + 0x17f0000 → fixed_data layout_big ramfs_ex p) as Him.
    { intros p Hp. split; [left; unfold layout_big; cbn [kernel_start kernel_end]; lia|].
      intros [(v & Hv & ->)|[(v & Hv & ->)|(v & Hv & ->)]]; revert Hp; unfold free_head, bin_head, faddr, layout_big,
        sizeof_list_head, sizeof_frame, VIRT_BASE, MAXORDER, MAXBINORDER in *; cbn [free_list bin_list heap_start]; lia. }
    unfold thread_at, sizeof_thread, vma_list, kl_exec. cbn [threads_base]. split; [unfold VIRT_BASE; lia|]. split; apply Him; lia.
Qed.

Lemma setup_ok_witness : ∃ x', setup kl_exec layout_big (λ _, Frame 0 0 0 0) 0x8200000 (machine_ex tree_ex) = Ok x' ∧ initrd x' = Ramfs (PHYS_TO_VIRT 0x8000000) (PHYS_TO_VIRT 0x8001000).
Proof.
  destruct (setup_ok kl_exec layout_big layout_big_ok (λ _, Frame 0 0 0 0) 0x8200000 (machine_ex tree_ex) reserved_ex ramfs_ex) as (x' & _ & _ & E & _ & Er & _).
  - intros i. reflexivity.
  - exact (machine_ex_bootable tree_ex (reflexivity tree_ex)).
  - exists x'. split; [exact E|exact Er].
Defined.

(** An archive with a first program of four bytes. *)
Definition vm_img : file := File (repeat 0x30 48) (repeat 0x30 7 ++ [0x34]) (repeat 0x30 32)
  (repeat 0x30 7 ++ [0x37]) (repeat 0x30 8) (chars first_program) [0x00; 0x00; 0x00; 0x14].
Definition initrd_ex : list Z := archive [vm_img] trailer_ex.
Definition initrd_mem : bmem := bytes_mem ramfs_ex.1 initrd_ex.

Lemma initrd_ok : archive_ok [vm_img] trailer_ex.
Proof.
  split; [|exact (ar_trailer _ _ archive_ex_ok)]. constructor; [|constructor]. split; [|discriminate].
  split; try done. repeat constructor; lia.
Qed.

Lemma initrd_window : window initrd_mem ramfs_ex.1 initrd_ex.
Proof.
  apply bytes_mem_window; [done|vm_compute; discriminate|]. apply Forall_forall. intros x Hx.
  assert (forallb (λ b, (0 <=? b) && (b <? 256)) initrd_ex = true) as Hb by (vm_compute; reflexivity).
  rewrite forallb_forall in Hb. apply list_elem_of_In, Hb in Hx. lia.
Qed.

#[local] Opaque initrd_mem.

(** The memory of the example: the device tree, the archive and zeros. *)
Lemma memory_ex : ∃ m, tree_ex ⊆ m ∧ initrd_mem ⊆ m ∧ ram_mapped m ∧ m !! (VIRT_BASE + 0x80100) = Some 0.
Proof.
  destruct (ram_fill (tree_ex ∪ initrd_mem)) as (m & HM & Hsub & Hz).
  - apply map_Forall_to_list. apply Forall_forall. intros x Hx.
    assert (forallb (λ p, (0 <=? p.2) && (p.2 <? 256)) (map_to_list (tree_ex ∪ initrd_mem)) = true) as Hb by (vm_compute; reflexivity).
    rewrite forallb_forall in Hb. apply list_elem_of_In, Hb in Hx. destruct x as [a b]. cbn in *. lia.
  - exists m. split; [|split; [|split; [done|]]].
    + etransitivity; [apply map_union_subseteq_l|done].
    + etransitivity; [apply map_union_subseteq_r|done]. apply map_disjoint_dom.
      assert (bool_decide (dom tree_ex ∩ dom initrd_mem = ∅) = true) as H by (vm_compute; reflexivity).
      apply bool_decide_eq_true in H. exact (proj2 (disjoint_intersection_L _ _) H).
    + apply Hz; [unfold FRAMES_COUNT; lia|vm_compute; reflexivity].
Qed.

Lemma program_ex m : initrd_mem ⊆ m → ram_mapped m → m !! (VIRT_BASE + 0x80100) = Some 0 →
  has_program kl_exec layout_big (machine_ex m) ramfs_ex [vm_img] trailer_ex 0xffff000008000078 4.
Proof.
  intros Hi HM H0. split.
  - split; [exact initrd_ok|]. split; [exact (window_weaken _ _ _ _ Hi initrd_window)|].
    split; [split; [done|split; [reflexivity|vm_compute; discriminate]]|vm_compute; discriminate].
  - repeat constructor.
  - split; [vm_compute; reflexivity|lia].
  - intros p Hp. cbn [ramfs_ex fst snd] in Hp. change (PHYS_TO_VIRT 0x8000000) with 0xffff000008000000 in Hp. change (PHYS_TO_VIRT 0x8001000) with 0xffff000008001000 in Hp.
    intros [(v & Hv & ->)|[(v & Hv & ->)|(v & Hv & ->)]]; revert Hp; unfold free_head, bin_head, faddr, layout_big,
      sizeof_list_head, sizeof_frame, VIRT_BASE, MAXORDER, MAXBINORDER, FRAMES_COUNT in *; cbn [free_list bin_list heap_start]; lia.
  - exact HM.
  - split; [change (load8 m (VIRT_BASE + 0x80100) = Ok 0); unfold load8; rewrite u64_small by (unfold VIRT_BASE; lia); by rewrite H0|].
    change (fixed_data layout_big ramfs_ex (u64 (VIRT_BASE + 0x80100))). rewrite u64_small by (unfold VIRT_BASE; lia). split.
    + left. unfold layout_big. cbn [kernel_start kernel_end]. lia.
    + intros [(v & Hv & Hx)|[(v & Hv & Hx)|(v & Hv & Hx)]]; revert Hx; unfold free_head, bin_head, faddr, layout_big,
        sizeof_list_head, sizeof_frame, VIRT_BASE, MAXORDER, MAXBINORDER in *; cbn [free_list bin_list heap_start]; lia.
Qed.

Lemma main_ok_witness : ∃ m x' r, main kl_exec layout_big (λ _, Frame 0 0 0 0) (λ _, 0) 0x8200000 (machine_ex m) = Ok (x', Some r) ∧
  r_elr r = 0 ∧ curr_thread (ks (core x')) = thread_at kl_exec 1.
Proof.
  destruct memory_ex as (m & Ht & Hi & HM & H0).
  destruct (main_ok kl_exec layout_big layout_big_ok (λ _, Frame 0 0 0 0) (λ _, 0) 0x8200000 (machine_ex m) reserved_ex ramfs_ex
    [vm_img] trailer_ex 0xffff000008000078 4) as (f & x1 & L1 & g1 & x' & r & L' & g' & t0 & t & _ & _ & _ & _ & E & HE).
  - intros i. reflexivity.
  - exact (machine_ex_bootable m Ht).
  - exact (program_ex m Hi HM H0).
  - exists m, x', r. split; [exact E|]. destruct HE as [_ (Hc & _) _ _ _ _ _ _ Hr _ _ _ _]. split; [by rewrite Hr|exact Hc].
Defined.
